(* ===== verification/_CoqProject ===== *)
-Q . S2P
Prelude.v
Ids.v
Slots.v
Features.v
Codec.v
Control.v
Topology.v
SectionLayout.v
SectionLayoutSpec.v
SectionImage.v
Ring.v
RingMpsc.v
Messages.v
ReqTab.v
ReqTabInv.v
ReqTabSpec.v
