(* ===== verification/Prelude.v ===== *)
(** * A verification of the FSRING shared-memory file-system protocol

    FSRING connects a Windows file-system driver with a user-mode file-system
    service through one shared memory section. The ABI crate (src/fsring-abi)
    defines the section, its rings, its slots and every check either side makes
    on what the other wrote; the driver core (src/driver/fsring-core) keeps the
    tables that own pending requests; the driver shell, the user library and the
    mirror file system call into them.

    ** How a session works, and what models it

    - The service sends a SETUP blob. validate/session.rs decodes it, checks its
      revision, negotiates features (features.rs) and validates the requested
      topology. Modelled in [Features] and [Topology], on top of the byte codec
      of codec.rs ([Codec]) and the versioned-blob checks of validate/control.rs
      ([Control]).
    - From the accepted request section_layout.rs plans the section, the kernel
      writes it and either side validates the bytes. [SectionLayout] holds the
      definitions, [SectionLayoutSpec] the closed form and the geometry of the
      plan, [SectionImage] the bytes.
    - Requests travel through the submission ring (many kernel producers, one
      service consumer) and completions through the completion ring (one
      producer, one consumer): ring.rs. [Ring] models the cursors, the
      single-producer ring and the sole consumer with its deferred pops;
      [RingMpsc] models the multi-producer push and the consumer's park protocol
      as a step relation over single memory accesses.
    - Bulk data travels in slots of two arenas: slots.rs with the packed
      references of layout.rs. [Slots] models arena validation, slot tokens and
      their resolution, grants, and the check of a peer's buffer reference
      against a grant. [Ids] holds request ids, slot references, the limits, the
      partition of request indices and file ranges.
    - The driver records every request in driver/fsring-core/src/reqtab.rs, with
      the completion capabilities of typestate.rs: admission, publication,
      capture of the service's reply, retention, quarantine, terminalization,
      reclaim, fencing, session rebind and drain. [ReqTab] models the whole
      table, one definition per operation; [ReqTabInv] its invariant;
      [ReqTabSpec] its theorems. [Messages] holds the one piece of
      validate/messages.rs the table uses.

    ** Conventions

    Integers are [Z] with their width written out: checked operations return
    [option], and every place where the source can wrap or fail says so. Fallible
    code returns [result] ([Ok]/[Err] with the source's error constructors,
    renamed only where two enums share a name), and the notation [let?] is the
    source's question mark. Mutable state is passed explicitly; loops are
    fixpoints over the list they traverse, with the loop's locals as a record.
    Code that iterates until a condition is a fixpoint with fuel, and the fuel is
    proved enough: the ring iterator of a section needs [ring_count] steps
    ([SectionLayoutSpec.rings_eq]), a multi-producer push at most 1284 memory
    accesses ([RingMpsc.mpsc_try_push_wait_free]), draining a table of [n] slots
    at most [n + 1] calls ([ReqTabSpec.drain_applications_complete]).

    Interfaces: [Codec.Pod] states what a wire struct promises to the codec (a
    size, a representation that values survive, a meaning for every byte
    pattern), instances are built field by field, and the codec's clients use
    only its laws. [Topology.setup_ok] is what an accepted SETUP promises to the
    section planner. [Slots.packed] is what the planner's arenas and the arena
    validator agree on.

    ** What the theorems show

    - Request table: no request id is issued or captured twice, completion owners
      are never lost or duplicated, dead keys stay dead, and the table stays well
      formed over every sequence of operations with any arguments; admission,
      rebind and drain are characterised exactly.
    - Rings: any interleaving of producers with an honest consumer delivers each
      value once in reservation order; a parked consumer over a published entry
      is owed a wake; pushes are wait-free; a hostile peer cannot move a cursor
      out of range. Against a hostile consumer a reservation is not exclusive,
      and that is proved too.
    - Slots: accepted buffer references stay inside the grant they were issued
      against; a token resolves to exactly the slot of the class and index it
      names, so tokens that differ in either resolve to disjoint ranges; arenas
      are accepted only when exactly packed.
    - Setup and section: SETUP bytes, topologies and feature requests are
      accepted exactly when they meet a stated specification; planning refuses
      exactly the bad page sizes and the sections whose size, computed from the
      request, is above the limit; a plan places everything without overlap and
      with room for every entry and slot asked for, and its bytes validate back;
      the validator accepts exactly what the constructor writes and never slices
      out of range on any input.
    - Codec and blobs: encode/decode round trips, bounded self-describing
      prefixes, exact blob slices, tails accepted exactly when their segments
      tile them.

    ** What is not modelled, and why

    Memory accesses of the rings are sequentially consistent; the orderings of
    the source's atomics are not. The compare-exchange loop that allocates the
    id of a request table is one step. [usize] has 64 bits, as on every
    supported target. Kernel bindings, the unsafe driver shell, the Win32 parts
    of the user library and the mirror file system are foreign calls and I/O.
    Fuzzers, tests and scripts do not run in the product. Still to be modelled,
    in this order: the remaining session validators (session results, ATTACH,
    ENTER, DETACH, donation, retirement), the message validators, the grant
    table, the driver cores built on the tables (session, enter, terminal,
    effect, volume, size, paging ledger, lock ranks), the durable formats, and
    the user library's own state.

    This file holds what the others share: results, checked machine arithmetic,
    the tactics that follow the control flow of the code, and lemmas on
    alignment and bit fields. *)

From Stdlib Require Export ZArith Lia.
From stdpp Require Export base list numbers option tactics.

Declare Scope fsr_scope.
Delimit Scope fsr_scope with fsr.
#[global] Open Scope Z_scope.
#[global] Open Scope fsr_scope.

(** ** Fallible code *)

(** Rust's [Result<A, E>]. *)
Inductive result (E A : Type) : Type :=
| Ok (a : A)
| Err (e : E).
Arguments Ok {E A} a.
Arguments Err {E A} e.

#[export] Instance Ok_inj {E A} : Inj (=) (=) (@Ok E A).
Proof. by intros ?? [= ->]. Qed.
#[export] Instance Err_inj {E A} : Inj (=) (=) (@Err E A).
Proof. by intros ?? [= ->]. Qed.

(** The [?] operator: propagate the error, bind the value. *)
Notation "'let?' x ':=' m 'in' k" :=
  (match m with Ok x => k | Err e => Err e end)
  (at level 10, x binder, m at level 100, k at level 200) : fsr_scope.

(** [Option::ok_or]. *)
Definition ok_or {E A} (o : option A) (e : E) : result E A :=
  match o with Some a => Ok a | None => Err e end.

(** [Result::map_err]. *)
Definition map_err {E F A} (f : E -> F) (r : result E A) : result F A :=
  match r with Ok a => Ok a | Err e => Err (f e) end.

(** [Result::is_ok]. *)
Definition is_ok {E A} (r : result E A) : bool :=
  match r with Ok _ => true | Err _ => false end.

(** ** Machine integers

    A [w]-bit unsigned integer is a [Z] in range; the range is a predicate and
    every arithmetic operation of the source that can leave it is written with
    the checked form the source uses. *)

Definition u8_max : Z := 255.
Definition u16_max : Z := 65535.
Definition u32_max : Z := 4294967295.
Definition u64_max : Z := 18446744073709551615.

Definition is_u8 (x : Z) : Prop := 0 <= x <= u8_max.
Definition is_u16 (x : Z) : Prop := 0 <= x <= u16_max.
Definition is_u32 (x : Z) : Prop := 0 <= x <= u32_max.
Definition is_u64 (x : Z) : Prop := 0 <= x <= u64_max.

(** [checked_add], [checked_sub], [checked_mul] at the width whose maximum is
    [max]. *)
Definition checked_add (max a b : Z) : option Z :=
  if a + b <=? max then Some (a + b) else None.
Definition checked_sub (a b : Z) : option Z :=
  if b <=? a then Some (a - b) else None.
Definition checked_mul (max a b : Z) : option Z :=
  if a * b <=? max then Some (a * b) else None.

Definition saturating_add (max a b : Z) : Z := Z.min max (a + b).
Definition saturating_sub (a b : Z) : Z := Z.max 0 (a - b).

(** Bitwise complement at the width whose maximum is [max]. *)
Definition bit_not (max a : Z) : Z := max - a.

(** [is_power_of_two]. *)
Definition is_power_of_two (x : Z) : bool := (0 <? x) && (2 ^ Z.log2 x =? x).

Arguments ok_or {E A} !o e /.
Arguments map_err {E F A} f !r /.
Arguments checked_add : simpl never.
Arguments checked_sub : simpl never.
Arguments checked_mul : simpl never.
Arguments bit_not : simpl never.
Arguments is_power_of_two : simpl never.

(** ** Automation *)

Create HintDb fsr.

(** [break_in H]: split [H] along the control flow of the code it mentions,
    discarding the branches that contradict its result. *)
Ltac break_step H :=
  match type of H with
  | context [match ?x with _ => _ end] =>
      lazymatch x with
      | context [match _ with _ => _ end] => fail
      | _ => destruct x eqn:?; try discriminate H
      end
  end.
Ltac break_in H := repeat (cbn beta iota in H; break_step H).

(** [inv_ok H]: the facts established on the successful path of [H]. *)
Ltac inv_ok H := break_in H; simplify_eq/=.

(** Split the control flow of the goal. *)
Ltac break_goal :=
  repeat match goal with
  | |- context [match ?x with _ => _ end] =>
      lazymatch x with
      | context [match _ with _ => _ end] => fail
      | _ => destruct x eqn:?; try done
      end
  end.

(** Boolean guards of the source as propositions. *)
Ltac bool_step :=
  match goal with
  | H : negb _ = true |- _ => apply negb_true_iff in H
  | H : negb _ = false |- _ => apply negb_false_iff in H
  | H : _ && _ = true |- _ => apply andb_true_iff in H as [? ?]
  | H : _ || _ = false |- _ => apply orb_false_iff in H as [? ?]
  | H : bool_decide _ = true |- _ => apply bool_decide_eq_true_1 in H
  | H : bool_decide _ = false |- _ => apply bool_decide_eq_false_1 in H
  | H : (_ =? _) = true |- _ => apply Z.eqb_eq in H
  | H : (_ =? _) = false |- _ => apply Z.eqb_neq in H
  | H : (_ <=? _) = true |- _ => apply Z.leb_le in H
  | H : (_ <=? _) = false |- _ => apply Z.leb_gt in H
  | H : (_ <? _) = true |- _ => apply Z.ltb_lt in H
  | H : (_ <? _) = false |- _ => apply Z.ltb_ge in H
  end.
Ltac bools := repeat bool_step.

(** Close an equivalence that holds by splitting the guards of the goal. *)
Ltac by_cases :=
  repeat case_match; bools; split; intros ?; destruct_and?; simplify_eq;
  first [done | lia | split; lia].

(** ** Lemmas on machine integers *)

Lemma ok_or_Ok {E A} (o : option A) (e : E) a : ok_or o e = Ok a <-> o = Some a.
Proof. destruct o; simpl; naive_solver. Qed.

Lemma ok_or_Err {E A} (o : option A) (e e' : E) : ok_or o e = Err e' -> o = None /\ e' = e.
Proof. destruct o; simpl; naive_solver. Qed.

Lemma map_err_Ok {E F A} (f : E -> F) (r : result E A) a : map_err f r = Ok a <-> r = Ok a.
Proof. destruct r; simpl; naive_solver. Qed.

Lemma checked_add_Some max a b c :
  checked_add max a b = Some c <-> c = a + b /\ a + b <= max.
Proof. unfold checked_add. by_cases. Qed.

Lemma checked_add_None max a b : checked_add max a b = None <-> max < a + b.
Proof. unfold checked_add. by_cases. Qed.

Lemma checked_sub_Some a b c : checked_sub a b = Some c <-> c = a - b /\ b <= a.
Proof. unfold checked_sub. by_cases. Qed.

Lemma checked_sub_None a b : checked_sub a b = None <-> a < b.
Proof. unfold checked_sub. by_cases. Qed.

Lemma checked_mul_Some max a b c :
  checked_mul max a b = Some c <-> c = a * b /\ a * b <= max.
Proof. unfold checked_mul. by_cases. Qed.

Lemma checked_mul_None max a b : checked_mul max a b = None <-> max < a * b.
Proof. unfold checked_mul. by_cases. Qed.

(** Turn every successful checked operation in the context into its value and
    its bound. *)
Ltac checked_step :=
  match goal with
  | H : ok_or _ _ = Ok _ |- _ => apply ok_or_Ok in H
  | H : ok_or _ _ = Err _ |- _ => apply ok_or_Err in H as [? ?]
  | H : map_err _ _ = Ok _ |- _ => apply map_err_Ok in H
  | H : checked_add _ _ _ = Some _ |- _ => apply checked_add_Some in H as [? ?]
  | H : checked_add _ _ _ = None |- _ => apply checked_add_None in H
  | H : checked_sub _ _ = Some _ |- _ => apply checked_sub_Some in H as [? ?]
  | H : checked_sub _ _ = None |- _ => apply checked_sub_None in H
  | H : checked_mul _ _ _ = Some _ |- _ => apply checked_mul_Some in H as [? ?]
  | H : checked_mul _ _ _ = None |- _ => apply checked_mul_None in H
  end.
Ltac checked := repeat checked_step; bools; simplify_eq.

(** ** Powers of two and alignment *)

Lemma is_power_of_two_spec x :
  is_power_of_two x = true <-> exists k, 0 <= k /\ x = 2 ^ k.
Proof.
  unfold is_power_of_two. split.
  - intros H. bools. exists (Z.log2 x). split; [apply Z.log2_nonneg | lia].
  - intros (k & Hk & ->). rewrite Z.log2_pow2 by done.
    rewrite Z.eqb_refl, andb_true_r. apply Z.ltb_lt. lia.
Qed.

Lemma is_power_of_two_pos x : is_power_of_two x = true -> 0 < x.
Proof. unfold is_power_of_two. intros ?. bools. lia. Qed.

(** A power of two at least [2^n] is a multiple of [2^n]. *)
Lemma power_of_two_divide n x :
  0 <= n -> is_power_of_two x = true -> 2 ^ n <= x -> (2 ^ n | x).
Proof.
  intros Hn (k & Hk & ->)%is_power_of_two_spec Hle.
  apply Z.pow_le_mono_r_iff in Hle; [| lia | done].
  exists (2 ^ (k - n)). rewrite <- Z.pow_add_r by lia. f_equal. lia.
Qed.

(** Masking with the complement of [2^k - 1] rounds down to a multiple of
    [2^k]. *)
Lemma land_bit_not_mask k v w :
  0 <= k <= w -> 0 <= v <= 2 ^ w - 1 ->
  Z.land v (bit_not (2 ^ w - 1) (2 ^ k - 1)) = v - v mod 2 ^ k.
Proof.
  intros Hk Hv. unfold bit_not.
  assert (Hle : 2 ^ k <= 2 ^ w) by (apply Z.pow_le_mono_r; lia).
  assert (Hsplit : 2 ^ w = 2 ^ (w - k) * 2 ^ k)
    by (rewrite <- Z.pow_add_r by lia; f_equal; lia).
  replace (2 ^ w - 1 - (2 ^ k - 1)) with (Z.shiftl (Z.ones (w - k)) k).
  2:{ rewrite Z.shiftl_mul_pow2, Z.ones_equiv by lia. nia. }
  rewrite <- Z.land_ones by lia.
  replace (v - Z.land v (Z.ones k)) with (Z.ldiff v (Z.ones k)).
  2:{ rewrite Z.ldiff_ones_r, Z.land_ones, Z.shiftl_mul_pow2, Z.shiftr_div_pow2 by lia.
      pose proof (Z.div_mod v (2 ^ k) ltac:(lia)). lia. }
  apply Z.bits_inj'. intros i Hi.
  rewrite Z.land_spec, Z.ldiff_spec.
  destruct (Z.ltb_spec i k).
  - rewrite Z.shiftl_spec_low, Z.ones_spec_low by lia. by rewrite !andb_false_r.
  - rewrite Z.shiftl_spec by lia. rewrite (Z.ones_spec_high k i) by lia.
    destruct (Z.ltb_spec i w).
    + rewrite Z.ones_spec_low by lia. done.
    + assert (Z.testbit v i = false) as ->; [| done].
      rewrite <- (Z.mod_small v (2 ^ w)) by lia.
      apply Z.mod_pow2_bits_high. lia.
Qed.

(** [pos & (capacity - 1)] is [pos mod capacity] for a power-of-two capacity. *)
Lemma land_mask_mod x c :
  is_power_of_two c = true -> Z.land x (c - 1) = x mod c.
Proof.
  intros (k & Hk & ->)%is_power_of_two_spec.
  replace (2 ^ k - 1) with (Z.ones k) by (rewrite Z.ones_equiv; lia).
  by apply Z.land_ones.
Qed.

(** The source's [checked_align_up] (slots.rs and section_layout.rs carry the
    same function). *)
Definition checked_align_up (value alignment : Z) : option Z :=
  match checked_sub alignment 1 with
  | None => None
  | Some mask =>
      match checked_add u64_max value mask with
      | None => None
      | Some with_mask => Some (Z.land with_mask (bit_not u64_max mask))
      end
  end.

Arguments checked_align_up : simpl never.

(** What aligning up means: the least multiple of the alignment that is not
    below the value. *)
Definition aligned_up (value alignment result : Z) : Prop :=
  (alignment | result) /\ value <= result < value + alignment.

Lemma aligned_up_unique v a r1 r2 :
  0 < a -> aligned_up v a r1 -> aligned_up v a r2 -> r1 = r2.
Proof. intros ? [[q1 ->] ?] [[q2 ->] ?]. assert (q1 = q2) by nia. by subst. Qed.

Lemma aligned_up_id v a : 0 < a -> (a | v) -> aligned_up v a v.
Proof. intros. split; [done | lia]. Qed.

Lemma checked_align_up_spec v a r :
  0 <= v <= u64_max -> is_power_of_two a = true -> a <= u64_max + 1 ->
  checked_align_up v a = Some r <-> aligned_up v a r /\ v + (a - 1) <= u64_max.
Proof.
  intros Hv Ha Hmax. pose proof (is_power_of_two_pos _ Ha) as Hpos.
  apply is_power_of_two_spec in Ha as (k & Hk & ->).
  assert (Hk64 : k <= 64).
  { change (u64_max + 1) with (2 ^ 64) in Hmax. apply Z.pow_le_mono_r_iff in Hmax; lia. }
  unfold checked_align_up, checked_sub, checked_add.
  rewrite (proj2 (Z.leb_le 1 (2 ^ k))) by lia.
  destruct (Z.leb_spec (v + (2 ^ k - 1)) u64_max) as [Hb | Hb]; [| split; [done | lia]].
  change u64_max with (2 ^ 64 - 1) in Hv, Hb |- *.
  rewrite land_bit_not_mask by lia.
  set (x := v + (2 ^ k - 1)).
  assert (aligned_up v (2 ^ k) (x - x mod 2 ^ k)) as Hal.
  { pose proof (Z.mod_pos_bound x (2 ^ k) ltac:(lia)). split; [| unfold x in *; lia].
    exists (x / 2 ^ k). pose proof (Z.div_mod x (2 ^ k) ltac:(lia)). lia. }
  split.
  - intros [= <-]. split; [done | lia].
  - intros [Hr _]. f_equal. by eapply aligned_up_unique.
Qed.

(** ** Bit fields

    Packing with shifts and ors is addition of disjoint fields; unpacking with
    shifts and masks is division and remainder. *)

Lemma lor_shiftl_add lo hi k :
  0 <= k -> 0 <= lo < 2 ^ k -> 0 <= hi -> Z.lor lo (Z.shiftl hi k) = lo + hi * 2 ^ k.
Proof.
  intros Hk Hlo Hhi. rewrite <- Z.shiftl_mul_pow2 by done.
  symmetry. rewrite Z.add_nocarry_lxor.
  - apply Z.bits_inj'. intros i Hi. rewrite Z.lxor_spec, Z.lor_spec.
    destruct (Z.ltb_spec i k).
    + rewrite (Z.shiftl_spec_low hi k i) by lia. by rewrite xorb_false_r, orb_false_r.
    + rewrite <- (Z.mod_small lo (2 ^ k)) by lia.
      rewrite Z.mod_pow2_bits_high by lia. by rewrite xorb_false_l.
  - apply Z.bits_inj'. intros i Hi. rewrite Z.land_spec, Z.bits_0.
    destruct (Z.ltb_spec i k).
    + rewrite (Z.shiftl_spec_low hi k i) by lia. by rewrite andb_false_r.
    + rewrite <- (Z.mod_small lo (2 ^ k)) by lia. by rewrite Z.mod_pow2_bits_high by lia.
Qed.
