(* ===== verification/Ids.v ===== *)
(** * Identifiers and scalar bounds

    fsring-abi/src/ids.rs ([ReqId]), fsring-abi/src/layout.rs ([SlotRef]) and
    fsring-abi/src/limits.rs (file ranges, the partition of the 24-bit request
    index space, [FILE_NOTIFY_INFORMATION] sizing). *)

From S2P Require Import Prelude.

(** ** ReqId: [generation:40 | slot_index:24] *)

Definition REQ_INDEX_BITS : Z := 24.
Definition REQ_GENERATION_BITS : Z := 40.
Definition REQ_INDEX_MAX : Z := Z.shiftl 1 REQ_INDEX_BITS - 1.
Definition REQ_GENERATION_MAX : Z := Z.shiftl 1 REQ_GENERATION_BITS - 1.

Inductive IdError : Type :=
| GenerationOutOfRange
| SlotOutOfRange.

(** A request id is the raw 64-bit word. *)
Definition ReqId : Type := Z.

Definition ReqId_try_new (generation slot_index : Z) : result IdError ReqId :=
  if REQ_GENERATION_MAX <? generation then Err GenerationOutOfRange
  else if REQ_INDEX_MAX <? slot_index then Err SlotOutOfRange
  else Ok (Z.lor (Z.shiftl generation REQ_INDEX_BITS) slot_index).

Definition ReqId_from_raw (raw : Z) : ReqId := raw.
Definition ReqId_raw (id : ReqId) : Z := id.
Definition ReqId_generation (id : ReqId) : Z := Z.shiftr id REQ_INDEX_BITS.
Definition ReqId_slot_index (id : ReqId) : Z := Z.land id REQ_INDEX_MAX.

(** ** SlotRef: [class:2 | index:20 | offset:21 | len:21] *)

Definition SLOT_INDEX_MAX : Z := Z.shiftl 1 20 - 1.
Definition SLOT_OFFSET_MAX : Z := Z.shiftl 1 21 - 1.
Definition SLOT_LENGTH_MAX : Z := Z.shiftl 1 21 - 1.

Inductive SlotRefError : Type :=
| RefClassOutOfRange
| RefIndexOutOfRange
| RefOffsetOutOfRange
| RefLengthOutOfRange.

Definition SlotRef : Type := Z.

Definition SlotRef_try_new (class index offset len : Z) : result SlotRefError SlotRef :=
  if 4 <=? class then Err RefClassOutOfRange
  else if SLOT_INDEX_MAX <? index then Err RefIndexOutOfRange
  else if SLOT_OFFSET_MAX <? offset then Err RefOffsetOutOfRange
  else if SLOT_LENGTH_MAX <? len then Err RefLengthOutOfRange
  else Ok (Z.lor (Z.lor (Z.lor class (Z.shiftl index 2)) (Z.shiftl offset 22))
                 (Z.shiftl len 43)).

Definition SlotRef_class (r : SlotRef) : Z := Z.land r 3.
Definition SlotRef_index (r : SlotRef) : Z := Z.land (Z.shiftr r 2) SLOT_INDEX_MAX.
Definition SlotRef_offset (r : SlotRef) : Z := Z.land (Z.shiftr r 22) SLOT_OFFSET_MAX.
Definition SlotRef_len (r : SlotRef) : Z := Z.land (Z.shiftr r 43) SLOT_LENGTH_MAX.
Definition SlotRef_is_empty (r : SlotRef) : bool := SlotRef_len r =? 0.

(** ** Scalar limits *)

Definition SLOT_ALIGNMENT : Z := 64.
Definition USER_VIEW_OFFSET_ALIGNMENT : Z := 65536.
Definition MIN_SLOT_SIZE : Z := 256.
Definition MAX_SLOT_SIZE : Z := 16 * 1024 * 1024.
Definition MIN_SLOT_COUNT : Z := 1.
Definition MAX_SLOT_COUNT : Z := Z.shiftl 1 20.
Definition MIN_RING_COUNT : Z := 1.
Definition MAX_RING_COUNT : Z := 64.
Definition MIN_SQ_CAPACITY : Z := 8.
Definition MIN_CQ_CAPACITY : Z := 2.
Definition MAX_SQ_CAPACITY : Z := 65536.
Definition MAX_CQ_CAPACITY : Z := 65536.
Definition MAX_INFLIGHT : Z := 16777023.
Definition SYSTEM_REQUEST_SLOTS_PER_RING : Z := 3.
Definition SYSTEM_REQID_BASE : Z := 16777023.
Definition GLOBAL_EXTERNAL_CHANGE_ACK_REQID : Z := 16777215.
Definition MIN_NOTIFICATION_CREDIT_SIZE : Z := 2048.
Definition MAX_NOTIFICATION_CREDIT_SIZE : Z := 65536.
Definition MAX_NOTIFICATION_CREDITS_PER_RING : Z := 64.
Definition MAX_NOTIFICATION_CREDITS_PER_SESSION : Z := 1024.
Definition MAX_NOTIFICATION_CREDIT_BYTES : Z := 16 * 1024 * 1024.
Definition MIN_CONTROL_SLOT_SIZE : Z := 131072.
Definition MIN_K2U_PROGRESS_SLOTS_PER_RING : Z := 4.
Definition MIN_U2K_PROGRESS_SLOTS_PER_RING : Z := 2.
Definition MAX_ENTER_CQ_BUDGET : Z := 4096.
Definition MAX_SECTION_BYTES : Z := 1073741824.

(** ** File ranges *)

Definition MAX_FILE_SIZE : Z := 9223372036854775807.

Inductive RangeError : Type :=
| ZeroLength
| WholeStreamOffsetNonZero
| OffsetOutOfRange
| LengthOutOfRange
| RangeOverflow
| EndOutOfRange.

Definition validate_file_range (offset length : Z) (zero_means_whole : bool)
    : result RangeError unit :=
  if length =? 0 then
    if negb zero_means_whole then Err ZeroLength
    else if offset =? 0 then Ok tt else Err WholeStreamOffsetNonZero
  else if MAX_FILE_SIZE <=? offset then Err OffsetOutOfRange
  else if MAX_FILE_SIZE <? length then Err LengthOutOfRange
  else
    match checked_add u64_max offset length with
    | None => Err RangeOverflow
    | Some e => if MAX_FILE_SIZE <? e then Err EndOutOfRange else Ok tt
    end.

(** ** Sizing of one [FILE_NOTIFY_INFORMATION] record *)

Definition FIXED_PREFIX_BYTES : Z := 12.

Definition file_notify_information_entry_len (file_name_length : Z) : option Z :=
  match checked_add u32_max file_name_length FIXED_PREFIX_BYTES with
  | Some unaligned =>
      match checked_add u32_max unaligned 3 with
      | Some padded => Some (Z.land padded (bit_not u32_max 3))
      | None => None
      end
  | None => None
  end.

(** ** The request-index partition *)

Inductive ReqIndexClass : Type :=
| ClassApplication (index : Z)
| ClassOpenLifecycle (ring_index : Z)
| ClassPtRouteAck (ring_index : Z)
| ClassPtExternalSafeAck (ring_index : Z)
| ClassExternalChangeAck.

#[export] Instance ReqIndexClass_eq_dec : EqDecision ReqIndexClass.
Proof. solve_decision. Defined.

Inductive ReqIndexError : Type :=
| RingCountOutOfRange
| MaxInflightOutOfRange
| ReqIndexOutOfRange
| ReqIndexOverflow
| Unassigned.

Definition classify_req_index (index ring_count max_inflight : Z)
    : result ReqIndexError ReqIndexClass :=
  if (ring_count <? MIN_RING_COUNT) || (MAX_RING_COUNT <? ring_count) then
    Err RingCountOutOfRange
  else if (max_inflight =? 0) || (MAX_INFLIGHT <? max_inflight) then
    Err MaxInflightOutOfRange
  else if REQ_INDEX_MAX <? index then Err ReqIndexOutOfRange
  else if index <? max_inflight then Ok (ClassApplication index)
  else if index =? GLOBAL_EXTERNAL_CHANGE_ACK_REQID then Ok ClassExternalChangeAck
  else
    let? system_count :=
      ok_or (checked_mul u32_max ring_count SYSTEM_REQUEST_SLOTS_PER_RING) ReqIndexOverflow in
    let? system_end :=
      ok_or (checked_add u32_max SYSTEM_REQID_BASE system_count) ReqIndexOverflow in
    if (index <? SYSTEM_REQID_BASE) || (system_end <=? index) then Err Unassigned
    else
      let ordinal := index - SYSTEM_REQID_BASE in
      let ring_index := ordinal / SYSTEM_REQUEST_SLOTS_PER_RING in
      match ordinal mod SYSTEM_REQUEST_SLOTS_PER_RING with
      | 0 => Ok (ClassOpenLifecycle ring_index)
      | 1 => Ok (ClassPtRouteAck ring_index)
      | 2 => Ok (ClassPtExternalSafeAck ring_index)
      | _ => Err Unassigned
      end.

(** The index a class stands for: the specification [classify_req_index]
    inverts. *)
Definition class_index (c : ReqIndexClass) : Z :=
  match c with
  | ClassApplication i => i
  | ClassOpenLifecycle r => SYSTEM_REQID_BASE + 3 * r
  | ClassPtRouteAck r => SYSTEM_REQID_BASE + 3 * r + 1
  | ClassPtExternalSafeAck r => SYSTEM_REQID_BASE + 3 * r + 2
  | ClassExternalChangeAck => GLOBAL_EXTERNAL_CHANGE_ACK_REQID
  end.

(** The classes a negotiated topology has. *)
Definition class_wf (ring_count max_inflight : Z) (c : ReqIndexClass) : Prop :=
  match c with
  | ClassApplication i => 0 <= i < max_inflight
  | ClassOpenLifecycle r | ClassPtRouteAck r | ClassPtExternalSafeAck r =>
      0 <= r < ring_count
  | ClassExternalChangeAck => True
  end.

Arguments REQ_GENERATION_MAX : simpl never.
Arguments ReqId_try_new : simpl never.
Arguments ReqId_generation : simpl never.
Arguments ReqId_slot_index : simpl never.
Arguments classify_req_index : simpl never.

(** ** Proofs *)

Lemma REQ_INDEX_MAX_ones : REQ_INDEX_MAX = Z.ones 24.
Proof. reflexivity. Qed.

Lemma REQ_GENERATION_MAX_pos : 0 < REQ_GENERATION_MAX.
Proof. reflexivity. Qed.

Lemma ReqId_generation_div id : ReqId_generation id = id / 2 ^ 24.
Proof. unfold ReqId_generation. by rewrite Z.shiftr_div_pow2. Qed.

Lemma ReqId_slot_index_mod id : ReqId_slot_index id = id mod 2 ^ 24.
Proof. unfold ReqId_slot_index. rewrite REQ_INDEX_MAX_ones. by apply Z.land_ones. Qed.

Lemma ReqId_try_new_Ok g i id :
  0 <= g -> 0 <= i ->
  ReqId_try_new g i = Ok id <->
  g <= REQ_GENERATION_MAX /\ i <= REQ_INDEX_MAX /\ id = g * 2 ^ 24 + i.
Proof.
  intros Hg Hi. unfold ReqId_try_new.
  destruct (Z.ltb_spec REQ_GENERATION_MAX g); [split; [done | lia] |].
  destruct (Z.ltb_spec REQ_INDEX_MAX i) as [|Hi']; [split; [done | lia] |].
  change REQ_INDEX_MAX with 16777215 in *. change REQ_INDEX_BITS with 24.
  rewrite Z.lor_comm, lor_shiftl_add by lia.
  split; [intros [= <-] | intros (_ & _ & ->); f_equal]; lia.
Qed.

Lemma ReqId_fields g i id :
  0 <= g -> 0 <= i -> ReqId_try_new g i = Ok id ->
  ReqId_generation id = g /\ ReqId_slot_index id = i /\ 0 <= id <= u64_max.
Proof.
  intros Hg Hi (H1 & H2 & ->)%ReqId_try_new_Ok; [| done..].
  rewrite ReqId_generation_div, ReqId_slot_index_mod.
  change REQ_GENERATION_MAX with (2 ^ 40 - 1) in H1.
  change REQ_INDEX_MAX with (2 ^ 24 - 1) in H2.
  split_and!; [| | unfold u64_max; lia ..].
  - rewrite Z.div_add_l, Z.div_small by lia. lia.
  - rewrite (Z.add_comm _ i), Z.mod_add, Z.mod_small by lia. done.
Qed.

Lemma ReqId_raw_slot_index i :
  0 <= i <= REQ_INDEX_MAX ->
  ReqId_slot_index (ReqId_from_raw i) = i /\ ReqId_generation (ReqId_from_raw i) = 0.
Proof.
  change REQ_INDEX_MAX with (2 ^ 24 - 1). intros Hi.
  rewrite ReqId_generation_div, ReqId_slot_index_mod. unfold ReqId_from_raw.
  rewrite Z.mod_small, Z.div_small by lia. done.
Qed.

Lemma ReqId_ext id1 id2 :
  ReqId_generation id1 = ReqId_generation id2 ->
  ReqId_slot_index id1 = ReqId_slot_index id2 -> id1 = id2.
Proof.
  rewrite !ReqId_generation_div, !ReqId_slot_index_mod. intros Hg Hi.
  rewrite (Z.div_mod id1 (2 ^ 24)), (Z.div_mod id2 (2 ^ 24)) by lia. lia.
Qed.


(** Unpacking one field is a remainder. *)
Lemma land_ones_mod x n m : 0 <= n -> m = Z.ones n -> Z.land x m = x mod 2 ^ n.
Proof. intros ? ->. by apply Z.land_ones. Qed.

Lemma SlotRef_try_new_sum c i o l r :
  0 <= c -> 0 <= i -> 0 <= o -> 0 <= l ->
  SlotRef_try_new c i o l = Ok r ->
  c < 4 /\ i < 2 ^ 20 /\ o < 2 ^ 21 /\ l < 2 ^ 21 /\
  r = c + i * 2 ^ 2 + o * 2 ^ 22 + l * 2 ^ 43.
Proof.
  intros Hc Hi Ho Hl H. unfold SlotRef_try_new in H. inv_ok H. bools.
  change SLOT_INDEX_MAX with (2 ^ 20 - 1) in *.
  change SLOT_OFFSET_MAX with (2 ^ 21 - 1) in *.
  change SLOT_LENGTH_MAX with (2 ^ 21 - 1) in *.
  rewrite (lor_shiftl_add c), (lor_shiftl_add _ o), (lor_shiftl_add _ l) by lia. lia.
Qed.

(** C35: packing a generation and a slot index and unpacking the result
    returns both, and every raw 64-bit word is the packing of its two fields:
    [ReqId] is a bijection between the pairs in range and the 64-bit words. *)
Theorem ReqId_roundtrip :
  (forall g i, 0 <= g <= REQ_GENERATION_MAX -> 0 <= i <= REQ_INDEX_MAX ->
     exists id, ReqId_try_new g i = Ok id /\ is_u64 id /\
                ReqId_generation id = g /\ ReqId_slot_index id = i) /\
  (forall raw, is_u64 raw ->
     ReqId_try_new (ReqId_generation raw) (ReqId_slot_index raw) = Ok (ReqId_from_raw raw)).
Proof.
  split.
  - intros g i [Hg0 Hg] [Hi0 Hi].
    assert (H : ReqId_try_new g i = Ok (g * 2 ^ 24 + i)) by (by apply ReqId_try_new_Ok).
    destruct (ReqId_fields _ _ _ Hg0 Hi0 H) as (? & ? & ?). by exists (g * 2 ^ 24 + i).
  - intros raw [H0 H1]. unfold ReqId_from_raw, u64_max in *.
    pose proof (Z.mod_pos_bound raw (2 ^ 24) ltac:(lia)).
    rewrite ReqId_generation_div, ReqId_slot_index_mod.
    assert (raw / 2 ^ 24 < 2 ^ 40) by (apply Z.div_lt_upper_bound; lia).
    assert (0 <= raw / 2 ^ 24) by (apply Z.div_pos; lia).
    change (2 ^ 40) with (REQ_GENERATION_MAX + 1) in *.
    apply ReqId_try_new_Ok; [done | lia |]. split_and!; [lia | |].
    + change REQ_INDEX_MAX with (2 ^ 24 - 1). lia.
    + pose proof (Z.div_mod raw (2 ^ 24) ltac:(lia)). lia.
Qed.

(** The four fields of a packed slot reference are recovered
    exactly from the word they were packed into, which fits 64 bits. *)
Theorem SlotRef_roundtrip c i o l r :
  0 <= c -> 0 <= i -> 0 <= o -> 0 <= l ->
  SlotRef_try_new c i o l = Ok r ->
  SlotRef_class r = c /\ SlotRef_index r = i /\ SlotRef_offset r = o /\
  SlotRef_len r = l /\ is_u64 r.
Proof.
  intros Hc Hi Ho Hl H.
  apply SlotRef_try_new_sum in H as (Hc' & Hi' & Ho' & Hl' & ->); [| done..].
  unfold SlotRef_class, SlotRef_index, SlotRef_offset, SlotRef_len, is_u64, u64_max.
  rewrite (land_ones_mod _ 2 3), (land_ones_mod _ 20 SLOT_INDEX_MAX),
    (land_ones_mod _ 21 SLOT_OFFSET_MAX), (land_ones_mod _ 21 SLOT_LENGTH_MAX) by done.
  rewrite !Z.shiftr_div_pow2 by lia.
  replace (c + i * 2 ^ 2 + o * 2 ^ 22 + l * 2 ^ 43)
    with (c + (i + (o + l * 2 ^ 21) * 2 ^ 20) * 2 ^ 2) at 1 2 by lia.
  replace (c + i * 2 ^ 2 + o * 2 ^ 22 + l * 2 ^ 43)
    with ((c + i * 2 ^ 2) + (o + l * 2 ^ 21) * 2 ^ 22) at 1 by lia.
  rewrite Z.mod_add, !Z.div_add, (Z.div_small c), Z.add_0_l, Z.mod_add by lia.
  rewrite (Z.div_small (c + i * 2 ^ 2)), Z.add_0_l, Z.mod_add, Z.div_small, Z.add_0_l by lia.
  rewrite !Z.mod_small by lia. lia.
Qed.

Lemma SlotRef_roundtrip_witness :
  SlotRef_class 43980494471190 = 2 /\ SlotRef_index 43980494471190 = 5 /\
  SlotRef_offset 43980494471190 = 7 /\ SlotRef_len 43980494471190 = 5 /\
  is_u64 43980494471190.
Proof.
  apply (SlotRef_roundtrip 2 5 7 5); [lia | lia | lia | lia | vm_compute; reflexivity].
Defined.

Lemma classify_cases i rc mi c :
  0 <= i -> 1 <= rc <= MAX_RING_COUNT -> 1 <= mi <= MAX_INFLIGHT ->
  classify_req_index i rc mi = Ok c -> class_wf rc mi c /\ class_index c = i.
Proof.
  intros Hi Hrc Hmi H. unfold classify_req_index in H.
  inv_ok H; checked; try (simpl; split; [lia | done]); simpl;
    unfold SYSTEM_REQUEST_SLOTS_PER_RING, SYSTEM_REQID_BASE, MIN_RING_COUNT in *;
    pose proof (Z.div_mod (i - 16777023) 3 ltac:(lia));
    (split; [split; [apply Z.div_pos; lia | apply Z.div_lt_upper_bound; lia] | lia]).
Qed.

Lemma classify_complete rc mi c :
  1 <= rc <= MAX_RING_COUNT -> 1 <= mi <= MAX_INFLIGHT ->
  class_wf rc mi c -> classify_req_index (class_index c) rc mi = Ok c.
Proof.
  intros Hrc Hmi Hc. unfold classify_req_index, checked_add, checked_mul.
  unfold MIN_RING_COUNT, MAX_RING_COUNT, MAX_INFLIGHT, u32_max, SYSTEM_REQID_BASE,
    SYSTEM_REQUEST_SLOTS_PER_RING, GLOBAL_EXTERNAL_CHANGE_ACK_REQID in *.
  change REQ_INDEX_MAX with 16777215.
  assert (Hthree : forall r k, 0 <= k < 3 ->
            (16777023 + 3 * r + k - 16777023) / 3 = r /\
            (16777023 + 3 * r + k - 16777023) mod 3 = k).
  { intros r k Hk. replace (16777023 + 3 * r + k - 16777023) with (k + r * 3) by lia.
    rewrite Z.div_add, Z.div_small, Z.mod_add, Z.mod_small by lia. lia. }
  destruct c as [i | r | r | r |]; simpl in *;
    unfold SYSTEM_REQID_BASE, GLOBAL_EXTERNAL_CHANGE_ACK_REQID;
    [| rewrite <- (Z.add_0_r (16777023 + 3 * r)); destruct (Hthree r 0) as [Hd Hm]; [lia |]
     | destruct (Hthree r 1) as [Hd Hm]; [lia |]
     | destruct (Hthree r 2) as [Hd Hm]; [lia |] |];
    repeat (case_match; bools; try lia; simpl in *; simplify_eq); try done;
    rewrite ?Hd, ?Hm in *; try done; lia.
Qed.

(** C28: under every legal topology [classify_req_index] is the exact
    inverse of the index layout: an index is accepted as class [c] iff [c] is a
    class of that topology and the index is the one laid out for it. Distinct
    lanes therefore never share a request index. *)
Theorem classify_req_index_partition i rc mi c :
  0 <= i -> 1 <= rc <= MAX_RING_COUNT -> 1 <= mi <= MAX_INFLIGHT ->
  classify_req_index i rc mi = Ok c <-> class_wf rc mi c /\ class_index c = i.
Proof.
  intros Hi Hrc Hmi. split.
  - by apply classify_cases.
  - intros [Hc <-]. by apply classify_complete.
Qed.

Lemma classify_req_index_partition_witness :
  classify_req_index 16777030 4 128 = Ok (ClassPtRouteAck 2).
Proof.
  apply (classify_req_index_partition 16777030 4 128 (ClassPtRouteAck 2));
    unfold MAX_RING_COUNT, MAX_INFLIGHT; simpl; [lia | lia | lia |].
  split; [lia | reflexivity].
Defined.

(** C37: a nonempty wire range is accepted exactly when it lies inside the
    signed 63-bit file space, and an empty one exactly when it is the
    whole-stream form at offset zero. *)
Theorem validate_file_range_exact off len w :
  is_u64 off -> is_u64 len ->
  validate_file_range off len w = Ok tt <->
  (len = 0 /\ off = 0 /\ w = true) \/ (len <> 0 /\ off + len <= MAX_FILE_SIZE).
Proof.
  unfold is_u64, validate_file_range, checked_add, u64_max, MAX_FILE_SIZE.
  intros Ho Hl. destruct w; repeat (case_match; bools; simplify_eq/=);
    split; intros HH; first [done | lia | idtac]; naive_solver lia.
Qed.

Lemma validate_file_range_exact_witness :
  validate_file_range 9223372036854775806 1 false = Ok tt.
Proof.
  apply (validate_file_range_exact 9223372036854775806 1 false);
    [unfold is_u64, u64_max; lia | unfold is_u64, u64_max; lia |].
  right. unfold MAX_FILE_SIZE. lia.
Defined.
