(* ===== verification/Slots.v ===== *)
(** * Slot tokens, slot arenas, grants and buffer references

    fsring-abi/src/slots.rs, with [CheckedRange64] of validate/mod.rs,
    [BufferRef] of msgs/common.rs and the descriptors of layout.rs. *)

From S2P Require Import Prelude Ids.

(** ** Data *)

Record RegionDesc := mkRegionDesc { rd_offset : Z; rd_length : Z }.

Record SlotClassDesc := mkSlotClassDesc {
  scd_slot_size : Z;
  scd_slot_count : Z;
  scd_data_offset : Z;
}.

Definition SLOT_CLASS_COUNT : nat := 4.

#[export] Instance RegionDesc_eq_dec : EqDecision RegionDesc.
Proof. solve_decision. Defined.
#[export] Instance SlotClassDesc_eq_dec : EqDecision SlotClassDesc.
Proof. solve_decision. Defined.

(** Exclusive checked numeric range. *)
Record CheckedRange64 := mkRange { start : Z; end_ : Z }.

#[export] Instance CheckedRange64_eq_dec : EqDecision CheckedRange64.
Proof. solve_decision. Defined.

Definition range_checked_len (r : CheckedRange64) : option Z :=
  checked_sub (end_ r) (start r).

Definition range_contains (self other : CheckedRange64) : bool :=
  (start self <=? end_ self) && (start other <=? end_ other)
  && (start self <=? start other) && (end_ other <=? end_ self).

(** ** SlotToken: [class:2 | index:20 | generation:42] *)

Definition SLOT_TOKEN_CLASS_MAX : Z := 3.
Definition SLOT_TOKEN_INDEX_MAX : Z := Z.shiftl 1 20 - 1.
Definition SLOT_TOKEN_GENERATION_MAX : Z := Z.shiftl 1 42 - 1.
Definition SLOT_TOKEN_INDEX_SHIFT : Z := 2.
Definition SLOT_TOKEN_GENERATION_SHIFT : Z := 22.

Inductive SlotTokenError : Type :=
| TokenClassOutOfRange
| TokenIndexOutOfRange
| TokenZeroGeneration
| TokenGenerationOutOfRange.

Definition SlotToken : Type := Z.

Definition SlotToken_try_new (class index generation : Z)
    : result SlotTokenError SlotToken :=
  if SLOT_TOKEN_CLASS_MAX <? class then Err TokenClassOutOfRange
  else if SLOT_TOKEN_INDEX_MAX <? index then Err TokenIndexOutOfRange
  else if generation =? 0 then Err TokenZeroGeneration
  else if SLOT_TOKEN_GENERATION_MAX <? generation then Err TokenGenerationOutOfRange
  else Ok (Z.lor (Z.lor class (Z.shiftl index SLOT_TOKEN_INDEX_SHIFT))
                 (Z.shiftl generation SLOT_TOKEN_GENERATION_SHIFT)).

Definition SlotToken_raw (t : SlotToken) : Z := t.
Definition SlotToken_class (t : SlotToken) : Z := Z.land t SLOT_TOKEN_CLASS_MAX.
Definition SlotToken_index (t : SlotToken) : Z :=
  Z.land (Z.shiftr t SLOT_TOKEN_INDEX_SHIFT) SLOT_TOKEN_INDEX_MAX.
Definition SlotToken_generation (t : SlotToken) : Z :=
  Z.shiftr t SLOT_TOKEN_GENERATION_SHIFT.

Definition SlotToken_from_raw (raw : Z) : result SlotTokenError SlotToken :=
  SlotToken_try_new (Z.land raw SLOT_TOKEN_CLASS_MAX)
    (Z.land (Z.shiftr raw SLOT_TOKEN_INDEX_SHIFT) SLOT_TOKEN_INDEX_MAX)
    (Z.shiftr raw SLOT_TOKEN_GENERATION_SHIFT).

(** ** Slot arenas *)

Inductive SlotLayoutError : Type :=
| InvalidSectionSize
| InvalidArenaAlignment
| ArenaOutOfBounds
| InvalidInactiveClass
| ActiveAfterInactive
| InvalidSlotSize
| InvalidSlotCount
| InvalidClassAlignment
| NonIncreasingSlotSize
| PackingMismatch
| ArithmeticOverflow
| ArenaLengthMismatch
| PaddingLengthMismatch
| NonZeroPadding
| NoActiveClasses
| ClassOutOfRange
| IndexOutOfRange.

Inductive SlotDirection : Type := K2u | U2k.

#[export] Instance SlotDirection_eq_dec : EqDecision SlotDirection.
Proof. solve_decision. Defined.

Record ValidatedSlotArena := mkArena {
  va_direction : SlotDirection;
  va_section_size : Z;
  va_arena : RegionDesc;
  va_classes : list SlotClassDesc;
  va_active_class_count : Z;
  va_final_padding : CheckedRange64;
}.

Record ResolvedSlot := mkResolved {
  rs_token : SlotToken;
  rs_direction : SlotDirection;
  rs_slot_size : Z;
  rs_section_range : CheckedRange64;
}.

#[export] Instance ResolvedSlot_eq_dec : EqDecision ResolvedSlot.
Proof. solve_decision. Defined.

(** The mutable locals of the class loop. *)
Record ArenaScan := mkScan {
  as_cursor : Z;
  as_previous : option Z;
  as_active : Z;
  as_saw_inactive : bool;
}.

(** One iteration of the loop over the class descriptors. *)
Definition scan_class (s : ArenaScan) (class : SlotClassDesc)
    : result SlotLayoutError ArenaScan :=
  if (scd_slot_size class =? 0) || (scd_slot_count class =? 0) then
    if negb (scd_slot_size class =? 0) || negb (scd_slot_count class =? 0)
       || negb (scd_data_offset class =? 0)
    then Err InvalidInactiveClass
    else Ok (mkScan (as_cursor s) (as_previous s) (as_active s) true)
  else if as_saw_inactive s then Err ActiveAfterInactive
  else if (scd_slot_size class <? MIN_SLOT_SIZE) || (MAX_SLOT_SIZE <? scd_slot_size class)
          || negb (is_power_of_two (scd_slot_size class))
  then Err InvalidSlotSize
  else if (scd_slot_count class <? MIN_SLOT_COUNT) || (MAX_SLOT_COUNT <? scd_slot_count class)
  then Err InvalidSlotCount
  else if negb (scd_data_offset class mod SLOT_ALIGNMENT =? 0) then Err InvalidClassAlignment
  else if match as_previous s with
          | Some previous => scd_slot_size class <=? previous
          | None => false
          end
  then Err NonIncreasingSlotSize
  else
    let? expected_offset :=
      ok_or (checked_align_up (as_cursor s) SLOT_ALIGNMENT) ArithmeticOverflow in
    if negb (scd_data_offset class =? expected_offset) then Err PackingMismatch
    else
      let? class_length :=
        ok_or (checked_mul u64_max (scd_slot_size class) (scd_slot_count class))
              ArithmeticOverflow in
      let? cursor :=
        ok_or (checked_add u64_max (scd_data_offset class) class_length) ArithmeticOverflow in
      let? active := ok_or (checked_add u8_max (as_active s) 1) ArithmeticOverflow in
      Ok (mkScan cursor (Some (scd_slot_size class)) active (as_saw_inactive s)).

Fixpoint scan_classes (s : ArenaScan) (classes : list SlotClassDesc)
    : result SlotLayoutError ArenaScan :=
  match classes with
  | [] => Ok s
  | class :: rest => let? s' := scan_class s class in scan_classes s' rest
  end.

Definition validate_slot_arena (direction : SlotDirection) (section_size : Z)
    (arena : RegionDesc) (classes : list SlotClassDesc)
    : result SlotLayoutError ValidatedSlotArena :=
  if (section_size =? 0) || (MAX_SECTION_BYTES <? section_size) then Err InvalidSectionSize
  else if negb (rd_offset arena mod USER_VIEW_OFFSET_ALIGNMENT =? 0)
          || (rd_length arena =? 0)
          || negb (rd_length arena mod USER_VIEW_OFFSET_ALIGNMENT =? 0)
  then Err InvalidArenaAlignment
  else
    let? arena_end :=
      ok_or (checked_add u64_max (rd_offset arena) (rd_length arena)) ArithmeticOverflow in
    if section_size <? arena_end then Err ArenaOutOfBounds
    else
      let? s := scan_classes (mkScan (rd_offset arena) None 0 false) classes in
      if as_active s =? 0 then Err NoActiveClasses
      else
        let? aligned_end :=
          ok_or (checked_align_up (as_cursor s) USER_VIEW_OFFSET_ALIGNMENT)
                ArithmeticOverflow in
        if negb (aligned_end =? arena_end) then Err ArenaLengthMismatch
        else Ok (mkArena direction section_size arena classes (as_active s)
                         (mkRange (as_cursor s) arena_end)).

Definition resolve_slot (arena : ValidatedSlotArena) (token : SlotToken)
    : result SlotLayoutError ResolvedSlot :=
  let class := SlotToken_class token in
  if va_active_class_count arena <=? class then Err ClassOutOfRange
  else
    match va_classes arena !! Z.to_nat class with
    | None => Err ClassOutOfRange (* the source indexes a fixed array of four *)
    | Some descriptor =>
        let index := SlotToken_index token in
        if scd_slot_count descriptor <=? index then Err IndexOutOfRange
        else
          let? relative :=
            ok_or (checked_mul u64_max index (scd_slot_size descriptor)) ArithmeticOverflow in
          let? st :=
            ok_or (checked_add u64_max (scd_data_offset descriptor) relative)
                  ArithmeticOverflow in
          let? en :=
            ok_or (checked_add u64_max st (scd_slot_size descriptor)) ArithmeticOverflow in
          Ok (mkResolved token (va_direction arena) (scd_slot_size descriptor) (mkRange st en))
    end.

Definition validate_zeroed_padding (snapshot : list Z) (expected_range : CheckedRange64)
    : result SlotLayoutError unit :=
  let? expected_length := ok_or (range_checked_len expected_range) ArithmeticOverflow in
  if negb (Z.of_nat (length snapshot) =? expected_length) then Err PaddingLengthMismatch
  else if existsb (fun byte => negb (byte =? 0)) snapshot then Err NonZeroPadding
  else Ok tt.

(** ** Grants and buffer references *)

Definition BUFFER_NONE : Z := 0.
Definition BUFFER_SLOT : Z := 1.
Definition BUFFER_MAPPING : Z := 2.
Definition K2U_READ_ONLY : Z := 1.
Definition U2K_WRITE : Z := 2.

Record BufferRef := mkBufferRef {
  br_token : Z;
  br_offset : Z;
  br_length : Z;
  br_kind : Z;
  br_access : Z;
  br_reserved : Z;
}.

#[export] Instance BufferRef_eq_dec : EqDecision BufferRef.
Proof. solve_decision. Defined.

Inductive GrantOwner : Type :=
| OwnerRequest (id : ReqId)
| OwnerNotificationCredit (ring_index : Z).

Inductive GrantLiveness : Type := GrantLive | GrantRundown.

Inductive GrantCapability : Type :=
| CapSlot (slot : ResolvedSlot)
| CapMapping (token length : Z).

Record GrantMetadata := mkGrantMetadata {
  gm_capability : GrantCapability;
  gm_session_epoch : Z;
  gm_owner : GrantOwner;
  gm_access : Z;
  gm_maximum : CheckedRange64;
  gm_state : GrantLiveness;
  gm_issued : BufferRef;
}.

Inductive BufferRefPolicy : Type := Exact | ShrinkOnly | DerivedSubrange.
Inductive EmptyBufferRule : Type := EmptyForbidden | EmptyAllowed.

#[export] Instance GrantOwner_eq_dec : EqDecision GrantOwner.
Proof. solve_decision. Defined.
#[export] Instance GrantLiveness_eq_dec : EqDecision GrantLiveness.
Proof. solve_decision. Defined.
#[export] Instance EmptyBufferRule_eq_dec : EqDecision EmptyBufferRule.
Proof. solve_decision. Defined.

Inductive BufferRefRule : Type :=
| RuleNone
| RuleGrant (grant : GrantMetadata) (expected_session_epoch : Z)
    (expected_owner : GrantOwner) (policy : BufferRefPolicy) (empty : EmptyBufferRule).

Record ValidatedBuffer := mkValidatedBuffer {
  vb_kind : Z;
  vb_token : Z;
  vb_range : CheckedRange64;
}.

Definition vb_is_none (b : ValidatedBuffer) : bool := vb_kind b =? BUFFER_NONE.

Definition vb_slot_token (b : ValidatedBuffer) : option SlotToken :=
  if negb (vb_kind b =? BUFFER_SLOT) then None
  else match SlotToken_from_raw (vb_token b) with Ok token => Some token | Err _ => None end.

Definition vb_mapping_token (b : ValidatedBuffer) : option Z :=
  if vb_kind b =? BUFFER_MAPPING then Some (vb_token b) else None.

Definition vb_section_range (b : ValidatedBuffer) : option CheckedRange64 :=
  if vb_kind b =? BUFFER_SLOT then Some (vb_range b) else None.

Definition vb_mapping_range (b : ValidatedBuffer) : option CheckedRange64 :=
  if vb_kind b =? BUFFER_MAPPING then Some (vb_range b) else None.

Inductive BufferRefError : Type :=
| InvalidNone
| UnknownKind
| UnknownAccess
| NonZeroReserved
| InvalidSlotToken
| InvalidGrantMetadata
| GrantNotLive
| SessionEpochMismatch
| OwnerMismatch
| KindMismatch
| CapabilityMismatch
| AccessMismatch
| EmptyNotAllowed
| RangeOutOfBounds
| EchoMismatch
| LengthGrowth.

Definition is_known_buffer_kind (kind : Z) : bool :=
  (kind =? BUFFER_NONE) || (kind =? BUFFER_SLOT) || (kind =? BUFFER_MAPPING).

Definition is_known_buffer_access (access : Z) : bool :=
  (access =? K2U_READ_ONLY) || (access =? U2K_WRITE).

Definition checked_buffer_range (reference : BufferRef) : option CheckedRange64 :=
  match checked_add u64_max (br_offset reference) (br_length reference) with
  | Some e => Some (mkRange (br_offset reference) e)
  | None => None
  end.

(** The capability's kind, token and length, after its own checks. *)
Definition grant_capability_parts (grant : GrantMetadata)
    : result BufferRefError (Z * Z * Z) :=
  match gm_capability grant with
  | CapSlot slot =>
      let required_access :=
        match rs_direction slot with K2u => K2U_READ_ONLY | U2k => U2K_WRITE end in
      if negb (gm_access grant =? required_access) then Err InvalidGrantMetadata
      else Ok (BUFFER_SLOT, SlotToken_raw (rs_token slot), rs_slot_size slot)
  | CapMapping token length =>
      if (token =? 0) || (length =? 0) then Err InvalidGrantMetadata
      else Ok (BUFFER_MAPPING, token, length)
  end.

Definition validate_grant_metadata (grant : GrantMetadata) : result BufferRefError unit :=
  if gm_session_epoch grant =? 0 then Err InvalidGrantMetadata
  else if match gm_owner grant with
          | OwnerRequest request_id => ReqId_raw request_id =? 0
          | OwnerNotificationCredit _ => false
          end
  then Err InvalidGrantMetadata
  else if negb (is_known_buffer_access (gm_access grant)) then Err InvalidGrantMetadata
  else
    match grant_capability_parts grant with
    | Err e => Err e
    | Ok (capability_kind, capability_token, capability_length) =>
        let capacity := mkRange 0 capability_length in
        if (end_ (gm_maximum grant) <=? start (gm_maximum grant))
           || negb (range_contains capacity (gm_maximum grant))
        then Err InvalidGrantMetadata
        else
          let issued := gm_issued grant in
          if negb (br_reserved issued =? 0)
             || negb (is_known_buffer_access (br_access issued))
             || negb (br_access issued =? gm_access grant)
             || negb (br_kind issued =? capability_kind)
             || negb (br_token issued =? capability_token)
             || (br_length issued =? 0)
          then Err InvalidGrantMetadata
          else
            let? issued_range := ok_or (checked_buffer_range issued) InvalidGrantMetadata in
            if negb (range_contains capacity issued_range)
               || negb (range_contains (gm_maximum grant) issued_range)
            then Err InvalidGrantMetadata
            else Ok tt
    end.

(** The policy check of a candidate against the issued reference. *)
Definition check_policy (policy : BufferRefPolicy) (reference issued : BufferRef)
    (issued_range candidate_range : CheckedRange64) : result BufferRefError unit :=
  match policy with
  | Exact =>
      if negb (br_offset reference =? br_offset issued)
         || negb (br_length reference =? br_length issued)
      then Err EchoMismatch else Ok tt
  | ShrinkOnly =>
      if negb (br_offset reference =? br_offset issued) then Err EchoMismatch
      else if br_length issued <? br_length reference then Err LengthGrowth
      else Ok tt
  | DerivedSubrange =>
      if negb (range_contains issued_range candidate_range) then Err RangeOutOfBounds
      else Ok tt
  end.

(** The final translation of a candidate range into the capability's
    coordinates. *)
Definition translate_range (capability : GrantCapability) (candidate_range : CheckedRange64)
    : result BufferRefError CheckedRange64 :=
  match capability with
  | CapSlot slot =>
      let section_range := rs_section_range slot in
      let? st := ok_or (checked_add u64_max (start section_range) (start candidate_range))
                       RangeOutOfBounds in
      let? en := ok_or (checked_add u64_max (start section_range) (end_ candidate_range))
                       RangeOutOfBounds in
      let absolute_range := mkRange st en in
      if negb (range_contains section_range absolute_range) then Err RangeOutOfBounds
      else Ok absolute_range
  | CapMapping _ _ => Ok candidate_range
  end.

(** The candidate must name exactly the granted capability. *)
Definition check_capability (capability : GrantCapability) (reference : BufferRef)
    : result BufferRefError unit :=
  match capability with
  | CapSlot slot =>
      let? candidate_token :=
        map_err (fun _ => InvalidSlotToken) (SlotToken_from_raw (br_token reference)) in
      if negb (candidate_token =? rs_token slot) then Err CapabilityMismatch else Ok tt
  | CapMapping token _ =>
      if negb (br_token reference =? token) then Err CapabilityMismatch else Ok tt
  end.

Definition capability_kind (c : GrantCapability) : Z :=
  match c with CapSlot _ => BUFFER_SLOT | CapMapping _ _ => BUFFER_MAPPING end.

Definition capability_length (c : GrantCapability) : Z :=
  match c with CapSlot slot => rs_slot_size slot | CapMapping _ length => length end.

Definition validate_buffer_ref (reference : BufferRef) (rule : BufferRefRule)
    : result BufferRefError ValidatedBuffer :=
  match rule with
  | RuleNone =>
      if negb (br_token reference =? 0) || negb (br_offset reference =? 0)
         || negb (br_length reference =? 0) || negb (br_kind reference =? BUFFER_NONE)
         || negb (br_access reference =? 0) || negb (br_reserved reference =? 0)
      then Err InvalidNone
      else Ok (mkValidatedBuffer BUFFER_NONE 0 (mkRange 0 0))
  | RuleGrant grant expected_session_epoch expected_owner policy empty =>
      let? _ := validate_grant_metadata grant in
      let? issued_range :=
        ok_or (checked_buffer_range (gm_issued grant)) InvalidGrantMetadata in
      if negb (br_reserved reference =? 0) then Err NonZeroReserved
      else if negb (is_known_buffer_kind (br_kind reference)) then Err UnknownKind
      else if negb (is_known_buffer_access (br_access reference)) then Err UnknownAccess
      else if negb (bool_decide (gm_state grant = GrantLive)) then Err GrantNotLive
      else if negb (gm_session_epoch grant =? expected_session_epoch)
      then Err SessionEpochMismatch
      else if negb (bool_decide (gm_owner grant = expected_owner)) then Err OwnerMismatch
      else if negb (br_kind reference =? capability_kind (gm_capability grant))
      then Err KindMismatch
      else
        let? _ := check_capability (gm_capability grant) reference in
        if negb (br_access reference =? gm_access grant) then Err AccessMismatch
        else if (br_length reference =? 0) && bool_decide (empty = EmptyForbidden)
        then Err EmptyNotAllowed
        else
          let? candidate_range := ok_or (checked_buffer_range reference) RangeOutOfBounds in
          let capacity := mkRange 0 (capability_length (gm_capability grant)) in
          if negb (range_contains capacity candidate_range)
             || negb (range_contains (gm_maximum grant) candidate_range)
          then Err RangeOutOfBounds
          else
            let? _ := check_policy policy reference (gm_issued grant) issued_range
                                   candidate_range in
            let? range := translate_range (gm_capability grant) candidate_range in
            Ok (mkValidatedBuffer (br_kind reference) (br_token reference) range)
  end.

Arguments SlotToken_try_new : simpl never.
Arguments SlotToken_from_raw : simpl never.
Arguments SlotToken_class : simpl never.
Arguments SlotToken_index : simpl never.
Arguments SlotToken_generation : simpl never.

(** ** Specification of a packed arena *)

Definition class_bytes (c : SlotClassDesc) : Z := scd_slot_size c * scd_slot_count c.

Definition class_active_ok (c : SlotClassDesc) : Prop :=
  MIN_SLOT_SIZE <= scd_slot_size c <= MAX_SLOT_SIZE /\
  is_power_of_two (scd_slot_size c) = true /\
  MIN_SLOT_COUNT <= scd_slot_count c <= MAX_SLOT_COUNT.

Definition class_inactive (c : SlotClassDesc) : Prop :=
  scd_slot_size c = 0 /\ scd_slot_count c = 0 /\ scd_data_offset c = 0.

(** [packed cur act fin]: the active classes [act] follow each other with no
    gap from [cur] to [fin]. *)
Fixpoint packed (cur : Z) (act : list SlotClassDesc) (fin : Z) : Prop :=
  match act with
  | [] => fin = cur
  | c :: rest =>
      class_active_ok c /\ scd_data_offset c = cur /\ packed (cur + class_bytes c) rest fin
  end.

(** Slot sizes strictly increase, above [prev] when there is one. *)
Fixpoint increasing (prev : option Z) (act : list SlotClassDesc) : Prop :=
  match act with
  | [] => True
  | c :: rest =>
      match prev with Some p => p < scd_slot_size c | None => True end /\
      increasing (Some (scd_slot_size c)) rest
  end.

Definition ranges_disjoint (a b : CheckedRange64) : Prop :=
  end_ a <= start b \/ end_ b <= start a.

Definition range_within (lo hi : Z) (r : CheckedRange64) : Prop :=
  lo <= start r /\ start r <= end_ r /\ end_ r <= hi.

(** ** Tokens *)

Lemma range_contains_spec a b :
  range_contains a b = true <->
  start a <= end_ a /\ start b <= end_ b /\ start a <= start b /\ end_ b <= end_ a.
Proof.
  unfold range_contains. rewrite !andb_true_iff, !Z.leb_le. tauto.
Qed.

Lemma SlotToken_try_new_sum c i g t :
  0 <= c -> 0 <= i -> 0 <= g ->
  SlotToken_try_new c i g = Ok t ->
  c < 4 /\ i < 2 ^ 20 /\ 0 < g < 2 ^ 42 /\ t = c + i * 2 ^ 2 + g * 2 ^ 22.
Proof.
  intros Hc Hi Hg H. unfold SlotToken_try_new in H. inv_ok H. bools.
  change SLOT_TOKEN_CLASS_MAX with 3 in *.
  change SLOT_TOKEN_INDEX_MAX with (2 ^ 20 - 1) in *.
  change SLOT_TOKEN_GENERATION_MAX with (2 ^ 42 - 1) in *.
  change SLOT_TOKEN_INDEX_SHIFT with 2. change SLOT_TOKEN_GENERATION_SHIFT with 22.
  rewrite (lor_shiftl_add c), (lor_shiftl_add _ g) by lia. lia.
Qed.

Lemma SlotToken_class_mod t : SlotToken_class t = t mod 2 ^ 2.
Proof. by apply (land_ones_mod t 2 3). Qed.

Lemma SlotToken_index_mod t : SlotToken_index t = (t / 2 ^ 2) mod 2 ^ 20.
Proof.
  unfold SlotToken_index. rewrite (land_ones_mod _ 20) by done.
  by rewrite Z.shiftr_div_pow2.
Qed.

Lemma SlotToken_generation_div t : SlotToken_generation t = t / 2 ^ 22.
Proof. unfold SlotToken_generation. by rewrite Z.shiftr_div_pow2. Qed.

Lemma SlotToken_class_range t : 0 <= SlotToken_class t < 4.
Proof. rewrite SlotToken_class_mod. apply Z.mod_pos_bound. lia. Qed.

Lemma SlotToken_index_range t : 0 <= SlotToken_index t < 2 ^ 20.
Proof. rewrite SlotToken_index_mod. apply Z.mod_pos_bound. lia. Qed.

Lemma SlotToken_generation_nonneg t : 0 <= t -> 0 <= SlotToken_generation t.
Proof. rewrite SlotToken_generation_div. intros. apply Z.div_pos; lia. Qed.

(** A word is the sum of its three fields. *)
Lemma SlotToken_split t :
  t = SlotToken_class t + SlotToken_index t * 2 ^ 2 + SlotToken_generation t * 2 ^ 22.
Proof.
  rewrite SlotToken_class_mod, SlotToken_index_mod, SlotToken_generation_div.
  rewrite (Z.div_mod t (2 ^ 2)) at 1 by lia.
  rewrite (Z.div_mod (t / 2 ^ 2) (2 ^ 20)) at 1 by lia.
  rewrite Z.div_div by lia. change (2 ^ 2 * 2 ^ 20) with (2 ^ 22). lia.
Qed.

Lemma SlotToken_fields c i g t :
  0 <= c -> 0 <= i -> 0 <= g -> SlotToken_try_new c i g = Ok t ->
  SlotToken_class t = c /\ SlotToken_index t = i /\ SlotToken_generation t = g /\ is_u64 t.
Proof.
  intros Hc Hi Hg H.
  apply SlotToken_try_new_sum in H as (Hc' & Hi' & Hg' & ->); [| done..].
  rewrite SlotToken_class_mod, SlotToken_index_mod, SlotToken_generation_div.
  unfold is_u64, u64_max. split_and!; [| | | lia ..].
  - replace (c + i * 2 ^ 2 + g * 2 ^ 22) with (c + (i + g * 2 ^ 20) * 2 ^ 2) by lia.
    rewrite Z.mod_add, Z.mod_small by lia. done.
  - replace (c + i * 2 ^ 2 + g * 2 ^ 22) with (c + (i + g * 2 ^ 20) * 2 ^ 2) by lia.
    rewrite Z.div_add, Z.div_small, Z.add_0_l, Z.mod_add, Z.mod_small by lia. done.
  - rewrite Z.div_add, Z.div_small by lia. lia.
Qed.

Lemma SlotToken_try_new_complete c i g :
  0 <= c < 4 -> 0 <= i < 2 ^ 20 -> 0 < g < 2 ^ 42 ->
  exists t, SlotToken_try_new c i g = Ok t.
Proof.
  intros Hc Hi Hg. unfold SlotToken_try_new.
  change SLOT_TOKEN_CLASS_MAX with 3. change SLOT_TOKEN_INDEX_MAX with (2 ^ 20 - 1).
  change SLOT_TOKEN_GENERATION_MAX with (2 ^ 42 - 1).
  repeat case_match; bools; try lia. by eexists.
Qed.

Lemma SlotToken_from_raw_Ok raw t :
  0 <= raw -> SlotToken_from_raw raw = Ok t ->
  t = raw /\ 0 < SlotToken_generation raw < 2 ^ 42.
Proof.
  intros Hr H. unfold SlotToken_from_raw in H.
  fold (SlotToken_class raw) (SlotToken_index raw) (SlotToken_generation raw) in H.
  pose proof (SlotToken_class_range raw). pose proof (SlotToken_index_range raw).
  pose proof (SlotToken_generation_nonneg raw Hr).
  apply SlotToken_try_new_sum in H as (_ & _ & ? & ->); [| lia ..].
  split; [symmetry; apply SlotToken_split | done].
Qed.

Lemma SlotToken_from_raw_complete raw :
  0 <= raw -> 0 < SlotToken_generation raw < 2 ^ 42 -> SlotToken_from_raw raw = Ok raw.
Proof.
  intros Hr Hg.
  destruct (SlotToken_try_new_complete (SlotToken_class raw) (SlotToken_index raw)
              (SlotToken_generation raw)) as [t Ht];
    [apply SlotToken_class_range | apply SlotToken_index_range | done |].
  assert (SlotToken_from_raw raw = Ok t) as H by done.
  by destruct (SlotToken_from_raw_Ok _ _ Hr H) as [-> _].
Qed.

(** ** Arenas *)

Lemma class_active_bytes c :
  class_active_ok c -> 256 <= class_bytes c <= 2 ^ 44 /\ (64 | class_bytes c).
Proof.
  unfold class_active_ok, class_bytes, MIN_SLOT_SIZE, MAX_SLOT_SIZE, MIN_SLOT_COUNT.
  change MAX_SLOT_COUNT with (2 ^ 20). intros ((?&?) & Hp & (?&?)). split; [nia |].
  apply Z.divide_mul_l. apply (power_of_two_divide 6); [done | done | simpl; lia].
Qed.

Lemma align_up_aligned v a :
  is_power_of_two a = true -> a <= u64_max + 1 -> 0 <= v -> v + (a - 1) <= u64_max ->
  (a | v) -> checked_align_up v a = Some v.
Proof.
  intros Ha Hm Hv Hb Hd. pose proof (is_power_of_two_pos _ Ha).
  apply checked_align_up_spec; [lia | done | done |].
  split; [by apply aligned_up_id | done].
Qed.

(** The loop accepts exactly the gap-free packings. *)
Lemma scan_classes_sound cls : forall s s',
  0 <= as_cursor s <= u64_max -> (64 | as_cursor s) ->
  scan_classes s cls = Ok s' ->
  exists act inact,
    cls = act ++ inact /\ Forall class_inactive inact /\
    packed (as_cursor s) act (as_cursor s') /\ increasing (as_previous s) act /\
    as_active s' = as_active s + Z.of_nat (length act) /\
    0 <= as_cursor s' <= u64_max /\
    (as_saw_inactive s = true -> act = []).
Proof.
  induction cls as [| c cls IH]; intros s s' Hc Hd H; simpl in H.
  { simplify_eq. exists [], []. simpl. split_and!; try done; lia. }
  destruct (scan_class s c) as [s1 |] eqn:Hs; [| done].
  unfold scan_class in Hs. inv_ok Hs; bools.
  { (* inactive *)
    apply IH in H as (act & inact & -> & Hin & Hp & Hi & Ha & Hb & Hs'); [| done | done].
    simpl in *. rewrite (Hs' eq_refl) in *. simpl in *.
    exists [], (c :: inact). split_and!; first [done | lia | idtac].
    constructor; [| done]. unfold class_inactive. lia. }
  (* active, with or without a previous class *)
  all: assert (Hact : class_active_ok c) by (unfold class_active_ok; split_and!; done || lia).
  all: destruct (class_active_bytes c Hact) as [Hb1 Hb2]; checked.
  all: match goal with H : checked_align_up _ _ = Some _ |- _ =>
      apply checked_align_up_spec in H as [Hal _]; [| lia | done | by vm_compute] end.
  all: assert (scd_data_offset c = as_cursor s) as Hoff
      by (eapply aligned_up_unique; [| done | by apply aligned_up_id]; done).
  all: unfold class_bytes in *; simpl in *; rewrite Hoff in *.
  all: apply IH in H as (act & inact & -> & Hin & Hp & Hi & Ha & Hb & Hs');
    simpl in *; [| lia | by apply Z.divide_add_r].
  all: exists (c :: act), inact; simpl; unfold class_bytes.
  all: split_and!; first [done | lia | congruence].
Qed.

Lemma packed_bounds cur act fin : packed cur act fin -> cur <= fin.
Proof.
  revert cur. induction act as [| c act IH]; simpl; intros cur H; [lia |].
  destruct H as (Hc & _ & Hr). apply class_active_bytes in Hc. apply IH in Hr. lia.
Qed.

Lemma packed_lookup cur act fin k c :
  packed cur act fin -> act !! k = Some c ->
  class_active_ok c /\ cur <= scd_data_offset c /\ scd_data_offset c + class_bytes c <= fin /\
  (64 | scd_data_offset c - cur) /\
  scd_data_offset c = cur + foldr (fun d acc => class_bytes d + acc) 0 (take k act).
Proof.
  revert cur k. induction act as [| d act IH]; intros cur k Hp Hk; [done |].
  simpl in Hp. destruct Hp as (Hd & Hoff & Hr).
  destruct (class_active_bytes _ Hd) as [? ?].
  destruct k as [| k]; simpl in Hk |- *.
  - simplify_eq. apply packed_bounds in Hr. split_and!; try done; try lia.
    rewrite Z.sub_diag. apply Z.divide_0_r.
  - destruct (IH _ _ Hr Hk) as (? & ? & ? & ? & ?). split_and!; try done; try lia.
    replace (scd_data_offset c - cur)
      with ((scd_data_offset c - (cur + class_bytes d)) + class_bytes d) by lia.
    by apply Z.divide_add_r.
Qed.

(** Later classes start after earlier ones end. *)
Lemma packed_ordered cur act fin j k c d :
  packed cur act fin -> act !! j = Some c -> act !! k = Some d -> (j < k)%nat ->
  scd_data_offset c + class_bytes c <= scd_data_offset d.
Proof.
  revert cur j k. induction act as [| e act IH]; intros cur j k Hp Hj Hk Hlt; [done |].
  simpl in Hp. destruct Hp as (He & Hoff & Hr).
  destruct k as [| k]; [lia |]. simpl in Hk.
  destruct j as [| j]; simpl in Hj.
  - simplify_eq. eapply packed_lookup in Hk as (_ & Hle & _); [| done]. lia.
  - eapply (IH _ j k); try done. lia.
Qed.

(** What a successful validation establishes, in one place. *)
Record arena_facts (dir : SlotDirection) (ss : Z) (arena : RegionDesc)
    (cls : list SlotClassDesc) (va : ValidatedSlotArena)
    (act inact : list SlotClassDesc) (fin : Z) : Prop := {
  af_classes : cls = act ++ inact;
  af_inactive : Forall class_inactive inact;
  af_packed : packed (rd_offset arena) act fin;
  af_increasing : increasing None act;
  af_nonempty : (0 < length act)%nat;
  af_fin : aligned_up fin USER_VIEW_OFFSET_ALIGNMENT (rd_offset arena + rd_length arena);
  af_aligned : (64 | rd_offset arena);
  af_section : rd_offset arena + rd_length arena <= ss <= MAX_SECTION_BYTES;
  af_value : va = mkArena dir ss arena cls (Z.of_nat (length act))
                    (mkRange fin (rd_offset arena + rd_length arena));
}.

Lemma validate_slot_arena_inv dir ss arena cls va :
  0 <= rd_offset arena -> 0 <= rd_length arena ->
  validate_slot_arena dir ss arena cls = Ok va ->
  exists act inact fin, arena_facts dir ss arena cls va act inact fin.
Proof.
  intros Ho Hl H. unfold validate_slot_arena in H. inv_ok H. checked.
  match goal with H : scan_classes _ _ = Ok _ |- _ => rename H into Hscan end.
  assert (H64 : (64 | rd_offset arena)).
  { apply Z.divide_trans with USER_VIEW_OFFSET_ALIGNMENT; [by exists 1024 |].
    by apply Z.mod_divide. }
  apply scan_classes_sound in Hscan
    as (act & inact & -> & Hin & Hp & Hi & Ha & Hb & _); simpl in *; [| lia | done].
  exists act, inact, (as_cursor a0). rewrite Ha.
  match goal with H : checked_align_up _ _ = Some _ |- _ =>
    apply checked_align_up_spec in H as [Hal _]; [| done | by vm_compute | by vm_compute] end.
  split; try done; lia.
Qed.

Lemma resolve_slot_inv dir ss arena cls va act inact fin t r :
  arena_facts dir ss arena cls va act inact fin -> 0 <= rd_offset arena ->
  resolve_slot va t = Ok r ->
  exists c, act !! Z.to_nat (SlotToken_class t) = Some c /\
    SlotToken_index t < scd_slot_count c /\
    r = mkResolved t dir (scd_slot_size c)
          (mkRange (scd_data_offset c + SlotToken_index t * scd_slot_size c)
                   (scd_data_offset c + SlotToken_index t * scd_slot_size c + scd_slot_size c)).
Proof.
  intros [-> Hin Hp _ _ _ _ _ ->] Ho H. unfold resolve_slot in H; simpl in H.
  pose proof (SlotToken_class_range t). inv_ok H. checked.
  match goal with H : (_ ++ _) !! _ = Some _ |- _ => rewrite lookup_app_l in H by lia end.
  eexists. split_and!; [done | lia | done].
Qed.

(** Where one slot of a packed class lies. *)
Lemma slot_in_class cur act fin k c i :
  packed cur act fin -> act !! k = Some c -> 0 <= i < scd_slot_count c ->
  cur <= scd_data_offset c + i * scd_slot_size c /\
  scd_data_offset c + i * scd_slot_size c + scd_slot_size c
    <= scd_data_offset c + class_bytes c <= fin /\
  0 < scd_slot_size c.
Proof.
  intros Hp Hk Hi. destruct (packed_lookup _ _ _ _ _ Hp Hk) as ((Hs & _ & _) & ? & ? & _).
  unfold class_bytes, MIN_SLOT_SIZE in *. split_and!; nia.
Qed.

(** C24: a resolved slot is slot [index] of the class the token names: that
    class is an active descriptor of the arena, the index is below its slot
    count, the slot's size is the class's slot size, and its range is exactly
    the [index]-th slot after the class's data offset. It lies inside the
    class's data, which lies inside the arena, which lies inside the section; it
    starts on a 64-byte boundary and keeps the token and direction it was
    resolved for. *)
Theorem resolved_slot_in_arena dir ss arena cls va t r :
  0 <= rd_offset arena -> 0 <= rd_length arena ->
  validate_slot_arena dir ss arena cls = Ok va -> resolve_slot va t = Ok r ->
  exists c,
    cls !! Z.to_nat (SlotToken_class t) = Some c /\
    SlotToken_class t < va_active_class_count va /\
    0 <= SlotToken_index t < scd_slot_count c /\
    rs_slot_size r = scd_slot_size c /\ 0 < scd_slot_size c /\
    start (rs_section_range r) = scd_data_offset c + SlotToken_index t * scd_slot_size c /\
    end_ (rs_section_range r) = start (rs_section_range r) + scd_slot_size c /\
    range_within (scd_data_offset c) (scd_data_offset c + class_bytes c) (rs_section_range r) /\
    rd_offset arena <= scd_data_offset c /\
    scd_data_offset c + class_bytes c <= rd_offset arena + rd_length arena /\
    rd_offset arena + rd_length arena <= ss /\
    (64 | start (rs_section_range r)) /\ rs_token r = t /\ rs_direction r = dir.
Proof.
  intros Ho Hl Hv Hr.
  destruct (validate_slot_arena_inv _ _ _ _ _ Ho Hl Hv) as (act & inact & fin & F).
  destruct (resolve_slot_inv _ _ _ _ _ _ _ _ _ _ F Ho Hr) as (c & Hc & Hi & ->).
  destruct F as [-> _ Hp _ _ [_ Hf] Ha Hs ->]. simpl.
  pose proof (SlotToken_index_range t). pose proof (SlotToken_class_range t).
  pose proof (lookup_lt_Some _ _ _ Hc).
  destruct (slot_in_class _ _ _ _ _ (SlotToken_index t) Hp Hc ltac:(lia)) as (? & ? & ?).
  destruct (packed_lookup _ _ _ _ _ Hp Hc) as ((Hs1 & Hs2 & _) & ? & _ & Hd & _).
  exists c. unfold range_within. simpl. split_and!; try done; try lia.
  - by apply lookup_app_l_Some.
  - apply Z.divide_add_r.
    + replace (scd_data_offset c) with (scd_data_offset c - rd_offset arena + rd_offset arena)
        by lia. by apply Z.divide_add_r.
    + apply Z.divide_mul_r. apply (power_of_two_divide 6); [done | done |].
      unfold MIN_SLOT_SIZE in *. simpl. lia.
Qed.

(** C23: two tokens that differ in class or in index resolve to disjoint byte
    ranges, so two slots of an arena never overlap. The generation does not
    take part: tokens that agree in class and index resolve to the same range. *)
Theorem resolved_slots_disjoint dir ss arena cls va t1 t2 r1 r2 :
  0 <= rd_offset arena -> 0 <= rd_length arena ->
  validate_slot_arena dir ss arena cls = Ok va ->
  resolve_slot va t1 = Ok r1 -> resolve_slot va t2 = Ok r2 ->
  if decide ((SlotToken_class t1, SlotToken_index t1) = (SlotToken_class t2, SlotToken_index t2))
  then rs_section_range r1 = rs_section_range r2
  else ranges_disjoint (rs_section_range r1) (rs_section_range r2).
Proof.
  intros Ho Hl Hv Hr1 Hr2.
  destruct (validate_slot_arena_inv _ _ _ _ _ Ho Hl Hv) as (act & inact & fin & F).
  destruct (resolve_slot_inv _ _ _ _ _ _ _ _ _ _ F Ho Hr1) as (c1 & Hc1 & Hi1 & ->).
  destruct (resolve_slot_inv _ _ _ _ _ _ _ _ _ _ F Ho Hr2) as (c2 & Hc2 & Hi2 & ->).
  destruct F as [_ _ Hp _ _ _ _ _ _]. unfold ranges_disjoint. simpl.
  destruct (decide _) as [[= Hcls Hidx] | Hne].
  { rewrite Hcls in Hc1. rewrite Hidx. by simplify_eq. }
  pose proof (SlotToken_index_range t1). pose proof (SlotToken_index_range t2).
  pose proof (SlotToken_class_range t1). pose proof (SlotToken_class_range t2).
  destruct (slot_in_class _ _ _ _ _ (SlotToken_index t1) Hp Hc1 ltac:(lia)) as (? & ? & ?).
  destruct (slot_in_class _ _ _ _ _ (SlotToken_index t2) Hp Hc2 ltac:(lia)) as (? & ? & ?).
  destruct (Z.lt_trichotomy (SlotToken_class t1) (SlotToken_class t2)) as [Hlt | [Heq | Hgt]].
  - pose proof (packed_ordered _ _ _ _ _ _ _ Hp Hc1 Hc2 ltac:(lia)).
    assert (0 <= SlotToken_index t2 * scd_slot_size c2) by nia. lia.
  - rewrite Heq in Hc1, Hne. simplify_eq.
    assert (SlotToken_index t1 <> SlotToken_index t2) by congruence. nia.
  - pose proof (packed_ordered _ _ _ _ _ _ _ Hp Hc2 Hc1 ltac:(lia)).
    assert (0 <= SlotToken_index t1 * scd_slot_size c1) by nia. lia.
Qed.

(** C26: resolution never fails for a token whose class is active and
    whose index is below the class's slot count: the overflow exits are
    unreachable behind validation. *)
Theorem resolve_slot_total dir ss arena cls va t c :
  0 <= rd_offset arena -> 0 <= rd_length arena ->
  validate_slot_arena dir ss arena cls = Ok va ->
  SlotToken_class t < va_active_class_count va ->
  cls !! Z.to_nat (SlotToken_class t) = Some c -> SlotToken_index t < scd_slot_count c ->
  exists r, resolve_slot va t = Ok r.
Proof.
  intros Ho Hl Hv Hact Hc Hi.
  destruct (validate_slot_arena_inv _ _ _ _ _ Ho Hl Hv) as (act & inact & fin & F).
  destruct F as [-> _ Hp _ _ [_ Hf] _ Hs ->]. simpl in *.
  pose proof (SlotToken_index_range t). pose proof (SlotToken_class_range t).
  assert (Hc' : act !! Z.to_nat (SlotToken_class t) = Some c).
  { by rewrite lookup_app_l in Hc by lia. }
  destruct (slot_in_class _ _ _ _ _ (SlotToken_index t) Hp Hc' ltac:(lia)) as (? & ? & ?).
  unfold resolve_slot, checked_mul, checked_add, MAX_SECTION_BYTES, u64_max in *. simpl.
  rewrite Hc. repeat (case_match; bools; simplify_eq/=; try lia).
  all: try (by eexists). all: try nia.
Qed.

(** C25: validation accepts only a gap-free packing: the data of
    class [k] starts at the arena offset plus the bytes of the classes before
    it, and the unused tail is shorter than one view granule. *)
Theorem slot_arena_exactly_packed dir ss arena cls va :
  0 <= rd_offset arena -> 0 <= rd_length arena ->
  validate_slot_arena dir ss arena cls = Ok va ->
  (forall k c, cls !! k = Some c -> Z.of_nat k < va_active_class_count va ->
     scd_data_offset c
     = rd_offset arena + foldr (fun d acc => class_bytes d + acc) 0 (take k cls)) /\
  0 <= end_ (va_final_padding va) - start (va_final_padding va) < USER_VIEW_OFFSET_ALIGNMENT.
Proof.
  intros Ho Hl Hv.
  destruct (validate_slot_arena_inv _ _ _ _ _ Ho Hl Hv) as (act & inact & fin & F).
  destruct F as [-> _ Hp _ _ [_ Hf] _ _ ->]. simpl. split; [| lia].
  intros k c Hk Hlt. rewrite lookup_app_l in Hk by lia. rewrite take_app_le by lia.
  by apply (packed_lookup _ _ _ _ _ Hp Hk).
Qed.

(** ** Buffer references *)

Lemma validate_grant_metadata_inv g :
  validate_grant_metadata g = Ok tt ->
  range_contains (mkRange 0 (capability_length (gm_capability g))) (gm_maximum g) = true /\
  br_kind (gm_issued g) = capability_kind (gm_capability g) /\
  br_access (gm_issued g) = gm_access g /\ br_reserved (gm_issued g) = 0 /\
  br_length (gm_issued g) <> 0 /\ is_known_buffer_access (gm_access g) = true /\
  br_token (gm_issued g) =
    match gm_capability g with CapSlot s => rs_token s | CapMapping t _ => t end /\
  exists ir, checked_buffer_range (gm_issued g) = Some ir /\
    range_contains (mkRange 0 (capability_length (gm_capability g))) ir = true /\
    range_contains (gm_maximum g) ir = true.
Proof.
  intros H. unfold validate_grant_metadata, grant_capability_parts in H.
  destruct (gm_capability g) as [slot | token len]; simpl in *;
    inv_ok H; checked; unfold SlotToken_raw in *; split_and!; try done; by eexists.
Qed.

Lemma checked_buffer_range_Some r cr :
  checked_buffer_range r = Some cr ->
  cr = mkRange (br_offset r) (br_offset r + br_length r) /\
  br_offset r + br_length r <= u64_max.
Proof. unfold checked_buffer_range. intros H. inv_ok H. checked. done. Qed.

(** Whatever the policy, an accepted candidate stays inside the issued
    interval. *)
Lemma check_policy_within policy ref issued :
  0 <= br_length ref -> 0 <= br_length issued ->
  check_policy policy ref issued
    (mkRange (br_offset issued) (br_offset issued + br_length issued))
    (mkRange (br_offset ref) (br_offset ref + br_length ref)) = Ok tt ->
  br_offset issued <= br_offset ref /\
  br_offset ref + br_length ref <= br_offset issued + br_length issued.
Proof.
  intros H1 H2 H. unfold check_policy in H. destruct policy; inv_ok H; bools; try lia.
  match goal with H : range_contains _ _ = true |- _ =>
    apply range_contains_spec in H; simpl in H; lia end.
Qed.

Lemma translate_range_Ok cap cr r :
  translate_range cap cr = Ok r ->
  match cap with
  | CapSlot slot =>
      r = mkRange (start (rs_section_range slot) + start cr)
                  (start (rs_section_range slot) + end_ cr) /\
      range_contains (rs_section_range slot) r = true
  | CapMapping _ _ => r = cr
  end.
Proof.
  unfold translate_range. intros H. destruct cap; inv_ok H; checked; done.
Qed.

(** Where a granted capability's byte zero lies in the coordinates of the
    validated range: a slot's section offset, a mapping's own origin. *)
Definition capability_origin (c : GrantCapability) : Z :=
  match c with CapSlot slot => start (rs_section_range slot) | CapMapping _ _ => 0 end.

(** C4: whatever bytes the peer puts in a [BufferRef], an accepted
    reference belongs to a live grant of the expected session and owner, names
    that grant's capability and access, keeps the requested length, and its
    range lies inside the interval the grant was issued for (hence inside the
    slot's own section range). *)
Theorem validate_buffer_ref_confined ref g epoch owner policy empty vb :
  0 <= br_length ref -> 0 <= br_offset ref -> 0 <= br_token ref ->
  0 <= br_length (gm_issued g) ->
  validate_buffer_ref ref (RuleGrant g epoch owner policy empty) = Ok vb ->
  gm_state g = GrantLive /\ gm_session_epoch g = epoch /\ gm_owner g = owner /\
  vb_kind vb = capability_kind (gm_capability g) /\
  vb_token vb = br_token (gm_issued g) /\ br_access ref = gm_access g /\
  end_ (vb_range vb) - start (vb_range vb) = br_length ref /\
  range_within
    (capability_origin (gm_capability g) + br_offset (gm_issued g))
    (capability_origin (gm_capability g) + br_offset (gm_issued g)
       + br_length (gm_issued g)) (vb_range vb) /\
  match gm_capability g with
  | CapSlot slot => range_contains (rs_section_range slot) (vb_range vb) = true
  | CapMapping _ len => end_ (vb_range vb) <= len
  end.
Proof.
  intros Hl Ho Ht Hil H. unfold validate_buffer_ref in H.
  destruct (validate_grant_metadata g) as [[] |] eqn:Hg; [| done].
  apply validate_grant_metadata_inv in Hg
    as (_ & Hk & Ha & _ & _ & _ & Htok & ir & Hir & _ & _).
  rewrite Hir in H. simpl in H. apply checked_buffer_range_Some in Hir as [-> _].
  inv_ok H. checked.
  match goal with H : checked_buffer_range ref = Some _ |- _ =>
    apply checked_buffer_range_Some in H as [-> _] end.
  match goal with H : check_policy _ _ _ _ _ = Ok ?u |- _ => destruct u;
    apply check_policy_within in H as [Hp1 Hp2]; [| done | done] end.
  match goal with H : translate_range _ _ = Ok _ |- _ => apply translate_range_Ok in H as Htr end.
  match goal with H : check_capability _ _ = Ok _ |- _ => rename H into Hcap end.
  match goal with H : range_contains (mkRange 0 _) _ = true |- _ =>
    apply range_contains_spec in H; simpl in H end.
  unfold check_capability, range_within, capability_origin in *.
  destruct (gm_capability g) as [slot | token len]; simpl in *.
  - inv_ok Hcap. checked. destruct Htr as [-> Hc]. simpl.
    match goal with H : SlotToken_from_raw _ = Ok _ |- _ =>
      apply SlotToken_from_raw_Ok in H as [Htk _]; [| done] end.
    split_and!; congruence || lia.
  - inv_ok Hcap. checked. simpl. split_and!; congruence || lia.
Qed.

(** Under the [None] rule exactly the all-zero reference is accepted. *)
Theorem validate_buffer_ref_none ref vb :
  validate_buffer_ref ref RuleNone = Ok vb <->
  ref = mkBufferRef 0 0 0 0 0 0 /\ vb = mkValidatedBuffer BUFFER_NONE 0 (mkRange 0 0).
Proof.
  destruct ref as [t o l k a r]. unfold validate_buffer_ref, BUFFER_NONE. simpl. split.
  - intros H. inv_ok H. bools. by subst.
  - intros [[= -> -> -> -> -> ->] ->]. done.
Qed.

(** C27: the reference a valid slot grant was issued with is accepted back
    under every policy, provided the slot was resolved from a validated
    arena. *)
Theorem validate_buffer_ref_echo dir ss arena cls va t slot g policy empty :
  0 <= rd_offset arena -> 0 <= rd_length arena -> is_u64 t ->
  0 < SlotToken_generation t ->
  validate_slot_arena dir ss arena cls = Ok va -> resolve_slot va t = Ok slot ->
  gm_capability g = CapSlot slot -> gm_state g = GrantLive ->
  0 <= br_offset (gm_issued g) -> 0 <= br_length (gm_issued g) ->
  validate_grant_metadata g = Ok tt ->
  exists vb, validate_buffer_ref (gm_issued g)
    (RuleGrant g (gm_session_epoch g) (gm_owner g) policy empty) = Ok vb.
Proof.
  intros Ho Hl Ht Hgen Hv Hr Hcap Hlive Hio Hil Hg.
  destruct (validate_slot_arena_inv _ _ _ _ _ Ho Hl Hv) as (act & inact & fin & F).
  destruct (resolve_slot_inv _ _ _ _ _ _ _ _ _ _ F Ho Hr) as (c & Hc & Hi & Hslot).
  destruct F as [_ _ Hp _ _ [_ Hf] _ Hs _].
  pose proof (SlotToken_index_range t).
  destruct (slot_in_class _ _ _ _ _ (SlotToken_index t) Hp Hc ltac:(lia)) as (? & ? & ?).
  pose proof (validate_grant_metadata_inv _ Hg)
    as (_ & Hk & Ha & Hres & Hlen & Hacc & Htok & ir & Hir & Hcon1 & Hcon2).
  rewrite Hcap in Hk, Htok, Hcon1. simpl in Hk, Htok, Hcon1.
  assert (Hgen2 : SlotToken_generation t < 2 ^ 42).
  { rewrite SlotToken_generation_div. unfold is_u64, u64_max in Ht.
    apply Z.div_lt_upper_bound; lia. }
  assert (Hraw : SlotToken_from_raw (br_token (gm_issued g)) = Ok (rs_token slot)).
  { rewrite Htok, Hslot. simpl. apply SlotToken_from_raw_complete; [apply Ht | done]. }
  assert (Hpol : forall r, range_contains r ir = true ->
            check_policy policy (gm_issued g) (gm_issued g) ir ir = Ok tt).
  { intros r Hr'. apply range_contains_spec in Hr'. unfold check_policy.
    rewrite !Z.eqb_refl, Z.ltb_irrefl. simpl. destruct policy; try done.
    assert (range_contains ir ir = true) as ->; [| done].
    apply range_contains_spec. lia. }
  apply checked_buffer_range_Some in Hir as Hir'. destruct Hir' as [-> _].
  assert (Htr : translate_range (CapSlot slot)
            (mkRange (br_offset (gm_issued g)) (br_offset (gm_issued g) + br_length (gm_issued g)))
            = Ok (mkRange (start (rs_section_range slot) + br_offset (gm_issued g))
                    (start (rs_section_range slot)
                       + (br_offset (gm_issued g) + br_length (gm_issued g))))).
  { apply range_contains_spec in Hcon1. rewrite Hslot in Hcon1 |- *. simpl in Hcon1 |- *.
    unfold checked_add, MAX_SECTION_BYTES, u64_max in *.
    rewrite !(proj2 (Z.leb_le _ _)) by lia. simpl.
    rewrite (proj2 (range_contains_spec _ _)); [done | simpl; lia]. }
  unfold validate_buffer_ref. rewrite Hg, Hir. simpl. rewrite Hres, Hk, Hcap. simpl.
  rewrite Ha, Hacc, Hlive, !Z.eqb_refl, !bool_decide_eq_true_2 by done. simpl.
  rewrite Hraw. simpl. rewrite Z.eqb_refl. simpl.
  rewrite (proj2 (Z.eqb_neq _ _) Hlen). simpl.
  rewrite Hcon1, Hcon2. simpl. rewrite (Hpol _ Hcon2). simpl in Htr. rewrite Htr. by eexists.
Qed.

(** C36: class, index and generation survive packing into the 64-bit
    token; a raw word is accepted exactly when its generation field is nonzero,
    and is then its own token, so no two words alias one capability. *)
Theorem SlotToken_roundtrip :
  (forall c i g, 0 <= c <= 3 -> 0 <= i < 2 ^ 20 -> 0 < g < 2 ^ 42 ->
     exists t, SlotToken_try_new c i g = Ok t /\ SlotToken_class t = c /\
       SlotToken_index t = i /\ SlotToken_generation t = g /\ SlotToken_from_raw t = Ok t) /\
  (forall raw, is_u64 raw ->
     (exists t, SlotToken_from_raw raw = Ok t) <-> SlotToken_generation raw <> 0) /\
  (forall raw t, is_u64 raw -> SlotToken_from_raw raw = Ok t -> SlotToken_raw t = raw).
Proof.
  split_and!.
  - intros c i g Hc Hi Hg.
    destruct (SlotToken_try_new_complete c i g) as [t Ht]; [lia .. |].
    destruct (SlotToken_fields c i g t) as (? & ? & Hgen & ?); [lia | lia | lia | done |].
    exists t. split_and!; try done.
    apply SlotToken_from_raw_complete; [apply H1 | by rewrite Hgen].
  - intros raw Hr. split.
    + intros [t Ht]. apply SlotToken_from_raw_Ok in Ht; [lia | apply Hr].
    + intros Hg. exists raw. apply SlotToken_from_raw_complete; [apply Hr |].
      pose proof (SlotToken_generation_nonneg raw ltac:(apply Hr)).
      split; [lia |]. rewrite SlotToken_generation_div. unfold is_u64, u64_max in Hr.
      apply Z.div_lt_upper_bound; lia.
  - intros raw t Hr Ht. by apply SlotToken_from_raw_Ok in Ht as [-> _]; [| apply Hr].
Qed.

(** ** Witnesses: one arena of two classes at offset 64 KiB *)

Definition ex_arena : RegionDesc := mkRegionDesc 65536 65536.
Definition ex_classes : list SlotClassDesc :=
  [mkSlotClassDesc 256 4 65536; mkSlotClassDesc 1024 2 66560;
   mkSlotClassDesc 0 0 0; mkSlotClassDesc 0 0 0].
Definition ex_va : ValidatedSlotArena :=
  mkArena U2k 1048576 ex_arena ex_classes 2 (mkRange 68608 131072).
(** Class 1, index 1, generation 7. *)
Definition ex_token : Z := 1 + 1 * 4 + 7 * 4194304.
Definition ex_slot : ResolvedSlot := mkResolved ex_token U2k 1024 (mkRange 67584 68608).

Lemma ex_va_ok : validate_slot_arena U2k 1048576 ex_arena ex_classes = Ok ex_va.
Proof. vm_compute. reflexivity. Qed.

Lemma ex_slot_ok : resolve_slot ex_va ex_token = Ok ex_slot.
Proof. vm_compute. reflexivity. Qed.

Lemma resolved_slot_in_arena_witness :
  exists c, ex_classes !! 1%nat = Some c /\ rs_slot_size ex_slot = scd_slot_size c /\
    67584 = scd_data_offset c + 1 * scd_slot_size c.
Proof.
  destruct (resolved_slot_in_arena U2k 1048576 ex_arena ex_classes ex_va ex_token ex_slot)
    as (c & Hc & _ & _ & Hsize & _ & Hstart & _);
    [simpl; lia | simpl; lia | exact ex_va_ok | exact ex_slot_ok |].
  exists c. split; [exact Hc |]. split; [exact Hsize | exact Hstart].
Defined.

Lemma resolved_slots_disjoint_witness :
  ranges_disjoint (mkRange 67584 68608) (mkRange 66560 67584).
Proof.
  exact (resolved_slots_disjoint U2k 1048576 ex_arena ex_classes ex_va ex_token
           (1 + 0 * 4 + 9 * 4194304) ex_slot
           (mkResolved (1 + 0 * 4 + 9 * 4194304) U2k 1024 (mkRange 66560 67584))
           ltac:(discriminate) ltac:(discriminate) ex_va_ok ex_slot_ok eq_refl).
Defined.

Lemma resolve_slot_total_witness : exists r, resolve_slot ex_va ex_token = Ok r.
Proof.
  apply (resolve_slot_total U2k 1048576 ex_arena ex_classes ex_va ex_token
           (mkSlotClassDesc 1024 2 66560));
    [simpl; lia | simpl; lia | exact ex_va_ok | vm_compute; reflexivity
    | vm_compute; reflexivity | vm_compute; reflexivity].
Defined.

Lemma slot_arena_exactly_packed_witness :
  (forall k c, ex_classes !! k = Some c -> Z.of_nat k < 2 ->
     scd_data_offset c = 65536 + foldr (fun d acc => class_bytes d + acc) 0 (take k ex_classes))
  /\ 0 <= 131072 - 68608 < USER_VIEW_OFFSET_ALIGNMENT.
Proof.
  apply (slot_arena_exactly_packed U2k 1048576 ex_arena ex_classes ex_va);
    [simpl; lia | simpl; lia | exact ex_va_ok].
Defined.

Definition ex_issued : BufferRef := mkBufferRef ex_token 64 512 BUFFER_SLOT U2K_WRITE 0.
Definition ex_grant : GrantMetadata :=
  mkGrantMetadata (CapSlot ex_slot) 3 (OwnerNotificationCredit 0) U2K_WRITE
    (mkRange 0 1024) GrantLive ex_issued.

Lemma validate_buffer_ref_confined_witness :
  exists vb, validate_buffer_ref (mkBufferRef ex_token 100 20 BUFFER_SLOT U2K_WRITE 0)
    (RuleGrant ex_grant 3 (OwnerNotificationCredit 0) DerivedSubrange EmptyForbidden) = Ok vb /\
    range_within (67584 + 64) (67584 + 64 + 512) (vb_range vb).
Proof.
  eexists. split; [vm_compute; reflexivity |].
  refine (proj1 (proj2 (proj2 (proj2 (proj2 (proj2 (proj2 (proj2
    (validate_buffer_ref_confined (mkBufferRef ex_token 100 20 BUFFER_SLOT U2K_WRITE 0)
      ex_grant 3 (OwnerNotificationCredit 0) DerivedSubrange EmptyForbidden _
      _ _ _ _ _)))))))));
    try (vm_compute; discriminate). vm_compute. reflexivity.
Defined.

Lemma validate_buffer_ref_echo_witness :
  exists vb, validate_buffer_ref ex_issued
    (RuleGrant ex_grant 3 (OwnerNotificationCredit 0) Exact EmptyForbidden) = Ok vb.
Proof.
  apply (validate_buffer_ref_echo U2k 1048576 ex_arena ex_classes ex_va ex_token ex_slot
           ex_grant Exact EmptyForbidden);
    first [exact ex_va_ok | exact ex_slot_ok | reflexivity | vm_compute; reflexivity
          | vm_compute; discriminate | split; vm_compute; discriminate].
Defined.
