(* ===== verification/Features.v ===== *)
(** * Protocol features and their negotiation

    fsring-abi/src/features.rs: 128-bit feature sets, the masks of the platform
    profiles, and the selection of the features and operating-system
    capabilities of a session. The source's two-word array is a record of two
    64-bit words. *)

From S2P Require Import Prelude.

Record FeatureSet := mkFeatureSet { word0 : Z; word1 : Z }.

#[export] Instance FeatureSet_eq_dec : EqDecision FeatureSet.
Proof. solve_decision. Defined.

(** Both words are 64-bit values. *)
Definition FeatureSet_valid (s : FeatureSet) : Prop := is_u64 (word0 s) /\ is_u64 (word1 s).

Inductive FeatureError : Type := BitOutOfRange.

(** [words[(bit / 64)]]; only used below 128. *)
Definition feature_word (s : FeatureSet) (bit : Z) : Z :=
  if bit / 64 =? 0 then word0 s else word1 s.

Definition set_feature_word (s : FeatureSet) (bit value : Z) : FeatureSet :=
  if bit / 64 =? 0 then mkFeatureSet value (word1 s) else mkFeatureSet (word0 s) value.

Definition contains (s : FeatureSet) (bit : Z) : bool :=
  (bit <? 128) && negb (Z.land (feature_word s bit) (Z.shiftl 1 (bit mod 64)) =? 0).

Definition feature_insert (s : FeatureSet) (bit : Z) : result FeatureError FeatureSet :=
  if 128 <=? bit then Err BitOutOfRange
  else Ok (set_feature_word s bit (Z.lor (feature_word s bit) (Z.shiftl 1 (bit mod 64)))).

Definition is_subset_of (s offered : FeatureSet) : bool :=
  (Z.land (word0 s) (bit_not u64_max (word0 offered)) =? 0)
  && (Z.land (word1 s) (bit_not u64_max (word1 offered)) =? 0).

Definition feature_intersection (s other : FeatureSet) : FeatureSet :=
  mkFeatureSet (Z.land (word0 s) (word0 other)) (Z.land (word1 s) (word1 other)).

Definition feature_union (left right : FeatureSet) : FeatureSet :=
  mkFeatureSet (Z.lor (word0 left) (word0 right)) (Z.lor (word1 left) (word1 right)).

Definition without_bit (s : FeatureSet) (bit : Z) : FeatureSet :=
  set_feature_word s bit
    (Z.land (feature_word s bit) (bit_not u64_max (Z.shiftl 1 (bit mod 64)))).

(** ** Assigned bits and masks *)

Definition PT : Z := 0.
Definition MMAP : Z := 1.
Definition HOT_RESTART : Z := 2.
Definition EXACTLY_ONCE : Z := 3.
Definition SECURITY : Z := 4.
Definition REPARSE : Z := 5.
Definition TOKEN_DONATION : Z := 6.
Definition MAPPED_IO : Z := 7.
Definition NOTIFY_NAMES : Z := 8.
Definition CASE_SENSITIVE_NAMES : Z := 9.

Definition MDL_NO_WRITE : Z := 0.
Definition MDL_NO_EXECUTE : Z := 1.
Definition MODERN_COHERENCY : Z := 2.
Definition ARM64 : Z := 3.

Definition BASE_REQUIRED_PROTOCOL_MASK : FeatureSet := mkFeatureSet 0x10 0.
Definition UNSELECTABLE_PROTOCOL_MASK : FeatureSet := mkFeatureSet 0x360 0.
Definition WIN10_X64_PROTOCOL_MASK : FeatureSet := mkFeatureSet 0x9f 0.
Definition WIN10_ARM64_PROTOCOL_MASK : FeatureSet := mkFeatureSet 0x9f 0.
Definition WIN7_X64_PROTOCOL_MASK : FeatureSet := mkFeatureSet 0x1f 0.
Definition WIN10_X64_OS_CAPABILITIES : FeatureSet := mkFeatureSet 0x3 0.
Definition WIN10_ARM64_OS_CAPABILITIES : FeatureSet := mkFeatureSet 0xb 0.
Definition WIN7_X64_OS_CAPABILITIES : FeatureSet := mkFeatureSet 0 0.

Inductive PlatformProfile : Type := Win10X64 | Win10Arm64 | Win7X64.

Definition protocol_mask (p : PlatformProfile) : FeatureSet :=
  match p with
  | Win10X64 => WIN10_X64_PROTOCOL_MASK
  | Win10Arm64 => WIN10_ARM64_PROTOCOL_MASK
  | Win7X64 => WIN7_X64_PROTOCOL_MASK
  end.

Definition os_capability_mask (p : PlatformProfile) : FeatureSet :=
  match p with
  | Win10X64 => WIN10_X64_OS_CAPABILITIES
  | Win10Arm64 => WIN10_ARM64_OS_CAPABILITIES
  | Win7X64 => WIN7_X64_OS_CAPABILITIES
  end.

(** ** Selection *)

Record FeatureSelectionInput := mkSelectionInput {
  fi_offered_features : FeatureSet;
  fi_required_features : FeatureSet;
  fi_required_os_capabilities : FeatureSet;
  fi_implementation_protocol_mask : FeatureSet;
  fi_runtime_probe_mask : FeatureSet;
  fi_has_dedicated_service_sid : bool;
}.

Record FeatureSelection := mkSelection {
  selected_features : FeatureSet;
  detected_os_capabilities : FeatureSet;
}.

#[export] Instance FeatureSelection_eq_dec : EqDecision FeatureSelection.
Proof. solve_decision. Defined.

Inductive FeatureSelectionError : Type :=
| RequiredFeatureNotOffered
| RestartPairMismatch
| InvalidImplementationMask
| RequiredFeatureUnavailable
| RequiredOsCapabilityUnavailable
| DedicatedServiceSidRequired.

Inductive ImplementationMaskError : Type :=
| MissingSecurity
| OutsideProfile
| ContainsUnselectable
| MaskRestartPairMismatch.

Definition restart_pair_is_matched (s : FeatureSet) : bool :=
  Bool.eqb (contains s HOT_RESTART) (contains s EXACTLY_ONCE).

Definition validate_implementation_protocol_mask (profile : PlatformProfile)
    (implementation_protocol_mask : FeatureSet) : result ImplementationMaskError unit :=
  if negb (is_subset_of BASE_REQUIRED_PROTOCOL_MASK implementation_protocol_mask) then
    Err MissingSecurity
  else if negb (is_subset_of
                  (feature_intersection implementation_protocol_mask UNSELECTABLE_PROTOCOL_MASK)
                  (mkFeatureSet 0 0)) then
    Err ContainsUnselectable
  else if negb (is_subset_of implementation_protocol_mask (protocol_mask profile)) then
    Err OutsideProfile
  else if negb (restart_pair_is_matched implementation_protocol_mask) then
    Err MaskRestartPairMismatch
  else Ok tt.

Definition select_features_v21 (profile : PlatformProfile) (input : FeatureSelectionInput)
    : result FeatureSelectionError FeatureSelection :=
  if negb (is_ok (validate_implementation_protocol_mask profile
                    (fi_implementation_protocol_mask input))) then
    Err InvalidImplementationMask
  else if negb (is_subset_of (fi_required_features input) (fi_offered_features input)) then
    Err RequiredFeatureNotOffered
  else if negb (restart_pair_is_matched (fi_offered_features input))
          || negb (restart_pair_is_matched (fi_required_features input)) then
    Err RestartPairMismatch
  else
    let offered := feature_intersection (fi_offered_features input) (protocol_mask profile) in
    let implemented := feature_intersection offered (fi_implementation_protocol_mask input) in
    let required_with_base :=
      feature_union (fi_required_features input) BASE_REQUIRED_PROTOCOL_MASK in
    if negb (is_subset_of required_with_base implemented) then Err RequiredFeatureUnavailable
    else
      let detected := feature_intersection (os_capability_mask profile) (fi_runtime_probe_mask input) in
      let runtime_protocol :=
        if negb (contains detected MDL_NO_WRITE && contains detected MDL_NO_EXECUTE)
        then without_bit implemented MAPPED_IO else implemented in
      if negb (is_subset_of required_with_base runtime_protocol) then
        Err RequiredFeatureUnavailable
      else if contains (fi_required_features input) HOT_RESTART
              && negb (fi_has_dedicated_service_sid input) then
        Err DedicatedServiceSidRequired
      else
        let runtime_protocol :=
          if negb (fi_has_dedicated_service_sid input)
          then without_bit (without_bit runtime_protocol HOT_RESTART) EXACTLY_ONCE
          else runtime_protocol in
        if negb (is_subset_of (fi_required_os_capabilities input) detected) then
          Err RequiredOsCapabilityUnavailable
        else Ok (mkSelection runtime_protocol detected).

Arguments contains : simpl never.
Arguments is_subset_of : simpl never.
Arguments without_bit : simpl never.

(** ** Feature sets as sets of bits *)

Lemma land_pow2_testbit x k :
  0 <= k -> negb (Z.land x (Z.shiftl 1 k) =? 0) = Z.testbit x k.
Proof.
  intros Hk. rewrite Z.shiftl_1_l. destruct (Z.testbit x k) eqn:E.
  - apply negb_true_iff, Z.eqb_neq. intros H0.
    assert (Z.testbit (Z.land x (2 ^ k)) k = false) as H by (rewrite H0; apply Z.bits_0).
    rewrite Z.land_spec, E, Z.pow2_bits_true in H by done. done.
  - apply negb_false_iff, Z.eqb_eq. apply Z.bits_inj'. intros i Hi.
    rewrite Z.land_spec, Z.pow2_bits_eqb, Z.bits_0 by done.
    destruct (Z.eqb_spec k i) as [-> |]; [by rewrite E | by rewrite andb_false_r].
Qed.

Lemma contains_testbit s bit :
  0 <= bit -> contains s bit = (bit <? 128) && Z.testbit (feature_word s bit) (bit mod 64).
Proof.
  intros. unfold contains. rewrite land_pow2_testbit; [done |].
  apply Z.mod_pos_bound. lia.
Qed.

Lemma contains_high s bit : 128 <= bit -> contains s bit = false.
Proof. intros. unfold contains. by rewrite (proj2 (Z.ltb_ge _ _)). Qed.

Lemma u64_testbit_high x i : is_u64 x -> 64 <= i -> Z.testbit x i = false.
Proof.
  intros Hx Hi. unfold is_u64, u64_max in Hx. rewrite <- (Z.mod_small x (2 ^ 64)) by lia.
  apply Z.mod_pow2_bits_high. lia.
Qed.

(** The complement at 64 bits flips the 64 low bits. *)
Lemma bit_not_u64_testbit x i :
  is_u64 x -> 0 <= i < 64 -> Z.testbit (bit_not u64_max x) i = negb (Z.testbit x i).
Proof.
  intros Hx Hi. unfold bit_not. change u64_max with (2 ^ 64 - 1) in *.
  replace (2 ^ 64 - 1 - x) with (Z.lnot x + 1 * 2 ^ 64) by (unfold Z.lnot; lia).
  rewrite <- (Z.mod_pow2_bits_low _ 64) by lia.
  rewrite Z.mod_add by lia. rewrite Z.mod_pow2_bits_low by lia. apply Z.lnot_spec. lia.
Qed.

Lemma feature_word_valid s bit : FeatureSet_valid s -> is_u64 (feature_word s bit).
Proof. intros [? ?]. unfold feature_word. by case_match. Qed.

Lemma land_u64 x y : is_u64 x -> is_u64 y -> is_u64 (Z.land x y).
Proof.
  unfold is_u64. intros Hx Hy. split; [apply Z.land_nonneg; lia |].
  change u64_max with (Z.pred (2 ^ 64)) in *.
  apply Z.lt_le_pred. destruct (Z.eq_dec (Z.land x y) 0) as [-> | Hn]; [lia |].
  apply Z.log2_lt_pow2; [assert (0 <= Z.land x y) by (apply Z.land_nonneg; lia); lia |].
  eapply Z.le_lt_trans; [apply Z.log2_land; lia |].
  apply Z.min_lt_iff. left. destruct (Z.eq_dec x 0) as [-> | ?]; [done |].
  apply Z.log2_lt_pow2; lia.
Qed.

Lemma lor_u64 x y : is_u64 x -> is_u64 y -> is_u64 (Z.lor x y).
Proof.
  unfold is_u64. intros Hx Hy. split; [apply Z.lor_nonneg; lia |].
  change u64_max with (Z.pred (2 ^ 64)) in *.
  apply Z.lt_le_pred. destruct (Z.eq_dec (Z.lor x y) 0) as [-> | Hn]; [lia |].
  apply Z.log2_lt_pow2; [assert (0 <= Z.lor x y) by (apply Z.lor_nonneg; lia); lia |].
  rewrite Z.log2_lor by lia.
  apply Z.max_lub_lt; (destruct (Z.eq_dec x 0) as [-> | ?]; destruct (Z.eq_dec y 0) as [-> | ?];
    try done; apply Z.log2_lt_pow2; lia).
Qed.

Lemma bit_not_u64 x : is_u64 x -> is_u64 (bit_not u64_max x).
Proof. unfold is_u64, bit_not. lia. Qed.

Lemma intersection_valid s t :
  FeatureSet_valid s -> FeatureSet_valid t -> FeatureSet_valid (feature_intersection s t).
Proof. intros [? ?] [? ?]. split; by apply land_u64. Qed.

Lemma union_valid s t :
  FeatureSet_valid s -> FeatureSet_valid t -> FeatureSet_valid (feature_union s t).
Proof. intros [? ?] [? ?]. split; by apply lor_u64. Qed.

Lemma shiftl_1_u64 k : 0 <= k < 64 -> is_u64 (Z.shiftl 1 k).
Proof.
  intros Hk. rewrite Z.shiftl_1_l. unfold is_u64. change u64_max with (2 ^ 64 - 1).
  pose proof (Z.pow_pos_nonneg 2 k). pose proof (Z.pow_lt_mono_r 2 k 64). lia.
Qed.

Lemma mod64_bound bit : 0 <= bit mod 64 < 64.
Proof. apply Z.mod_pos_bound. lia. Qed.

Lemma without_bit_valid s bit : FeatureSet_valid s -> FeatureSet_valid (without_bit s bit).
Proof.
  intros Hs. pose proof (mod64_bound bit).
  assert (is_u64 (Z.land (feature_word s bit) (bit_not u64_max (Z.shiftl 1 (bit mod 64))))).
  { apply land_u64; [by apply feature_word_valid |]. by apply bit_not_u64, shiftl_1_u64. }
  destruct Hs. unfold without_bit, set_feature_word. case_match; by split.
Qed.

#[export] Hint Resolve intersection_valid union_valid without_bit_valid : fsr.

Lemma contains_intersection s t bit :
  0 <= bit -> contains (feature_intersection s t) bit = contains s bit && contains t bit.
Proof.
  intros Hb. rewrite !contains_testbit by done. unfold feature_word.
  destruct (bit <? 128); simpl; [| done]. case_match; apply Z.land_spec.
Qed.

Lemma contains_union s t bit :
  0 <= bit -> contains (feature_union s t) bit = contains s bit || contains t bit.
Proof.
  intros Hb. rewrite !contains_testbit by done. unfold feature_word.
  destruct (bit <? 128); simpl; [| done]. case_match; apply Z.lor_spec.
Qed.

Lemma contains_without_bit s b bit :
  FeatureSet_valid s -> 0 <= b < 128 -> 0 <= bit ->
  contains (without_bit s b) bit = contains s bit && negb (bit =? b).
Proof.
  intros Hs Hb Hbit. rewrite !contains_testbit by done.
  destruct (Z.ltb_spec bit 128); simpl; [| done].
  pose proof (mod64_bound bit) as Hm. pose proof (mod64_bound b) as Hmb.
  pose proof (Z.div_mod bit 64 ltac:(lia)). pose proof (Z.div_mod b 64 ltac:(lia)).
  assert (0 <= bit / 64 < 2) by (split; [apply Z.div_pos | apply Z.div_lt_upper_bound]; lia).
  assert (0 <= b / 64 < 2) by (split; [apply Z.div_pos | apply Z.div_lt_upper_bound]; lia).
  unfold without_bit, set_feature_word, feature_word.
  destruct (Z.eqb_spec (b / 64) 0), (Z.eqb_spec (bit / 64) 0); simpl;
    rewrite ?Z.land_spec, ?bit_not_u64_testbit, ?Z.shiftl_1_l, ?Z.pow2_bits_eqb
      by (first [lia | by apply shiftl_1_u64 | done]);
    try (replace (bit =? b) with (b mod 64 =? bit mod 64); [done |];
         destruct (Z.eqb_spec bit b); destruct (Z.eqb_spec (b mod 64) (bit mod 64)); lia);
    destruct (Z.eqb_spec bit b); try (by rewrite andb_true_r); subst; done.
Qed.

(** Inserting a legal bit adds that bit and nothing else; the others are
    refused. *)
Lemma contains_insert s b bit :
  0 <= b -> 0 <= bit ->
  match feature_insert s b with
  | Ok s' => b < 128 /\ contains s' bit = contains s bit || (bit =? b)
  | Err _ => 128 <= b
  end.
Proof.
  intros Hb Hbit. unfold feature_insert.
  destruct (Z.leb_spec 128 b); [done |]. split; [lia |]. rewrite !contains_testbit by done.
  pose proof (mod64_bound bit) as Hm. pose proof (mod64_bound b) as Hmb.
  pose proof (Z.div_mod bit 64 ltac:(lia)). pose proof (Z.div_mod b 64 ltac:(lia)).
  destruct (Z.ltb_spec bit 128), (Z.eqb_spec bit b); try lia; simpl; subst;
    unfold set_feature_word, feature_word;
    repeat case_match; bools; simpl in *; rewrite ?Z.lor_spec, ?Z.shiftl_1_l, ?Z.pow2_bits_eqb by lia;
    rewrite ?Z.eqb_refl, ?orb_true_r, ?orb_false_r; try done; try lia.
  all: replace (b mod 64 =? bit mod 64) with false by (symmetry; apply Z.eqb_neq; lia).
  all: by rewrite orb_false_r.
Qed.

Lemma land_bit_not_zero x y :
  is_u64 x -> is_u64 y ->
  Z.land x (bit_not u64_max y) = 0 <->
  (forall i, 0 <= i < 64 -> Z.testbit x i = true -> Z.testbit y i = true).
Proof.
  intros Hx Hy. split.
  - intros H0 i Hi Hxi.
    assert (Z.testbit (Z.land x (bit_not u64_max y)) i = false) as H
      by (rewrite H0; apply Z.bits_0).
    rewrite Z.land_spec, Hxi, bit_not_u64_testbit in H by done.
    by apply negb_false_iff in H.
  - intros Hsub. apply Z.bits_inj'. intros i Hi. rewrite Z.land_spec, Z.bits_0.
    destruct (Z.ltb_spec i 64).
    + rewrite bit_not_u64_testbit by (done || lia).
      destruct (Z.testbit x i) eqn:E; [| done]. by rewrite (Hsub i).
    + by rewrite (u64_testbit_high x i).
Qed.

(** [is_subset_of] is inclusion of the bits [contains] reports. *)
Lemma is_subset_of_spec s t :
  FeatureSet_valid s -> FeatureSet_valid t ->
  is_subset_of s t = true <->
  (forall bit, 0 <= bit -> contains s bit = true -> contains t bit = true).
Proof.
  intros Hs Ht. unfold is_subset_of. rewrite andb_true_iff, !Z.eqb_eq.
  destruct Hs as [Hs0 Hs1], Ht as [Ht0 Ht1].
  rewrite !land_bit_not_zero by done. split.
  - intros [H0 H1] bit Hb. rewrite !contains_testbit by done. pose proof (mod64_bound bit).
    destruct (bit <? 128); simpl; [| done]. unfold feature_word. case_match; auto.
  - intros H. split; intros i Hi Hx.
    + specialize (H i ltac:(lia)). rewrite !contains_testbit in H by lia.
      rewrite (proj2 (Z.ltb_lt i 128)) in H by lia. unfold feature_word in H.
      rewrite Z.div_small, Z.mod_small in H by lia. simpl in H. auto.
    + specialize (H (i + 64) ltac:(lia)). rewrite !contains_testbit in H by lia.
      rewrite (proj2 (Z.ltb_lt (i + 64) 128)) in H by lia. unfold feature_word in H.
      replace ((i + 64) / 64) with 1 in H
        by (apply (Z.div_unique _ _ _ i); lia).
      replace ((i + 64) mod 64) with i in H
        by (apply (Z.mod_unique _ _ 1); lia).
      simpl in H. auto.
Qed.

(** ** Specification of the selection *)

Section Selection.
Context (profile : PlatformProfile) (input : FeatureSelectionInput).

(** Every set of the input is made of 64-bit words. *)
Definition selection_input_valid : Prop :=
  FeatureSet_valid (fi_offered_features input) /\
  FeatureSet_valid (fi_required_features input) /\
  FeatureSet_valid (fi_required_os_capabilities input) /\
  FeatureSet_valid (fi_implementation_protocol_mask input) /\
  FeatureSet_valid (fi_runtime_probe_mask input).

(** A capability is detected when the platform can have it and the probe saw
    it. *)
Definition detects (bit : Z) : bool :=
  contains (os_capability_mask profile) bit && contains (fi_runtime_probe_mask input) bit.

(** A feature is granted when it is offered, legal on the platform and
    implemented; mapped I/O also needs both MDL protections, and the restart
    pair a dedicated service SID. *)
Definition granted (bit : Z) : bool :=
  contains (fi_offered_features input) bit
  && contains (protocol_mask profile) bit
  && contains (fi_implementation_protocol_mask input) bit
  && (negb (bit =? MAPPED_IO) || (detects MDL_NO_WRITE && detects MDL_NO_EXECUTE))
  && (negb ((bit =? HOT_RESTART) || (bit =? EXACTLY_ONCE))
      || fi_has_dedicated_service_sid input).

(** The requests the negotiation must accept, and no others. *)
Definition admissible : Prop :=
  validate_implementation_protocol_mask profile (fi_implementation_protocol_mask input) = Ok tt /\
  restart_pair_is_matched (fi_offered_features input) = true /\
  restart_pair_is_matched (fi_required_features input) = true /\
  granted SECURITY = true /\
  (forall bit, 0 <= bit -> contains (fi_required_features input) bit = true ->
    granted bit = true) /\
  (forall bit, 0 <= bit -> contains (fi_required_os_capabilities input) bit = true ->
    detects bit = true).
End Selection.

Lemma const_set_valid a b : is_u64 a -> is_u64 b -> FeatureSet_valid (mkFeatureSet a b).
Proof. by split. Qed.

Lemma protocol_mask_valid p : FeatureSet_valid (protocol_mask p).
Proof. destruct p; apply const_set_valid; unfold is_u64, u64_max; lia. Qed.

Lemma os_capability_mask_valid p : FeatureSet_valid (os_capability_mask p).
Proof. destruct p; apply const_set_valid; unfold is_u64, u64_max; lia. Qed.

Lemma base_mask_valid : FeatureSet_valid BASE_REQUIRED_PROTOCOL_MASK.
Proof. apply const_set_valid; unfold is_u64, u64_max; lia. Qed.

#[export] Hint Resolve protocol_mask_valid os_capability_mask_valid base_mask_valid : fsr.

(** A mask of one word with a single bit. *)
Lemma contains_base bit :
  0 <= bit -> contains BASE_REQUIRED_PROTOCOL_MASK bit = (bit =? SECURITY).
Proof.
  intros Hb. rewrite contains_testbit by done. unfold BASE_REQUIRED_PROTOCOL_MASK, feature_word.
  change 0x10 with (2 ^ SECURITY). simpl word0. simpl word1.
  pose proof (Z.div_mod bit 64 ltac:(lia)). pose proof (mod64_bound bit).
  destruct (Z.ltb_spec bit 128), (Z.eqb_spec bit SECURITY); subst;
    try (unfold SECURITY in *; done || lia); simpl.
  case_match; bools; [| apply Z.bits_0].
  rewrite Z.pow2_bits_eqb by done. apply Z.eqb_neq. lia.
Qed.

Section SelectionProofs.
Context (profile : PlatformProfile) (input : FeatureSelectionInput).
Hypothesis Hvalid : selection_input_valid input.

(** The sets the code computes on its way to the selection. *)
Definition implemented : FeatureSet :=
  feature_intersection (feature_intersection (fi_offered_features input) (protocol_mask profile))
    (fi_implementation_protocol_mask input).
Definition detected : FeatureSet := feature_intersection (os_capability_mask profile) (fi_runtime_probe_mask input).
Definition protected : FeatureSet :=
  if negb (contains detected MDL_NO_WRITE && contains detected MDL_NO_EXECUTE)
  then without_bit implemented MAPPED_IO else implemented.
Definition selected : FeatureSet :=
  if negb (fi_has_dedicated_service_sid input)
  then without_bit (without_bit protected HOT_RESTART) EXACTLY_ONCE else protected.

Lemma implemented_valid : FeatureSet_valid implemented.
Proof using Hvalid. destruct Hvalid as (? & ? & ? & ? & ?). unfold implemented. auto with fsr. Qed.

Lemma protected_valid : FeatureSet_valid protected.
Proof using Hvalid. pose proof implemented_valid. unfold protected. case_match; auto with fsr. Qed.

Lemma contains_implemented bit :
  0 <= bit ->
  contains implemented bit =
  contains (fi_offered_features input) bit && contains (protocol_mask profile) bit
  && contains (fi_implementation_protocol_mask input) bit.
Proof using. intros. unfold implemented. by rewrite !contains_intersection. Qed.

Lemma contains_detected bit : 0 <= bit -> contains detected bit = detects profile input bit.
Proof using. intros. unfold detected. by rewrite contains_intersection. Qed.

Lemma contains_protected bit :
  0 <= bit ->
  contains protected bit =
  contains implemented bit
  && (negb (bit =? MAPPED_IO)
      || (detects profile input MDL_NO_WRITE && detects profile input MDL_NO_EXECUTE)).
Proof using Hvalid.
  intros. unfold protected. rewrite !contains_detected by done.
  destruct (detects _ _ MDL_NO_WRITE && _) eqn:E; simpl.
  - by rewrite orb_true_r, andb_true_r.
  - rewrite contains_without_bit by (done || apply implemented_valid). by rewrite orb_false_r.
Qed.

Lemma contains_selected bit :
  0 <= bit -> contains selected bit = granted profile input bit.
Proof using Hvalid.
  intros. unfold selected, granted.
  rewrite <- contains_implemented, <- contains_protected by done.
  destruct (fi_has_dedicated_service_sid input); simpl.
  - by rewrite orb_true_r, andb_true_r.
  - rewrite !contains_without_bit
      by (done || apply without_bit_valid, protected_valid || apply protected_valid).
    rewrite orb_false_r, negb_orb. by rewrite andb_assoc.
Qed.

(** What the guards of the code say, bit by bit. *)
Lemma required_subset s :
  FeatureSet_valid s ->
  is_subset_of (feature_union (fi_required_features input) BASE_REQUIRED_PROTOCOL_MASK) s = true
  <-> contains s SECURITY = true /\
      (forall bit, 0 <= bit -> contains (fi_required_features input) bit = true ->
        contains s bit = true).
Proof using Hvalid.
  intros Hs. destruct Hvalid as (? & ? & ? & ? & ?).
  rewrite is_subset_of_spec by auto with fsr. split.
  - intros Hsub. split.
    + apply Hsub; [done |]. rewrite contains_union, contains_base by done. by rewrite orb_true_r.
    + intros bit Hb Hr. apply Hsub; [done |]. by rewrite contains_union, Hr by done.
  - intros [Hsec Hreq] bit Hb. rewrite contains_union, contains_base by done.
    intros [Hr | ->%Z.eqb_eq]%orb_true_iff; auto.
Qed.

Lemma granted_protected bit :
  0 <= bit -> granted profile input bit = true -> contains protected bit = true.
Proof using Hvalid.
  intros Hb. rewrite contains_protected, contains_implemented by done. unfold granted.
  intros [? ?]%andb_true_iff. done.
Qed.

Lemma restart_pair_spec s :
  restart_pair_is_matched s = true <-> contains s HOT_RESTART = contains s EXACTLY_ONCE.
Proof using. apply eqb_true_iff. Qed.

(** A protected bit is granted unless it is a restart bit without the SID. *)
Lemma protected_granted bit :
  0 <= bit -> contains protected bit = true ->
  (bit = HOT_RESTART \/ bit = EXACTLY_ONCE -> fi_has_dedicated_service_sid input = true) ->
  granted profile input bit = true.
Proof using Hvalid.
  intros Hb Hp Hsid. rewrite contains_protected, contains_implemented in Hp by done.
  unfold granted. rewrite Hp. simpl.
  destruct ((bit =? HOT_RESTART) || (bit =? EXACTLY_ONCE)) eqn:E; [| done]. simpl.
  apply Hsid. apply orb_true_iff in E as [E | E]; bools; auto.
Qed.

Lemma select_features_eq sel :
  select_features_v21 profile input = Ok sel ->
  admissible profile input /\ sel = mkSelection selected detected.
Proof using Hvalid.
  unfold select_features_v21.
  fold implemented detected. cbn zeta. fold protected. fold selected.
  intros H. inv_ok H. bools.
  match goal with H : is_ok ?r = true |- _ => destruct r as [[] |] eqn:Em; [clear H | done] end.
  pose proof Hvalid as (? & Hr & ? & ? & ?).
  repeat match goal with
  | H : is_subset_of (feature_union _ _) protected = true |- _ =>
      apply (required_subset _ protected_valid) in H as [Hsec Hreq]
  | H : is_subset_of (feature_union _ _) implemented = true |- _ => clear H
  | H : is_subset_of (fi_required_os_capabilities _) _ = true |- _ =>
      rewrite is_subset_of_spec in H by (unfold detected; auto with fsr); rename H into Hos
  end.
  split; [| done]. unfold admissible. split_and!; try done.
  - apply protected_granted; [done | done |]. by intros [? | ?].
  - intros bit Hb Hc. apply protected_granted; [done | by apply Hreq |]. intros Hbit.
    match goal with H : restart_pair_is_matched (fi_required_features _) = true |- _ =>
      apply restart_pair_spec in H as Hpair end.
    match goal with H : _ && negb (fi_has_dedicated_service_sid _) = false |- _ => rename H into Hg end.
    destruct (fi_has_dedicated_service_sid input); [done |]. rewrite andb_true_r in Hg.
    destruct Hbit as [-> | ->]; congruence.
  - intros bit Hb Hc. rewrite <- contains_detected by done. by apply Hos.
Qed.

Lemma select_features_complete :
  admissible profile input ->
  select_features_v21 profile input = Ok (mkSelection selected detected).
Proof using Hvalid.
  intros (Hm & Ho & Hr & Hsec & Hreq & Hos).
  pose proof Hvalid as (? & ? & ? & ? & ?).
  assert (Hprot : is_subset_of
            (feature_union (fi_required_features input) BASE_REQUIRED_PROTOCOL_MASK) protected
          = true).
  { apply required_subset; [apply protected_valid |]. split.
    - by apply granted_protected.
    - intros. apply granted_protected; auto. }
  assert (Himpl : is_subset_of
            (feature_union (fi_required_features input) BASE_REQUIRED_PROTOCOL_MASK) implemented
          = true).
  { apply required_subset; [apply implemented_valid |].
    apply (required_subset _ protected_valid) in Hprot as [Hp1 Hp2]. split.
    - rewrite contains_protected in Hp1 by done. bools. done.
    - intros bit Hb Hc. specialize (Hp2 bit Hb Hc).
      rewrite contains_protected in Hp2 by done. bools. done. }
  unfold select_features_v21.
  fold implemented detected. cbn zeta. fold protected. fold selected.
  rewrite Hm, Ho, Hr, Himpl, Hprot. simpl.
  assert (is_subset_of (fi_required_features input) (fi_offered_features input) = true) as ->.
  { apply is_subset_of_spec; [done | done |]. intros bit Hb Hc.
    specialize (Hreq bit Hb Hc). unfold granted in Hreq. bools. done. }
  assert (contains (fi_required_features input) HOT_RESTART
          && negb (fi_has_dedicated_service_sid input) = false) as ->.
  { destruct (contains (fi_required_features input) HOT_RESTART) eqn:E; [| done].
    apply Hreq in E; [| done]. unfold granted in E. bools. simpl in *.
    by destruct (fi_has_dedicated_service_sid input). }
  assert (is_subset_of (fi_required_os_capabilities input) detected = true) as ->; [| done].
  apply is_subset_of_spec; [done | unfold detected; auto with fsr |].
  intros bit Hb Hc. rewrite contains_detected by done. auto.
Qed.

Lemma select_features_valid sel :
  select_features_v21 profile input = Ok sel ->
  FeatureSet_valid (selected_features sel) /\ FeatureSet_valid (detected_os_capabilities sel).
Proof using Hvalid.
  intros H. apply select_features_eq in H as [_ ->]. simpl.
  pose proof protected_valid. destruct Hvalid as (? & ? & ? & ? & ?).
  unfold selected, detected. split; [| auto with fsr]. case_match; auto with fsr.
Qed.
End SelectionProofs.

(** C12: equivalence with the specification: the negotiation succeeds on
    exactly the admissible requests, and the sets it returns are, bit for bit,
    the granted features and the detected capabilities. *)
Theorem select_features_exact profile input :
  selection_input_valid input ->
  (is_ok (select_features_v21 profile input) = true <-> admissible profile input) /\
  (forall sel, select_features_v21 profile input = Ok sel ->
    forall bit, 0 <= bit ->
      contains (selected_features sel) bit = granted profile input bit /\
      contains (detected_os_capabilities sel) bit = detects profile input bit).
Proof.
  intros Hv. split; [split |].
  - intros Hok. destruct (select_features_v21 _ _) eqn:E; [| done].
    by apply select_features_eq in E as [? _].
  - intros Ha. by rewrite (select_features_complete _ _ Hv Ha).
  - intros sel E bit Hb. apply select_features_eq in E as [_ ->]; [| done]. simpl. split.
    + by apply contains_selected.
    + by apply contains_detected.
Qed.

(** The bits of a mask inside another are bits of the other. *)
Lemma mask_ok_unselectable profile mask bit :
  FeatureSet_valid mask ->
  validate_implementation_protocol_mask profile mask = Ok tt ->
  0 <= bit -> contains mask bit = true -> contains UNSELECTABLE_PROTOCOL_MASK bit = false.
Proof.
  intros Hm H Hb Hc. unfold validate_implementation_protocol_mask in H. inv_ok H. bools.
  match goal with H : is_subset_of (feature_intersection _ _) _ = true |- _ => rename H into Hu end.
  destruct (contains UNSELECTABLE_PROTOCOL_MASK bit) eqn:E; [| done].
  rewrite is_subset_of_spec in Hu.
  - specialize (Hu bit Hb). rewrite contains_intersection, Hc, E in Hu by done.
    specialize (Hu eq_refl). rewrite contains_testbit in Hu by done.
    unfold feature_word in Hu. simpl in Hu.
    destruct (bit / 64 =? 0); rewrite Z.bits_0, andb_false_r in Hu; done.
  - apply intersection_valid; [done |]. apply const_set_valid; unfold is_u64, u64_max; lia.
  - apply const_set_valid; unfold is_u64, u64_max; lia.
Qed.

(** C22: invariant of every negotiated session: SECURITY is on, the
    restart pair is granted whole or not at all and never without a dedicated
    service SID, no assigned-but-unselectable feature is on, mapped I/O implies
    both MDL protections, and everything required was selected. *)
Theorem selected_features_safe profile input sel :
  selection_input_valid input ->
  select_features_v21 profile input = Ok sel ->
  let on := contains (selected_features sel) in
  on SECURITY = true /\
  on HOT_RESTART = on EXACTLY_ONCE /\
  (fi_has_dedicated_service_sid input = false -> on HOT_RESTART = false) /\
  (on MAPPED_IO = true ->
    contains (detected_os_capabilities sel) MDL_NO_WRITE = true /\
    contains (detected_os_capabilities sel) MDL_NO_EXECUTE = true) /\
  (forall bit, 0 <= bit -> on bit = true -> contains UNSELECTABLE_PROTOCOL_MASK bit = false) /\
  (forall bit, 0 <= bit -> contains (fi_required_features input) bit = true -> on bit = true).
Proof.
  intros Hv Hsel on. pose proof Hv as (? & ? & ? & Hi & ?).
  apply select_features_eq in Hsel as [(Hm & Ho & Hr & Hsec & Hreq & Hos) ->]; [| done].
  subst on. cbn [selected_features detected_os_capabilities].
  rewrite !contains_selected, !contains_detected by done.
  assert (Hmask : contains (fi_implementation_protocol_mask input) HOT_RESTART
                  = contains (fi_implementation_protocol_mask input) EXACTLY_ONCE).
  { unfold validate_implementation_protocol_mask in Hm. inv_ok Hm. bools.
    by apply restart_pair_spec. }
  apply restart_pair_spec in Ho.
  split_and!.
  - done.
  - unfold granted. rewrite Ho, Hmask. by destruct profile.
  - intros Hsid. unfold granted. rewrite Hsid. simpl. by rewrite !andb_false_r.
  - unfold granted. intros [[_ Hg]%andb_true_iff _]%andb_true_iff.
    change (negb (MAPPED_IO =? MAPPED_IO)) with false in Hg. rewrite orb_false_l in Hg.
    by apply andb_true_iff.
  - intros bit Hb. rewrite contains_selected by done. intros Hg. unfold granted in Hg. bools.
    apply (mask_ok_unselectable profile (fi_implementation_protocol_mask input)); assumption.
  - intros bit Hb Hc. rewrite contains_selected by done. auto.
Qed.

(** A Windows 10 service with its own SID that asks for restart and offers
    mapped I/O. *)
Definition ex_selection_input : FeatureSelectionInput :=
  mkSelectionInput (mkFeatureSet 0x3ff 0) (mkFeatureSet 0x1c 0) (mkFeatureSet 0x1 0)
    (mkFeatureSet 0x9d 0) (mkFeatureSet 0xf 0) true.

Lemma ex_selection_input_valid : selection_input_valid ex_selection_input.
Proof. unfold selection_input_valid, FeatureSet_valid, is_u64, u64_max. simpl. lia. Qed.

Lemma ex_selection_ok :
  select_features_v21 Win10X64 ex_selection_input
  = Ok (mkSelection (mkFeatureSet 0x9d 0) (mkFeatureSet 0x3 0)).
Proof. reflexivity. Qed.

Lemma select_features_exact_witness :
  admissible Win10X64 ex_selection_input /\
  granted Win10X64 ex_selection_input MAPPED_IO = true /\
  granted Win10X64 ex_selection_input NOTIFY_NAMES = false.
Proof.
  split; [| split; reflexivity].
  apply (proj1 (select_features_exact Win10X64 ex_selection_input ex_selection_input_valid)).
  reflexivity.
Defined.

Lemma selected_features_safe_witness :
  contains (mkFeatureSet 0x9d 0) HOT_RESTART = contains (mkFeatureSet 0x9d 0) EXACTLY_ONCE /\
  contains (mkFeatureSet 0x9d 0) SECURITY = true.
Proof.
  pose proof (selected_features_safe Win10X64 ex_selection_input _
                ex_selection_input_valid ex_selection_ok) as (Hs & Hp & _).
  exact (conj Hp Hs).
Defined.
