(* ===== verification/Codec.v ===== *)
(** * Byte codec and the layout of wire structs

    fsring-abi/src/codec.rs: copying plain-old-data structs to and from bytes. A
    byte slice is a list of values below 256; the supported targets are little
    endian. The [#[repr(C)]] structs of the ABI have no implicit padding (every
    gap is an explicit reserved field), so each is described as the sequence of
    its fields: unsigned integers, fixed arrays, pairs, and the record that names
    them. Each description is an instance of the codec's [Pod] interface. *)

From S2P Require Import Prelude.

Definition bytes : Type := list Z.
Definition is_byte (b : Z) : Prop := 0 <= b < 256.
Definition blen (l : bytes) : Z := Z.of_nat (length l).

(** ** The codec *)

Record BufferTooSmall := mkBufferTooSmall { needed : Z; actual : Z }.

(** What the [Pod] marker promises of a type: a fixed size, a representation
    that every field value survives, and a meaning for every byte pattern of
    that size. [pod_valid] is the typing of
    the Rust value: every integer in its width, every array of its length. *)
Class Pod (A : Type) := {
  pod_size : nat;
  pod_valid : A -> Prop;
  pod_bytes : A -> bytes;
  pod_read : bytes -> A;
  pod_bytes_length : forall a, pod_valid a -> length (pod_bytes a) = pod_size;
  pod_read_bytes : forall a rest, pod_valid a -> pod_read (pod_bytes a ++ rest) = a;
  pod_bytes_byte : forall a, Forall is_byte (pod_bytes a);
  pod_read_take : forall l, pod_read (take pod_size l) = pod_read l;
  pod_read_valid : forall l,
    Forall is_byte l -> (pod_size <= length l)%nat -> pod_valid (pod_read l);
  pod_bytes_read : forall l,
    Forall is_byte l -> (pod_size <= length l)%nat -> pod_bytes (pod_read l) = take pod_size l;
}.

Section Codec.
Context {A : Type} `{Pod A}.

(** The count written and the buffer afterwards: the value, then zeroes. *)
Definition try_encode (value : A) (out : bytes) : result BufferTooSmall (Z * bytes) :=
  let needed := Z.of_nat pod_size in
  if blen out <? needed then Err (mkBufferTooSmall needed (blen out))
  else Ok (needed, pod_bytes value ++ replicate (length out - pod_size) 0).

Definition try_decode (input : bytes) : result BufferTooSmall A :=
  let needed := Z.of_nat pod_size in
  if blen input <? needed then Err (mkBufferTooSmall needed (blen input))
  else Ok (pod_read input).
End Codec.

(** Little-endian integers of [n] bytes. *)
Fixpoint le_bytes (n : nat) (v : Z) : bytes :=
  match n with O => [] | S n => v mod 256 :: le_bytes n (v / 256) end.

Fixpoint le_value (l : bytes) : Z :=
  match l with [] => 0 | b :: l => b + 256 * le_value l end.

Lemma le_bytes_length n : forall v, length (le_bytes n v) = n.
Proof. induction n; intros; simpl; congruence. Qed.

Lemma le_value_bytes n : forall v, 0 <= v < 256 ^ Z.of_nat n -> le_value (le_bytes n v) = v.
Proof.
  induction n as [| n IH]; intros v Hv; simpl; [lia |].
  rewrite Nat2Z.inj_succ, Z.pow_succ_r in Hv by lia.
  rewrite IH; [pose proof (Z.div_mod v 256); lia |].
  split; [apply Z.div_pos; lia | apply Z.div_lt_upper_bound; lia].
Qed.

Lemma le_bytes_byte n : forall v, Forall is_byte (le_bytes n v).
Proof.
  induction n; intros v; simpl; constructor; [| done]. unfold is_byte. apply Z.mod_pos_bound. lia.
Qed.

Lemma le_value_bound l : Forall is_byte l -> 0 <= le_value l < 256 ^ blen l.
Proof.
  unfold blen. induction l as [| b l IH]; intros Hl; [simpl; lia |].
  apply list.Forall_cons in Hl as [Hb Hl]. unfold is_byte in Hb. specialize (IH Hl).
  cbn [le_value length]. rewrite Nat2Z.inj_succ, Z.pow_succ_r by lia. lia.
Qed.

Lemma le_bytes_value l : Forall is_byte l -> le_bytes (length l) (le_value l) = l.
Proof.
  induction l as [| b l IH]; intros Hl; [done |].
  apply list.Forall_cons in Hl as [Hb Hl]. unfold is_byte in Hb. cbn [le_value length le_bytes].
  replace (b + 256 * le_value l) with (le_value l * 256 + b) by lia.
  rewrite Z.div_add_l, Z.div_small, Z.add_0_r by lia. rewrite IH by done.
  rewrite Z.add_comm, Z.mod_add, Z.mod_small by lia. done.
Qed.

(** Reading does not depend on what follows the value. *)
Lemma pod_read_more {A} (pa : Pod A) (m : nat) (l : bytes) :
  (@pod_size A pa <= m)%nat -> @pod_read A pa (take m l) = @pod_read A pa l.
Proof.
  intros Hm. rewrite <- (@pod_read_take A pa (take m l)), <- (@pod_read_take A pa l).
  rewrite firstn_firstn. f_equal. f_equal. lia.
Qed.

(** ** Integers *)

#[local] Obligation Tactic := idtac.

Program Definition uint_pod (n : nat) : Pod Z := {|
  pod_size := n;
  pod_valid := fun v => 0 <= v < 256 ^ Z.of_nat n;
  pod_bytes := le_bytes n;
  pod_read := fun l => le_value (take n l);
|}.
Next Obligation. intros. apply le_bytes_length. Qed.
Next Obligation.
  intros n v rest Hv. cbv beta.
  rewrite take_app_length' by (symmetry; apply le_bytes_length). by apply le_value_bytes.
Qed.
Next Obligation. intros. apply le_bytes_byte. Qed.
Next Obligation. intros n l. cbv beta. by rewrite firstn_firstn, Nat.min_id. Qed.
Next Obligation.
  intros n l Hl Hn. cbv beta. pose proof (le_value_bound (take n l) (Forall_take _ n _ Hl)) as Hv.
  unfold blen in Hv. rewrite length_firstn in Hv. by rewrite Nat.min_l in Hv by lia.
Qed.
Next Obligation.
  intros n l Hl Hn. cbv beta. rewrite <- (le_bytes_value (take n l)) at 2 by (by apply Forall_take).
  by rewrite length_firstn, Nat.min_l by lia.
Qed.

(** ** One field after another *)

Program Definition pair_pod {A B} (pa : Pod A) (pb : Pod B) : Pod (A * B) := {|
  pod_size := @pod_size A pa + @pod_size B pb;
  pod_valid := fun '(a, b) => @pod_valid A pa a /\ @pod_valid B pb b;
  pod_bytes := fun '(a, b) => @pod_bytes A pa a ++ @pod_bytes B pb b;
  pod_read := fun l => (@pod_read A pa l, @pod_read B pb (drop (@pod_size A pa) l));
|}.
Next Obligation.
  intros A B pa pb [a b] [Ha Hb]. cbn. rewrite length_app, !pod_bytes_length by done. done.
Qed.
Next Obligation.
  intros A B pa pb [a b] rest [Ha Hb]. cbn. rewrite <- (assoc_L (++)).
  rewrite pod_read_bytes by done.
  rewrite drop_app_length' by (symmetry; by apply pod_bytes_length).
  by rewrite pod_read_bytes.
Qed.
Next Obligation. intros A B pa pb [a b]. apply Forall_app. split; apply pod_bytes_byte. Qed.
Next Obligation.
  intros A B pa pb l. apply (f_equal2 pair).
  - apply pod_read_more. lia.
  - rewrite skipn_firstn_comm. apply pod_read_more. lia.
Qed.

Next Obligation.
  intros A B pa pb l Hl Hn. split; apply pod_read_valid; [done | lia | by apply Forall_drop |].
  rewrite length_skipn. lia.
Qed.
Next Obligation.
  intros A B pa pb l Hl Hn. cbn.
  rewrite !pod_bytes_read by (done || lia || (by apply Forall_drop) || (rewrite length_skipn; lia)).
  apply take_take_drop.
Qed.

(** ** Arrays *)

Section Array.
Context {A : Type} (pa : Pod A).

Fixpoint array_read (k : nat) (l : bytes) : list A :=
  match k with
  | O => []
  | S k => @pod_read A pa l :: array_read k (drop (@pod_size A pa) l)
  end.

Lemma array_read_length k : forall l, length (array_read k l) = k.
Proof using. induction k; intros; simpl; congruence. Qed.

Lemma array_read_bytes xs : forall rest,
  Forall (@pod_valid A pa) xs ->
  array_read (length xs) (mjoin (map (@pod_bytes A pa) xs) ++ rest) = xs.
Proof using.
  induction xs as [| x xs IH]; intros rest Hv; [done |].
  apply list.Forall_cons in Hv as [Hx Hxs]. simpl. rewrite <- (assoc_L (++)).
  rewrite pod_read_bytes by done.
  rewrite drop_app_length' by (symmetry; by apply pod_bytes_length). by rewrite IH.
Qed.

Lemma array_bytes_length xs :
  Forall (@pod_valid A pa) xs ->
  length (mjoin (map (@pod_bytes A pa) xs)) = (length xs * @pod_size A pa)%nat.
Proof using.
  induction xs as [| x xs IH]; intros Hv; [done |].
  apply list.Forall_cons in Hv as [Hx Hxs]. simpl.
  by rewrite length_app, pod_bytes_length, IH.
Qed.

Lemma array_bytes_byte xs : Forall is_byte (mjoin (map (@pod_bytes A pa) xs)).
Proof using.
  induction xs as [| x xs IH]; [constructor |]. simpl. apply Forall_app.
  split; [apply pod_bytes_byte | exact IH].
Qed.

Lemma array_read_take k : forall l,
  array_read k (take (k * @pod_size A pa) l) = array_read k l.
Proof using.
  induction k as [| k IH]; intros l; [done |]. simpl. apply (f_equal2 cons).
  - apply pod_read_more. lia.
  - rewrite skipn_firstn_comm, <- (IH (drop _ l)). f_equal. f_equal. lia.
Qed.

Lemma array_read_valid k : forall l,
  Forall is_byte l -> (k * @pod_size A pa <= length l)%nat ->
  Forall (@pod_valid A pa) (array_read k l).
Proof using.
  induction k as [| k IH]; intros l Hl Hk; [constructor |]. simpl in *. constructor.
  - apply pod_read_valid; [done | lia].
  - apply IH; [by apply Forall_drop |]. rewrite length_skipn. lia.
Qed.

Lemma array_bytes_read k : forall l,
  Forall is_byte l -> (k * @pod_size A pa <= length l)%nat ->
  mjoin (map (@pod_bytes A pa) (array_read k l)) = take (k * @pod_size A pa) l.
Proof using.
  induction k as [| k IH]; intros l Hl Hk; [done |]. simpl in *.
  rewrite pod_bytes_read by (done || lia).
  rewrite IH by (by apply Forall_drop || (rewrite length_skipn; lia)).
  apply take_take_drop.
Qed.
End Array.

Program Definition array_pod {A} (k : nat) (pa : Pod A) : Pod (list A) := {|
  pod_size := k * @pod_size A pa;
  pod_valid := fun xs => length xs = k /\ Forall (@pod_valid A pa) xs;
  pod_bytes := fun xs => mjoin (map (@pod_bytes A pa) xs);
  pod_read := array_read pa k;
|}.
Next Obligation. intros A k pa xs [<- Hv]. by apply array_bytes_length. Qed.
Next Obligation. intros A k pa xs rest [<- Hv]. by apply array_read_bytes. Qed.
Next Obligation. intros A k pa xs. apply array_bytes_byte. Qed.
Next Obligation. intros A k pa l. apply array_read_take. Qed.
Next Obligation.
  intros A k pa l Hl Hk. split; [apply array_read_length | by apply array_read_valid].
Qed.
Next Obligation. intros A k pa l Hl Hk. by apply array_bytes_read. Qed.

(** ** Named records over a sequence of fields *)

Program Definition record_pod {T A} (make : T -> A) (fields : A -> T)
    (H : forall a, make (fields a) = a) (H' : forall t, fields (make t) = t) (pt : Pod T)
    : Pod A := {|
  pod_size := @pod_size T pt;
  pod_valid := fun a => @pod_valid T pt (fields a);
  pod_bytes := fun a => @pod_bytes T pt (fields a);
  pod_read := fun l => make (@pod_read T pt l);
|}.
Next Obligation. intros T A make fields H H' pt a Hv. by apply pod_bytes_length. Qed.
Next Obligation.
  intros T A make fields H H' pt a rest Hv. cbv beta.
  rewrite (@pod_read_bytes T pt) by done. apply H.
Qed.
Next Obligation. intros. apply pod_bytes_byte. Qed.
Next Obligation. intros T A make fields H H' pt l. cbv beta. by rewrite (@pod_read_take T pt). Qed.
Next Obligation.
  intros T A make fields H H' pt l Hl Hn. cbv beta. rewrite H'. by apply pod_read_valid.
Qed.
Next Obligation.
  intros T A make fields H H' pt l Hl Hn. cbv beta. rewrite H'. by apply pod_bytes_read.
Qed.

Definition u8_pod : Pod Z := uint_pod 1.
Definition u16_pod : Pod Z := uint_pod 2.
Definition u32_pod : Pod Z := uint_pod 4.
Definition u64_pod : Pod Z := uint_pod 8.

Infix "*p" := pair_pod (at level 41, right associativity) : fsr_scope.


(** C33: round trip: encoding any [Pod] value into a buffer that is large
    enough returns its size, keeps the buffer's length, zeroes everything past
    the value, and decodes back to the value; a buffer that is too small is
    refused with both sizes by either direction. *)
Theorem codec_roundtrip (A : Type) (pod : Pod A) (a : A) (out : bytes) :
  pod_valid a ->
  match try_encode a out with
  | Ok (n, out') =>
      n = Z.of_nat (pod_size (A := A)) /\ length out' = length out /\ try_decode out' = Ok a /\
      drop (pod_size (A := A)) out' = replicate (length out - pod_size (A := A)) 0
  | Err e =>
      (length out < pod_size (A := A))%nat /\
      e = mkBufferTooSmall (Z.of_nat (pod_size (A := A))) (blen out) /\
      try_decode (A := A) out = Err e
  end.
Proof.
  intros Hv. unfold try_encode, try_decode, blen.
  destruct (Z.ltb_spec (Z.of_nat (length out)) (Z.of_nat (pod_size (A := A)))) as [Hl | Hl].
  - split_and!; [lia | done | done].
  - rewrite length_app, length_replicate, pod_bytes_length by done.
    rewrite (proj2 (Z.ltb_ge _ _)) by lia. rewrite pod_read_bytes by done.
    split_and!; [done | lia | done |].
    by rewrite drop_app_length' by (symmetry; by apply pod_bytes_length).
Qed.


(** A struct of a 32-bit and a 16-bit field. *)
Lemma codec_roundtrip_witness :
  @try_encode _ (u32_pod *p u16_pod) (0x01020304, 0x0506) (replicate 8 7)
  = Ok (6, [4; 3; 2; 1; 6; 5; 0; 0]) /\
  @try_decode _ (u32_pod *p u16_pod) [4; 3; 2; 1; 6; 5; 0; 0] = Ok (0x01020304, 0x0506).
Proof.
  split; [reflexivity |].
  exact (proj1 (proj2 (proj2 (codec_roundtrip _ (u32_pod *p u16_pod) (0x01020304, 0x0506)
    (replicate 8 7) ltac:(simpl; lia))))).
Defined.
