(* ===== verification/Control.v ===== *)
(** * Versioned control blobs

    fsring-abi/src/validate/control.rs: the checks that bound a versioned control
    blob before anything in it is used. *)

From S2P Require Import Prelude Slots Codec.

(** ** Control blobs *)

Record ControlHeader := mkControlHeader {
  struct_size : Z;
  struct_version : Z;
  required_flags : Z;
}.

Definition ControlHeader_Pod : Pod ControlHeader :=
  record_pod (fun '(a, (b, c)) => mkControlHeader a b c)
    (fun h => (struct_size h, (struct_version h, required_flags h)))
    ltac:(by intros []) ltac:(by intros (? & ? & ?)) (u32_pod *p u16_pod *p u16_pod).

#[export] Existing Instance ControlHeader_Pod.

Record BlobSlice := mkBlobSlice { bs_offset : Z; bs_length : Z }.
Record CheckedRange32 := mkRange32 { r32_start : Z; r32_end : Z }.

Inductive ControlError : Type :=
| ShortPrefix
| RevisionMismatch
| UnsupportedRequiredFlags
| InvalidSize
| InvalidRange
| InvalidAlignment
| CtlNonZeroReserved
| UnsupportedSchema
| UnclassifiedTail.

Record ControlVersionSchema := mkSchema {
  sc_version : Z;
  sc_accepted_required_flags : Z;
  sc_minimum_size : Z;
}.

(** The decoded header and the snapshot bounded by its [struct_size]. *)
Record ValidatedControlPrefix := mkPrefix { px_header : ControlHeader; px_bytes : bytes }.

Inductive EmptySliceRule : Type := EmptyForbidden | CanonicalAbsent.

Record BlobSliceRule := mkSliceRule {
  sr_minimum_offset : Z;
  sr_alignment : Z;
  sr_empty : EmptySliceRule;
}.

Inductive TailSegmentKind : Type := Payload | ZeroPadding.
Record TailSegment := mkTailSegment { ts_range : CheckedRange32; ts_kind : TailSegmentKind }.

Definition CONTROL_HEADER_SIZE : Z := 8.

Definition finish_prefix (input : bytes) (header : ControlHeader)
    (accepted_required_flags minimum_size : Z) : result ControlError ValidatedControlPrefix :=
  if negb (Z.land (required_flags header) (bit_not u16_max accepted_required_flags) =? 0) then
    Err UnsupportedRequiredFlags
  else if struct_size header <? minimum_size then Err InvalidSize
  else if blen input <? struct_size header then Err InvalidSize
  else Ok (mkPrefix header (take (Z.to_nat (struct_size header)) input)).

Fixpoint uniform_versions (prior versions : list Z) : bool :=
  match versions with
  | [] => true
  | v :: rest =>
      if (v =? 0) || existsb (Z.eqb v) prior then false
      else uniform_versions (prior ++ [v]) rest
  end.

Definition validate_uniform_registry (legal_versions : list Z) (minimum_size : Z)
    : result ControlError unit :=
  if (match legal_versions with [] => true | _ => false end)
     || (minimum_size <? CONTROL_HEADER_SIZE) then Err UnsupportedSchema
  else if uniform_versions [] legal_versions then Ok tt else Err UnsupportedSchema.

Fixpoint registry_schemas (prior schemas : list ControlVersionSchema) : bool :=
  match schemas with
  | [] => true
  | s :: rest =>
      if (sc_version s =? 0) || (sc_minimum_size s <? CONTROL_HEADER_SIZE)
         || existsb (fun p => sc_version p =? sc_version s) prior then false
      else registry_schemas (prior ++ [s]) rest
  end.

Definition validate_schema_registry (schemas : list ControlVersionSchema)
    : result ControlError unit :=
  if (match schemas with [] => true | _ => false end) then Err UnsupportedSchema
  else if registry_schemas [] schemas then Ok tt else Err UnsupportedSchema.

Definition validate_control_prefix (input : bytes) (legal_versions : list Z)
    (accepted_required_flags minimum_size : Z) : result ControlError ValidatedControlPrefix :=
  if blen input <? CONTROL_HEADER_SIZE then Err ShortPrefix
  else
    let? _ := validate_uniform_registry legal_versions minimum_size in
    let? header := map_err (fun _ => ShortPrefix) (try_decode (A := ControlHeader) input) in
    if negb (existsb (Z.eqb (struct_version header)) legal_versions) then Err RevisionMismatch
    else finish_prefix input header accepted_required_flags minimum_size.

Fixpoint select_schema (version : Z) (schemas : list ControlVersionSchema)
    : option ControlVersionSchema :=
  match schemas with
  | [] => None
  | s :: rest => if sc_version s =? version then Some s else select_schema version rest
  end.

Definition validate_control_prefix_with_schemas (input : bytes)
    (schemas : list ControlVersionSchema) : result ControlError ValidatedControlPrefix :=
  if blen input <? CONTROL_HEADER_SIZE then Err ShortPrefix
  else
    let? _ := validate_schema_registry schemas in
    let? header := map_err (fun _ => ShortPrefix) (try_decode (A := ControlHeader) input) in
    let? schema := ok_or (select_schema (struct_version header) schemas) RevisionMismatch in
    finish_prefix input header (sc_accepted_required_flags schema) (sc_minimum_size schema).

Definition resolve_blob_slice (slice : BlobSlice) (struct_size : Z) (rule : BlobSliceRule)
    : result ControlError (option CheckedRange32) :=
  if (sr_alignment rule =? 0) || negb (is_power_of_two (sr_alignment rule)) then
    Err UnsupportedSchema
  else if bs_length slice =? 0 then
    match bs_offset slice =? 0, sr_empty rule with
    | true, CanonicalAbsent => Ok None
    | _, _ => Err InvalidRange
    end
  else if bs_offset slice <? sr_minimum_offset rule then Err InvalidRange
  else if negb (Z.land (bs_offset slice) (sr_alignment rule - 1) =? 0) then Err InvalidAlignment
  else
    let? end_ := ok_or (checked_add u32_max (bs_offset slice) (bs_length slice)) InvalidRange in
    if struct_size <? end_ then Err InvalidRange
    else Ok (Some (mkRange32 (bs_offset slice) end_)).

(** The bytes [lo .. hi) of a slice. *)
Definition byte_range (l : bytes) (lo hi : Z) : bytes :=
  take (Z.to_nat (hi - lo)) (drop (Z.to_nat lo) l).

(** The loop over the segments: [cursor] is the first unclassified byte. *)
Fixpoint scan_tail (l : bytes) (cursor : Z) (segments : list TailSegment)
    : result ControlError Z :=
  match segments with
  | [] => Ok cursor
  | s :: rest =>
      let start := r32_start (ts_range s) in
      let end_ := r32_end (ts_range s) in
      if (end_ <=? start) || (blen l <? end_) || (start <? cursor) then Err InvalidRange
      else if cursor <? start then Err UnclassifiedTail
      else if (match ts_kind s with ZeroPadding => true | Payload => false end)
              && existsb (fun b => negb (b =? 0)) (byte_range l start end_) then
        Err CtlNonZeroReserved
      else scan_tail l end_ rest
  end.

Definition validate_tail_coverage (prefix : ValidatedControlPrefix) (known_size : Z)
    (segments : list TailSegment) (allow_optional_extension : bool) : result ControlError unit :=
  if known_size <? CONTROL_HEADER_SIZE then Err UnsupportedSchema
  else if blen (px_bytes prefix) <? known_size then Err InvalidRange
  else
    let? cursor := scan_tail (px_bytes prefix) known_size segments in
    if (cursor <? blen (px_bytes prefix)) && negb allow_optional_extension then
      Err UnclassifiedTail
    else Ok tt.

(** ** Proofs *)

Lemma select_schema_Some v schemas s :
  select_schema v schemas = Some s -> s ∈ schemas /\ sc_version s = v.
Proof.
  induction schemas as [| x l IH]; simpl; [done |]. case_match; bools.
  - intros [= <-]. split; [by left | done].
  - intros Hs. destruct (IH Hs). split; [by right | done].
Qed.

Lemma registry_schemas_facts schemas : forall prior,
  registry_schemas prior schemas = true ->
  Forall (fun s => sc_version s <> 0 /\ CONTROL_HEADER_SIZE <= sc_minimum_size s) schemas /\
  (NoDup (sc_version <$> prior) -> NoDup (sc_version <$> (prior ++ schemas))).
Proof.
  induction schemas as [| s l IH]; intros prior Hr; simpl in *.
  - split; [done |]. by rewrite app_nil_r.
  - destruct (_ || _) eqn:E in Hr; [done |].
    apply orb_false_iff in E as [E Hex]. apply orb_false_iff in E as [E1 E2]. bools.
    destruct (IH _ Hr) as [Hf Hn]. split; [by constructor |].
    intros Hp. rewrite (cons_middle s prior l), (assoc_L (++)). apply Hn.
    rewrite fmap_app. apply list.NoDup_app. split_and!; [done | | apply NoDup_singleton].
    intros v Hv Hs. simpl in Hs. apply list_elem_of_singleton in Hs as ->.
    apply list_elem_of_fmap in Hv as (p & Hp1 & Hp2).
    apply not_true_iff_false in Hex. apply Hex. apply existsb_exists. exists p.
    split; [by apply list_elem_of_In | by apply Z.eqb_eq].
Qed.

Lemma validate_schema_registry_Ok schemas :
  validate_schema_registry schemas = Ok tt ->
  Forall (fun s => sc_version s <> 0 /\ CONTROL_HEADER_SIZE <= sc_minimum_size s) schemas /\
  NoDup (sc_version <$> schemas).
Proof.
  unfold validate_schema_registry. repeat case_match; intros; simplify_eq.
  match goal with H : registry_schemas _ _ = true |- _ =>
    destruct (registry_schemas_facts _ _ H) as [Hf Hn] end.
  split; [done |]. apply (Hn (NoDup_nil_2)).
Qed.

(** C30: safety: an accepted control blob is self-describing and bounded:
    the snapshot is a prefix of the input of exactly [struct_size] bytes, at
    least the header, decoding it again gives the same header, and exactly one
    registered schema carries its version, whose minimum size and required-flag
    mask it respects. *)
Theorem control_prefix_sound (input : bytes) schemas p :
  validate_control_prefix_with_schemas input schemas = Ok p ->
  blen (px_bytes p) = struct_size (px_header p) /\
  CONTROL_HEADER_SIZE <= blen (px_bytes p) <= blen input /\
  px_bytes p `prefix_of` input /\
  try_decode (px_bytes p) = Ok (px_header p) /\
  exists s, s ∈ schemas /\ sc_version s = struct_version (px_header p) /\
    sc_minimum_size s <= blen (px_bytes p) /\
    Z.land (required_flags (px_header p)) (bit_not u16_max (sc_accepted_required_flags s)) = 0 /\
    (forall s', s' ∈ schemas -> sc_version s' = sc_version s -> s' = s).
Proof.
  unfold validate_control_prefix_with_schemas. intros Hv. break_in Hv.
  match goal with u : unit |- _ => destruct u end. rename Heqr into Hreg. apply validate_schema_registry_Ok in Hreg as [Hf Hn].
  apply map_err_Ok in Heqr0. apply ok_or_Ok in Heqr1. apply select_schema_Some in Heqr1 as [Hs Hsv].
  pose proof (proj1 (list.Forall_forall _ _) Hf _ Hs) as [_ Hmin]. bools.
  unfold finish_prefix in Hv. break_in Hv. simplify_eq/=. bools.
  unfold blen, CONTROL_HEADER_SIZE in *.
  assert (Hlen : length (take (Z.to_nat (struct_size a0)) input) = Z.to_nat (struct_size a0))
    by (rewrite length_take; lia).
  split_and!; rewrite ?Hlen; try lia.
  - apply prefix_take.
  - unfold try_decode, blen in *. rewrite Hlen. break_in Heqr0. bools. simplify_eq.
    rewrite (proj2 (Z.ltb_ge _ _)) by (simpl in *; lia). f_equal.
    rewrite <- (pod_read_take (take _ input)), take_take, Nat.min_l by (simpl in *; lia).
    exact (pod_read_take input).
  - exists a1. split_and!; try done; [lia |].
    intros s' Hs' Hsv'. apply list_elem_of_lookup in Hs' as [i Hi], Hs as [j Hj].
    assert (i = j) as -> by (eapply (NoDup_lookup _ _ _ _ Hn);
      rewrite list_lookup_fmap; [by rewrite Hi | rewrite Hj; simpl; congruence]).
    congruence.
Qed.

Lemma control_prefix_sound_witness :
  let input := [10; 0; 0; 0; 2; 0; 1; 0; 0xAA; 0xBB; 0xCC] in
  let p := mkPrefix (mkControlHeader 10 2 1) [10; 0; 0; 0; 2; 0; 1; 0; 0xAA; 0xBB] in
  validate_control_prefix_with_schemas input [mkSchema 1 0 8; mkSchema 2 3 9] = Ok p /\
  blen (px_bytes p) = struct_size (px_header p).
Proof.
  split; [vm_compute; reflexivity |].
  refine (proj1 (control_prefix_sound [10; 0; 0; 0; 2; 0; 1; 0; 0xAA; 0xBB; 0xCC]
    [mkSchema 1 0 8; mkSchema 2 3 9] _ _)).
  vm_compute. reflexivity.
Defined.

Definition uniform_schema (flags size v : Z) : ControlVersionSchema := mkSchema v flags size.

Lemma registry_uniform flags size versions : forall prior,
  CONTROL_HEADER_SIZE <= size ->
  registry_schemas (uniform_schema flags size <$> prior) (uniform_schema flags size <$> versions)
  = uniform_versions prior versions.
Proof.
  induction versions as [| v l IH]; intros prior Hs; [done |]. simpl.
  rewrite (proj2 (Z.ltb_ge _ _)) by done. rewrite orb_false_r.
  assert (existsb (fun p => sc_version p =? v) (uniform_schema flags size <$> prior)
          = existsb (Z.eqb v) prior) as ->.
  { clear. induction prior as [| q prior IH]; simpl; [done |]. f_equal; [apply Z.eqb_sym | exact IH]. }
  case_match; [done |]. by rewrite <- IH, fmap_app.
Qed.

Lemma select_uniform flags size v versions :
  select_schema v (uniform_schema flags size <$> versions)
  = if existsb (Z.eqb v) versions then Some (uniform_schema flags size v) else None.
Proof.
  induction versions as [| w l IH]; [done |].
  cbn [fmap list_fmap select_schema existsb]. rewrite (Z.eqb_sym v w).
  change (sc_version (uniform_schema flags size w)) with w.
  destruct (Z.eqb_spec w v) as [-> | Hne]; [done | exact IH].
Qed.

(** C31: equivalence: the validator for one uniform schema is the
    per-version validator applied to the registry that gives every legal version
    that schema, on every input and every error. *)
Theorem control_prefix_uniform (input : bytes) versions flags size :
  validate_control_prefix input versions flags size
  = validate_control_prefix_with_schemas input (uniform_schema flags size <$> versions).
Proof.
  unfold validate_control_prefix, validate_control_prefix_with_schemas.
  case_match; [done |].
  unfold validate_uniform_registry, validate_schema_registry.
  destruct versions as [| v0 versions0]; [done |]. remember (v0 :: versions0) as vs eqn:Evs.
  destruct (Z.ltb_spec size CONTROL_HEADER_SIZE) as [Hs | Hs].
  { subst vs. simpl. rewrite (proj2 (Z.ltb_lt _ _)) by done. by rewrite orb_true_r. }
  replace (match vs with [] => true | _ => false end) with false by (by subst vs).
  replace (match uniform_schema flags size <$> vs with [] => true | _ => false end) with false
    by (by subst vs).
  change (registry_schemas [] (uniform_schema flags size <$> vs)) with
    (registry_schemas (uniform_schema flags size <$> []) (uniform_schema flags size <$> vs)).
  rewrite registry_uniform by done. cbn [orb].
  destruct (uniform_versions [] vs); [| done].
  destruct (map_err _ _) as [h |]; [| done].
  rewrite (select_uniform flags size (struct_version h) vs).
  by destruct (existsb _ _).
Qed.

(** C32: bounds: a blob slice resolves exactly when it is canonically
    absent where that is allowed, or non-empty, aligned, past the fixed part and
    inside the blob without wrapping; the resolved range is then exactly
    [offset .. offset + length). *)
Theorem resolve_blob_slice_exact slice size rule r :
  0 <= bs_offset slice -> 0 <= bs_length slice -> size <= u32_max ->
  is_power_of_two (sr_alignment rule) = true ->
  resolve_blob_slice slice size rule = Ok r <->
  match r with
  | None => bs_offset slice = 0 /\ bs_length slice = 0 /\ sr_empty rule = CanonicalAbsent
  | Some rg =>
      r32_start rg = bs_offset slice /\ r32_end rg = bs_offset slice + bs_length slice /\
      r32_start rg < r32_end rg <= size /\ sr_minimum_offset rule <= r32_start rg /\
      (sr_alignment rule | r32_start rg)
  end.
Proof.
  intros Ho Hl Hsz Hp. unfold resolve_blob_slice.
  pose proof (is_power_of_two_pos _ Hp) as Hpos. rewrite Hp. simpl.
  rewrite (proj2 (Z.eqb_neq _ 0)) by lia. simpl. rewrite land_mask_mod by done.
  assert (Hdiv : (bs_offset slice mod sr_alignment rule = 0) <->
                 (sr_alignment rule | bs_offset slice)).
  { split; [apply Z.mod_divide; lia | intros; apply Z.mod_divide; [lia | done]]. }
  unfold checked_add, ok_or.
  destruct r as [[st en] |]; repeat case_match; bools; simpl in *; split; intros Hr;
    destruct_and?; simplify_eq/=; split_and?; try done; try lia; try tauto.
Qed.

Lemma resolve_blob_slice_exact_witness :
  resolve_blob_slice (mkBlobSlice 16 8) 24 (mkSliceRule 8 4 EmptyForbidden)
    = Ok (Some (mkRange32 16 24)).
Proof.
  apply (resolve_blob_slice_exact (mkBlobSlice 16 8) 24 (mkSliceRule 8 4 EmptyForbidden)
    (Some (mkRange32 16 24))); simpl; try (unfold u32_max; lia); try reflexivity.
  split_and!; try lia. exists 4. reflexivity.
Defined.

(** ** Tail coverage *)

Definition in_segment (i : Z) (s : TailSegment) : Prop :=
  r32_start (ts_range s) <= i < r32_end (ts_range s).

(** The segments tile [lo .. hi) in order, each non-empty. *)
Inductive tiles : Z -> list TailSegment -> Z -> Prop :=
| tiles_nil lo : tiles lo [] lo
| tiles_cons lo s rest hi :
    r32_start (ts_range s) = lo -> lo < r32_end (ts_range s) ->
    tiles (r32_end (ts_range s)) rest hi -> tiles lo (s :: rest) hi.

Lemma tiles_le lo segs hi : tiles lo segs hi -> lo <= hi.
Proof. induction 1; lia. Qed.

Lemma tiles_bounds lo segs hi s :
  tiles lo segs hi -> s ∈ segs -> lo <= r32_start (ts_range s) /\ r32_end (ts_range s) <= hi.
Proof.
  induction 1 as [| lo s0 rest hi Hs He Ht IH]; intros Hin; [by apply not_elem_of_nil in Hin |].
  apply elem_of_cons in Hin as [-> | Hin].
  - apply tiles_le in Ht. lia.
  - destruct (IH Hin). lia.
Qed.

Lemma tiles_nonempty lo segs hi s :
  tiles lo segs hi -> s ∈ segs -> r32_start (ts_range s) < r32_end (ts_range s).
Proof.
  induction 1 as [| lo s0 rest hi E He Ht IH]; intros Hs; [by apply not_elem_of_nil in Hs |].
  apply elem_of_cons in Hs as [-> | Hs]; [lia | by apply IH].
Qed.

Lemma tiles_unique lo segs hi i :
  tiles lo segs hi -> lo <= i < hi ->
  exists k s, segs !! k = Some s /\ in_segment i s /\
    forall k' s', segs !! k' = Some s' -> in_segment i s' -> k' = k.
Proof.
  induction 1 as [| lo s rest hi Hs He Ht IH]; intros Hi; [lia |]. unfold in_segment in *.
  destruct (Z.lt_ge_cases i (r32_end (ts_range s))) as [Hlt | Hge].
  - exists 0%nat, s. split_and!; [done | lia | lia |].
    intros k' s' Hk' Hin; destruct k' as [| k']; [done |]. simpl in Hk'.
    destruct (tiles_bounds _ _ _ s' Ht) as [? _]; [by eapply list_elem_of_lookup_2 | lia].
  - destruct IH as (k & s1 & Hk & Hin & Hu); [lia |]. exists (S k), s1. split_and!; [done | lia | lia |].
    intros k' s' Hk' Hin'; destruct k' as [| k']; [simpl in Hk'; simplify_eq; lia |].
    f_equal. by eapply Hu.
Qed.

Lemma scan_tail_tiles l segs : forall cursor hi,
  scan_tail l cursor segs = Ok hi ->
  tiles cursor segs hi /\ (cursor <= blen l -> hi <= blen l) /\
  forall s, s ∈ segs -> ts_kind s = ZeroPadding ->
    Forall (eq 0) (byte_range l (r32_start (ts_range s)) (r32_end (ts_range s))).
Proof.
  induction segs as [| s segs IH]; intros cursor hi; simpl.
  - intros [= ->]. split_and!; [constructor | done |].
    intros s Hs. by apply not_elem_of_nil in Hs.
  - intros Hr. destruct (_ || _) eqn:? in Hr; [done |]. destruct (_ <? _) eqn:? in Hr; [done |].
    destruct (_ && _) eqn:Hex in Hr; [done |].
    bools. destruct (IH _ _ Hr) as (Ht & Hle & Hz).
    split_and!; [constructor; [lia | lia | done] | intros; apply Hle; lia |].
    intros s' [-> | Hin]%elem_of_cons Hk; [| by apply Hz].
    rewrite Hk in Hex. simpl in Hex. apply Forall_forall. intros b Hb.
    destruct (Z.eq_dec 0 b) as [| Hne]; [done |]. exfalso.
    apply not_true_iff_false in Hex. apply Hex.
    apply existsb_exists. exists b. split; [done |]. apply negb_true_iff, Z.eqb_neq. congruence.
Qed.

(** Where the declared segments stop: the end of the last one, or the end of
    the known part when there is none. An optional extension can only start
    there. *)
Definition tail_end (known : Z) (segments : list TailSegment) : Z :=
  match list.last segments with
  | Some s => r32_end (ts_range s)
  | None => known
  end.

Lemma tail_end_cons known s rest :
  tail_end known (s :: rest) = tail_end (r32_end (ts_range s)) rest.
Proof. unfold tail_end. cbn [list.last]. destruct rest as [| s' rest]; [done |].
  cbn [list.last]. by destruct (list.last (s' :: rest)) eqn:E; [| apply last_None in E]. Qed.

Lemma tiles_end lo segs hi : tiles lo segs hi -> hi = tail_end lo segs.
Proof. induction 1 as [| lo s rest hi _ _ _ IH]; [done |]. by rewrite tail_end_cons. Qed.

Lemma scan_tail_complete l segs : forall cursor hi,
  tiles cursor segs hi -> hi <= blen l ->
  (forall s, s ∈ segs -> ts_kind s = ZeroPadding ->
     Forall (eq 0) (byte_range l (r32_start (ts_range s)) (r32_end (ts_range s)))) ->
  scan_tail l cursor segs = Ok hi.
Proof.
  induction segs as [| s segs IH]; intros cursor hi Ht Hle Hz;
    inversion Ht as [| ? ? ? ? Hst Hne Hrest]; subst; [done |].
  simpl. pose proof (tiles_le _ _ _ Hrest).
  rewrite !(proj2 (Z.leb_gt _ _)), !(proj2 (Z.ltb_ge _ _)) by lia. cbn [orb].
  replace (_ && _) with false; [apply IH; [done | done |] |].
  - intros s' Hs'. apply Hz. by right.
  - symmetry. destruct (ts_kind s) eqn:Hk; [done |]. cbn [andb].
    apply not_true_iff_false. intros (b & Hb & Hnz)%existsb_exists.
    apply negb_true_iff, Z.eqb_neq in Hnz. apply Hnz. symmetry.
    pose proof (Hz s ltac:(by left) Hk) as Hf. rewrite List.Forall_forall in Hf. by apply Hf.
Qed.

(** The characterisation of acceptance, for either extension mode. *)
Lemma validate_tail_coverage_iff p known segments allow :
  validate_tail_coverage p known segments allow = Ok tt <->
  CONTROL_HEADER_SIZE <= known <= blen (px_bytes p) /\
  tiles known segments (tail_end known segments) /\
  tail_end known segments <= blen (px_bytes p) /\
  (tail_end known segments < blen (px_bytes p) -> allow = true) /\
  (forall s, s ∈ segments -> ts_kind s = ZeroPadding ->
     Forall (eq 0)
       (byte_range (px_bytes p) (r32_start (ts_range s)) (r32_end (ts_range s)))).
Proof.
  unfold validate_tail_coverage. split.
  - intros Hv. break_in Hv. bools.
    match goal with H : scan_tail _ _ _ = Ok ?c |- _ =>
      destruct (scan_tail_tiles _ _ _ _ H) as (Ht & Hle & Hz); rename c into covered end.
    specialize (Hle ltac:(lia)). rewrite <- (tiles_end _ _ _ Ht).
    split_and!; try done; try lia. intros Hlt. destruct allow; [done |].
    by rewrite (proj2 (Z.ltb_lt _ _)) in * by done.
  - intros (Hk & Ht & Hle & Ha & Hz). rewrite !(proj2 (Z.ltb_ge _ _)) by lia.
    rewrite (scan_tail_complete _ _ _ _ Ht Hle Hz).
    destruct (Z.ltb_spec (tail_end known segments) (blen (px_bytes p))); [| done].
    by rewrite Ha.
Qed.

(** C29: safety: a control tail is accepted exactly when its segments, in
    their order, tile the bytes from the end of the known part to the end of the
    last segment without gap or overlap, inside the blob, with every byte of a
    zero-padding segment zero, and bytes past the last segment only where the
    schema allows an optional extension. Allowing the extension relaxes nothing
    else: in both modes every byte from the known part up to the end of the last
    segment lies in exactly one segment. *)
Theorem tail_coverage_sound p known segments allow :
  let covered := tail_end known segments in
  (validate_tail_coverage p known segments allow = Ok tt <->
   CONTROL_HEADER_SIZE <= known <= blen (px_bytes p) /\
   tiles known segments covered /\ covered <= blen (px_bytes p) /\
   (covered < blen (px_bytes p) -> allow = true) /\
   (forall s, s ∈ segments -> ts_kind s = ZeroPadding ->
      Forall (eq 0)
        (byte_range (px_bytes p) (r32_start (ts_range s)) (r32_end (ts_range s))))) /\
  (validate_tail_coverage p known segments allow = Ok tt ->
   (forall s, s ∈ segments ->
      known <= r32_start (ts_range s) < r32_end (ts_range s) /\
      r32_end (ts_range s) <= covered) /\
   forall i, known <= i < covered ->
     exists k s, segments !! k = Some s /\ in_segment i s /\
       forall k' s', segments !! k' = Some s' -> in_segment i s' -> k' = k).
Proof.
  cbn zeta. split; [apply validate_tail_coverage_iff |].
  intros (_ & Ht & _)%validate_tail_coverage_iff. split.
  - intros s Hs. destruct (tiles_bounds _ _ _ s Ht Hs).
    pose proof (tiles_nonempty _ _ _ s Ht Hs). lia.
  - intros i Hi. by eapply tiles_unique.
Qed.

(** With the extension allowed: two segments, then two bytes of extension. *)
Lemma tail_coverage_sound_witness :
  let p := mkPrefix (mkControlHeader 14 1 0) [14; 0; 0; 0; 1; 0; 0; 0; 0xAA; 0xBB; 0; 0; 7; 7] in
  let segments := [mkTailSegment (mkRange32 8 10) Payload;
                   mkTailSegment (mkRange32 10 12) ZeroPadding] in
  validate_tail_coverage p 8 segments true = Ok tt /\
  exists k s, segments !! k = Some s /\ in_segment 11 s /\
    forall k' s', segments !! k' = Some s' -> in_segment 11 s' -> k' = k.
Proof.
  split; [vm_compute; reflexivity |].
  refine (proj2 (proj2 (tail_coverage_sound
    (mkPrefix (mkControlHeader 14 1 0) [14; 0; 0; 0; 1; 0; 0; 0; 0xAA; 0xBB; 0; 0; 7; 7]) 8
    [mkTailSegment (mkRange32 8 10) Payload; mkTailSegment (mkRange32 10 12) ZeroPadding]
    true) _) 11 _); [vm_compute; reflexivity |].
  vm_compute. split; [discriminate | reflexivity].
Defined.
