(* ===== verification/Topology.v ===== *)
(** * Session setup: the requested topology

    The SETUP half of fsring-abi/src/validate/session.rs with the request struct
    of control/session.rs: decoding, revision checks, feature negotiation and the
    validation of ring counts, capacities, slot classes and notification
    credits. *)

From S2P Require Import Prelude Ids Slots Features Codec Control.

(** ** Data *)

Record SlotClassRequest := mkClassRequest { cr_slot_size : Z; cr_slot_count : Z }.

#[export] Instance SlotClassRequest_eq_dec : EqDecision SlotClassRequest.
Proof. solve_decision. Defined.

Record SetupRequestV1 := mkSetupRequest {
  su_header : ControlHeader;
  su_abi_major : Z;
  su_min_abi_minor : Z;
  su_max_abi_minor : Z;
  su_reserved0 : Z;
  su_offered_features : FeatureSet;
  su_required_features : FeatureSet;
  su_required_os_capabilities : FeatureSet;
  su_ring_count : Z;
  su_sq_capacity : Z;
  su_cq_capacity : Z;
  su_max_inflight : Z;
  su_k2u_slot_classes : list SlotClassRequest;
  su_u2k_slot_classes : list SlotClassRequest;
  su_notification_credit_count : Z;
  su_notification_credit_size : Z;
  su_flags : Z;
  su_reserved1 : Z;
}.

Definition SETUP_REQUEST_V1_SIZE : Z := 160.

Definition SlotClassRequest_Pod : Pod SlotClassRequest :=
  record_pod (fun '(a, b) => mkClassRequest a b) (fun r => (cr_slot_size r, cr_slot_count r))
    ltac:(by intros []) ltac:(by intros []) (u32_pod *p u32_pod).

#[export] Existing Instance SlotClassRequest_Pod.

Definition FeatureSet_Pod : Pod FeatureSet :=
  record_pod (fun '(a, b) => mkFeatureSet a b) (fun s => (word0 s, word1 s))
    ltac:(by intros []) ltac:(by intros []) (u64_pod *p u64_pod).

#[export] Existing Instance FeatureSet_Pod.

Definition SetupRequestV1_Pod : Pod SetupRequestV1 :=
  record_pod
    (fun '(h, (a, (b, (c, (d, (e, (f, (g, (i, (j, (k, (l, (m, (n, (o, (p, (q, r)))))))))))))))))
     => mkSetupRequest h a b c d e f g i j k l m n o p q r)
    (fun s => (su_header s, (su_abi_major s, (su_min_abi_minor s, (su_max_abi_minor s,
      (su_reserved0 s, (su_offered_features s, (su_required_features s,
      (su_required_os_capabilities s, (su_ring_count s, (su_sq_capacity s, (su_cq_capacity s,
      (su_max_inflight s, (su_k2u_slot_classes s, (su_u2k_slot_classes s,
      (su_notification_credit_count s, (su_notification_credit_size s, (su_flags s,
      su_reserved1 s))))))))))))))))))
    ltac:(by intros []) ltac:(repeat (intros [? t]; revert t); done)
    (ControlHeader_Pod *p u16_pod *p u16_pod *p u16_pod *p u16_pod
     *p FeatureSet_Pod *p FeatureSet_Pod *p FeatureSet_Pod
     *p u32_pod *p u32_pod *p u32_pod *p u32_pod
     *p array_pod SLOT_CLASS_COUNT SlotClassRequest_Pod
     *p array_pod SLOT_CLASS_COUNT SlotClassRequest_Pod
     *p u32_pod *p u32_pod *p u32_pod *p u32_pod).

#[export] Existing Instance SetupRequestV1_Pod.

Inductive SessionValidationError : Type :=
| SvInvalidParameter
| SvRevisionMismatch
| SvNotSupported
| SvAccessDenied
| SvIntegerOverflow.

#[export] Instance SessionValidationError_eq_dec : EqDecision SessionValidationError.
Proof. solve_decision. Defined.

Record ValidatedTopology := mkTopology {
  vt_ring_count : Z;
  vt_sq_capacity : Z;
  vt_cq_capacity : Z;
  vt_max_inflight : Z;
  vt_k2u_slot_classes : list SlotClassRequest;
  vt_u2k_slot_classes : list SlotClassRequest;
  vt_notification_credit_count : Z;
  vt_notification_credit_size : Z;
  vt_notification_credit_class : Z;
}.

Record ValidatedSetupRequest := mkValidatedSetup {
  vs_request : SetupRequestV1;
  vs_selected_abi_minor : Z;
  vs_selection : FeatureSelection;
  vs_topology : ValidatedTopology;
}.

(** ** Error mapping *)

Definition map_control_error (error : ControlError) : SessionValidationError :=
  match error with
  | RevisionMismatch => SvRevisionMismatch
  | UnsupportedRequiredFlags => SvNotSupported
  | ShortPrefix | InvalidSize | InvalidRange | InvalidAlignment | CtlNonZeroReserved
  | UnsupportedSchema | UnclassifiedTail => SvInvalidParameter
  end.

Definition map_feature_selection_error (error : FeatureSelectionError)
    : SessionValidationError :=
  match error with
  | RequiredFeatureNotOffered | RestartPairMismatch | InvalidImplementationMask =>
      SvInvalidParameter
  | DedicatedServiceSidRequired => SvAccessDenied
  | RequiredFeatureUnavailable | RequiredOsCapabilityUnavailable => SvNotSupported
  end.

(** ** Slot classes *)

(** The locals of the class loop. *)
Record ClassScan := mkClassScan {
  cs_active_count : Z;
  cs_previous_size : Z;
  cs_inactive_seen : bool;
}.

Definition scan_class_request (s : ClassScan) (class : SlotClassRequest)
    : result SessionValidationError ClassScan :=
  if (cr_slot_size class =? 0) || (cr_slot_count class =? 0) then
    if negb (cr_slot_size class =? 0) || negb (cr_slot_count class =? 0)
    then Err SvInvalidParameter
    else Ok (mkClassScan (cs_active_count s) (cs_previous_size s) true)
  else if cs_inactive_seen s
          || (cr_slot_size class <? MIN_SLOT_SIZE)
          || (MAX_SLOT_SIZE <? cr_slot_size class)
          || negb (is_power_of_two (cr_slot_size class))
          || (cr_slot_count class <? MIN_SLOT_COUNT)
          || (MAX_SLOT_COUNT <? cr_slot_count class)
          || (negb (cs_active_count s =? 0) && (cr_slot_size class <=? cs_previous_size s))
  then Err SvInvalidParameter
  else Ok (mkClassScan (cs_active_count s + 1) (cr_slot_size class) (cs_inactive_seen s)).

Fixpoint scan_class_requests (s : ClassScan) (classes : list SlotClassRequest)
    : result SessionValidationError ClassScan :=
  match classes with
  | [] => Ok s
  | class :: rest => let? s' := scan_class_request s class in scan_class_requests s' rest
  end.

Definition validate_slot_class_requests (classes : list SlotClassRequest)
    : result SessionValidationError unit :=
  let? s := scan_class_requests (mkClassScan 0 0 false) classes in
  if cs_active_count s =? 0 then Err SvInvalidParameter else Ok tt.

(** The loop of [select_notification_credit_class], from position [index]. *)
Fixpoint select_credit_class_from (index : Z) (classes : list SlotClassRequest)
    (credit_size credit_count : Z) : option Z :=
  match classes with
  | [] => None
  | class :: rest =>
      if cr_slot_size class =? 0 then None
      else if (credit_size <=? cr_slot_size class) && (credit_count <=? cr_slot_count class) then
        if index <=? u8_max then Some index else None
      else select_credit_class_from (index + 1) rest credit_size credit_count
  end.

Definition select_notification_credit_class (classes : list SlotClassRequest)
    (credit_size credit_count : Z) : option Z :=
  select_credit_class_from 0 classes credit_size credit_count.

Fixpoint eligible_from (total : Z) (classes : list SlotClassRequest)
    : result SessionValidationError Z :=
  match classes with
  | [] => Ok total
  | class :: rest =>
      if cr_slot_size class =? 0 then Ok total
      else if MIN_CONTROL_SLOT_SIZE <=? cr_slot_size class then
        let? total := ok_or (checked_add u32_max total (cr_slot_count class)) SvInvalidParameter in
        eligible_from total rest
      else eligible_from total rest
  end.

Definition eligible_progress_slot_count (classes : list SlotClassRequest)
    : result SessionValidationError Z :=
  eligible_from 0 classes.

(** ** Topology *)

Definition validate_topology (request : SetupRequestV1)
    : result SessionValidationError ValidatedTopology :=
  if (su_ring_count request <? MIN_RING_COUNT) || (MAX_RING_COUNT <? su_ring_count request) then
    Err SvInvalidParameter
  else if (su_sq_capacity request <? MIN_SQ_CAPACITY)
          || (MAX_SQ_CAPACITY <? su_sq_capacity request)
          || negb (is_power_of_two (su_sq_capacity request))
          || (su_cq_capacity request <? MIN_CQ_CAPACITY)
          || (MAX_CQ_CAPACITY <? su_cq_capacity request)
          || negb (is_power_of_two (su_cq_capacity request))
          || (su_max_inflight request =? 0)
          || (MAX_INFLIGHT <? su_max_inflight request)
  then Err SvInvalidParameter
  else
    let? system_request_count :=
      ok_or (checked_mul u32_max (su_ring_count request) SYSTEM_REQUEST_SLOTS_PER_RING)
            SvIntegerOverflow in
    let? system_request_end :=
      ok_or (checked_add u32_max SYSTEM_REQID_BASE system_request_count) SvIntegerOverflow in
    if GLOBAL_EXTERNAL_CHANGE_ACK_REQID <? system_request_end then Err SvIntegerOverflow
    else
      let? _ := validate_slot_class_requests (su_k2u_slot_classes request) in
      let? _ := validate_slot_class_requests (su_u2k_slot_classes request) in
      if (su_notification_credit_size request <? MIN_NOTIFICATION_CREDIT_SIZE)
         || (MAX_NOTIFICATION_CREDIT_SIZE <? su_notification_credit_size request)
         || negb (is_power_of_two (su_notification_credit_size request))
         || negb (su_notification_credit_size request mod SLOT_ALIGNMENT =? 0)
      then Err SvInvalidParameter
      else
        let? per_ring_credit_limit :=
          ok_or (checked_mul u32_max (su_ring_count request) MAX_NOTIFICATION_CREDITS_PER_RING)
                SvInvalidParameter in
        let credit_limit :=
          if per_ring_credit_limit <? MAX_NOTIFICATION_CREDITS_PER_SESSION
          then per_ring_credit_limit else MAX_NOTIFICATION_CREDITS_PER_SESSION in
        if (su_notification_credit_count request <? su_ring_count request)
           || (credit_limit <? su_notification_credit_count request)
        then Err SvInvalidParameter
        else
          let? credit_bytes :=
            ok_or (checked_mul u64_max (su_notification_credit_count request)
                                       (su_notification_credit_size request))
                  SvInvalidParameter in
          if MAX_NOTIFICATION_CREDIT_BYTES <? credit_bytes then Err SvInvalidParameter
          else
            let? notification_credit_class :=
              ok_or (select_notification_credit_class (su_u2k_slot_classes request)
                       (su_notification_credit_size request)
                       (su_notification_credit_count request))
                    SvInvalidParameter in
            let? required_k2u :=
              ok_or (checked_mul u32_max (su_ring_count request) MIN_K2U_PROGRESS_SLOTS_PER_RING)
                    SvInvalidParameter in
            let? eligible_k2u := eligible_progress_slot_count (su_k2u_slot_classes request) in
            if eligible_k2u <? required_k2u then Err SvInvalidParameter
            else
              let? required_u2k :=
                ok_or (checked_mul u32_max (su_ring_count request)
                                           MIN_U2K_PROGRESS_SLOTS_PER_RING)
                      SvInvalidParameter in
              let? eligible_u2k := eligible_progress_slot_count (su_u2k_slot_classes request) in
              let selected_class :=
                nth (Z.to_nat notification_credit_class) (su_u2k_slot_classes request)
                    (mkClassRequest 0 0) in
              let? eligible_u2k :=
                if MIN_CONTROL_SLOT_SIZE <=? cr_slot_size selected_class
                then ok_or (checked_sub eligible_u2k (su_notification_credit_count request))
                           SvInvalidParameter
                else Ok eligible_u2k in
              if eligible_u2k <? required_u2k then Err SvInvalidParameter
              else Ok (mkTopology (su_ring_count request) (su_sq_capacity request)
                         (su_cq_capacity request) (su_max_inflight request)
                         (su_k2u_slot_classes request) (su_u2k_slot_classes request)
                         (su_notification_credit_count request)
                         (su_notification_credit_size request) notification_credit_class).

(** ** The setup request *)

Definition validate_setup_request_v1 (input : bytes) (profile : PlatformProfile)
    (implementation_protocol_mask runtime_probe_mask : FeatureSet)
    (has_dedicated_service_sid : bool)
    : result SessionValidationError ValidatedSetupRequest :=
  let? prefix :=
    map_err map_control_error (validate_control_prefix input [1] 0 SETUP_REQUEST_V1_SIZE) in
  if negb (struct_size (px_header prefix) =? SETUP_REQUEST_V1_SIZE)
     || negb (blen input =? SETUP_REQUEST_V1_SIZE)
  then Err SvInvalidParameter
  else
    let? request :=
      map_err (fun _ => SvInvalidParameter)
              (try_decode (A := SetupRequestV1) (px_bytes prefix)) in
    if negb (su_reserved0 request =? 0) || negb (su_flags request =? 0)
       || negb (su_reserved1 request =? 0)
    then Err SvInvalidParameter
    else if su_max_abi_minor request <? su_min_abi_minor request then Err SvInvalidParameter
    else if negb (su_abi_major request =? 2) || (1 <? su_min_abi_minor request)
            || (su_max_abi_minor request <? 1)
    then Err SvRevisionMismatch
    else
      let? selection :=
        map_err map_feature_selection_error
          (select_features_v21 profile
             (mkSelectionInput (su_offered_features request) (su_required_features request)
                (su_required_os_capabilities request) implementation_protocol_mask
                runtime_probe_mask has_dedicated_service_sid)) in
      let? topology := validate_topology request in
      Ok (mkValidatedSetup request 1 selection topology).

(** ** Specification *)

Definition ZERO_REQUEST : SlotClassRequest := mkClassRequest 0 0.

Definition request_ok (c : SlotClassRequest) : Prop :=
  MIN_SLOT_SIZE <= cr_slot_size c <= MAX_SLOT_SIZE /\
  is_power_of_two (cr_slot_size c) = true /\
  MIN_SLOT_COUNT <= cr_slot_count c <= MAX_SLOT_COUNT.

(** Slot sizes strictly increase, above [prev] when there is one. *)
Fixpoint requests_increasing (prev : option Z) (act : list SlotClassRequest) : Prop :=
  match act with
  | [] => True
  | c :: rest =>
      match prev with Some p => p < cr_slot_size c | None => True end /\
      requests_increasing (Some (cr_slot_size c)) rest
  end.

(** Legal classes: at least one active class, of increasing sizes, then empty
    ones. *)
Definition class_requests_ok (classes : list SlotClassRequest) : Prop :=
  exists act n, classes = act ++ replicate n ZERO_REQUEST /\ act <> [] /\
    Forall request_ok act /\ requests_increasing None act.

(** Slots large enough to carry a control message. *)
Definition is_progress_class (c : SlotClassRequest) : bool :=
  MIN_CONTROL_SLOT_SIZE <=? cr_slot_size c.

Fixpoint progress_slots (classes : list SlotClassRequest) : Z :=
  match classes with
  | [] => 0
  | c :: rest => (if is_progress_class c then cr_slot_count c else 0) + progress_slots rest
  end.

Definition class_fits (size count : Z) (c : SlotClassRequest) : Prop :=
  size <= cr_slot_size c /\ count <= cr_slot_count c.

(** [k] is the first class that can hold the credits. *)
Definition first_fit (classes : list SlotClassRequest) (size count k : Z) : Prop :=
  0 <= k /\
  (exists c, classes !! Z.to_nat k = Some c /\ class_fits size count c) /\
  (forall j c, 0 <= j < k -> classes !! Z.to_nat j = Some c -> ~ class_fits size count c).

(** What a session topology promises to the rest of the driver. *)
Record topology_ok (t : ValidatedTopology) : Prop := mkTopologyOk {
  to_rings : MIN_RING_COUNT <= vt_ring_count t <= MAX_RING_COUNT;
  to_sq : MIN_SQ_CAPACITY <= vt_sq_capacity t <= MAX_SQ_CAPACITY /\
          is_power_of_two (vt_sq_capacity t) = true;
  to_cq : MIN_CQ_CAPACITY <= vt_cq_capacity t <= MAX_CQ_CAPACITY /\
          is_power_of_two (vt_cq_capacity t) = true;
  to_inflight : 0 < vt_max_inflight t <= MAX_INFLIGHT;
  to_k2u : class_requests_ok (vt_k2u_slot_classes t);
  to_u2k : class_requests_ok (vt_u2k_slot_classes t);
  to_credit_size :
    MIN_NOTIFICATION_CREDIT_SIZE <= vt_notification_credit_size t
      <= MAX_NOTIFICATION_CREDIT_SIZE /\
    is_power_of_two (vt_notification_credit_size t) = true;
  to_credit_count :
    vt_ring_count t <= vt_notification_credit_count t <=
    Z.min (vt_ring_count t * MAX_NOTIFICATION_CREDITS_PER_RING)
          MAX_NOTIFICATION_CREDITS_PER_SESSION;
  to_credit_bytes :
    vt_notification_credit_count t * vt_notification_credit_size t
      <= MAX_NOTIFICATION_CREDIT_BYTES;
  to_credit_class :
    first_fit (vt_u2k_slot_classes t) (vt_notification_credit_size t)
      (vt_notification_credit_count t) (vt_notification_credit_class t);
  to_k2u_progress :
    vt_ring_count t * MIN_K2U_PROGRESS_SLOTS_PER_RING <= progress_slots (vt_k2u_slot_classes t);
  to_u2k_progress :
    vt_ring_count t * MIN_U2K_PROGRESS_SLOTS_PER_RING +
    (match vt_u2k_slot_classes t !! Z.to_nat (vt_notification_credit_class t) with
     | Some c => if is_progress_class c then vt_notification_credit_count t else 0
     | None => 0
     end) <= progress_slots (vt_u2k_slot_classes t);
}.

(** The topology carries the request's own numbers. *)
Definition topology_of (r : SetupRequestV1) (t : ValidatedTopology) : Prop :=
  exists class,
    t = mkTopology (su_ring_count r) (su_sq_capacity r) (su_cq_capacity r) (su_max_inflight r)
          (su_k2u_slot_classes r) (su_u2k_slot_classes r) (su_notification_credit_count r)
          (su_notification_credit_size r) class.

(** ** Slot classes *)

Definition previous_of (s : ClassScan) : option Z :=
  if cs_active_count s =? 0 then None else Some (cs_previous_size s).

Lemma request_ok_pos c : request_ok c -> 0 < cr_slot_size c /\ 0 < cr_slot_count c.
Proof. unfold request_ok, MIN_SLOT_SIZE, MIN_SLOT_COUNT. lia. Qed.

Lemma scan_class_request_zero s :
  scan_class_request s ZERO_REQUEST
  = Ok (mkClassScan (cs_active_count s) (cs_previous_size s) true).
Proof. done. Qed.

(** An active class passes exactly when it is legal and above the previous. *)
Lemma scan_class_request_active s c s' :
  0 <= cs_active_count s -> c <> ZERO_REQUEST ->
  scan_class_request s c = Ok s' <->
  cs_inactive_seen s = false /\ request_ok c /\
  match previous_of s with Some p => p < cr_slot_size c | None => True end /\
  s' = mkClassScan (cs_active_count s + 1) (cr_slot_size c) false.
Proof.
  intros Hc Hz. unfold scan_class_request, previous_of. split.
  - intros H. inv_ok H; bools.
    + destruct Hz. destruct c; simpl in *; subst; done.
    + unfold request_ok. split_and!; try done; try lia; [| by f_equal].
      match goal with H : negb _ && _ = false |- _ => apply andb_false_iff in H end.
      destruct (cs_active_count s =? 0); [done |]. destruct_or?; bools; [done | lia].
  - intros (Hi & Hok & Hp & ->). pose proof (request_ok_pos _ Hok).
    destruct Hok as (? & Hpow & ?).
    rewrite !(proj2 (Z.eqb_neq _ _)) by lia. rewrite Hi, Hpow.
    rewrite !(proj2 (Z.ltb_ge _ _)) by lia. simpl.
    destruct (cs_active_count s =? 0) eqn:E; [done |]. simpl.
    by rewrite (proj2 (Z.leb_gt _ _)) by lia.
Qed.

Lemma scan_class_requests_Ok cls : forall s s',
  0 <= cs_active_count s ->
  scan_class_requests s cls = Ok s' ->
  exists act n, cls = act ++ replicate n ZERO_REQUEST /\ Forall request_ok act /\
    requests_increasing (previous_of s) act /\ (cs_inactive_seen s = true -> act = []) /\
    cs_active_count s' = cs_active_count s + Z.of_nat (length act).
Proof.
  induction cls as [| c cls IH]; intros s s' Hs H; simpl in H.
  { exists [], O. simplify_eq. split_and!; try done. simpl. lia. }
  destruct (scan_class_request s c) as [s1 |] eqn:E1; [| done].
  destruct (decide (c = ZERO_REQUEST)) as [-> | Hz].
  - rewrite scan_class_request_zero in E1. simplify_eq.
    apply IH in H as (act & n & -> & ? & ? & Hin & ?); [| done].
    rewrite Hin by done. exists [], (S n). split_and!; try done.
    rewrite Hin in * by done. done.
  - apply scan_class_request_active in E1 as (Hi & Hok & Hp & ->); [| done | done].
    apply IH in H as (act & n & -> & ? & Hinc & Hin & Hn); [| simpl; lia].
    exists (c :: act), n. split_and!; try done.
    + by constructor.
    + split; [done |]. unfold previous_of in Hinc. simpl in Hinc.
      by rewrite (proj2 (Z.eqb_neq _ _)) in Hinc by lia.
    + congruence.
    + simpl in *. lia.
Qed.

Lemma scan_class_requests_zeroes n : forall s,
  exists s', scan_class_requests s (replicate n ZERO_REQUEST) = Ok s' /\
    cs_active_count s' = cs_active_count s.
Proof.
  induction n as [| n IH]; intros s; [by exists s |].
  simpl. destruct (IH (mkClassScan (cs_active_count s) (cs_previous_size s) true)) as (s' & ? & ?).
  by exists s'.
Qed.

Lemma scan_class_requests_complete act n : forall s,
  0 <= cs_active_count s -> cs_inactive_seen s = false -> Forall request_ok act ->
  requests_increasing (previous_of s) act ->
  exists s', scan_class_requests s (act ++ replicate n ZERO_REQUEST) = Ok s' /\
    cs_active_count s' = cs_active_count s + Z.of_nat (length act).
Proof.
  induction act as [| c act IH]; intros s Hs Hi Hf Hinc.
  { destruct (scan_class_requests_zeroes n s) as (s' & ? & ?). exists s'. simpl. split; [done | lia]. }
  apply list.Forall_cons in Hf as [Hc Hf]. destruct Hinc as [Hp Hinc].
  pose proof (request_ok_pos _ Hc).
  assert (Hz : c <> ZERO_REQUEST) by (intros ->; simpl in *; lia).
  cbn [app scan_class_requests].
  rewrite (proj2 (scan_class_request_active s c _ Hs Hz) (conj Hi (conj Hc (conj Hp eq_refl)))).
  destruct (IH (mkClassScan (cs_active_count s + 1) (cr_slot_size c) false))
    as (s' & -> & Hn); simpl in *; [lia | done | done | |].
  { unfold previous_of. simpl. by rewrite (proj2 (Z.eqb_neq _ _)) by lia. }
  exists s'. split; [done |]. lia.
Qed.

Lemma validate_slot_class_requests_Ok classes :
  validate_slot_class_requests classes = Ok tt <-> class_requests_ok classes.
Proof.
  unfold validate_slot_class_requests. split.
  - intros H. destruct (scan_class_requests _ _) as [s |] eqn:E; [| done].
    apply scan_class_requests_Ok in E as (act & n & -> & ? & ? & _ & Hn); [| done].
    exists act, n. split_and!; try done. intros ->. simpl in *. by rewrite Hn in H.
  - intros (act & n & -> & Hne & Hf & Hinc).
    destruct (scan_class_requests_complete act n (mkClassScan 0 0 false)) as (s' & -> & Hn);
      try done.
    rewrite (proj2 (Z.eqb_neq _ _)); [done |]. rewrite Hn. destruct act; [done | simpl; lia].
Qed.

(** Every failure of the loop is [InvalidParameter]. *)
Lemma scan_class_requests_Err cls : forall s e,
  scan_class_requests s cls = Err e -> e = SvInvalidParameter.
Proof.
  induction cls as [| c cls IH]; intros s e H; simpl in H; [done |].
  destruct (scan_class_request s c) eqn:E; [by eapply IH |].
  unfold scan_class_request in E. by repeat case_match; simplify_eq.
Qed.

Lemma validate_slot_class_requests_Err classes e :
  validate_slot_class_requests classes = Err e -> e = SvInvalidParameter.
Proof.
  unfold validate_slot_class_requests. repeat case_match; intros; simplify_eq; [done |].
  by eapply scan_class_requests_Err.
Qed.

Lemma progress_slots_nonneg cls :
  Forall (fun c => 0 <= cr_slot_count c) cls -> 0 <= progress_slots cls.
Proof. induction 1; simpl; [done |]. case_match; lia. Qed.

Lemma progress_slots_bound cls :
  Forall (fun c => 0 <= cr_slot_count c <= MAX_SLOT_COUNT) cls ->
  progress_slots cls <= Z.of_nat (length cls) * MAX_SLOT_COUNT.
Proof.
  induction 1; [simpl; lia |]. cbn [progress_slots length]. rewrite Nat2Z.inj_succ.
  case_match; lia.
Qed.

Lemma eligible_from_eq act n : forall total,
  Forall request_ok act ->
  total + progress_slots act <= u32_max ->
  eligible_from total (act ++ replicate n ZERO_REQUEST) = Ok (total + progress_slots act).
Proof.
  induction act as [| c act IH]; intros total Hf Hb.
  { destruct n; simpl; f_equal; lia. }
  apply list.Forall_cons in Hf as [Hc Hf]. pose proof (request_ok_pos _ Hc).
  assert (0 <= progress_slots act).
  { apply progress_slots_nonneg. apply (Forall_impl _ (P := request_ok)); [| exact Hf].
    intros x Hx. pose proof (request_ok_pos _ Hx). lia. }
  cbn [app eligible_from progress_slots] in *. unfold is_progress_class in *.
  rewrite (proj2 (Z.eqb_neq _ _)) by lia.
  destruct (MIN_CONTROL_SLOT_SIZE <=? cr_slot_size c).
  - unfold checked_add. rewrite (proj2 (Z.leb_le _ _)) by lia. simpl.
    rewrite IH by (done || lia). f_equal. lia.
  - rewrite IH by (done || lia). f_equal.
Qed.

Lemma progress_slots_app a b : progress_slots (a ++ b) = progress_slots a + progress_slots b.
Proof. induction a; simpl; lia. Qed.

Lemma progress_slots_zeroes n : progress_slots (replicate n ZERO_REQUEST) = 0.
Proof. induction n; simpl; [done |]. by rewrite IHn. Qed.

(** The classes of an array never overflow the 32-bit total. *)
Lemma eligible_progress_slot_count_eq classes :
  class_requests_ok classes -> length classes = SLOT_CLASS_COUNT ->
  eligible_progress_slot_count classes = Ok (progress_slots classes).
Proof.
  intros (act & n & -> & _ & Hf & _) Hl. unfold eligible_progress_slot_count.
  rewrite progress_slots_app, progress_slots_zeroes, Z.add_0_r.
  rewrite eligible_from_eq; [done | done |].
  pose proof (progress_slots_bound act) as Hb.
  rewrite length_app in Hl. unfold SLOT_CLASS_COUNT in Hl.
  assert (Z.of_nat (length act) * MAX_SLOT_COUNT <= 4 * MAX_SLOT_COUNT)
    by (apply Z.mul_le_mono_nonneg_r; [done | lia]).
  change (4 * MAX_SLOT_COUNT) with 4194304 in *. unfold u32_max.
  rewrite Z.add_0_l. etrans; [apply Hb | lia].
  apply (Forall_impl _ (P := request_ok)); [| exact Hf]. intros x (? & ? & ?). unfold MIN_SLOT_COUNT in *. lia.
Qed.

(** The index the search returns is that of the first class that fits. *)
Lemma select_credit_class_from_Some act n size count : forall index k,
  0 <= index -> 0 < size -> Forall request_ok act ->
  index + Z.of_nat (length act) <= u8_max ->
  select_credit_class_from index (act ++ replicate n ZERO_REQUEST) size count = Some k <->
  index <= k /\ first_fit (act ++ replicate n ZERO_REQUEST) size count (k - index).
Proof.
  induction act as [| c act IH]; intros index k Hi Hsz Hf Hb.
  { assert (select_credit_class_from index ([] ++ replicate n ZERO_REQUEST) size count = None) as ->
      by (by destruct n). split; [done |].
    intros (? & ? & (c & Hc & Hfit & _) & _). exfalso.
    apply lookup_replicate in Hc as [-> _]. simpl in *. lia. }
  apply list.Forall_cons in Hf as [Hc Hf]. pose proof (request_ok_pos _ Hc).
  cbn [app select_credit_class_from length] in *. rewrite Nat2Z.inj_succ in Hb.
  rewrite (proj2 (Z.eqb_neq _ _)) by lia.
  destruct ((size <=? cr_slot_size c) && (count <=? cr_slot_count c)) eqn:E.
  - rewrite (proj2 (Z.leb_le _ _)) by lia. bools. split.
    + intros [= ->]. rewrite Z.sub_diag. split; [lia |].
      split_and!; [done | exists c; done | intros; lia].
    + intros (Hk & _ & _ & Hno). f_equal.
      destruct (decide (k = index)) as [-> | Hne]; [done |].
      exfalso. apply (Hno 0 c); [lia | done | done].
  - rewrite (IH (index + 1) k) by (done || lia).
    assert (Hnf : ~ class_fits size count c).
    { intros [? ?]. apply andb_false_iff in E as [E | E]; bools; lia. }
    split.
    + intros (Hk & Hk0 & (d & Hd & Hfit) & Hno). split; [lia |]. split_and!; [lia | |].
      * exists d. replace (Z.to_nat (k - index)) with (S (Z.to_nat (k - (index + 1)))) by lia.
        done.
      * intros j e Hj He. destruct (decide (j = 0)) as [-> | Hj0]; [by simplify_eq/= |].
        apply (Hno (j - 1)); [lia |].
        replace (Z.to_nat j) with (S (Z.to_nat (j - 1))) in He by lia. done.
    + intros (Hk & _ & (d & Hd & Hfit) & Hno).
      destruct (decide (k = index)) as [-> | Hne].
      { rewrite Z.sub_diag in Hd. simplify_eq/=. by destruct Hnf. }
      split; [lia |]. split_and!; [lia | |].
      * exists d. replace (Z.to_nat (k - index)) with (S (Z.to_nat (k - (index + 1)))) in Hd by lia.
        done.
      * intros j e Hj He. apply (Hno (j + 1)); [lia |].
        by replace (Z.to_nat (j + 1)) with (S (Z.to_nat j)) by lia.
Qed.

Lemma select_notification_credit_class_Some classes size count k :
  class_requests_ok classes -> length classes = SLOT_CLASS_COUNT -> 0 < size ->
  select_notification_credit_class classes size count = Some k <->
  first_fit classes size count k.
Proof.
  intros (act & n & -> & _ & Hf & _) Hl Hsz. unfold select_notification_credit_class.
  rewrite length_app in Hl. unfold SLOT_CLASS_COUNT in Hl.
  rewrite select_credit_class_from_Some by (done || unfold u8_max; lia).
  rewrite Z.sub_0_r. unfold first_fit. intuition lia.
Qed.

(** ** The theorems *)

(** The typing of a request: every field in its width, four classes each way. *)
Definition request_typed (r : SetupRequestV1) : Prop := @pod_valid _ SetupRequestV1_Pod r.

Lemma request_typed_arrays r :
  request_typed r ->
  length (su_k2u_slot_classes r) = SLOT_CLASS_COUNT /\
  length (su_u2k_slot_classes r) = SLOT_CLASS_COUNT /\ 0 <= su_max_inflight r.
Proof.
  intros (_ & _ & _ & _ & _ & _ & _ & _ & _ & _ & _ & [? _] & [? _] & [? _] & _). done.
Qed.

(** The multiplications by the ring count stay in 32 bits. *)
Lemma ring_mul_ok rings k :
  MIN_RING_COUNT <= rings <= MAX_RING_COUNT -> 0 <= k <= 64 ->
  checked_mul u32_max rings k = Some (rings * k).
Proof.
  unfold MIN_RING_COUNT, MAX_RING_COUNT. intros. apply checked_mul_Some. split; [done |].
  unfold u32_max. nia.
Qed.

Lemma credit_mul_ok count size :
  0 <= count <= MAX_NOTIFICATION_CREDITS_PER_SESSION -> 0 <= size <= MAX_NOTIFICATION_CREDIT_SIZE ->
  checked_mul u64_max count size = Some (count * size).
Proof.
  unfold MAX_NOTIFICATION_CREDITS_PER_SESSION, MAX_NOTIFICATION_CREDIT_SIZE. intros.
  apply checked_mul_Some. split; [done |]. unfold u64_max. nia.
Qed.

Lemma credit_size_aligned size :
  MIN_NOTIFICATION_CREDIT_SIZE <= size -> is_power_of_two size = true ->
  size mod SLOT_ALIGNMENT = 0.
Proof.
  intros Hs Hp. apply Z.mod_divide; [done |]. change SLOT_ALIGNMENT with (2 ^ 6).
  apply power_of_two_divide; [done | done |]. unfold MIN_NOTIFICATION_CREDIT_SIZE in Hs. lia.
Qed.

Lemma nth_lookup_request k (l : list SlotClassRequest) c :
  l !! k = Some c -> nth k l (mkClassRequest 0 0) = c.
Proof. intros H. rewrite nth_lookup. by rewrite H. Qed.

Lemma credit_limit_min a b : (if a <? b then a else b) = Z.min a b.
Proof. destruct (Z.ltb_spec a b); lia. Qed.

Lemma validate_topology_sound r t :
  request_typed r -> validate_topology r = Ok t -> topology_of r t /\ topology_ok t.
Proof.
  intros Ht H. pose proof (request_typed_arrays _ Ht) as (Hk & Hu & Hm).
  unfold validate_topology in H. cbn zeta in H.
  break_in H; rewrite ?credit_limit_min in *; checked;
  repeat match goal with u : unit |- _ => destruct u end;
  repeat match goal with
  | H : validate_slot_class_requests _ = Ok tt |- _ => apply validate_slot_class_requests_Ok in H
  end;
  match goal with H : select_notification_credit_class _ _ _ = Some _ |- _ =>
    apply select_notification_credit_class_Some in H as Hfit;
      [| done | done | unfold MIN_NOTIFICATION_CREDIT_SIZE in *; lia] end;
  repeat match goal with
  | H : eligible_progress_slot_count _ = Ok _ |- _ =>
      rewrite eligible_progress_slot_count_eq in H by done; injection H as <-
  end;
  (split; [by eexists |]);
  pose proof Hfit as (_ & (c & Hc & _) & _); rewrite (nth_lookup_request _ _ _ Hc) in *;
  constructor; simpl; rewrite ?Hc; unfold is_progress_class; try done; try lia.
  all: rewrite ?(proj2 (Z.leb_le _ _)) by lia; rewrite ?(proj2 (Z.leb_gt _ _)) by lia; lia.
Qed.

Lemma validate_topology_complete r t :
  request_typed r -> topology_of r t -> topology_ok t -> validate_topology r = Ok t.
Proof.
  intros Ht [class ->] Hok. pose proof (request_typed_arrays _ Ht) as (Hk & Hu & _).
  destruct Hok as [Hr [Hsq Hsqp] [Hcq Hcqp] Hin Hk2u Hu2k [Hcs Hcsp] Hcc Hcb Hfit Hkp Hup].
  simpl in *. unfold validate_topology.
  rewrite !(proj2 (Z.ltb_ge _ _)) by lia. rewrite Hsqp, Hcqp, Hcsp.
  rewrite (proj2 (Z.eqb_neq (su_max_inflight r) 0)) by lia. cbn [negb orb].
  rewrite !ring_mul_ok by done. cbn [ok_or].
  assert (su_ring_count r * SYSTEM_REQUEST_SLOTS_PER_RING <= 192)
    by (unfold MAX_RING_COUNT, SYSTEM_REQUEST_SLOTS_PER_RING in *; lia).
  unfold checked_add. rewrite (proj2 (Z.leb_le _ _)) by (unfold u32_max, SYSTEM_REQID_BASE; lia).
  cbn [ok_or]. rewrite (proj2 (Z.ltb_ge GLOBAL_EXTERNAL_CHANGE_ACK_REQID _))
    by (unfold GLOBAL_EXTERNAL_CHANGE_ACK_REQID, SYSTEM_REQID_BASE; lia).
  rewrite !(proj2 (validate_slot_class_requests_Ok _)) by done.
  rewrite credit_size_aligned by (done || lia). cbn [Z.eqb negb].
  cbn zeta. rewrite credit_limit_min. rewrite (proj2 (Z.ltb_ge _ (su_notification_credit_count r))) by lia.
  cbn [orb].
  rewrite credit_mul_ok by (unfold MIN_NOTIFICATION_CREDIT_SIZE, MIN_RING_COUNT in *; lia).
  cbn [ok_or]. rewrite (proj2 (Z.ltb_ge MAX_NOTIFICATION_CREDIT_BYTES _)) by done.
  rewrite (proj2 (select_notification_credit_class_Some _ (su_notification_credit_size r) _ class
                    Hu2k Hu ltac:(unfold MIN_NOTIFICATION_CREDIT_SIZE in *; lia)) Hfit).
  cbn [ok_or]. rewrite !eligible_progress_slot_count_eq by done.
  rewrite (proj2 (Z.ltb_ge (progress_slots _) _)) by done.
  destruct Hfit as (_ & (c & Hc & _) & _). rewrite (nth_lookup_request _ _ _ Hc).
  rewrite Hc in Hup. unfold is_progress_class in Hup. unfold checked_sub.
  unfold MIN_RING_COUNT, MIN_U2K_PROGRESS_SLOTS_PER_RING in *.
  destruct (MIN_CONTROL_SLOT_SIZE <=? cr_slot_size c).
  - rewrite (proj2 (Z.leb_le _ _)) by lia. cbn [ok_or].
    by rewrite (proj2 (Z.ltb_ge _ _)) by lia.
  - by rewrite (proj2 (Z.ltb_ge _ _)) by lia.
Qed.

Lemma eligible_from_Err cls : forall total e,
  eligible_from total cls = Err e -> e = SvInvalidParameter.
Proof.
  induction cls as [| c cls IH]; intros total e H; simpl in H; [done |].
  repeat case_match; simplify_eq; try (by eapply IH); checked. done.
Qed.

Lemma validate_topology_Err r e :
  validate_topology r = Err e -> e = SvInvalidParameter.
Proof.
  intros H. unfold validate_topology in H. break_in H; simplify_eq; try done; bools.
  all: repeat match goal with
    | H : ok_or _ _ = Err _ |- _ => apply ok_or_Err in H as [? ->]
    | H : validate_slot_class_requests _ = Err _ |- _ =>
        by eapply validate_slot_class_requests_Err
    | H : eligible_progress_slot_count _ = Err _ |- _ => by eapply eligible_from_Err
    | H : (if _ then _ else _) = Err _ |- _ => case_match; simplify_eq
    end; try done.
  all: checked; unfold MIN_RING_COUNT, MAX_RING_COUNT, SYSTEM_REQUEST_SLOTS_PER_RING,
    SYSTEM_REQID_BASE, GLOBAL_EXTERNAL_CHANGE_ACK_REQID, u32_max in *; lia.
Qed.

(** C19: equivalence with the specification: a SETUP topology is accepted
    exactly when it satisfies every promise of [topology_ok], the accepted record
    carries the request's own numbers and the first class that fits the credits,
    and every refusal is INVALID_PARAMETER: the overflow branches are dead. *)
Theorem validate_topology_exact (r : SetupRequestV1) :
  request_typed r ->
  (forall t, validate_topology r = Ok t <-> topology_of r t /\ topology_ok t) /\
  (forall e, validate_topology r = Err e -> e = SvInvalidParameter).
Proof.
  intros Ht. split; [split |].
  - by apply validate_topology_sound.
  - intros [? ?]. by apply validate_topology_complete.
  - apply validate_topology_Err.
Qed.

(** ** The whole request *)

Definition setup_header : ControlHeader := mkControlHeader SETUP_REQUEST_V1_SIZE 1 0.

(** The fixed fields of a legal SETUP request. *)
Definition setup_fixed_ok (r : SetupRequestV1) : Prop :=
  su_header r = setup_header /\ su_reserved0 r = 0 /\ su_flags r = 0 /\ su_reserved1 r = 0 /\
  su_abi_major r = 2 /\ su_min_abi_minor r <= 1 <= su_max_abi_minor r.

Definition setup_selection_input (r : SetupRequestV1) (mask probe : FeatureSet) (sid : bool)
    : FeatureSelectionInput :=
  mkSelectionInput (su_offered_features r) (su_required_features r)
    (su_required_os_capabilities r) mask probe sid.

Lemma setup_size : @pod_size _ SetupRequestV1_Pod = 160%nat.
Proof. reflexivity. Qed.

(** The header the prefix check decodes is the request's first field. *)
Lemma setup_header_read input :
  @pod_read _ ControlHeader_Pod input = su_header (@pod_read _ SetupRequestV1_Pod input).
Proof. reflexivity. Qed.

Lemma setup_prefix input :
  blen input = SETUP_REQUEST_V1_SIZE ->
  validate_control_prefix input [1] 0 SETUP_REQUEST_V1_SIZE =
  let h := su_header (@pod_read _ SetupRequestV1_Pod input) in
  if negb (existsb (Z.eqb (struct_version h)) [1]) then Err RevisionMismatch
  else finish_prefix input h 0 SETUP_REQUEST_V1_SIZE.
Proof.
  intros Hl. unfold validate_control_prefix. rewrite Hl.
  change (SETUP_REQUEST_V1_SIZE <? CONTROL_HEADER_SIZE) with false.
  change (validate_uniform_registry [1] SETUP_REQUEST_V1_SIZE) with (Ok (E := ControlError) tt).
  cbn iota. unfold try_decode. rewrite Hl.
  change (SETUP_REQUEST_V1_SIZE <? Z.of_nat (@pod_size _ ControlHeader_Pod)) with false.
  cbn [map_err]. by rewrite setup_header_read.
Qed.

Lemma flags_all_rejected f : is_u16 f -> Z.land f (bit_not u16_max 0) = f.
Proof.
  intros Hf. unfold is_u16, u16_max, bit_not in *. change (65535 - 0) with (Z.ones 16).
  rewrite Z.land_ones by done. apply Z.mod_small. lia.
Qed.

(** Exactly one header passes the prefix check on an input of the exact size,
    and the snapshot is the whole input. *)
Lemma setup_prefix_Ok input p :
  Forall is_byte input -> blen input = SETUP_REQUEST_V1_SIZE ->
  validate_control_prefix input [1] 0 SETUP_REQUEST_V1_SIZE = Ok p <->
  su_header (@pod_read _ SetupRequestV1_Pod input) = setup_header /\
  p = mkPrefix setup_header input.
Proof.
  intros Hb Hl. rewrite setup_prefix by done. cbn zeta.
  assert (Htake : take (Z.to_nat SETUP_REQUEST_V1_SIZE) input = input).
  { apply take_ge. unfold blen in Hl. lia. }
  pose proof (@pod_read_valid _ ControlHeader_Pod input Hb) as Hv.
  rewrite setup_header_read in Hv. revert Hv.
  generalize (su_header (@pod_read _ SetupRequestV1_Pod input)). intros [s v f] Hv.
  destruct Hv as (_ & _ & Hf); [unfold blen, SETUP_REQUEST_V1_SIZE in Hl; simpl; lia |].
  assert (is_u16 f) by (simpl in Hf; unfold is_u16, u16_max; lia).
  unfold finish_prefix. cbn [required_flags struct_size struct_version existsb].
  rewrite flags_all_rejected by done. rewrite orb_false_r. split.
  - intros Hp. inv_ok Hp. bools. rewrite Hl in *.
    assert (s = SETUP_REQUEST_V1_SIZE) as -> by lia. subst. by rewrite Htake.
  - intros [[= -> -> ->] ->]. cbn [Z.eqb Pos.eqb negb].
    by rewrite Hl, Z.ltb_irrefl, Htake.
Qed.

(** An accepted input is the encoding of a legal request. *)
Lemma validate_setup_sound (input : bytes) profile mask probe sid v :
  Forall is_byte input ->
  validate_setup_request_v1 input profile mask probe sid = Ok v ->
  input = @pod_bytes _ SetupRequestV1_Pod (vs_request v) /\
  request_typed (vs_request v) /\ setup_fixed_ok (vs_request v) /\
  vs_selected_abi_minor v = 1 /\
  select_features_v21 profile (setup_selection_input (vs_request v) mask probe sid)
    = Ok (vs_selection v) /\
  topology_of (vs_request v) (vs_topology v) /\ topology_ok (vs_topology v).
Proof.
  intros Hb H. unfold validate_setup_request_v1 in H. break_in H. checked.
  match goal with H : blen input = _ |- _ => rename H into Hl end.
  match goal with H : validate_control_prefix _ _ _ _ = Ok _ |- _ =>
    apply (setup_prefix_Ok _ _ Hb Hl) in H as [Hh ->] end.
  match goal with H : try_decode _ = Ok _ |- _ => unfold try_decode in H; cbn [px_bytes] in H;
    rewrite Hl in H; change (SETUP_REQUEST_V1_SIZE <? Z.of_nat (@pod_size _ SetupRequestV1_Pod))
      with false in H;
    cbv iota in H; lazymatch type of H with Ok ?x = Ok ?y =>
      assert (y = x) as -> by (symmetry; exact (inj Ok _ _ H)); clear H end end.
  assert (Hlen : (@pod_size _ SetupRequestV1_Pod <= length input)%nat)
    by (rewrite setup_size; unfold blen, SETUP_REQUEST_V1_SIZE in Hl; lia).
  pose proof (@pod_read_valid _ SetupRequestV1_Pod input Hb Hlen) as Ht.
  match goal with H : validate_topology _ = Ok _ |- _ =>
    apply (validate_topology_sound _ _ Ht) in H as [? ?] end.
  cbn [vs_request vs_selected_abi_minor vs_selection vs_topology].
  split_and!; try done.
  rewrite (@pod_bytes_read _ SetupRequestV1_Pod) by done. symmetry. apply take_ge.
  rewrite setup_size. unfold blen, SETUP_REQUEST_V1_SIZE in Hl. lia.
Qed.

(** The encoding of a legal request is accepted. *)
Lemma validate_setup_complete (input : bytes) profile mask probe sid v :
  Forall is_byte input ->
  input = @pod_bytes _ SetupRequestV1_Pod (vs_request v) /\
  request_typed (vs_request v) /\ setup_fixed_ok (vs_request v) /\
  vs_selected_abi_minor v = 1 /\
  select_features_v21 profile (setup_selection_input (vs_request v) mask probe sid)
    = Ok (vs_selection v) /\
  topology_of (vs_request v) (vs_topology v) /\ topology_ok (vs_topology v) ->
  validate_setup_request_v1 input profile mask probe sid = Ok v.
Proof.
  intros Hb. unfold validate_setup_request_v1.
  destruct v as [r minor sel t]. cbn [vs_request vs_selected_abi_minor vs_selection vs_topology].
  intros (-> & Ht & Hfix & -> & Hsel & Hof & Hok).
  assert (Hl : blen (@pod_bytes _ SetupRequestV1_Pod r) = SETUP_REQUEST_V1_SIZE).
  { unfold blen. by rewrite pod_bytes_length, setup_size. }
  assert (Hread : @pod_read _ SetupRequestV1_Pod (@pod_bytes _ SetupRequestV1_Pod r) = r).
  { pose proof (@pod_read_bytes _ SetupRequestV1_Pod r [] Ht) as Hr. by rewrite app_nil_r in Hr. }
  destruct Hfix as (Hh & H0 & Hf & H1 & Hmaj & Hmin).
  rewrite (proj2 (setup_prefix_Ok _ (mkPrefix setup_header _) Hb Hl))
    by (by rewrite Hread).
  cbn [map_err px_header px_bytes struct_size setup_header]. rewrite Hl, Z.eqb_refl.
  cbn [negb orb]. unfold try_decode. rewrite Hl.
  change (SETUP_REQUEST_V1_SIZE <? Z.of_nat (@pod_size _ SetupRequestV1_Pod)) with false.
  cbn [map_err]. rewrite Hread, H0, Hf, H1, Hmaj. cbn [Z.eqb negb orb Pos.eqb].
  rewrite !(proj2 (Z.ltb_ge _ _)) by lia. cbn [orb].
  unfold setup_selection_input in Hsel. rewrite Hsel. cbn [map_err].
  by rewrite (validate_topology_complete _ _ Ht Hof Hok).
Qed.

(** C11: functional correctness of SETUP on the wire: a byte string is
    accepted exactly when it is the 160-byte encoding of a well-typed request
    with the fixed header, zero reserved fields and a revision range containing
    2.1, whose features negotiate and whose topology is legal; the result holds
    that request, that negotiation and that topology. *)
Theorem setup_request_exact (input : bytes) profile mask probe sid v :
  Forall is_byte input ->
  validate_setup_request_v1 input profile mask probe sid = Ok v <->
  input = @pod_bytes _ SetupRequestV1_Pod (vs_request v) /\
  request_typed (vs_request v) /\ setup_fixed_ok (vs_request v) /\
  vs_selected_abi_minor v = 1 /\
  select_features_v21 profile (setup_selection_input (vs_request v) mask probe sid)
    = Ok (vs_selection v) /\
  topology_of (vs_request v) (vs_topology v) /\ topology_ok (vs_topology v).
Proof.
  intros Hb. split; [by apply validate_setup_sound | by apply validate_setup_complete].
Qed.

(** ** What the rest of the library may assume of an accepted setup *)

Record setup_ok (v : ValidatedSetupRequest) : Prop := mkSetupOk {
  so_topology : topology_ok (vs_topology v);
  so_k2u_length : length (vt_k2u_slot_classes (vs_topology v)) = SLOT_CLASS_COUNT;
  so_u2k_length : length (vt_u2k_slot_classes (vs_topology v)) = SLOT_CLASS_COUNT;
  so_features : FeatureSet_valid (selected_features (vs_selection v));
  so_capabilities : FeatureSet_valid (detected_os_capabilities (vs_selection v));
}.

Lemma feature_set_typed s : @pod_valid _ FeatureSet_Pod s -> FeatureSet_valid s.
Proof. intros [? ?]. unfold FeatureSet_valid, is_u64, u64_max. simpl in *. lia. Qed.

Lemma setup_selection_valid r mask probe sid :
  request_typed r -> FeatureSet_valid mask -> FeatureSet_valid probe ->
  selection_input_valid (setup_selection_input r mask probe sid).
Proof.
  intros (_ & _ & _ & _ & _ & ? & ? & ? & _) Hm Hp. split_and!; try done;
    by apply feature_set_typed.
Qed.

Lemma validate_setup_ok (input : bytes) profile mask probe sid v :
  Forall is_byte input -> FeatureSet_valid mask -> FeatureSet_valid probe ->
  validate_setup_request_v1 input profile mask probe sid = Ok v -> setup_ok v.
Proof.
  intros Hb Hm Hp H. apply validate_setup_sound in H as (_ & Ht & _ & _ & Hsel & Hof & Hok); [| done].
  pose proof (setup_selection_valid _ mask probe sid Ht Hm Hp) as Hv.
  apply select_features_valid in Hsel as [? ?]; [| done].
  destruct Hof as [class Hof]. pose proof (request_typed_arrays _ Ht) as (? & ? & _).
  constructor; [done | by rewrite Hof | by rewrite Hof | done | done].
Qed.


(** The smallest legal session: one ring, one class of control slots each way
    and a class of notification credits. *)
Definition ex_setup : SetupRequestV1 :=
  mkSetupRequest setup_header 2 1 1 0 (mkFeatureSet 0x10 0) (mkFeatureSet 0x10 0)
    (mkFeatureSet 0 0) 1 MIN_SQ_CAPACITY MIN_CQ_CAPACITY 1
    [mkClassRequest MIN_CONTROL_SLOT_SIZE 4; ZERO_REQUEST; ZERO_REQUEST; ZERO_REQUEST]
    [mkClassRequest MIN_NOTIFICATION_CREDIT_SIZE 1; mkClassRequest MIN_CONTROL_SLOT_SIZE 2;
     ZERO_REQUEST; ZERO_REQUEST]
    1 MIN_NOTIFICATION_CREDIT_SIZE 0 0.

Definition ex_topology : ValidatedTopology :=
  mkTopology 1 MIN_SQ_CAPACITY MIN_CQ_CAPACITY 1 (su_k2u_slot_classes ex_setup)
    (su_u2k_slot_classes ex_setup) 1 MIN_NOTIFICATION_CREDIT_SIZE 0.

Definition ex_validated_setup : ValidatedSetupRequest :=
  mkValidatedSetup ex_setup 1 (mkSelection (mkFeatureSet 0x10 0) (mkFeatureSet 0x3 0)) ex_topology.

Lemma ex_setup_typed : request_typed ex_setup.
Proof.
  unfold request_typed. cbn.
  repeat match goal with
  | |- _ /\ _ => split
  | |- Forall _ _ => constructor
  end; try done; cbn; split; lia.
Qed.

Lemma ex_setup_accepted :
  validate_setup_request_v1 (@pod_bytes _ SetupRequestV1_Pod ex_setup) Win10X64
    (mkFeatureSet 0x10 0) (mkFeatureSet 0x3 0) true = Ok ex_validated_setup.
Proof. vm_compute. reflexivity. Qed.

Lemma validate_topology_exact_witness : topology_ok ex_topology.
Proof.
  apply (proj1 (proj1 (validate_topology_exact ex_setup ex_setup_typed) ex_topology)).
  vm_compute. reflexivity.
Defined.

Lemma setup_request_exact_witness :
  setup_fixed_ok ex_setup /\ topology_of ex_setup ex_topology.
Proof.
  pose proof (proj1 (setup_request_exact (@pod_bytes _ SetupRequestV1_Pod ex_setup) Win10X64
    (mkFeatureSet 0x10 0) (mkFeatureSet 0x3 0) true ex_validated_setup
    ltac:(repeat constructor; vm_compute; done)) ex_setup_accepted)
    as (_ & _ & Hf & _ & _ & Ht & _).
  exact (conj Hf Ht).
Defined.
