(* ===== verification/SectionLayout.v ===== *)
(** * The shared section: placement, construction and validation

    fsring-abi/src/section_layout.rs with the header and descriptor structs of
    layout.rs. The plan of a section is computed from a validated SETUP request;
    the kernel writes the section from the plan and either side validates the
    finished bytes against the same plan.

    Slicing out of range panics in the source; the model returns [Panics], a
    failure of its own, so that "never panics" can be stated. [usize] has 64 bits
    on every supported target. *)

From S2P Require Import Prelude Ids Slots Features Codec Control Topology.

(** ** Wire structs *)

Definition FSRING_MAGIC : Z := 0x47525346.
Definition FSRING_ABI_MAJOR : Z := 2.
Definition FSRING_ABI_MINOR : Z := 1.
Definition FSRING_ENDIAN_LITTLE : Z := 1.
Definition RING_DESC_VERSION : Z := FSRING_ABI_MINOR.

Record GlobalHeader := mkGlobalHeader {
  gh_magic : Z;
  gh_header_size : Z;
  gh_abi_major : Z;
  gh_abi_minor : Z;
  gh_byte_order : Z;
  gh_header_flags : Z;
  gh_page_size : Z;
  gh_session_epoch : Z;
  gh_section_size : Z;
  gh_ring_count : Z;
  gh_ring_desc_size : Z;
  gh_ring_directory : RegionDesc;
  gh_k2u_slots : RegionDesc;
  gh_u2k_slots : RegionDesc;
  gh_notify_names : RegionDesc;
  gh_protocol_features : FeatureSet;
  gh_os_capabilities : FeatureSet;
  gh_max_inflight : Z;
  gh_flags : Z;
  gh_k2u_slot_classes : list SlotClassDesc;
  gh_u2k_slot_classes : list SlotClassDesc;
  gh_reserved : list Z;
}.

Record RingDesc := mkRingDesc {
  rg_magic : Z;
  rg_desc_size : Z;
  rg_desc_version : Z;
  rg_ring_index : Z;
  rg_flags : Z;
  rg_sq_capacity : Z;
  rg_cq_capacity : Z;
  rg_sq_entries : RegionDesc;
  rg_sq_producer : RegionDesc;
  rg_sq_consumer : RegionDesc;
  rg_cq_entries : RegionDesc;
  rg_cq_producer : RegionDesc;
  rg_cq_consumer : RegionDesc;
  rg_reserved : list Z;
}.

Definition RegionDesc_Pod : Pod RegionDesc :=
  record_pod (fun '(a, b) => mkRegionDesc a b) (fun r => (rd_offset r, rd_length r))
    ltac:(by intros []) ltac:(by intros []) (u64_pod *p u64_pod).

Definition SlotClassDesc_Pod : Pod SlotClassDesc :=
  record_pod (fun '(a, (b, c)) => mkSlotClassDesc a b c)
    (fun c => (scd_slot_size c, (scd_slot_count c, scd_data_offset c)))
    ltac:(by intros []) ltac:(by intros (? & ? & ?)) (u32_pod *p u32_pod *p u64_pod).

Definition GlobalHeader_Pod : Pod GlobalHeader :=
  record_pod
    (fun '(a, (b, (c, (d, (e, (f, (g, (h, (i, (j, (k, (l, (m, (n, (o, (p, (q, (r, (s, (t, (u,
           v)))))))))))))))))))))
     => mkGlobalHeader a b c d e f g h i j k l m n o p q r s t u v)
    (fun x => (gh_magic x, (gh_header_size x, (gh_abi_major x, (gh_abi_minor x,
      (gh_byte_order x, (gh_header_flags x, (gh_page_size x, (gh_session_epoch x,
      (gh_section_size x, (gh_ring_count x, (gh_ring_desc_size x, (gh_ring_directory x,
      (gh_k2u_slots x, (gh_u2k_slots x, (gh_notify_names x, (gh_protocol_features x,
      (gh_os_capabilities x, (gh_max_inflight x, (gh_flags x, (gh_k2u_slot_classes x,
      (gh_u2k_slot_classes x, gh_reserved x))))))))))))))))))))))
    ltac:(by intros []) ltac:(repeat (intros [? t]; revert t); done)
    (u32_pod *p u16_pod *p u16_pod *p u16_pod *p u8_pod *p u8_pod *p u32_pod *p u64_pod
     *p u64_pod *p u32_pod *p u32_pod *p RegionDesc_Pod *p RegionDesc_Pod *p RegionDesc_Pod
     *p RegionDesc_Pod *p FeatureSet_Pod *p FeatureSet_Pod *p u32_pod *p u32_pod
     *p array_pod SLOT_CLASS_COUNT SlotClassDesc_Pod
     *p array_pod SLOT_CLASS_COUNT SlotClassDesc_Pod
     *p array_pod 3824 u8_pod).

Definition RingDesc_Pod : Pod RingDesc :=
  record_pod
    (fun '(a, (b, (c, (d, (e, (f, (g, (h, (i, (j, (k, (l, (m, n)))))))))))))
     => mkRingDesc a b c d e f g h i j k l m n)
    (fun x => (rg_magic x, (rg_desc_size x, (rg_desc_version x, (rg_ring_index x, (rg_flags x,
      (rg_sq_capacity x, (rg_cq_capacity x, (rg_sq_entries x, (rg_sq_producer x,
      (rg_sq_consumer x, (rg_cq_entries x, (rg_cq_producer x, (rg_cq_consumer x,
      rg_reserved x))))))))))))))
    ltac:(by intros []) ltac:(repeat (intros [? t]; revert t); done)
    (u32_pod *p u16_pod *p u16_pod *p u32_pod *p u32_pod *p u32_pod *p u32_pod
     *p RegionDesc_Pod *p RegionDesc_Pod *p RegionDesc_Pod *p RegionDesc_Pod *p RegionDesc_Pod
     *p RegionDesc_Pod *p array_pod 8 u8_pod).

#[export] Existing Instances RegionDesc_Pod SlotClassDesc_Pod GlobalHeader_Pod RingDesc_Pod.

(** [size_of] of the structs of layout.rs, as its assertions fix them. *)
Definition SIZE_OF_GLOBAL_HEADER : Z := 4096.
Definition SIZE_OF_RING_DESC : Z := 128.
Definition SIZE_OF_PRODUCER_PAGE : Z := 4096.
Definition SIZE_OF_CONSUMER_PAGE : Z := 4096.
Definition SIZE_OF_SQE : Z := 128.
Definition SIZE_OF_CQE : Z := 64.

(** ** The plan *)

Record SectionLayoutPlan := mkPlan {
  sp_section_size : Z;
  sp_page_size : Z;
  sp_ring_count : Z;
  sp_sq_capacity : Z;
  sp_cq_capacity : Z;
  sp_ring_directory : RegionDesc;
  sp_ring_base : Z;
  sp_ring_stride : Z;
  sp_k2u_slots : RegionDesc;
  sp_u2k_slots : RegionDesc;
  sp_notify_names : RegionDesc;
  sp_k2u_slot_classes : list SlotClassDesc;
  sp_u2k_slot_classes : list SlotClassDesc;
  sp_protocol_features : FeatureSet;
  sp_os_capabilities : FeatureSet;
  sp_max_inflight : Z;
  sp_session_epoch : Z;
}.

Record RingLayoutPlan := mkRingPlan {
  rp_ring_index : Z;
  rp_sq_entries : RegionDesc;
  rp_sq_producer : RegionDesc;
  rp_sq_consumer : RegionDesc;
  rp_cq_entries : RegionDesc;
  rp_cq_producer : RegionDesc;
  rp_cq_consumer : RegionDesc;
}.

Inductive SectionLayoutError : Type :=
| SlInvalidPageSize
| SlInvalidCapacity
| SlInvalidIdentity
| SlInvalidRegion
| SlInvalidPadding
| SlInvalidDescriptor
| SlArithmeticOverflow
| SlSectionTooLarge
| SlBufferTooSmall
| SlOutputNotZero.

Definition ZERO_CLASS : SlotClassDesc := mkSlotClassDesc 0 0 0.

(** The region at the cursor and the cursor after it. *)
Definition place (cursor len len_align : Z) : result SectionLayoutError (RegionDesc * Z) :=
  let? length := ok_or (checked_align_up len len_align) SlArithmeticOverflow in
  let? span := ok_or (checked_align_up length USER_VIEW_OFFSET_ALIGNMENT) SlArithmeticOverflow in
  let offset := cursor in
  let? cursor := ok_or (checked_add u64_max cursor span) SlArithmeticOverflow in
  Ok (mkRegionDesc offset length, cursor).

(** The loop of [pack_arena]: the classes and the cursor after them. *)
Fixpoint pack_classes (cursor : Z) (requests : list SlotClassRequest)
    : result SectionLayoutError (list SlotClassDesc * Z) :=
  match requests with
  | [] => Ok ([], cursor)
  | request :: rest =>
      if (cr_slot_size request =? 0) || (cr_slot_count request =? 0) then
        let? '(classes, cursor) := pack_classes cursor rest in
        Ok (ZERO_CLASS :: classes, cursor)
      else
        let? data_offset := ok_or (checked_align_up cursor SLOT_ALIGNMENT) SlArithmeticOverflow in
        let? length :=
          ok_or (checked_mul u64_max (cr_slot_size request) (cr_slot_count request))
                SlArithmeticOverflow in
        let? cursor := ok_or (checked_add u64_max data_offset length) SlArithmeticOverflow in
        let? '(classes, cursor) := pack_classes cursor rest in
        Ok (mkSlotClassDesc (cr_slot_size request) (cr_slot_count request) data_offset :: classes,
            cursor)
  end.

Definition pack_arena (offset : Z) (requests : list SlotClassRequest)
    : result SectionLayoutError (RegionDesc * list SlotClassDesc) :=
  let? '(classes, cursor) := pack_classes offset requests in
  let? end_ := ok_or (checked_align_up cursor USER_VIEW_OFFSET_ALIGNMENT) SlArithmeticOverflow in
  let? length := ok_or (checked_sub end_ offset) SlArithmeticOverflow in
  Ok (mkRegionDesc offset length, classes).

Definition region_from_raw (offset raw_length page_size : Z) : option RegionDesc :=
  match checked_align_up raw_length page_size with
  | Some length => Some (mkRegionDesc offset length)
  | None => None
  end.

Definition region_span (region : RegionDesc) : option Z :=
  checked_align_up (rd_length region) USER_VIEW_OFFSET_ALIGNMENT.

Definition advance_region (offset : Z) (region : RegionDesc) : option Z :=
  match region_span region with
  | Some span => checked_add u64_max offset span
  | None => None
  end.

(** [SectionLayoutPlan::compute]. *)
Definition compute (setup : ValidatedSetupRequest) (page_size : Z)
    : result SectionLayoutError SectionLayoutPlan :=
  if (page_size =? 0) || negb (is_power_of_two page_size) then Err SlInvalidPageSize
  else
    let topology := vs_topology setup in
    let ring_count := vt_ring_count topology in
    let sq_capacity := vt_sq_capacity topology in
    let cq_capacity := vt_cq_capacity topology in
    if (sq_capacity <? MIN_SQ_CAPACITY) || (MAX_SQ_CAPACITY <? sq_capacity)
       || negb (is_power_of_two sq_capacity)
       || (cq_capacity <? MIN_CQ_CAPACITY) || (MAX_CQ_CAPACITY <? cq_capacity)
       || negb (is_power_of_two cq_capacity)
    then Err SlInvalidCapacity
    else
      let page := page_size in
      let? '(_, cursor) := place 0 SIZE_OF_GLOBAL_HEADER page in
      let? directory_bytes :=
        ok_or (checked_mul u64_max ring_count SIZE_OF_RING_DESC) SlArithmeticOverflow in
      let? '(ring_directory, cursor) := place cursor directory_bytes page in
      let ring_base := cursor in
      let? '(_, cursor) := place cursor SIZE_OF_PRODUCER_PAGE page in
      let? '(_, cursor) := place cursor SIZE_OF_CONSUMER_PAGE page in
      let? sq_bytes := ok_or (checked_mul u64_max sq_capacity SIZE_OF_SQE) SlArithmeticOverflow in
      let? '(_, cursor) := place cursor sq_bytes page in
      let? '(_, cursor) := place cursor SIZE_OF_PRODUCER_PAGE page in
      let? '(_, cursor) := place cursor SIZE_OF_CONSUMER_PAGE page in
      let? cq_bytes := ok_or (checked_mul u64_max cq_capacity SIZE_OF_CQE) SlArithmeticOverflow in
      let? '(_, cursor) := place cursor cq_bytes page in
      let? ring_stride := ok_or (checked_sub cursor ring_base) SlArithmeticOverflow in
      let? rings_bytes :=
        ok_or (checked_mul u64_max ring_stride ring_count) SlArithmeticOverflow in
      let? cursor := ok_or (checked_add u64_max ring_base rings_bytes) SlArithmeticOverflow in
      let? '(k2u_slots, k2u_slot_classes) := pack_arena cursor (vt_k2u_slot_classes topology) in
      let? cursor := ok_or (checked_add u64_max cursor (rd_length k2u_slots)) SlArithmeticOverflow in
      let? '(u2k_slots, u2k_slot_classes) := pack_arena cursor (vt_u2k_slot_classes topology) in
      let? cursor := ok_or (checked_add u64_max cursor (rd_length u2k_slots)) SlArithmeticOverflow in
      let? '(notify_names, cursor) := place cursor page page in
      if MAX_SECTION_BYTES <? cursor then Err SlSectionTooLarge
      else
        Ok (mkPlan cursor page_size ring_count sq_capacity cq_capacity ring_directory ring_base
              ring_stride k2u_slots u2k_slots notify_names k2u_slot_classes u2k_slot_classes
              (selected_features (vs_selection setup))
              (detected_os_capabilities (vs_selection setup))
              (vt_max_inflight topology) 1).

(** [SectionLayoutPlan::ring]. *)
Definition ring (plan : SectionLayoutPlan) (index : Z) : option RingLayoutPlan :=
  if sp_ring_count plan <=? index then None
  else
    ring_delta ← checked_mul u64_max (sp_ring_stride plan) index;
    cursor ← checked_add u64_max (sp_ring_base plan) ring_delta;
    sq_producer ← region_from_raw cursor SIZE_OF_PRODUCER_PAGE (sp_page_size plan);
    cursor ← advance_region cursor sq_producer;
    sq_consumer ← region_from_raw cursor SIZE_OF_CONSUMER_PAGE (sp_page_size plan);
    cursor ← advance_region cursor sq_consumer;
    sq_raw ← checked_mul u64_max (sp_sq_capacity plan) SIZE_OF_SQE;
    sq_entries ← region_from_raw cursor sq_raw (sp_page_size plan);
    cursor ← advance_region cursor sq_entries;
    cq_producer ← region_from_raw cursor SIZE_OF_PRODUCER_PAGE (sp_page_size plan);
    cursor ← advance_region cursor cq_producer;
    cq_consumer ← region_from_raw cursor SIZE_OF_CONSUMER_PAGE (sp_page_size plan);
    cursor ← advance_region cursor cq_consumer;
    cq_raw ← checked_mul u64_max (sp_cq_capacity plan) SIZE_OF_CQE;
    cq_entries ← region_from_raw cursor cq_raw (sp_page_size plan);
    Some (mkRingPlan index sq_entries sq_producer sq_consumer cq_entries cq_producer cq_consumer).

(** [RingLayoutIter::next] from position [index], until it returns [None]: at
    most [fuel] items, and [sp_ring_count] are enough. *)
Fixpoint rings_from (plan : SectionLayoutPlan) (index : Z) (fuel : nat) : list RingLayoutPlan :=
  match fuel with
  | O => []
  | S fuel =>
      match ring plan index with
      | None => []
      | Some r => r :: rings_from plan (index + 1) fuel
      end
  end.

Definition rings (plan : SectionLayoutPlan) : list RingLayoutPlan :=
  rings_from plan 0 (Z.to_nat (sp_ring_count plan)).

Definition header (plan : SectionLayoutPlan) : GlobalHeader :=
  mkGlobalHeader FSRING_MAGIC SIZE_OF_GLOBAL_HEADER FSRING_ABI_MAJOR FSRING_ABI_MINOR
    FSRING_ENDIAN_LITTLE 0 (sp_page_size plan) (sp_session_epoch plan) (sp_section_size plan)
    (sp_ring_count plan) SIZE_OF_RING_DESC (sp_ring_directory plan) (sp_k2u_slots plan)
    (sp_u2k_slots plan) (sp_notify_names plan) (sp_protocol_features plan)
    (sp_os_capabilities plan) (sp_max_inflight plan) 0 (sp_k2u_slot_classes plan)
    (sp_u2k_slot_classes plan) (replicate 3824 0).

Definition ring_desc (plan : SectionLayoutPlan) (r : RingLayoutPlan) : RingDesc :=
  mkRingDesc FSRING_MAGIC SIZE_OF_RING_DESC RING_DESC_VERSION (rp_ring_index r) 0
    (sp_sq_capacity plan) (sp_cq_capacity plan) (rp_sq_entries r) (rp_sq_producer r)
    (rp_sq_consumer r) (rp_cq_entries r) (rp_cq_producer r) (rp_cq_consumer r) (replicate 8 0).

(** ** Bytes of the section *)

Inductive failure : Type :=
| Fails (e : SectionLayoutError)
| Panics.

Definition usize_try_from (v : Z) : option Z := if v <=? u64_max then Some v else None.

(** [&bytes[lo..hi]]. *)
Definition slice (l : bytes) (lo hi : Z) : result failure bytes :=
  if (lo <=? hi) && (hi <=? blen l) then Ok (byte_range l lo hi) else Err Panics.

(** The buffer after its bytes from [lo] on were overwritten. *)
Definition splice (l : bytes) (lo : Z) (piece : bytes) : bytes :=
  take (Z.to_nat lo) l ++ piece ++ drop (Z.to_nat lo + length piece) l.

(** [try_encode(&value, &mut out[lo..hi]).map_err(|_| BufferTooSmall)]. *)
Definition encode_at {A} `{Pod A} (value : A) (out : bytes) (lo hi : Z) : result failure bytes :=
  let? piece := slice out lo hi in
  let? '(_, piece) := map_err (fun _ => Fails SlBufferTooSmall) (try_encode value piece) in
  Ok (splice out lo piece).

(** The loop that writes the descriptors. *)
Fixpoint write_descs (plan : SectionLayoutPlan) (directory_offset : Z)
    (rs : list RingLayoutPlan) (out : bytes) : result failure bytes :=
  match rs with
  | [] => Ok out
  | r :: rest =>
      let descriptor := ring_desc plan r in
      let? product :=
        ok_or (checked_mul u64_max (rg_ring_index descriptor) SIZE_OF_RING_DESC)
              (Fails SlArithmeticOverflow) in
      let? relative := ok_or (usize_try_from product) (Fails SlArithmeticOverflow) in
      let? start :=
        ok_or (checked_add u64_max directory_offset relative) (Fails SlArithmeticOverflow) in
      let? end_ :=
        ok_or (checked_add u64_max start SIZE_OF_RING_DESC) (Fails SlArithmeticOverflow) in
      let? out := encode_at descriptor out start end_ in
      write_descs plan directory_offset rest out
  end.

Definition construct (plan : SectionLayoutPlan) (output : bytes) : result failure bytes :=
  let? needed := ok_or (usize_try_from (sp_section_size plan)) (Fails SlSectionTooLarge) in
  if blen output <? needed then Err (Fails SlBufferTooSmall)
  else if existsb (fun byte => negb (byte =? 0)) output then Err (Fails SlOutputNotZero)
  else
    let? output := encode_at (header plan) output 0 SIZE_OF_GLOBAL_HEADER in
    let? directory_offset :=
      ok_or (usize_try_from (rd_offset (sp_ring_directory plan))) (Fails SlArithmeticOverflow) in
    write_descs plan directory_offset (rings plan) output.

(** ** Validation *)

Definition header_identity_matches (actual expected : GlobalHeader) : bool :=
  (gh_magic actual =? gh_magic expected)
  && (gh_header_size actual =? gh_header_size expected)
  && (gh_abi_major actual =? gh_abi_major expected)
  && (gh_abi_minor actual =? gh_abi_minor expected)
  && (gh_byte_order actual =? gh_byte_order expected)
  && (gh_page_size actual =? gh_page_size expected)
  && (gh_session_epoch actual =? gh_session_epoch expected)
  && (gh_section_size actual =? gh_section_size expected)
  && (gh_ring_count actual =? gh_ring_count expected)
  && (gh_ring_desc_size actual =? gh_ring_desc_size expected)
  && bool_decide (gh_protocol_features actual = gh_protocol_features expected)
  && bool_decide (gh_os_capabilities actual = gh_os_capabilities expected)
  && (gh_max_inflight actual =? gh_max_inflight expected).

Definition header_regions_match (actual expected : GlobalHeader) : bool :=
  bool_decide (gh_ring_directory actual = gh_ring_directory expected)
  && bool_decide (gh_k2u_slots actual = gh_k2u_slots expected)
  && bool_decide (gh_u2k_slots actual = gh_u2k_slots expected)
  && bool_decide (gh_notify_names actual = gh_notify_names expected)
  && bool_decide (gh_k2u_slot_classes actual = gh_k2u_slot_classes expected)
  && bool_decide (gh_u2k_slot_classes actual = gh_u2k_slot_classes expected).

Definition ring_desc_matches (actual expected : RingDesc) : bool :=
  (rg_magic actual =? rg_magic expected)
  && (rg_desc_size actual =? rg_desc_size expected)
  && (rg_desc_version actual =? rg_desc_version expected)
  && (rg_ring_index actual =? rg_ring_index expected)
  && (rg_flags actual =? rg_flags expected)
  && (rg_sq_capacity actual =? rg_sq_capacity expected)
  && (rg_cq_capacity actual =? rg_cq_capacity expected)
  && bool_decide (rg_sq_entries actual = rg_sq_entries expected)
  && bool_decide (rg_sq_producer actual = rg_sq_producer expected)
  && bool_decide (rg_sq_consumer actual = rg_sq_consumer expected)
  && bool_decide (rg_cq_entries actual = rg_cq_entries expected)
  && bool_decide (rg_cq_producer actual = rg_cq_producer expected)
  && bool_decide (rg_cq_consumer actual = rg_cq_consumer expected)
  && bool_decide (rg_reserved actual = rg_reserved expected).

Definition decode_header (input : bytes) : result failure GlobalHeader :=
  map_err (fun _ => Fails SlBufferTooSmall) (try_decode (A := GlobalHeader) input).

(** The loop that compares the descriptors. *)
Fixpoint check_descs (plan : SectionLayoutPlan) (rs : list RingLayoutPlan)
    (directory_bytes : bytes) : result failure unit :=
  match rs with
  | [] => Ok tt
  | r :: rest =>
      let? product :=
        ok_or (checked_mul u64_max (rp_ring_index r) SIZE_OF_RING_DESC)
              (Fails SlArithmeticOverflow) in
      let? start := ok_or (usize_try_from product) (Fails SlArithmeticOverflow) in
      let? end_ :=
        ok_or (checked_add u64_max start SIZE_OF_RING_DESC) (Fails SlArithmeticOverflow) in
      let? piece := slice directory_bytes start end_ in
      let? actual :=
        map_err (fun _ => Fails SlBufferTooSmall) (try_decode (A := RingDesc) piece) in
      if negb (ring_desc_matches actual (ring_desc plan r)) then Err (Fails SlInvalidDescriptor)
      else check_descs plan rest directory_bytes
  end.

Definition with_epoch (plan : SectionLayoutPlan) (epoch : Z) : SectionLayoutPlan :=
  mkPlan (sp_section_size plan) (sp_page_size plan) (sp_ring_count plan) (sp_sq_capacity plan)
    (sp_cq_capacity plan) (sp_ring_directory plan) (sp_ring_base plan) (sp_ring_stride plan)
    (sp_k2u_slots plan) (sp_u2k_slots plan) (sp_notify_names plan) (sp_k2u_slot_classes plan)
    (sp_u2k_slot_classes plan) (sp_protocol_features plan) (sp_os_capabilities plan)
    (sp_max_inflight plan) epoch.

(** The result is the plan inside the source's [ValidatedSectionImage]. *)
Definition validate_decoded_header_directory_v21 (h : GlobalHeader) (directory_bytes : bytes)
    (expected : ValidatedSetupRequest) (expected_session_epoch : Z)
    : result failure SectionLayoutPlan :=
  if (gh_page_size h =? 0) || negb (is_power_of_two (gh_page_size h)) then
    Err (Fails SlInvalidPageSize)
  else if (expected_session_epoch =? 0)
          || negb (gh_session_epoch h =? expected_session_epoch) then
    Err (Fails SlInvalidIdentity)
  else
    let? plan := map_err Fails (compute expected (gh_page_size h)) in
    let plan := with_epoch plan expected_session_epoch in
    let canonical := header plan in
    if negb (header_identity_matches h canonical) then Err (Fails SlInvalidIdentity)
    else if negb (header_regions_match h canonical) then Err (Fails SlInvalidRegion)
    else if negb (gh_header_flags h =? 0) || negb (gh_flags h =? 0)
            || existsb (fun byte => negb (byte =? 0)) (gh_reserved h) then
      Err (Fails SlInvalidPadding)
    else
      let? directory_length :=
        ok_or (usize_try_from (rd_length (sp_ring_directory plan))) (Fails SlArithmeticOverflow) in
      if blen directory_bytes <? directory_length then Err (Fails SlBufferTooSmall)
      else
        let? _ := check_descs plan (rings plan) directory_bytes in
        let? product :=
          ok_or (checked_mul u64_max (sp_ring_count plan) SIZE_OF_RING_DESC)
                (Fails SlArithmeticOverflow) in
        let? used := ok_or (usize_try_from product) (Fails SlArithmeticOverflow) in
        let? padding := slice directory_bytes used directory_length in
        if existsb (fun byte => negb (byte =? 0)) padding then Err (Fails SlInvalidPadding)
        else
          let? _ :=
            map_err (fun _ => Fails SlInvalidRegion)
              (validate_slot_arena K2u (sp_section_size plan) (gh_k2u_slots h)
                 (gh_k2u_slot_classes h)) in
          let? _ :=
            map_err (fun _ => Fails SlInvalidRegion)
              (validate_slot_arena U2k (sp_section_size plan) (gh_u2k_slots h)
                 (gh_u2k_slot_classes h)) in
          Ok plan.

Definition validate_header_directory_v21 (header_bytes directory_bytes : bytes)
    (expected : ValidatedSetupRequest) (expected_session_epoch : Z)
    : result failure SectionLayoutPlan :=
  if blen header_bytes <? SIZE_OF_GLOBAL_HEADER then Err (Fails SlBufferTooSmall)
  else
    let? piece := slice header_bytes 0 SIZE_OF_GLOBAL_HEADER in
    let? h := decode_header piece in
    validate_decoded_header_directory_v21 h directory_bytes expected expected_session_epoch.

(** The loop over the bytes of the section, from position [index]: everything
    outside the header and the descriptors is zero. *)
Fixpoint check_outside_zero (directory_start descriptor_bytes index : Z) (l : bytes) : bool :=
  match l with
  | [] => true
  | byte :: rest =>
      let in_header := index <? SIZE_OF_GLOBAL_HEADER in
      let in_descriptors :=
        (directory_start <=? index)
        && (index <? saturating_add u64_max directory_start descriptor_bytes) in
      if negb in_header && negb in_descriptors && negb (byte =? 0) then false
      else check_outside_zero directory_start descriptor_bytes (index + 1) rest
  end.

Definition validate_finished_section_v21 (b : bytes) (expected : ValidatedSetupRequest)
    (expected_session_epoch : Z) : result failure SectionLayoutPlan :=
  if blen b <? SIZE_OF_GLOBAL_HEADER then Err (Fails SlBufferTooSmall)
  else
    let? piece := slice b 0 SIZE_OF_GLOBAL_HEADER in
    let? h := decode_header piece in
    let? directory_start :=
      ok_or (usize_try_from (rd_offset (gh_ring_directory h))) (Fails SlArithmeticOverflow) in
    let? directory_length :=
      ok_or (usize_try_from (rd_length (gh_ring_directory h))) (Fails SlArithmeticOverflow) in
    let? directory_end :=
      ok_or (checked_add u64_max directory_start directory_length) (Fails SlArithmeticOverflow) in
    if blen b <? directory_end then Err (Fails SlBufferTooSmall)
    else
      let? directory_bytes := slice b directory_start directory_end in
      let? plan :=
        validate_decoded_header_directory_v21 h directory_bytes expected expected_session_epoch in
      let? section_size :=
        ok_or (usize_try_from (sp_section_size plan)) (Fails SlSectionTooLarge) in
      if blen b <? section_size then Err (Fails SlBufferTooSmall)
      else
        let? product :=
          ok_or (checked_mul u64_max (sp_ring_count plan) SIZE_OF_RING_DESC)
                (Fails SlArithmeticOverflow) in
        let? descriptor_bytes := ok_or (usize_try_from product) (Fails SlArithmeticOverflow) in
        let? image := slice b 0 section_size in
        if check_outside_zero directory_start descriptor_bytes 0 image then Ok plan
        else Err (Fails SlInvalidPadding).
