(* ===== verification/SectionLayoutSpec.v ===== *)
(** * The shared section: proofs

    Explicit formulas for the plan of a section, its geometry (alignment,
    disjointness, capacity), acceptance of the packed slot arenas by the arena
    validator, and the correspondence of construction and validation. *)

From S2P Require Import Prelude Ids Slots Features Codec Control Topology SectionLayout.

(** ** Aligning up *)

Definition up (v a : Z) : Z := (v + (a - 1)) / a * a.

Lemma up_spec v a : 0 < a -> aligned_up v a (up v a).
Proof.
  intros Ha. unfold up, aligned_up. split; [by exists ((v + (a - 1)) / a) |].
  pose proof (Z.div_mod (v + (a - 1)) a ltac:(lia)).
  pose proof (Z.mod_pos_bound (v + (a - 1)) a Ha). lia.
Qed.

Lemma up_bounds v a : 0 < a -> v <= up v a < v + a.
Proof. intros Ha. by apply up_spec. Qed.

Lemma up_divide v a : 0 < a -> (a | up v a).
Proof. intros Ha. by apply up_spec. Qed.

Lemma checked_align_up_eq v a :
  0 <= v -> is_power_of_two a = true -> v + (a - 1) <= u64_max ->
  checked_align_up v a = Some (up v a).
Proof.
  intros Hv Ha Hb. pose proof (is_power_of_two_pos _ Ha).
  apply checked_align_up_spec; [lia | done | lia |]. split; [by apply up_spec | done].
Qed.

Lemma up_id v a : 0 < a -> (a | v) -> up v a = v.
Proof.
  intros Ha Hd. eapply (aligned_up_unique v a); [done | by apply up_spec |].
  by apply aligned_up_id.
Qed.

(** Far from the end of the 64-bit range. *)
Lemma mul_small a b : a * b <= 2 ^ 62 -> checked_mul u64_max a b = Some (a * b).
Proof. intros. apply checked_mul_Some. split; [done |]. unfold u64_max. lia. Qed.

Lemma add_small a b : a + b <= 2 ^ 62 -> checked_add u64_max a b = Some (a + b).
Proof. intros. apply checked_add_Some. split; [done |]. unfold u64_max. lia. Qed.

Abbreviation VIEW := USER_VIEW_OFFSET_ALIGNMENT.

(** The address space one placed region takes. *)
Definition span (len page : Z) : Z := up (up len page) VIEW.

Definition small_page (page : Z) : Prop := is_power_of_two page = true /\ page <= 2 ^ 31.

Lemma small_page_pos page : small_page page -> 0 < page <= 2 ^ 31.
Proof. intros [Hp ?]. apply is_power_of_two_pos in Hp. lia. Qed.

Lemma span_bounds len page :
  small_page page -> 0 <= len -> len <= up len page <= span len page /\
  span len page < len + page + VIEW.
Proof.
  intros Hp Hl. apply small_page_pos in Hp. unfold span.
  pose proof (up_bounds len page). pose proof (up_bounds (up len page) VIEW).
  unfold VIEW in *. lia.
Qed.

Lemma span_divide len page : (VIEW | span len page).
Proof. by apply up_divide. Qed.

(** [place] on lengths and cursors far from the end of the address space. *)
Lemma place_eq cursor len page :
  small_page page -> 0 <= len <= 2 ^ 32 -> 0 <= cursor <= 2 ^ 62 ->
  place cursor len page = Ok (mkRegionDesc cursor (up len page), cursor + span len page).
Proof.
  intros Hp Hl Hc. pose proof (small_page_pos _ Hp). pose proof (span_bounds len page Hp).
  destruct Hp as [Hpow Hple]. unfold place.
  rewrite checked_align_up_eq by (done || (unfold u64_max; lia)). cbn [ok_or].
  rewrite checked_align_up_eq by (done || (unfold u64_max, VIEW in *; lia)). cbn [ok_or].
  fold (span len page). unfold checked_add.
  by rewrite (proj2 (Z.leb_le _ _)) by (unfold u64_max, VIEW in *; lia).
Qed.

(** ** Packing an arena *)

Definition request_bytes (c : SlotClassRequest) : Z := cr_slot_size c * cr_slot_count c.

Fixpoint total_bytes (act : list SlotClassRequest) : Z :=
  match act with [] => 0 | c :: rest => request_bytes c + total_bytes rest end.

Fixpoint pack_active (cursor : Z) (act : list SlotClassRequest) : list SlotClassDesc :=
  match act with
  | [] => []
  | c :: rest =>
      mkSlotClassDesc (cr_slot_size c) (cr_slot_count c) cursor
      :: pack_active (cursor + request_bytes c) rest
  end.

Lemma request_bytes_bounds c : request_ok c -> 0 < request_bytes c <= 2 ^ 44.
Proof.
  intros Hc. pose proof (request_ok_pos _ Hc). destruct Hc as (Hs & _ & Hn).
  unfold request_bytes. split; [nia |]. change (2 ^ 44) with (MAX_SLOT_SIZE * MAX_SLOT_COUNT).
  apply Z.mul_le_mono_nonneg; lia.
Qed.

Lemma request_bytes_aligned c : request_ok c -> (SLOT_ALIGNMENT | request_bytes c).
Proof.
  intros (Hs & Hp & _). unfold request_bytes. apply Z.divide_mul_l.
  change SLOT_ALIGNMENT with (2 ^ 6). apply power_of_two_divide; [done | done |].
  unfold MIN_SLOT_SIZE in Hs. lia.
Qed.

Lemma total_bytes_bounds act :
  Forall request_ok act -> 0 <= total_bytes act <= Z.of_nat (length act) * 2 ^ 44.
Proof.
  induction 1 as [| c act Hc Hf IH]; [simpl; lia |].
  pose proof (request_bytes_bounds _ Hc). cbn [total_bytes length]. rewrite Nat2Z.inj_succ. lia.
Qed.

Lemma pack_classes_zeroes cursor n :
  pack_classes cursor (replicate n ZERO_REQUEST) = Ok (replicate n ZERO_CLASS, cursor).
Proof. induction n as [| n IH]; [done |]. simpl. by rewrite IH. Qed.

Lemma pack_classes_eq act n : forall cursor,
  (SLOT_ALIGNMENT | cursor) -> 0 <= cursor -> Forall request_ok act ->
  cursor + total_bytes act <= 2 ^ 62 ->
  pack_classes cursor (act ++ replicate n ZERO_REQUEST)
  = Ok (pack_active cursor act ++ replicate n ZERO_CLASS, cursor + total_bytes act).
Proof.
  induction act as [| c act IH]; intros cursor Ha Hc Hf Hb.
  { simpl. rewrite pack_classes_zeroes. by rewrite Z.add_0_r. }
  apply list.Forall_cons in Hf as [Hok Hf].
  pose proof (request_ok_pos _ Hok). pose proof (request_bytes_bounds _ Hok).
  pose proof (total_bytes_bounds _ Hf). cbn [app pack_classes total_bytes pack_active] in *.
  rewrite !(proj2 (Z.eqb_neq _ _)) by lia. cbn [orb].
  rewrite checked_align_up_eq by (done || (unfold u64_max, SLOT_ALIGNMENT; lia)).
  rewrite up_id by done. cbn [ok_or]. unfold checked_mul, checked_add.
  fold (request_bytes c).
  do 2 (rewrite (proj2 (Z.leb_le _ u64_max)) by (unfold u64_max; lia); cbn [ok_or]).
  rewrite IH; [by rewrite Z.add_assoc | | lia | done | lia].
  apply Z.divide_add_r; [done | by apply request_bytes_aligned].
Qed.

Lemma pack_active_length act : forall cursor, length (pack_active cursor act) = length act.
Proof. induction act; intros; simpl; congruence. Qed.

(** The packed classes are the packing that the arena validator specifies. *)
Lemma pack_active_packed act : forall cursor,
  Forall request_ok act -> packed cursor (pack_active cursor act) (cursor + total_bytes act).
Proof.
  induction act as [| c act IH]; intros cursor Hf; [simpl; lia |].
  apply list.Forall_cons in Hf as [Hc Hf]. cbn [pack_active packed total_bytes].
  split; [done |]. split; [done |].
  unfold class_bytes. cbn [scd_slot_size scd_slot_count]. fold (request_bytes c).
  rewrite Z.add_assoc. by apply IH.
Qed.

Lemma pack_active_increasing act : forall cursor prev,
  requests_increasing prev act -> increasing prev (pack_active cursor act).
Proof.
  induction act as [| c act IH]; intros cursor prev Hi; [done |].
  destruct Hi as [? ?]. split; [done |]. by apply IH.
Qed.

Definition arena_length (act : list SlotClassRequest) : Z := up (total_bytes act) VIEW.

Lemma total_bytes_zeroes act n :
  total_bytes (act ++ replicate n ZERO_REQUEST) = total_bytes act.
Proof.
  induction act as [| c act IH]; cbn [app total_bytes]; [| by rewrite IH].
  induction n as [| n IH]; [done |]. cbn [replicate total_bytes]. by rewrite IH.
Qed.

Lemma arena_length_zeroes act n :
  arena_length (act ++ replicate n ZERO_REQUEST) = arena_length act.
Proof. unfold arena_length. by rewrite total_bytes_zeroes. Qed.

Lemma up_add v w a : 0 < a -> (a | v) -> up (v + w) a = v + up w a.
Proof.
  intros Ha [q ->]. unfold up. replace (q * a + w + (a - 1)) with (w + (a - 1) + q * a) by lia.
  rewrite Z.div_add by lia. lia.
Qed.

Lemma pack_arena_eq act n offset :
  (VIEW | offset) -> 0 <= offset <= 2 ^ 60 -> Forall request_ok act -> (length act <= 4)%nat ->
  pack_arena offset (act ++ replicate n ZERO_REQUEST)
  = Ok (mkRegionDesc offset (arena_length act), pack_active offset act ++ replicate n ZERO_CLASS).
Proof.
  intros Hd Ho Hf Hl. pose proof (total_bytes_bounds _ Hf).
  assert (total_bytes act <= 2 ^ 46) by lia.
  unfold pack_arena. rewrite pack_classes_eq; [| | lia | done | lia].
  2:{ apply (Z.divide_trans _ VIEW); [| done]. by exists 1024. }
  rewrite checked_align_up_eq by (done || (unfold u64_max, VIEW; lia)). cbn [ok_or].
  rewrite up_add by done. fold (arena_length act). unfold checked_sub.
  pose proof (up_bounds (total_bytes act) VIEW ltac:(done)). unfold arena_length in *.
  rewrite (proj2 (Z.leb_le _ _)) by lia. cbn [ok_or]. by rewrite Z.add_simpl_l.
Qed.

Lemma arena_length_bounds act :
  Forall request_ok act /\ (length act <= 4)%nat -> 0 <= arena_length act <= 2 ^ 47.
Proof.
  intros [Hf Hl]. pose proof (total_bytes_bounds _ Hf). unfold arena_length.
  pose proof (up_bounds (total_bytes act) VIEW ltac:(done)). unfold VIEW in *. lia.
Qed.

Lemma arena_length_pos act : Forall request_ok act -> act <> [] -> 0 < arena_length act.
Proof.
  intros Hf Hne. destruct act as [| c act]; [done |].
  apply list.Forall_cons in Hf as [Hc Hf]. pose proof (request_bytes_bounds _ Hc).
  pose proof (total_bytes_bounds _ Hf). unfold arena_length.
  pose proof (up_bounds (total_bytes (c :: act)) VIEW ltac:(done)). cbn [total_bytes] in *. lia.
Qed.

(** ** Regions in address order *)

(** The regions lie between [lo] and [hi], each after the previous one, none
    empty, every one at an offset the section can be mapped from. *)
Fixpoint laid_out (lo : Z) (regions : list RegionDesc) (hi : Z) : Prop :=
  match regions with
  | [] => lo <= hi
  | r :: rest =>
      lo <= rd_offset r /\ (VIEW | rd_offset r) /\ 0 < rd_length r /\
      laid_out (rd_offset r + rd_length r) rest hi
  end.

Lemma laid_out_weaken lo lo' regions hi :
  lo <= lo' -> laid_out lo' regions hi -> laid_out lo regions hi.
Proof. destruct regions; simpl; intros; [lia |]. destruct_and?. split_and!; try done. lia. Qed.

Lemma laid_out_app a : forall lo mid b hi,
  laid_out lo a mid -> laid_out mid b hi -> laid_out lo (a ++ b) hi.
Proof.
  induction a as [| r a IH]; intros lo mid b hi Ha Hb; simpl in *.
  - by eapply laid_out_weaken.
  - destruct_and?. split_and!; try done. by eapply IH.
Qed.

Lemma laid_out_bounds regions : forall lo hi r,
  laid_out lo regions hi -> r ∈ regions ->
  lo <= rd_offset r /\ (VIEW | rd_offset r) /\ 0 < rd_length r /\ rd_offset r + rd_length r <= hi.
Proof.
  induction regions as [| x regions IH]; intros lo hi r Hl Hr; [by apply not_elem_of_nil in Hr |].
  destruct Hl as (? & ? & ? & Hl). apply elem_of_cons in Hr as [-> | Hr].
  - split_and!; try done. clear -Hl. revert Hl. generalize (rd_offset x + rd_length x).
    induction regions as [| y regions IH]; intros lo Hl; [done |].
    destruct Hl as (? & ? & ? & Hl). apply IH in Hl. lia.
  - destruct (IH _ _ _ Hl Hr) as (? & ? & ? & ?). split_and!; try done. lia.
Qed.

Lemma laid_out_ordered regions : forall lo hi i j r s,
  laid_out lo regions hi -> (i < j)%nat -> regions !! i = Some r -> regions !! j = Some s ->
  rd_offset r + rd_length r <= rd_offset s.
Proof.
  induction regions as [| x regions IH]; intros lo hi i j r s Hl Hij Hi Hj; [done |].
  destruct Hl as (? & ? & ? & Hl). destruct j as [| j]; [lia |]. simpl in Hj.
  destruct i as [| i]; simpl in Hi; simplify_eq.
  - apply list_elem_of_lookup_2 in Hj. by apply (laid_out_bounds _ _ _ _ Hl) in Hj as [? _].
  - apply (IH _ _ i j r s Hl); [lia | done | done].
Qed.

(** The six regions of a ring, in address order. *)
Definition ring_regions (r : RingLayoutPlan) : list RegionDesc :=
  [rp_sq_producer r; rp_sq_consumer r; rp_sq_entries r;
   rp_cq_producer r; rp_cq_consumer r; rp_cq_entries r].

(** Everything that lives in the section. *)
Definition section_regions (plan : SectionLayoutPlan) : list RegionDesc :=
  [mkRegionDesc 0 SIZE_OF_GLOBAL_HEADER; sp_ring_directory plan]
  ++ mjoin (ring_regions <$> rings plan)
  ++ [sp_k2u_slots plan; sp_u2k_slots plan; sp_notify_names plan].

(** ** The plan in closed form *)

Section Plan.
Context (setup : ValidatedSetupRequest) (page : Z).
Context (ak au : list SlotClassRequest) (nk nu : nat).
Let t := vs_topology setup.
Hypothesis Hpage : small_page page.
Hypothesis Htop : topology_ok t.
Hypothesis Hk : vt_k2u_slot_classes t = ak ++ replicate nk ZERO_REQUEST.
Hypothesis Hu : vt_u2k_slot_classes t = au ++ replicate nu ZERO_REQUEST.
Hypothesis Hak : Forall request_ok ak /\ (length ak <= 4)%nat.
Hypothesis Hau : Forall request_ok au /\ (length au <= 4)%nat.

Definition directory_bytes : Z := vt_ring_count (vs_topology setup) * SIZE_OF_RING_DESC.
Definition sq_bytes : Z := vt_sq_capacity (vs_topology setup) * SIZE_OF_SQE.
Definition cq_bytes : Z := vt_cq_capacity (vs_topology setup) * SIZE_OF_CQE.
Definition base_offset : Z := span SIZE_OF_GLOBAL_HEADER page + span directory_bytes page.
Definition stride_bytes : Z :=
  span SIZE_OF_PRODUCER_PAGE page + span SIZE_OF_CONSUMER_PAGE page + span sq_bytes page
  + span SIZE_OF_PRODUCER_PAGE page + span SIZE_OF_CONSUMER_PAGE page + span cq_bytes page.
Definition k2u_offset : Z := base_offset + stride_bytes * vt_ring_count (vs_topology setup).
Definition u2k_offset : Z := k2u_offset + arena_length ak.
Definition notify_offset : Z := u2k_offset + arena_length au.
Definition total_size : Z := notify_offset + span page page.

Definition canonical_plan (epoch : Z) : SectionLayoutPlan :=
  mkPlan total_size page (vt_ring_count (vs_topology setup)) (vt_sq_capacity (vs_topology setup))
    (vt_cq_capacity (vs_topology setup))
    (mkRegionDesc (span SIZE_OF_GLOBAL_HEADER page) (up directory_bytes page))
    base_offset stride_bytes
    (mkRegionDesc k2u_offset (arena_length ak)) (mkRegionDesc u2k_offset (arena_length au))
    (mkRegionDesc notify_offset (up page page))
    (pack_active k2u_offset ak ++ replicate nk ZERO_CLASS)
    (pack_active u2k_offset au ++ replicate nu ZERO_CLASS)
    (selected_features (vs_selection setup)) (detected_os_capabilities (vs_selection setup))
    (vt_max_inflight (vs_topology setup)) epoch.

Lemma byte_counts :
  SIZE_OF_RING_DESC <= directory_bytes <= 2 ^ 13 /\ 1024 <= sq_bytes <= 2 ^ 23 /\
  128 <= cq_bytes <= 2 ^ 22.
Proof.
  clear Hk Hu Hak Hau Hpage. destruct Htop as [Hr [Hs _] [Hc _] _ _ _ _ _ _ _ _ _].
  unfold directory_bytes, sq_bytes, cq_bytes, SIZE_OF_RING_DESC, SIZE_OF_SQE, SIZE_OF_CQE,
    MIN_RING_COUNT, MAX_RING_COUNT, MIN_SQ_CAPACITY, MAX_SQ_CAPACITY, MIN_CQ_CAPACITY,
    MAX_CQ_CAPACITY in *. subst t. lia.
Qed.

Lemma span_small len : 0 <= len <= 2 ^ 31 -> 0 <= span len page <= 2 ^ 33.
Proof.
  clear Hk Hu Hak Hau.
  intros Hl. pose proof (span_bounds len page Hpage ltac:(lia)).
  pose proof (small_page_pos _ Hpage). unfold VIEW in *. lia.
Qed.

Lemma base_stride_bounds : 0 <= base_offset <= 2 ^ 34 /\ 0 <= stride_bytes <= 2 ^ 36.
Proof.
  clear Hk Hu Hak Hau.
  pose proof byte_counts. unfold base_offset, stride_bytes.
  pose proof (span_small SIZE_OF_GLOBAL_HEADER ltac:(done)).
  pose proof (span_small SIZE_OF_PRODUCER_PAGE ltac:(done)).
  pose proof (span_small SIZE_OF_CONSUMER_PAGE ltac:(done)).
  pose proof (span_small directory_bytes). pose proof (span_small sq_bytes).
  pose proof (span_small cq_bytes). unfold SIZE_OF_RING_DESC in *. lia.
Qed.

Lemma rings_bound : 1 <= vt_ring_count (vs_topology setup) <= 64.
Proof. clear Hk Hu Hak Hau. destruct Htop. done. Qed.

Lemma offsets_bounds :
  0 <= base_offset <= k2u_offset /\ k2u_offset <= u2k_offset <= notify_offset /\
  notify_offset <= 2 ^ 49.
Proof.
  clear Hk Hu.
  pose proof base_stride_bounds. pose proof rings_bound.
  pose proof (arena_length_bounds ak Hak). pose proof (arena_length_bounds au Hau).
  unfold notify_offset, u2k_offset, k2u_offset. nia.
Qed.

Lemma base_offset_divide : (VIEW | base_offset).
Proof. apply Z.divide_add_r; apply span_divide. Qed.

Lemma stride_divide : (VIEW | stride_bytes).
Proof. unfold stride_bytes. repeat apply Z.divide_add_r; apply span_divide. Qed.

Lemma k2u_offset_divide : (VIEW | k2u_offset).
Proof.
  apply Z.divide_add_r; [apply base_offset_divide |]. apply Z.divide_mul_l, stride_divide.
Qed.

Lemma u2k_offset_divide : (VIEW | u2k_offset).
Proof. apply Z.divide_add_r; [apply k2u_offset_divide | by apply up_divide]. Qed.

Lemma notify_offset_divide : (VIEW | notify_offset).
Proof. apply Z.divide_add_r; [apply u2k_offset_divide | by apply up_divide]. Qed.

(** On a legal topology and page size no addition overflows: the plan is the
    closed form, and only its size can be refused. *)
Lemma compute_eq :
  compute setup page =
  if MAX_SECTION_BYTES <? total_size then Err SlSectionTooLarge else Ok (canonical_plan 1).
Proof.
  pose proof byte_counts. pose proof base_stride_bounds. pose proof rings_bound.
  pose proof offsets_bounds.
  pose proof (span_small SIZE_OF_GLOBAL_HEADER ltac:(done)).
  pose proof (span_small SIZE_OF_PRODUCER_PAGE ltac:(done)).
  pose proof (span_small SIZE_OF_CONSUMER_PAGE ltac:(done)).
  pose proof (span_small directory_bytes ltac:(unfold SIZE_OF_RING_DESC in *; lia)).
  pose proof (span_small sq_bytes ltac:(lia)).
  pose proof (span_small cq_bytes ltac:(lia)).
  pose proof (small_page_pos _ Hpage).
  destruct Htop as [Hr [Hs Hsp] [Hc Hcp] _ _ _ _ _ _ _ _ _]. subst t.
  unfold compute. rewrite (proj2 (Z.eqb_neq page 0)) by lia. rewrite (proj1 Hpage).
  cbn [negb orb]. rewrite Hsp, Hcp. rewrite !(proj2 (Z.ltb_ge _ _)) by lia. cbn [negb orb].
  rewrite !mul_small by (fold directory_bytes || fold sq_bytes || fold cq_bytes;
                  unfold SIZE_OF_RING_DESC in *; lia).
  fold directory_bytes sq_bytes cq_bytes. cbn [ok_or].
  do 8 (rewrite place_eq by (done || (unfold SIZE_OF_RING_DESC in *; lia)); cbn iota).
  rewrite !Z.add_0_l. fold base_offset.
  erewrite (proj2 (checked_sub_Some _ base_offset stride_bytes))
    by (unfold stride_bytes in *; split; lia). cbn [ok_or].
  rewrite mul_small by nia. cbn [ok_or]. rewrite add_small by (fold k2u_offset; lia). cbn [ok_or].
  fold k2u_offset. rewrite Hk.
  rewrite (pack_arena_eq ak nk k2u_offset) by (apply k2u_offset_divide || lia || apply Hak).
  cbn iota. cbn [rd_length]. rewrite add_small by (fold u2k_offset; lia). cbn [ok_or].
  fold u2k_offset. rewrite Hu.
  rewrite (pack_arena_eq au nu u2k_offset) by (apply u2k_offset_divide || lia || apply Hau).
  cbn iota. cbn [rd_length]. rewrite add_small by (fold notify_offset; lia). cbn [ok_or].
  fold notify_offset. rewrite place_eq by (done || lia). cbn iota. reflexivity.
Qed.

(** ** Rings *)

Definition ring_offset (i : Z) : Z := base_offset + stride_bytes * i.
Definition page_region (offset len : Z) : RegionDesc := mkRegionDesc offset (up len page).

Definition ring_at (i : Z) : RingLayoutPlan :=
  let c0 := ring_offset i in
  let c1 := c0 + span SIZE_OF_PRODUCER_PAGE page in
  let c2 := c1 + span SIZE_OF_CONSUMER_PAGE page in
  let c3 := c2 + span sq_bytes page in
  let c4 := c3 + span SIZE_OF_PRODUCER_PAGE page in
  let c5 := c4 + span SIZE_OF_CONSUMER_PAGE page in
  mkRingPlan i (page_region c2 sq_bytes) (page_region c0 SIZE_OF_PRODUCER_PAGE)
    (page_region c1 SIZE_OF_CONSUMER_PAGE) (page_region c5 cq_bytes)
    (page_region c3 SIZE_OF_PRODUCER_PAGE) (page_region c4 SIZE_OF_CONSUMER_PAGE).

Lemma region_from_raw_eq offset len :
  0 <= len <= 2 ^ 31 -> region_from_raw offset len page = Some (page_region offset len).
Proof.
  clear Hk Hu Hak Hau.
  intros Hl. pose proof (small_page_pos _ Hpage). unfold region_from_raw.
  rewrite checked_align_up_eq; [done | lia | apply Hpage | unfold u64_max; lia].
Qed.

Lemma advance_region_eq offset offset' len :
  0 <= len <= 2 ^ 31 -> offset <= 2 ^ 62 ->
  advance_region offset (page_region offset' len) = Some (offset + span len page).
Proof.
  clear Hk Hu Hak Hau.
  intros Hl Ho. pose proof (small_page_pos _ Hpage). pose proof (span_small len Hl).
  pose proof (span_bounds len page Hpage ltac:(lia)).
  unfold advance_region, region_span, page_region. cbn [rd_length].
  rewrite checked_align_up_eq by (done || (unfold u64_max, VIEW in *; lia)).
  fold (span len page). apply checked_add_Some. split; [done |]. unfold u64_max. lia.
Qed.

Lemma ring_eq epoch i :
  0 <= i < vt_ring_count (vs_topology setup) ->
  ring (canonical_plan epoch) i = Some (ring_at i).
Proof.
  clear Hk Hu Hak Hau.
  intros Hi. pose proof byte_counts. pose proof base_stride_bounds. pose proof rings_bound.
  pose proof (span_small SIZE_OF_PRODUCER_PAGE ltac:(done)).
  pose proof (span_small SIZE_OF_CONSUMER_PAGE ltac:(done)).
  pose proof (span_small sq_bytes ltac:(lia)).
  assert (0 <= stride_bytes * i <= 2 ^ 42) by nia.
  unfold ring. cbn [canonical_plan sp_ring_count sp_ring_stride sp_ring_base sp_page_size
    sp_sq_capacity sp_cq_capacity].
  rewrite (proj2 (Z.leb_gt _ _)) by lia.
  rewrite (mul_small stride_bytes i) by lia. cbn [mbind option_bind].
  rewrite add_small by lia. cbn [mbind option_bind]. fold (ring_offset i).
  assert (0 <= ring_offset i <= 2 ^ 43) by (unfold ring_offset; lia).
  do 2 (rewrite region_from_raw_eq by done; cbn [mbind option_bind];
        rewrite advance_region_eq by (done || lia); cbn [mbind option_bind]).
  rewrite (mul_small _ SIZE_OF_SQE) by (fold sq_bytes; lia). cbn [mbind option_bind].
  fold sq_bytes.
  do 1 (rewrite region_from_raw_eq by (done || lia); cbn [mbind option_bind];
        rewrite advance_region_eq by (done || lia); cbn [mbind option_bind]).
  do 2 (rewrite region_from_raw_eq by done; cbn [mbind option_bind];
        rewrite advance_region_eq by (done || lia); cbn [mbind option_bind]).
  rewrite (mul_small _ SIZE_OF_CQE) by (fold cq_bytes; lia). cbn [mbind option_bind]. fold cq_bytes.
  rewrite region_from_raw_eq by lia. done.
Qed.

Lemma rings_from_eq epoch fuel : forall i,
  0 <= i -> i + Z.of_nat fuel = vt_ring_count (vs_topology setup) ->
  rings_from (canonical_plan epoch) i fuel = ring_at <$> seqZ i (Z.of_nat fuel).
Proof.
  clear Hk Hu Hak Hau.
  induction fuel as [| fuel IH]; intros i Hi Hf; [done |].
  cbn [rings_from]. rewrite ring_eq by lia. rewrite IH by lia.
  rewrite (seqZ_cons i) by lia. rewrite fmap_cons. f_equal. f_equal. f_equal; lia.
Qed.

(** The iterator yields every ring, in order, and stops by itself. *)
Lemma rings_eq epoch :
  rings (canonical_plan epoch) = ring_at <$> seqZ 0 (vt_ring_count (vs_topology setup)) /\
  ring (canonical_plan epoch) (vt_ring_count (vs_topology setup)) = None.
Proof.
  pose proof rings_bound. split.
  - unfold rings. cbn [canonical_plan sp_ring_count].
    rewrite rings_from_eq by lia. by rewrite Z2Nat.id by lia.
  - unfold ring. cbn [canonical_plan sp_ring_count]. by rewrite (proj2 (Z.leb_le _ _)) by lia.
Qed.

Lemma ring_offset_divide i : (VIEW | ring_offset i).
Proof.
  apply Z.divide_add_r; [apply base_offset_divide |]. apply Z.divide_mul_l, stride_divide.
Qed.

Lemma laid_out_step offset len rest hi :
  (VIEW | offset) -> 0 < len ->
  laid_out (offset + span len page) rest hi ->
  laid_out offset (page_region offset len :: rest) hi.
Proof.
  clear Hk Hu Hak Hau.
  intros Hd Hl Hr. pose proof (span_bounds len page Hpage ltac:(lia)).
  cbn [laid_out page_region rd_offset rd_length]. split_and!; [lia | done | lia |].
  eapply laid_out_weaken; [| done]. lia.
Qed.

Lemma ring_laid_out i :
  laid_out (ring_offset i) (ring_regions (ring_at i)) (ring_offset (i + 1)).
Proof.
  clear Hk Hu Hak Hau.
  pose proof byte_counts. unfold ring_regions, ring_at. cbn [rp_sq_producer rp_sq_consumer
    rp_sq_entries rp_cq_producer rp_cq_consumer rp_cq_entries].
  repeat first [apply laid_out_step | apply ring_offset_divide | apply span_divide
               | apply Z.divide_add_r | done | lia].
  cbn [laid_out]. unfold ring_offset, stride_bytes. lia.
Qed.

Lemma rings_laid_out n : forall i,
  laid_out (ring_offset i) (mjoin (ring_regions <$> (ring_at <$> seqZ i (Z.of_nat n))))
           (ring_offset (i + Z.of_nat n)).
Proof.
  clear Hk Hu Hak Hau.
  induction n as [| n IH]; intros i.
  { rewrite Z.add_0_r, seqZ_nil by lia. apply Z.le_refl. }
  rewrite seqZ_cons by lia. rewrite !fmap_cons. cbn [mjoin list_join].
  apply (laid_out_app _ _ (ring_offset (i + 1))); [apply ring_laid_out |].
  replace (Z.pred (Z.of_nat (S n))) with (Z.of_nat n) by lia.
  replace (i + Z.of_nat (S n)) with (Z.succ i + Z.of_nat n) by lia. apply IH.
Qed.

Lemma section_laid_out epoch :
  ak <> [] -> au <> [] ->
  laid_out 0 (section_regions (canonical_plan epoch)) total_size.
Proof.
  clear Hk Hu.
  intros Hkne Hune. pose proof byte_counts. pose proof rings_bound.
  pose proof (small_page_pos _ Hpage).
  pose proof (arena_length_pos ak (proj1 Hak) Hkne). pose proof (arena_length_pos au (proj1 Hau) Hune).
  pose proof (span_bounds SIZE_OF_GLOBAL_HEADER page Hpage ltac:(done)) as Hg.
  unfold section_regions. rewrite (proj1 (rings_eq epoch)).
  apply (laid_out_app _ _ base_offset).
  - cbn [laid_out rd_offset rd_length canonical_plan sp_ring_directory].
    pose proof (span_bounds directory_bytes page Hpage ltac:(unfold SIZE_OF_RING_DESC in *; lia)).
    unfold base_offset, SIZE_OF_RING_DESC, SIZE_OF_GLOBAL_HEADER in *.
    split_and!; try lia; [by exists 0 | apply span_divide].
  - apply (laid_out_app _ _ k2u_offset).
    + pose proof (rings_laid_out (Z.to_nat (vt_ring_count (vs_topology setup))) 0) as Hr.
      rewrite Z2Nat.id, Z.add_0_l in Hr by lia. unfold ring_offset in Hr at 1.
      by rewrite Z.mul_0_r, Z.add_0_r in Hr.
    + cbn [laid_out rd_offset rd_length canonical_plan sp_k2u_slots sp_u2k_slots sp_notify_names].
      pose proof (span_bounds page page Hpage ltac:(lia)).
      unfold total_size, notify_offset, u2k_offset.
      split_and!; try lia;
        [apply k2u_offset_divide | apply u2k_offset_divide | apply notify_offset_divide].
Qed.
End Plan.

(** ** From accepted requests to the closed form *)

Lemma u32_power_small page :
  is_u32 page -> is_power_of_two page = true -> small_page page.
Proof.
  intros Hu Hp. split; [done |]. apply is_power_of_two_spec in Hp as (k & Hk & ->).
  apply Z.pow_le_mono_r; [done |]. unfold is_u32, u32_max in Hu.
  assert (k < 32); [| lia]. apply (Z.pow_lt_mono_r_iff 2); lia.
Qed.

Lemma class_requests_split classes :
  class_requests_ok classes -> length classes = SLOT_CLASS_COUNT ->
  exists act n, classes = act ++ replicate n ZERO_REQUEST /\ act <> [] /\
    (Forall request_ok act /\ (length act <= 4)%nat) /\ requests_increasing None act /\
    (length act + n = 4)%nat.
Proof.
  intros (act & n & -> & Hne & Hf & Hi) Hl.
  rewrite length_app, length_replicate in Hl. unfold SLOT_CLASS_COUNT in Hl.
  exists act, n. split_and!; try done. lia.
Qed.

(** What the proofs below need of a setup and its plan. *)
Record planned (setup : ValidatedSetupRequest) (page : Z) (ak au : list SlotClassRequest)
    (nk nu : nat) : Prop := mkPlanned {
  pl_page : small_page page;
  pl_setup : setup_ok setup;
  pl_k : vt_k2u_slot_classes (vs_topology setup) = ak ++ replicate nk ZERO_REQUEST;
  pl_u : vt_u2k_slot_classes (vs_topology setup) = au ++ replicate nu ZERO_REQUEST;
  pl_ak : Forall request_ok ak /\ (length ak <= 4)%nat;
  pl_au : Forall request_ok au /\ (length au <= 4)%nat;
  pl_ak_ne : ak <> [];
  pl_au_ne : au <> [];
  pl_ak_inc : requests_increasing None ak;
  pl_au_inc : requests_increasing None au;
  pl_ak_len : (length ak + nk = 4)%nat;
  pl_au_len : (length au + nu = 4)%nat;
}.

Lemma planned_exists setup page :
  setup_ok setup -> is_u32 page -> is_power_of_two page = true ->
  exists ak au nk nu, planned setup page ak au nk nu.
Proof.
  intros Hs Hu Hp. pose proof Hs as [Ht Hk Huk _ _].
  destruct (class_requests_split _ (to_k2u _ Ht) Hk) as (ak & nk & ? & ? & ? & ? & ?).
  destruct (class_requests_split _ (to_u2k _ Ht) Huk) as (au & nu & ? & ? & ? & ? & ?).
  exists ak, au, nk, nu. constructor; try done. by apply u32_power_small.
Qed.

Section Planned.
Context {setup : ValidatedSetupRequest} {page : Z} {ak au : list SlotClassRequest} {nk nu : nat}.
Hypothesis Hpl : planned setup page ak au nk nu.

Lemma planned_compute :
  compute setup page =
  if MAX_SECTION_BYTES <? total_size setup page ak au then Err SlSectionTooLarge
  else Ok (canonical_plan setup page ak au nk nu 1).
Proof using Hpl. destruct Hpl as [? []]. by apply compute_eq. Qed.

Lemma planned_rings epoch :
  rings (canonical_plan setup page ak au nk nu epoch)
  = ring_at setup page <$> seqZ 0 (vt_ring_count (vs_topology setup)).
Proof using Hpl. destruct Hpl as [? []]. apply rings_eq; done. Qed.

Lemma planned_laid_out epoch :
  laid_out 0 (section_regions (canonical_plan setup page ak au nk nu epoch))
           (total_size setup page ak au).
Proof using Hpl. destruct Hpl as [? []]. by apply section_laid_out. Qed.

Lemma planned_size :
  (VIEW | total_size setup page ak au) /\ SIZE_OF_GLOBAL_HEADER < total_size setup page ak au.
Proof using Hpl.
  split; [apply Z.divide_add_r; [apply notify_offset_divide | apply span_divide] |].
  pose proof (planned_laid_out 1) as H. apply (laid_out_ordered _ _ _ 0 1) with
    (r := mkRegionDesc 0 SIZE_OF_GLOBAL_HEADER)
    (s := sp_ring_directory (canonical_plan setup page ak au nk nu 1)) in H as Ho; [| lia | done | done].
  apply (laid_out_bounds _ _ _ (sp_ring_directory (canonical_plan setup page ak au nk nu 1))) in H;
    [| right; left]. cbn [rd_offset rd_length] in Ho. lia.
Qed.
End Planned.

Lemma compute_Ok_planned setup page plan :
  setup_ok setup -> is_u32 page -> compute setup page = Ok plan ->
  exists ak au nk nu, planned setup page ak au nk nu /\
    plan = canonical_plan setup page ak au nk nu 1 /\
    total_size setup page ak au <= MAX_SECTION_BYTES.
Proof.
  intros Hs Hu Hc.
  assert (Hp : is_power_of_two page = true).
  { unfold compute in Hc. destruct (_ || _) eqn:E in Hc; [done |]. by bools. }
  destruct (planned_exists _ _ Hs Hu Hp) as (ak & au & nk & nu & Hpl).
  exists ak, au, nk, nu. rewrite (planned_compute Hpl) in Hc.
  case_match; [done |]. bools. by simplify_eq.
Qed.

(** The size of the section a topology asks for, read off the request: one
    span per region, [ring_count] rings of two cursor-page pairs and two entry
    arrays, the two arenas, and one page of notification names. *)
Definition section_bytes (t : ValidatedTopology) (page : Z) : Z :=
  span SIZE_OF_GLOBAL_HEADER page + span (vt_ring_count t * SIZE_OF_RING_DESC) page
  + vt_ring_count t
    * (2 * (span SIZE_OF_PRODUCER_PAGE page + span SIZE_OF_CONSUMER_PAGE page)
       + span (vt_sq_capacity t * SIZE_OF_SQE) page + span (vt_cq_capacity t * SIZE_OF_CQE) page)
  + arena_length (vt_k2u_slot_classes t) + arena_length (vt_u2k_slot_classes t)
  + span page page.

Lemma planned_section_bytes setup page ak au nk nu :
  planned setup page ak au nk nu ->
  total_size setup page ak au = section_bytes (vs_topology setup) page.
Proof.
  intros []. unfold total_size, notify_offset, u2k_offset, k2u_offset, base_offset, stride_bytes,
    section_bytes, directory_bytes, sq_bytes, cq_bytes.
  rewrite pl_k0, pl_u0, !arena_length_zeroes. ring.
Qed.

(** C20: termination and error behaviour of the planner: on an accepted SETUP
    and any 32-bit page size it answers exactly one of three ways: it refuses
    the page size when that is not a power of two; it refuses the section when
    the size the request asks for is above the limit, and only then; otherwise
    it returns a plan, of exactly that size, which is mappable. No arithmetic of
    it overflows. *)
Theorem compute_total (input : bytes) profile mask probe sid setup page :
  Forall is_byte input -> FeatureSet_valid mask -> FeatureSet_valid probe ->
  validate_setup_request_v1 input profile mask probe sid = Ok setup -> is_u32 page ->
  let size := section_bytes (vs_topology setup) page in
  if negb (is_power_of_two page) then compute setup page = Err SlInvalidPageSize
  else if MAX_SECTION_BYTES <? size then compute setup page = Err SlSectionTooLarge
  else exists plan, compute setup page = Ok plan /\ sp_section_size plan = size /\
         (VIEW | size) /\ SIZE_OF_GLOBAL_HEADER < size <= MAX_SECTION_BYTES.
Proof.
  intros Hb Hm Hp Hv Hu. pose proof (validate_setup_ok _ _ _ _ _ _ Hb Hm Hp Hv) as Hs.
  cbn zeta. destruct (is_power_of_two page) eqn:Epow; cbn [negb].
  - destruct (planned_exists _ _ Hs Hu Epow) as (ak & au & nk & nu & Hpl).
    rewrite (planned_compute Hpl). pose proof (planned_size Hpl) as [? ?].
    rewrite <- (planned_section_bytes _ _ _ _ _ _ Hpl).
    destruct (Z.ltb_spec MAX_SECTION_BYTES (total_size setup page ak au)); [done |].
    by eexists.
  - unfold compute. rewrite Epow. by rewrite orb_true_r.
Qed.

(** ** Geometry *)

Lemma up_page_multiple len page : small_page page -> (page | up len page).
Proof. intros Hp. apply up_divide. apply small_page_pos in Hp. lia. Qed.

(** A region of the least whole number of pages that holds [need] bytes. *)
Definition holds (page need : Z) (region : RegionDesc) : Prop :=
  need <= rd_length region < need + page /\ (page | rd_length region).

Lemma holds_up page need offset :
  small_page page -> holds page need (mkRegionDesc offset (up need page)).
Proof.
  intros Hp. pose proof (small_page_pos _ Hp). split; [apply up_bounds; lia |].
  by apply up_page_multiple.
Qed.

(** An arena that holds every slot its classes were requested with: each
    descriptor has the requested slot size and count, the slots of every active
    class lie inside the arena, those of different classes apart, and less than
    one view granule is left over. *)
Definition arena_holds (requests : list SlotClassRequest) (arena : RegionDesc)
    (classes : list SlotClassDesc) : Prop :=
  Forall2 (fun q c => scd_slot_size c = cr_slot_size q /\ scd_slot_count c = cr_slot_count q)
          requests classes /\
  (forall k c, classes !! k = Some c -> 0 < class_bytes c ->
     rd_offset arena <= scd_data_offset c /\
     scd_data_offset c + class_bytes c <= rd_offset arena + rd_length arena) /\
  (forall j k c d, (j < k)%nat -> classes !! j = Some c -> classes !! k = Some d ->
     0 < class_bytes d -> scd_data_offset c + class_bytes c <= scd_data_offset d) /\
  total_bytes requests <= rd_length arena < total_bytes requests + VIEW.

Lemma pack_active_requests act : forall cursor,
  Forall2 (fun q c => scd_slot_size c = cr_slot_size q /\ scd_slot_count c = cr_slot_count q)
          act (pack_active cursor act).
Proof. induction act; intros; cbn [pack_active]; by constructor. Qed.

Lemma active_lookup act n offset k c :
  (pack_active offset act ++ replicate n ZERO_CLASS) !! k = Some c -> 0 < class_bytes c ->
  pack_active offset act !! k = Some c.
Proof.
  intros [Hk | [_ [-> _]%lookup_replicate]]%lookup_app_Some Hpos; [done |].
  by apply Z.lt_irrefl in Hpos.
Qed.

Lemma packed_arena_holds act n offset :
  Forall request_ok act ->
  arena_holds (act ++ replicate n ZERO_REQUEST) (mkRegionDesc offset (arena_length act))
              (pack_active offset act ++ replicate n ZERO_CLASS).
Proof.
  intros Hf. pose proof (pack_active_packed act offset Hf) as Hp.
  pose proof (up_bounds (total_bytes act) VIEW ltac:(done)) as Hup. fold (arena_length act) in Hup.
  split; [| split; [| split]]; cbn [rd_offset rd_length].
  - apply Forall2_app; [apply pack_active_requests |]. by apply Forall2_replicate.
  - intros k c Hk Hpos. apply active_lookup in Hk; [| done].
    destruct (packed_lookup _ _ _ _ _ Hp Hk) as (_ & ? & ? & _). lia.
  - intros j k c d Hjk Hj Hk Hpos. apply active_lookup in Hk; [| done].
    pose proof (lookup_lt_Some _ _ _ Hk). rewrite lookup_app_l in Hj by lia.
    exact (packed_ordered _ _ _ _ _ _ _ Hp Hj Hk Hjk).
  - rewrite total_bytes_zeroes. lia.
Qed.

(** The six regions of one ring: two pairs of cursor pages and the arrays of
    submission and completion entries. *)
Definition ring_holds (t : ValidatedTopology) (page : Z) (r : RingLayoutPlan) : Prop :=
  holds page SIZE_OF_PRODUCER_PAGE (rp_sq_producer r) /\
  holds page SIZE_OF_CONSUMER_PAGE (rp_sq_consumer r) /\
  holds page (vt_sq_capacity t * SIZE_OF_SQE) (rp_sq_entries r) /\
  holds page SIZE_OF_PRODUCER_PAGE (rp_cq_producer r) /\
  holds page SIZE_OF_CONSUMER_PAGE (rp_cq_consumer r) /\
  holds page (vt_cq_capacity t * SIZE_OF_CQE) (rp_cq_entries r).

(** C10: safety of the section layout: everything in the section, the
    header, the ring directory, the six regions of every ring, the two slot
    arenas and the notification names, lies inside it at a mappable offset, in
    order and without overlap. The rings are those the accepted request asks
    for, in order, and every region has room for what the request puts there:
    the directory for its descriptors, each cursor page for the whole cursor
    record, each entry array for its capacity, the notification names for one
    page, all in the least number of whole pages; and each arena for every slot
    of every requested class, each class with its requested slot size and count
    in a part of the arena of its own. *)
Theorem section_geometry (input : bytes) profile mask probe sid setup page plan :
  Forall is_byte input -> FeatureSet_valid mask -> FeatureSet_valid probe ->
  validate_setup_request_v1 input profile mask probe sid = Ok setup -> is_u32 page ->
  compute setup page = Ok plan ->
  let t := vs_topology setup in
  (forall i j r s, (i < j)%nat ->
    section_regions plan !! i = Some r -> section_regions plan !! j = Some s ->
    rd_offset r + rd_length r <= rd_offset s) /\
  (forall r, r ∈ section_regions plan ->
    0 <= rd_offset r /\ (VIEW | rd_offset r) /\ 0 < rd_length r /\
    rd_offset r + rd_length r <= sp_section_size plan) /\
  rp_ring_index <$> rings plan = seqZ 0 (vt_ring_count t) /\
  holds page (vt_ring_count t * SIZE_OF_RING_DESC) (sp_ring_directory plan) /\
  Forall (ring_holds t page) (rings plan) /\
  arena_holds (vt_k2u_slot_classes t) (sp_k2u_slots plan) (sp_k2u_slot_classes plan) /\
  arena_holds (vt_u2k_slot_classes t) (sp_u2k_slots plan) (sp_u2k_slot_classes plan) /\
  holds page page (sp_notify_names plan).
Proof.
  intros Hb Hm Hp Hv Hu Hc t. pose proof (validate_setup_ok _ _ _ _ _ _ Hb Hm Hp Hv) as Hs.
  destruct (compute_Ok_planned _ _ _ Hs Hu Hc) as (ak & au & nk & nu & Hpl & -> & _).
  pose proof (planned_laid_out Hpl 1) as Hlo. pose proof (pl_page _ _ _ _ _ _ Hpl) as Hsp.
  split_and!.
  - intros i j r s Hij Hi Hj. by apply (laid_out_ordered _ _ _ i j r s Hlo).
  - intros r Hr. apply (laid_out_bounds _ _ _ _ Hlo Hr).
  - rewrite (planned_rings Hpl), <- list_fmap_compose.
    unfold t. rewrite <- (list_fmap_id (seqZ _ _)) at 2. apply list_fmap_ext. by intros.
  - by apply holds_up.
  - rewrite (planned_rings Hpl). apply Forall_fmap, list.Forall_forall. intros i _.
    by split_and!; apply holds_up.
  - unfold t. rewrite (pl_k _ _ _ _ _ _ Hpl). apply packed_arena_holds, (pl_ak _ _ _ _ _ _ Hpl).
  - unfold t. rewrite (pl_u _ _ _ _ _ _ Hpl). apply packed_arena_holds, (pl_au _ _ _ _ _ _ Hpl).
  - by apply holds_up.
Qed.

(** ** The packed arenas pass the arena validator *)

Lemma scan_classes_zeroes n : forall s,
  exists s', scan_classes s (replicate n ZERO_CLASS) = Ok s' /\
    as_cursor s' = as_cursor s /\ as_active s' = as_active s.
Proof.
  induction n as [| n IH]; intros s; [by exists s |].
  destruct (IH (mkScan (as_cursor s) (as_previous s) (as_active s) true)) as (s' & ? & ? & ?).
  by exists s'.
Qed.

(** One active class of a packing. *)
Lemma scan_class_active s c :
  class_active_ok c -> scd_data_offset c = as_cursor s -> (SLOT_ALIGNMENT | as_cursor s) ->
  0 <= as_cursor s -> as_cursor s + class_bytes c <= 2 ^ 62 -> as_saw_inactive s = false ->
  match as_previous s with Some p => p < scd_slot_size c | None => True end ->
  as_active s + 1 <= u8_max ->
  scan_class s c = Ok (mkScan (as_cursor s + class_bytes c) (Some (scd_slot_size c))
                              (as_active s + 1) false).
Proof.
  intros (Hs & Hp & Hn) Hd Ha Hc Hb Hi Hprev Hact. unfold scan_class.
  unfold MIN_SLOT_SIZE, MIN_SLOT_COUNT in *.
  rewrite !(proj2 (Z.eqb_neq _ 0)) by lia. cbn [orb]. rewrite Hi, Hp.
  rewrite !(proj2 (Z.ltb_ge _ _)) by (done || lia). cbn [negb orb].
  rewrite Hd, (proj2 (Z.mod_divide (as_cursor s) SLOT_ALIGNMENT ltac:(done)) Ha). cbn [Z.eqb negb].
  replace (match as_previous s with Some previous => scd_slot_size c <=? previous | None => false end)
    with false by (destruct (as_previous s); [symmetry; apply Z.leb_gt; lia | done]).
  assert (0 <= class_bytes c) by (unfold class_bytes; nia).
  rewrite checked_align_up_eq by (done || (unfold u64_max, SLOT_ALIGNMENT; lia)).
  rewrite up_id by done. cbn [ok_or]. rewrite Z.eqb_refl. cbn [negb].
  fold (class_bytes c). rewrite mul_small by (fold (class_bytes c); lia). fold (class_bytes c).
  cbn [ok_or]. rewrite add_small by lia. cbn [ok_or].
  unfold checked_add. by rewrite (proj2 (Z.leb_le _ _)) by lia.
Qed.

Lemma class_bytes_aligned c : class_active_ok c -> (SLOT_ALIGNMENT | class_bytes c).
Proof.
  intros (Hs & Hp & _). unfold class_bytes. apply Z.divide_mul_l.
  change SLOT_ALIGNMENT with (2 ^ 6). apply power_of_two_divide; [done | done |].
  unfold MIN_SLOT_SIZE in Hs. lia.
Qed.

Lemma scan_classes_packed n act : forall s fin,
  packed (as_cursor s) act fin -> increasing (as_previous s) act ->
  as_saw_inactive s = false -> (SLOT_ALIGNMENT | as_cursor s) -> 0 <= as_cursor s ->
  fin <= 2 ^ 62 -> as_active s + Z.of_nat (length act) <= u8_max ->
  exists s', scan_classes s (act ++ replicate n ZERO_CLASS) = Ok s' /\
    as_cursor s' = fin /\ as_active s' = as_active s + Z.of_nat (length act).
Proof.
  induction act as [| c act IH]; intros s fin Hpk Hinc Hi Ha Hc Hf Hact.
  { destruct (scan_classes_zeroes n s) as (s' & ? & ? & ?). exists s'. simpl in *. split_and!; [done | lia | lia]. }
  destruct Hpk as (Hok & Hd & Hpk), Hinc as [Hprev Hinc].
  pose proof (packed_bounds _ _ _ Hpk).
  assert (0 <= class_bytes c) by (destruct Hok as (? & _ & ?);
    unfold class_bytes, MIN_SLOT_SIZE, MIN_SLOT_COUNT in *; nia).
  cbn [app scan_classes length] in *. rewrite Nat2Z.inj_succ in *.
  rewrite scan_class_active by (done || lia).
  destruct (IH (mkScan (as_cursor s + class_bytes c) (Some (scd_slot_size c)) (as_active s + 1) false)
               fin) as (s' & -> & ? & ?); cbn [as_cursor as_previous as_saw_inactive as_active] in *;
    try done; try lia.
  - apply Z.divide_add_r; [done | by apply class_bytes_aligned].
  - exists s'. split_and!; [done | lia | lia].
Qed.

Lemma packed_arena_accepted dir ss offset act n :
  Forall request_ok act /\ (length act <= 4)%nat -> act <> [] -> requests_increasing None act ->
  (VIEW | offset) -> 0 <= offset -> offset + arena_length act <= ss <= MAX_SECTION_BYTES ->
  exists va, validate_slot_arena dir ss (mkRegionDesc offset (arena_length act))
               (pack_active offset act ++ replicate n ZERO_CLASS) = Ok va.
Proof.
  intros [Hf Hl] Hne Hinc Hd Ho Hss. pose proof (arena_length_pos act Hf Hne) as Hpos.
  unfold MAX_SECTION_BYTES in Hss. pose proof (total_bytes_bounds act Hf).
  assert (Hal : (VIEW | arena_length act)) by (by apply up_divide).
  assert (offset + total_bytes act <= offset + arena_length act)
    by (pose proof (up_bounds (total_bytes act) VIEW ltac:(done)); unfold arena_length; lia).
  unfold validate_slot_arena. cbn [rd_offset rd_length].
  rewrite (proj2 (Z.eqb_neq ss 0)), (proj2 (Z.eqb_neq (arena_length act) 0)) by lia.
  rewrite (proj2 (Z.ltb_ge MAX_SECTION_BYTES _)) by (unfold MAX_SECTION_BYTES; lia). cbn [orb].
  rewrite (proj2 (Z.mod_divide offset VIEW ltac:(done)) Hd).
  rewrite (proj2 (Z.mod_divide (arena_length act) VIEW ltac:(done)) Hal). cbn [Z.eqb negb orb].
  rewrite add_small by lia. cbn [ok_or]. rewrite (proj2 (Z.ltb_ge ss _)) by lia.
  destruct (scan_classes_packed n (pack_active offset act) (mkScan offset None 0 false)
              (offset + total_bytes act)) as (s' & -> & Hcur & Hact);
    cbn [as_cursor as_previous as_saw_inactive as_active] in *; rewrite ?pack_active_length in *;
    try done; try (unfold u8_max; lia).
  - by apply pack_active_packed.
  - by apply pack_active_increasing.
  - apply (Z.divide_trans _ VIEW); [by exists 1024 | done].
  - rewrite (proj2 (Z.eqb_neq (as_active s') 0)) by (destruct act; [done | simpl in *; lia]).
    rewrite Hcur, checked_align_up_eq by (done || (unfold u64_max, VIEW; lia)).
    rewrite up_add by done. fold (arena_length act). cbn [ok_or].
    rewrite Z.eqb_refl. cbn [negb]. by eexists.
Qed.

Section PlannedArenas.
Context {setup : ValidatedSetupRequest} {page : Z} {ak au : list SlotClassRequest} {nk nu : nat}.
Hypothesis Hpl : planned setup page ak au nk nu.
Hypothesis Hmax : total_size setup page ak au <= MAX_SECTION_BYTES.

Lemma planned_offsets :
  0 <= base_offset setup page <= k2u_offset setup page /\
  k2u_offset setup page <= u2k_offset setup page ak <= notify_offset setup page ak au /\
  notify_offset setup page ak au <= total_size setup page ak au.
Proof using Hpl.
  destruct Hpl as [Hpg [Ht _ _ _ _] _ _ Hak Hau _ _ _ _ _ _].
  pose proof (offsets_bounds setup page ak au Hpg Ht Hak Hau).
  pose proof (small_page_pos _ Hpg). pose proof (span_bounds page page Hpg ltac:(lia)).
  unfold total_size. lia.
Qed.

Lemma planned_arenas epoch :
  let plan := canonical_plan setup page ak au nk nu epoch in
  (exists va, validate_slot_arena K2u (sp_section_size plan) (sp_k2u_slots plan)
                (sp_k2u_slot_classes plan) = Ok va) /\
  (exists va, validate_slot_arena U2k (sp_section_size plan) (sp_u2k_slots plan)
                (sp_u2k_slot_classes plan) = Ok va).
Proof using Hpl Hmax.
  pose proof planned_offsets. destruct Hpl. cbn zeta.
  cbn [canonical_plan sp_section_size sp_k2u_slots sp_k2u_slot_classes sp_u2k_slots
       sp_u2k_slot_classes].
  split; apply packed_arena_accepted; try done; try lia.
  - apply k2u_offset_divide.
  - fold (u2k_offset setup page ak). lia.
  - apply u2k_offset_divide.
  - fold (notify_offset setup page ak au). lia.
Qed.
End PlannedArenas.
