(* ===== verification/SectionImage.v ===== *)
(** * The bytes of a finished section

    [construct] and the two validators of fsring-abi/src/section_layout.rs meet
    in one image: the encoded header, zeroes, the ring descriptors, zeroes. The
    constructor writes exactly that image into a zeroed buffer, and the validator
    accepts exactly the buffers that start with it. *)

From S2P Require Import Prelude Ids Slots Features Codec Control Topology.
From S2P Require Import SectionLayout SectionLayoutSpec.

(** ** Slices and writes *)

Lemma blen_app (a b : bytes) : blen (a ++ b) = blen a + blen b.
Proof. unfold blen. rewrite length_app. lia. Qed.

Lemma blen_replicate n x : blen (replicate n x) = Z.of_nat n.
Proof. unfold blen. by rewrite length_replicate. Qed.

Lemma slice_ok l lo hi :
  lo <= hi <= blen l -> slice l lo hi = Ok (byte_range l lo hi).
Proof. intros H. unfold slice. by rewrite !(proj2 (Z.leb_le _ _)) by lia. Qed.

Lemma byte_range_app P Q R :
  byte_range (P ++ Q ++ R) (blen P) (blen P + blen Q) = Q.
Proof.
  unfold byte_range, blen. rewrite Z.add_simpl_l, !Nat2Z.id.
  rewrite drop_app_length. by rewrite take_app_length.
Qed.

Lemma byte_range_prefix Q R : byte_range (Q ++ R) 0 (blen Q) = Q.
Proof. exact (byte_range_app [] Q R). Qed.

Lemma splice_app P Q Q' R :
  length Q' = length Q -> splice (P ++ Q ++ R) (blen P) Q' = P ++ Q' ++ R.
Proof.
  intros Hl. unfold splice, blen. rewrite Nat2Z.id, take_app_length. f_equal. f_equal.
  rewrite Hl, (assoc_L (++)), <- length_app. apply drop_app_length.
Qed.

(** Encoding a value over the zeroes that follow [P]. *)
Lemma encode_at_zeroes {A} (pod : Pod A) (value : A) P k :
  pod_valid value -> (pod_size (A := A) <= k)%nat ->
  encode_at value (P ++ replicate k 0) (blen P) (blen P + Z.of_nat (pod_size (A := A)))
  = Ok (P ++ pod_bytes value ++ replicate (k - pod_size (A := A)) 0).
Proof.
  intros Hv Hk. unfold encode_at.
  rewrite slice_ok by (rewrite blen_app, blen_replicate; lia).
  replace k with (pod_size (A := A) + (k - pod_size (A := A)))%nat at 1 by lia.
  rewrite replicate_add.
  replace (Z.of_nat (pod_size (A := A))) with (blen (replicate (pod_size (A := A)) 0)) at 1
    by (by rewrite blen_replicate).
  rewrite byte_range_app. unfold try_encode. rewrite blen_replicate, Z.ltb_irrefl.
  rewrite length_replicate, Nat.sub_diag, app_nil_r. cbn [map_err].
  replace k with (pod_size (A := A) + (k - pod_size (A := A)))%nat at 1 by lia.
  rewrite replicate_add, splice_app; [done |].
  by rewrite length_replicate, pod_bytes_length.
Qed.

Lemma existsb_nonzero_replicate n : existsb (fun b => negb (b =? 0)) (replicate n 0) = false.
Proof. induction n; [done |]. simpl. done. Qed.

Lemma existsb_nonzero_false l :
  existsb (fun b => negb (b =? 0)) l = false <-> l = replicate (length l) 0.
Proof.
  split.
  - induction l as [| b l IH]; intros H; [done |]. simpl in *. bools. subst. f_equal. auto.
  - intros ->. apply existsb_nonzero_replicate.
Qed.

(** ** The image of a plan *)

Definition desc_bytes (plan : SectionLayoutPlan) (r : RingLayoutPlan) : bytes :=
  pod_bytes (ring_desc plan r).

Definition header_gap (plan : SectionLayoutPlan) : nat :=
  Z.to_nat (rd_offset (sp_ring_directory plan) - SIZE_OF_GLOBAL_HEADER).

(** The first [n] bytes of a section that follows the plan and holds nothing
    yet. *)
Definition image (plan : SectionLayoutPlan) (n : Z) : bytes :=
  pod_bytes (header plan) ++ replicate (header_gap plan) 0
  ++ mjoin (desc_bytes plan <$> rings plan)
  ++ replicate (Z.to_nat (n - rd_offset (sp_ring_directory plan)
                          - sp_ring_count plan * SIZE_OF_RING_DESC)) 0.

Lemma header_size : @pod_size _ GlobalHeader_Pod = Z.to_nat SIZE_OF_GLOBAL_HEADER.
Proof. vm_compute. reflexivity. Qed.

Lemma desc_size : @pod_size _ RingDesc_Pod = Z.to_nat SIZE_OF_RING_DESC.
Proof. vm_compute. reflexivity. Qed.

Section Image.
Context {setup : ValidatedSetupRequest} {page : Z} {ak au : list SlotClassRequest} {nk nu : nat}.
Context {epoch : Z}.
Hypothesis Hpl : planned setup page ak au nk nu.
Hypothesis Hmax : total_size setup page ak au <= MAX_SECTION_BYTES.
Hypothesis Hepoch : is_u64 epoch.
Let plan := canonical_plan setup page ak au nk nu epoch.

Lemma u64_field v : 0 <= v <= MAX_SECTION_BYTES -> @pod_valid _ u64_pod v.
Proof using.
  unfold MAX_SECTION_BYTES. intros. change (0 <= v < 18446744073709551616). lia.
Qed.

Lemma u32_field v : 0 <= v <= u32_max -> @pod_valid _ u32_pod v.
Proof using. unfold u32_max. intros. change (0 <= v < 4294967296). lia. Qed.

Lemma region_valid r : r ∈ section_regions plan -> @pod_valid _ RegionDesc_Pod r.
Proof using Hpl Hmax.
  intros Hr. apply (laid_out_bounds _ _ _ _ (planned_laid_out Hpl epoch)) in Hr as (? & _ & ? & ?).
  split; apply u64_field; lia.
Qed.

Lemma zero_bytes_valid n : @pod_valid _ (array_pod n u8_pod) (replicate n 0).
Proof using. split; [apply length_replicate |]. apply Forall_replicate. done. Qed.

Lemma pack_active_valid act : forall offset,
  Forall request_ok act -> 0 <= offset -> offset + total_bytes act <= MAX_SECTION_BYTES ->
  Forall (@pod_valid _ SlotClassDesc_Pod) (pack_active offset act).
Proof using.
  induction act as [| c act IH]; intros offset Hf Ho Hb; [constructor |].
  apply list.Forall_cons in Hf as [Hc Hf]. pose proof (total_bytes_bounds _ Hf).
  pose proof (request_bytes_bounds _ Hc). cbn [pack_active total_bytes] in *. constructor.
  - destruct Hc as (? & _ & ?). unfold MIN_SLOT_SIZE, MAX_SLOT_SIZE, MIN_SLOT_COUNT in *.
    change MAX_SLOT_COUNT with 1048576 in *.
    unfold u32_max in *. split; [apply u32_field; unfold u32_max; cbn; lia |].
    split; [apply u32_field; unfold u32_max; cbn; lia |]. apply u64_field. cbn. lia.
  - apply IH; [done | lia | lia].
Qed.

Lemma classes_valid offset act n :
  Forall request_ok act -> (length act + n = 4)%nat -> 0 <= offset ->
  offset + arena_length act <= MAX_SECTION_BYTES ->
  @pod_valid _ (array_pod SLOT_CLASS_COUNT SlotClassDesc_Pod)
    (pack_active offset act ++ replicate n ZERO_CLASS).
Proof using.
  intros Hf Hn Ho Hb. split.
  - by rewrite length_app, length_replicate, pack_active_length.
  - apply Forall_app. split.
    + apply pack_active_valid; [done | done |].
      pose proof (up_bounds (total_bytes act) VIEW ltac:(done)). unfold arena_length in Hb. lia.
    + apply Forall_replicate. split; [done |]. split; done.
Qed.

Lemma feature_set_pod_valid s : FeatureSet_valid s -> @pod_valid _ FeatureSet_Pod s.
Proof using.
  intros [H0 H1]. unfold is_u64, u64_max in *.
  split; [change (0 <= word0 s < 18446744073709551616) | change (0 <= word1 s < 18446744073709551616)];
    lia.
Qed.

Lemma epoch_field : @pod_valid _ u64_pod epoch.
Proof using Hepoch.
  unfold is_u64, u64_max in Hepoch. change (0 <= epoch < 18446744073709551616). lia.
Qed.

Lemma region_in_section r :
  r = sp_ring_directory plan \/ r = sp_k2u_slots plan \/ r = sp_u2k_slots plan
  \/ r = sp_notify_names plan -> r ∈ section_regions plan.
Proof using.
  unfold section_regions. rewrite !elem_of_app, !elem_of_cons. tauto.
Qed.

Lemma ring_region_in_section r x :
  x ∈ rings plan -> r ∈ ring_regions x -> r ∈ section_regions plan.
Proof using.
  intros Hx Hr. unfold section_regions. rewrite !elem_of_app. right. left.
  apply list_elem_of_join. exists (ring_regions x). split; [done |].
  apply list_elem_of_fmap. by exists x.
Qed.

Lemma planned_small :
  1 <= vt_ring_count (vs_topology setup) <= 64 /\
  0 < vt_max_inflight (vs_topology setup) <= MAX_INFLIGHT /\
  0 < vt_sq_capacity (vs_topology setup) <= MAX_SQ_CAPACITY /\
  0 < vt_cq_capacity (vs_topology setup) <= MAX_CQ_CAPACITY /\
  0 < page <= 2 ^ 31 /\ 0 <= total_size setup page ak au.
Proof using Hpl.
  pose proof (planned_offsets Hpl). pose proof (small_page_pos _ (pl_page _ _ _ _ _ _ Hpl)).
  destruct Hpl as [_ [[]]].
  unfold MIN_RING_COUNT, MAX_RING_COUNT, MIN_SQ_CAPACITY, MIN_CQ_CAPACITY in *.
  split_and!; try done; lia.
Qed.

(** Every field of the header fits its width. *)
Lemma header_valid : @pod_valid _ GlobalHeader_Pod (header plan).
Proof using Hpl Hmax Hepoch.
  pose proof planned_small as (? & ? & _ & _ & ? & ?). pose proof (planned_offsets Hpl).
  unfold MAX_INFLIGHT, MAX_SECTION_BYTES in *.
  do 6 (split; [done |]).
  split; [apply u32_field; unfold u32_max; cbn; lia |].
  split; [apply epoch_field |].
  split; [apply u64_field; unfold MAX_SECTION_BYTES; cbn; lia |].
  split; [apply u32_field; unfold u32_max; cbn; lia |].
  split; [done |].
  do 4 (split; [apply region_valid, region_in_section; tauto |]).
  split; [apply feature_set_pod_valid, so_features, (pl_setup _ _ _ _ _ _ Hpl) |].
  split; [apply feature_set_pod_valid, so_capabilities, (pl_setup _ _ _ _ _ _ Hpl) |].
  split; [apply u32_field; unfold u32_max; cbn; lia |].
  split; [done |].
  destruct Hpl as [_ _ _ _ [Hak _] [Hau _] _ _ _ _ Hakl Haul].
  split; [apply classes_valid; try done; try lia; fold (u2k_offset setup page ak);
          unfold MAX_SECTION_BYTES; lia |].
  split; [apply classes_valid; try done; try lia; fold (notify_offset setup page ak au);
          unfold MAX_SECTION_BYTES; lia |].
  apply zero_bytes_valid.
Qed.

Lemma desc_valid r : r ∈ rings plan -> @pod_valid _ RingDesc_Pod (ring_desc plan r).
Proof using Hpl Hmax.
  intros Hr. pose proof planned_small as (? & _ & ? & ? & ? & ?).
  unfold MAX_SQ_CAPACITY, MAX_CQ_CAPACITY in *.
  assert (0 <= rp_ring_index r < 64).
  { unfold plan in Hr. rewrite (planned_rings Hpl) in Hr. apply list_elem_of_fmap in Hr as (i & -> & Hi).
    apply elem_of_seqZ in Hi. cbn. lia. }
  do 3 (split; [done |]).
  split; [apply u32_field; unfold u32_max; cbn; lia |].
  split; [done |].
  do 2 (split; [apply u32_field; unfold u32_max; cbn; lia |]).
  do 6 (split; [apply region_valid, (ring_region_in_section _ r Hr);
                unfold ring_regions; rewrite !elem_of_cons; tauto |]).
  apply zero_bytes_valid.
Qed.

Abbreviation dir_offset := (rd_offset (sp_ring_directory plan)).
Abbreviation ring_total := (vt_ring_count (vs_topology setup)).

(** The directory follows the header and its descriptors fit before the end. *)
Lemma directory_fits :
  SIZE_OF_GLOBAL_HEADER <= dir_offset /\
  dir_offset + ring_total * SIZE_OF_RING_DESC <= dir_offset + rd_length (sp_ring_directory plan) /\
  dir_offset + rd_length (sp_ring_directory plan) <= total_size setup page ak au.
Proof using Hpl.
  pose proof (planned_laid_out Hpl epoch) as H.
  apply (laid_out_ordered _ _ _ 0 1) with (r := mkRegionDesc 0 SIZE_OF_GLOBAL_HEADER)
    (s := sp_ring_directory plan) in H as Ho; [| lia | done | done].
  apply (laid_out_bounds _ _ _ (sp_ring_directory plan)) in H as (_ & _ & _ & H);
    [| right; left].
  split_and!; [done | | done].
  pose proof (up_bounds (directory_bytes setup) page
                ltac:(pose proof (small_page_pos _ (pl_page _ _ _ _ _ _ Hpl)); lia)).
  cbn [plan canonical_plan sp_ring_directory rd_length]. unfold directory_bytes in *. lia.
Qed.

Lemma ring_at_in_rings i : 0 <= i < ring_total -> ring_at setup page i ∈ rings plan.
Proof using Hpl.
  intros Hi. unfold plan. rewrite (planned_rings Hpl). apply list_elem_of_fmap. exists i.
  split; [done |]. apply elem_of_seqZ. lia.
Qed.

Lemma usize_small v : v <= 2 ^ 62 -> usize_try_from v = Some v.
Proof using.
  intros. unfold usize_try_from. by rewrite (proj2 (Z.leb_le _ _)) by (unfold u64_max; lia).
Qed.

Lemma write_descs_eq m : forall i P k,
  0 <= i -> i + Z.of_nat m <= ring_total ->
  blen P = dir_offset + i * SIZE_OF_RING_DESC ->
  (m * Z.to_nat SIZE_OF_RING_DESC <= k)%nat ->
  write_descs plan dir_offset (ring_at setup page <$> seqZ i (Z.of_nat m)) (P ++ replicate k 0)
  = Ok (P ++ mjoin (desc_bytes plan <$> (ring_at setup page <$> seqZ i (Z.of_nat m)))
          ++ replicate (k - m * Z.to_nat SIZE_OF_RING_DESC) 0).
Proof using Hpl Hmax.
  pose proof planned_small as (Hr & _). pose proof directory_fits as (_ & Hd1 & Hd2).
  unfold MAX_SECTION_BYTES in Hmax.
  induction m as [| m IH]; intros i P k Hi Him HP Hk.
  { rewrite seqZ_nil by lia. simpl. by rewrite Nat.sub_0_r. }
  rewrite seqZ_cons by lia. rewrite !fmap_cons. cbn [write_descs mjoin list_join].
  change (rg_ring_index (ring_desc plan (ring_at setup page i))) with i.
  unfold SIZE_OF_RING_DESC in *.
  rewrite mul_small by lia. cbn [ok_or]. rewrite usize_small by lia. cbn [ok_or].
  rewrite add_small by lia. cbn [ok_or]. rewrite <- HP. rewrite add_small by lia. cbn [ok_or].
  change 128 with (Z.of_nat (@pod_size _ RingDesc_Pod)) at 1.
  rewrite encode_at_zeroes;
    [| apply desc_valid, ring_at_in_rings; lia | change (@pod_size _ RingDesc_Pod) with 128%nat; lia].
  cbn iota. change (@pod_size _ RingDesc_Pod) with 128%nat. change (Z.to_nat 128) with 128%nat in *.
  rewrite (assoc_L (++) P).
  replace (Z.pred (Z.of_nat (S m))) with (Z.of_nat m) by lia.
  rewrite IH; [| lia | lia | | lia].
  - rewrite <- !(assoc_L (++)). by replace (k - 128 - m * 128)%nat with (k - S m * 128)%nat by lia.
  - rewrite blen_app, HP. unfold blen. rewrite pod_bytes_length.
    + change (@pod_size _ RingDesc_Pod) with 128%nat. lia.
    + apply desc_valid, ring_at_in_rings. lia.
Qed.

(** The constructor writes the image of the plan. *)
Lemma construct_eq n :
  sp_section_size plan <= n -> construct plan (replicate (Z.to_nat n) 0) = Ok (image plan n).
Proof using Hpl Hmax Hepoch.
  intros Hn. pose proof planned_small as (Hr & _). pose proof directory_fits as (Hd0 & Hd1 & Hd2).
  cbn [plan canonical_plan sp_section_size] in Hn.
  unfold MAX_SECTION_BYTES in Hmax. unfold construct.
  cbn [plan canonical_plan sp_section_size]. fold plan.
  rewrite usize_small by lia. cbn [ok_or]. rewrite blen_replicate.
  unfold SIZE_OF_RING_DESC, SIZE_OF_GLOBAL_HEADER in *.
  rewrite (proj2 (Z.ltb_ge _ _)) by lia. rewrite existsb_nonzero_replicate.
  pose proof (encode_at_zeroes GlobalHeader_Pod (header plan) [] (Z.to_nat n) header_valid) as He.
  rewrite header_size in He. unfold SIZE_OF_GLOBAL_HEADER in He.
  change (blen []) with 0 in He. rewrite Z2Nat.id in He by done. cbn [app] in He.
  rewrite Z.add_0_l in He. rewrite He by lia. clear He.
  rewrite usize_small by lia. cbn [ok_or].
  replace (Z.to_nat n - Z.to_nat 4096)%nat
    with (header_gap plan + (Z.to_nat (n - dir_offset)))%nat
    by (unfold header_gap, SIZE_OF_GLOBAL_HEADER; lia).
  rewrite replicate_add, (assoc_L (++)).
  unfold plan at 3. rewrite (planned_rings Hpl). fold plan.
  rewrite <- (Z2Nat.id ring_total) by lia.
  rewrite write_descs_eq; [| lia | lia | | unfold SIZE_OF_RING_DESC; lia].
  - unfold image. rewrite <- (assoc_L (++)). unfold plan at 8. rewrite (planned_rings Hpl). fold plan.
    rewrite Z2Nat.id by lia. do 4 f_equal.
    change (sp_ring_count plan) with ring_total. unfold SIZE_OF_RING_DESC. f_equal. lia.
  - rewrite blen_app, blen_replicate. unfold blen at 1.
    rewrite pod_bytes_length, header_size by apply header_valid.
    unfold header_gap, SIZE_OF_GLOBAL_HEADER. lia.
Qed.
End Image.

(** ** What the comparisons of the validator mean *)

Lemma header_matches_eq h plan :
  @pod_valid _ GlobalHeader_Pod h ->
  header_identity_matches h (header plan) = true ->
  header_regions_match h (header plan) = true ->
  gh_header_flags h = 0 -> gh_flags h = 0 ->
  existsb (fun b => negb (b =? 0)) (gh_reserved h) = false -> h = header plan.
Proof.
  intros Hv Hi Hr Hf Hf2 Hz. unfold header_identity_matches, header_regions_match in *. bools.
  apply existsb_nonzero_false in Hz.
  assert (Hl : length (gh_reserved h) = 3824%nat)
    by (destruct Hv as (_ & _ & _ & _ & _ & _ & _ & _ & _ & _ & _ & _ & _ & _ & _ & _ & _ & _ & _
                        & _ & _ & Hl & _); exact Hl).
  rewrite Hl in Hz. destruct h as [x1 x2 x3 x4 x5 x6 x7 x8 x9 x10 x11 x12 x13 x14 x15 x16 x17 x18 x19 x20 x21 x22].
  unfold header in *.
  cbn [gh_magic gh_header_size gh_abi_major gh_abi_minor gh_byte_order gh_header_flags
       gh_page_size gh_session_epoch gh_section_size gh_ring_count gh_ring_desc_size
       gh_ring_directory gh_k2u_slots gh_u2k_slots gh_notify_names gh_protocol_features
       gh_os_capabilities gh_max_inflight gh_flags gh_k2u_slot_classes gh_u2k_slot_classes
       gh_reserved] in *.
  clear Hv Hl. subst. reflexivity.
Qed.

Lemma header_matches_refl plan :
  header_identity_matches (header plan) (header plan) = true /\
  header_regions_match (header plan) (header plan) = true.
Proof.
  unfold header_identity_matches, header_regions_match.
  by rewrite !Z.eqb_refl, !bool_decide_eq_true_2.
Qed.

Lemma ring_desc_matches_eq a b : ring_desc_matches a b = true <-> a = b.
Proof.
  unfold ring_desc_matches. split.
  - intros H. bools. destruct a as [], b as []. cbn in *. subst. reflexivity.
  - intros ->. by rewrite !Z.eqb_refl, !bool_decide_eq_true_2.
Qed.

(** ** The scan of the bytes outside the header and the descriptors *)

Lemma check_outside_app ds db l1 : forall i l2,
  check_outside_zero ds db i (l1 ++ l2)
  = check_outside_zero ds db i l1 && check_outside_zero ds db (i + blen l1) l2.
Proof.
  induction l1 as [| x l1 IH]; intros i l2; [by rewrite Z.add_0_r |].
  cbn [app check_outside_zero]. case_match; [done |]. rewrite IH. f_equal. f_equal.
  unfold blen. simpl. lia.
Qed.

Lemma check_outside_header ds db l : forall i,
  i + blen l <= SIZE_OF_GLOBAL_HEADER -> check_outside_zero ds db i l = true.
Proof.
  unfold blen. induction l as [| x l IH]; intros i Hi; [done |].
  cbn [check_outside_zero length] in *. rewrite (proj2 (Z.ltb_lt _ _)) by lia.
  apply IH. lia.
Qed.

Lemma check_outside_descs ds db l : forall i,
  ds <= i -> i + blen l <= ds + db -> ds + db <= u64_max ->
  check_outside_zero ds db i l = true.
Proof.
  unfold blen. induction l as [| x l IH]; intros i Hi Hb Hm; [done |].
  cbn [check_outside_zero length] in *. unfold saturating_add. rewrite Z.min_r by lia.
  rewrite (proj2 (Z.leb_le _ _)), (proj2 (Z.ltb_lt i (ds + db))) by lia. cbn [andb negb].
  rewrite andb_false_r. apply IH; lia.
Qed.

Lemma check_outside_rest ds db l : forall i,
  SIZE_OF_GLOBAL_HEADER <= i -> ds + db <= u64_max ->
  (i + blen l <= ds \/ ds + db <= i) ->
  check_outside_zero ds db i l = true <-> l = replicate (length l) 0.
Proof.
  unfold blen. induction l as [| x l IH]; intros i Hi Hm Ho; [done |].
  cbn [check_outside_zero length replicate] in *. unfold saturating_add. rewrite Z.min_r by lia.
  rewrite (proj2 (Z.ltb_ge i SIZE_OF_GLOBAL_HEADER)) by lia.
  replace ((ds <=? i) && (i <? ds + db)) with false.
  2:{ symmetry. apply andb_false_iff. rewrite Z.leb_gt, Z.ltb_ge. lia. }
  cbn [negb andb]. destruct (Z.eqb_spec x 0) as [-> | Hx]; cbn [negb].
  - rewrite IH by lia. split; [intros H; f_equal; exact H | intros [= H]; exact H].
  - split; [done | intros [= ? ?]; done].
Qed.

Lemma check_outside_zeroes ds db k : forall i, check_outside_zero ds db i (replicate k 0) = true.
Proof.
  induction k as [| k IH]; intros i; [done |]. cbn [replicate check_outside_zero Z.eqb negb].
  rewrite andb_false_r. apply IH.
Qed.

(** ** Slices of slices *)

Lemma byte_range_byte l lo hi : Forall is_byte l -> Forall is_byte (byte_range l lo hi).
Proof. intros. by apply Forall_take, Forall_drop. Qed.

Lemma blen_byte_range l lo hi :
  0 <= lo <= hi -> hi <= blen l -> blen (byte_range l lo hi) = hi - lo.
Proof.
  intros. unfold byte_range, blen in *. rewrite length_firstn, length_skipn. lia.
Qed.

Lemma byte_range_nested l lo hi a b :
  0 <= lo <= hi -> 0 <= a -> b <= hi - lo ->
  byte_range (byte_range l lo hi) a b = byte_range l (lo + a) (lo + b).
Proof.
  intros. unfold byte_range. rewrite skipn_firstn_comm, firstn_firstn, drop_drop.
  f_equal; [lia |]. f_equal. lia.
Qed.

Lemma byte_range_split l lo mid hi :
  0 <= lo <= mid -> mid <= hi ->
  byte_range l lo hi = byte_range l lo mid ++ byte_range l mid hi.
Proof.
  intros. unfold byte_range.
  rewrite <- (take_drop (Z.to_nat (mid - lo)) (take (Z.to_nat (hi - lo)) (drop (Z.to_nat lo) l))).
  rewrite firstn_firstn, skipn_firstn_comm, drop_drop. f_equal; f_equal; try lia. f_equal. lia.
Qed.

Lemma slice_bound l lo hi s :
  slice l lo hi = Ok s -> lo <= hi <= blen l /\ s = byte_range l lo hi.
Proof. unfold slice. case_match; [| done]. bools. intros [= <-]. done. Qed.

(** A piece of the struct's size decodes to a value exactly when it is the
    encoding of that value. *)
Lemma decode_piece {A} (pod : Pod A) (piece : bytes) (a : A) :
  Forall is_byte piece -> length piece = pod_size (A := A) -> pod_valid a ->
  pod_read piece = a <-> piece = pod_bytes a.
Proof.
  intros Hb Hl Hv. split.
  - intros <-. rewrite pod_bytes_read by (done || lia). symmetry. apply take_ge. lia.
  - intros ->. rewrite <- (app_nil_r (pod_bytes a)). by apply pod_read_bytes.
Qed.

Lemma try_decode_piece {A} (pod : Pod A) (piece : bytes) :
  length piece = pod_size (A := A) -> try_decode (A := A) piece = Ok (pod_read piece).
Proof. intros Hl. unfold try_decode, blen. by rewrite Hl, Z.ltb_irrefl. Qed.

Section Check.
Context {setup : ValidatedSetupRequest} {page : Z} {ak au : list SlotClassRequest} {nk nu : nat}.
Context {epoch : Z}.
Hypothesis Hpl : planned setup page ak au nk nu.
Hypothesis Hmax : total_size setup page ak au <= MAX_SECTION_BYTES.
Hypothesis Hepoch : is_u64 epoch.
Let plan := canonical_plan setup page ak au nk nu epoch.
Abbreviation ring_total := (vt_ring_count (vs_topology setup)).

Lemma descs_length i m :
  0 <= i -> i + Z.of_nat m <= ring_total ->
  blen (mjoin (desc_bytes plan <$> (ring_at setup page <$> seqZ i (Z.of_nat m))))
  = Z.of_nat m * SIZE_OF_RING_DESC.
Proof using Hpl Hmax.
  revert i. induction m as [| m IH]; intros i Hi Him; [done |].
  rewrite seqZ_cons by lia. rewrite !fmap_cons. cbn [mjoin list_join]. rewrite blen_app.
  replace (Z.pred (Z.of_nat (S m))) with (Z.of_nat m) by lia. rewrite IH by lia.
  unfold blen, desc_bytes. rewrite pod_bytes_length.
  - change (@pod_size _ RingDesc_Pod) with 128%nat. unfold SIZE_OF_RING_DESC. lia.
  - apply (desc_valid Hpl Hmax), (ring_at_in_rings Hpl). lia.
Qed.

(** Every descriptor matches exactly when the directory starts with the encoded
    descriptors; the comparison never panics. *)
Lemma check_descs_spec dir m : forall i,
  Forall is_byte dir -> 0 <= i -> i + Z.of_nat m <= ring_total ->
  (i + Z.of_nat m) * SIZE_OF_RING_DESC <= blen dir ->
  (check_descs plan (ring_at setup page <$> seqZ i (Z.of_nat m)) dir = Ok tt <->
   byte_range dir (i * SIZE_OF_RING_DESC) ((i + Z.of_nat m) * SIZE_OF_RING_DESC)
   = mjoin (desc_bytes plan <$> (ring_at setup page <$> seqZ i (Z.of_nat m)))) /\
  check_descs plan (ring_at setup page <$> seqZ i (Z.of_nat m)) dir <> Err Panics.
Proof using Hpl Hmax.
  pose proof (planned_small Hpl) as (Hr & _). unfold SIZE_OF_RING_DESC.
  induction m as [| m IH]; intros i Hb Hi Him Hl.
  { rewrite seqZ_nil by lia. rewrite Z.add_0_r. unfold byte_range. rewrite Z.sub_diag. done. }
  rewrite seqZ_cons by lia. rewrite !fmap_cons. cbn [check_descs mjoin list_join].
  change (rp_ring_index (ring_at setup page i)) with i. unfold SIZE_OF_RING_DESC in *.
  replace (Z.pred (Z.of_nat (S m))) with (Z.of_nat m) by lia.
  rewrite mul_small by lia. cbn [ok_or]. rewrite usize_small by lia. cbn [ok_or].
  rewrite add_small by lia. cbn [ok_or]. rewrite slice_ok by lia.
  destruct (IH (Z.succ i)) as [IHok IHp]; [done | lia | lia | lia |].
  replace (Z.succ i + Z.of_nat m) with (i + Z.of_nat (S m)) in IHok by lia.
  replace (Z.succ i * 128) with (i * 128 + 128) in IHok by lia.
  set (piece := byte_range dir (i * 128) (i * 128 + 128)).
  assert (Hp : length piece = @pod_size _ RingDesc_Pod).
  { assert (blen piece = 128) by (unfold piece; rewrite blen_byte_range by lia; lia).
    unfold blen in *. change (@pod_size _ RingDesc_Pod) with 128%nat. lia. }
  rewrite try_decode_piece by done. cbn [map_err].
  assert (Hv : @pod_valid _ RingDesc_Pod (ring_desc plan (ring_at setup page i)))
    by (apply (desc_valid Hpl Hmax), (ring_at_in_rings Hpl); lia).
  assert (Hpb : Forall is_byte piece) by (by apply byte_range_byte).
  rewrite (byte_range_split dir (i * 128) (i * 128 + 128)) by lia. fold piece.
  destruct (ring_desc_matches _ _) eqn:E; cbn [negb].
  - apply ring_desc_matches_eq, (decode_piece RingDesc_Pod) in E; [| done..].
    split; [| done]. rewrite IHok.
    change (desc_bytes plan (ring_at setup page i))
      with (pod_bytes (ring_desc plan (ring_at setup page i))). rewrite <- E.
    split; [by intros -> | apply app_inv_head].
  - split; [| done]. split; [done |]. intros Heq.
    assert (piece = desc_bytes plan (ring_at setup page i)) as Hpe.
    { apply (f_equal (take (length piece))) in Heq. rewrite take_app_length in Heq.
      rewrite take_app_length' in Heq; [done |].
      rewrite Hp. symmetry. by apply pod_bytes_length. }
    apply (decode_piece RingDesc_Pod) in Hpe; [| done..].
    apply ring_desc_matches_eq in Hpe. congruence.
Qed.
End Check.

Lemma with_epoch_canonical setup page ak au nk nu e e' :
  with_epoch (canonical_plan setup page ak au nk nu e) e'
  = canonical_plan setup page ak au nk nu e'.
Proof. reflexivity. Qed.

Lemma header_page_u32 h : @pod_valid _ GlobalHeader_Pod h -> is_u32 (gh_page_size h).
Proof.
  intros (_ & _ & _ & _ & _ & _ & [H0 H1] & _). unfold is_u32, u32_max.
  change (gh_page_size h < 4294967296) in H1. change (0 <= gh_page_size h) in H0. lia.
Qed.

(** An accepted header and directory are the canonical ones. *)
Lemma validate_decoded_sound h dir setup epoch p :
  setup_ok setup -> is_u64 epoch -> @pod_valid _ GlobalHeader_Pod h -> Forall is_byte dir ->
  validate_decoded_header_directory_v21 h dir setup epoch = Ok p ->
  epoch <> 0 /\ (exists plan, compute setup (gh_page_size h) = Ok plan /\ p = with_epoch plan epoch) /\
  h = header p /\
  byte_range dir 0 (sp_ring_count p * SIZE_OF_RING_DESC) = mjoin (desc_bytes p <$> rings p).
Proof.
  intros Hs He Hv Hb H. unfold validate_decoded_header_directory_v21 in H.
  destruct (_ || _) eqn:E1 in H; [done |]. destruct (_ || _) eqn:E2 in H; [done |].
  destruct (compute setup (gh_page_size h)) as [plan | e] eqn:Ec; [| done].
  cbn [map_err] in H. cbn zeta in H.
  pose proof (header_page_u32 _ Hv) as Hu.
  destruct (compute_Ok_planned _ _ _ Hs Hu Ec) as (ak & au & nk & nu & Hpl & -> & Hmax).
  rewrite with_epoch_canonical in *.
  break_in H. bools. apply (inj Ok) in H as <-.
  match goal with H : header_identity_matches _ _ = true |- _ => rename H into Hid end.
  match goal with H : header_regions_match _ _ = true |- _ => rename H into Hrg end.
  split; [done |]. split; [by eexists |].
  split; [apply header_matches_eq; done |].
  match goal with H : check_descs _ _ _ = Ok ?u |- _ => destruct u; rename H into Hcd end.
  pose proof (planned_small Hpl) as (Hr & _).
  pose proof (directory_fits Hpl (epoch := epoch)) as (_ & Hd1 & Hd2).
  rewrite (planned_rings Hpl) in *.
  cbn [canonical_plan sp_ring_count].
  rewrite <- (Z2Nat.id (vt_ring_count (vs_topology setup))) in Hcd |- * by lia.
  change 0 with (0 * SIZE_OF_RING_DESC) at 1.
  apply (check_descs_spec Hpl Hmax (epoch := epoch)) in Hcd; [by rewrite Z.add_0_l in Hcd | done | done | lia |].
  unfold usize_try_from in *. checked.
  repeat case_match; simplify_eq.
  all: unfold MAX_SECTION_BYTES in *; lia.
Qed.

Lemma byte_range_take l hi : byte_range l 0 hi = take (Z.to_nat hi) l.
Proof. unfold byte_range. by rewrite Z.sub_0_r. Qed.

(** The image as its four consecutive parts. *)
Lemma image_parts plan l :
  0 <= sp_ring_count plan * SIZE_OF_RING_DESC ->
  SIZE_OF_GLOBAL_HEADER <= rd_offset (sp_ring_directory plan) ->
  rd_offset (sp_ring_directory plan) + sp_ring_count plan * SIZE_OF_RING_DESC
    <= sp_section_size plan <= blen l ->
  let ds := rd_offset (sp_ring_directory plan) in
  let de := ds + sp_ring_count plan * SIZE_OF_RING_DESC in
  byte_range l 0 SIZE_OF_GLOBAL_HEADER = pod_bytes (header plan) ->
  byte_range l SIZE_OF_GLOBAL_HEADER ds
    = replicate (length (byte_range l SIZE_OF_GLOBAL_HEADER ds)) 0 ->
  byte_range l ds de = mjoin (desc_bytes plan <$> rings plan) ->
  byte_range l de (sp_section_size plan)
    = replicate (length (byte_range l de (sp_section_size plan))) 0 ->
  take (Z.to_nat (sp_section_size plan)) l = image plan (sp_section_size plan).
Proof.
  intros Hc Hd Hs ds de HA HB HC HD. subst ds de. unfold SIZE_OF_GLOBAL_HEADER in *.
  set (ds := rd_offset (sp_ring_directory plan)) in *.
  set (de := ds + sp_ring_count plan * SIZE_OF_RING_DESC) in *.
  rewrite <- byte_range_take.
  rewrite (byte_range_split l 0 4096), (byte_range_split l 4096 ds), (byte_range_split l ds de) by lia.
  rewrite HA, HB, HC, HD. unfold image. f_equal. f_equal.
  - f_equal. pose proof (blen_byte_range l 4096 ds ltac:(lia) ltac:(lia)) as Hl.
    unfold blen in Hl. unfold header_gap, SIZE_OF_GLOBAL_HEADER. fold ds. lia.
  - f_equal. f_equal.
    pose proof (blen_byte_range l de (sp_section_size plan) ltac:(lia) ltac:(lia)) as Hl.
    unfold blen in Hl. fold ds. lia.
Qed.

(** The header piece of a long enough buffer. *)
Lemma finished_header b :
  Forall is_byte b -> SIZE_OF_GLOBAL_HEADER <= blen b ->
  let piece := byte_range b 0 SIZE_OF_GLOBAL_HEADER in
  slice b 0 SIZE_OF_GLOBAL_HEADER = Ok piece /\
  Forall is_byte piece /\ length piece = @pod_size _ GlobalHeader_Pod /\
  decode_header piece = Ok (@pod_read _ GlobalHeader_Pod piece) /\
  @pod_valid _ GlobalHeader_Pod (@pod_read _ GlobalHeader_Pod piece).
Proof.
  intros Hb Hl piece.
  assert (Hp : length piece = @pod_size _ GlobalHeader_Pod).
  { pose proof (blen_byte_range b 0 SIZE_OF_GLOBAL_HEADER ltac:(done) Hl) as Hlen.
    fold piece in Hlen. unfold blen in Hlen. rewrite header_size. lia. }
  assert (Hpb : Forall is_byte piece) by (by apply byte_range_byte).
  split; [apply slice_ok; unfold SIZE_OF_GLOBAL_HEADER in *; lia |].
  split; [exact Hpb |]. split; [exact Hp |].
  split; [| apply pod_read_valid; [exact Hpb | lia]].
  unfold decode_header. by rewrite (try_decode_piece GlobalHeader_Pod _ Hp).
Qed.

(** An accepted section starts with the image of its plan. *)
Lemma validate_finished_sound b setup epoch p :
  setup_ok setup -> is_u64 epoch -> Forall is_byte b ->
  validate_finished_section_v21 b setup epoch = Ok p ->
  epoch <> 0 /\
  (exists page plan, is_u32 page /\ compute setup page = Ok plan /\ p = with_epoch plan epoch) /\
  sp_section_size p <= blen b /\
  take (Z.to_nat (sp_section_size p)) b = image p (sp_section_size p).
Proof.
  intros Hs He Hb H. unfold validate_finished_section_v21 in H.
  destruct (Z.ltb_spec (blen b) SIZE_OF_GLOBAL_HEADER) as [? | Hlb] in H; [done |].
  destruct (finished_header b Hb Hlb) as (Hsl & Hpb & Hp & Hdh & Hv).
  rewrite Hsl, Hdh in H.
  set (piece := byte_range b 0 SIZE_OF_GLOBAL_HEADER) in *.
  remember (@pod_read _ GlobalHeader_Pod piece) as a0 eqn:Ha. symmetry in Ha. revert Ha.
  break_in H. bools. apply (inj Ok) in H as <-. checked.
  repeat match goal with H : slice _ _ _ = Ok _ |- _ => apply slice_bound in H as [? ->] end.
  repeat match goal with H : usize_try_from _ = Some _ |- _ =>
    unfold usize_try_from in H; case_match; [| done]; apply (inj Some) in H; subst end.
  match goal with H : validate_decoded_header_directory_v21 _ _ _ _ = Ok ?q |- _ =>
    rename q into p; rename H into Hdec end.
  pose proof (header_page_u32 _ Hv) as Hu.
  apply validate_decoded_sound in Hdec as (He0 & (plan & Hc & Hq) & Hh & Hdescs);
    [| done | done | done | by apply byte_range_byte].
  revert Hu Hc. generalize (gh_page_size a0). intros page Hu Hc. subst a0. intros Ha.
  destruct (compute_Ok_planned _ _ _ Hs Hu Hc) as (ak & au & nk & nu & Hpl & -> & Hmax).
  rewrite with_epoch_canonical in Hq. subst p.
  cbn [header gh_ring_directory] in *.
  split; [exact He0 |].
  split; [exact (ex_intro _ page (ex_intro _ _ (conj Hu (conj Hc eq_refl)))) |].
  split; [assumption |].
  apply (decode_piece GlobalHeader_Pod) in Ha; [| assumption..].
  pose proof (directory_fits Hpl (epoch := epoch)) as (Hd0 & Hd1 & Hd2).
  pose proof (planned_small Hpl) as (Hr & _). 
  set (p := canonical_plan setup page ak au nk nu epoch) in *.
  change (total_size setup page ak au) with (sp_section_size p) in *.
  change (vt_ring_count (vs_topology setup)) with (sp_ring_count p) in *.
  unfold MAX_SECTION_BYTES, SIZE_OF_RING_DESC in *.
  rewrite byte_range_nested, Z.add_0_r in Hdescs by (unfold SIZE_OF_GLOBAL_HEADER in *; lia).
  set (ds := rd_offset (sp_ring_directory p)) in *.
  match goal with H : check_outside_zero _ _ _ _ = true |- _ => rename H into Hz end.
  assert (SIZE_OF_GLOBAL_HEADER = 4096) as HH by done.
  rewrite (byte_range_split b 0 SIZE_OF_GLOBAL_HEADER), (byte_range_split b SIZE_OF_GLOBAL_HEADER ds),
    (byte_range_split b ds (ds + sp_ring_count p * 128)) in Hz by lia.
  rewrite !check_outside_app in Hz. rewrite !blen_byte_range in Hz by lia. bools.
  apply image_parts; unfold SIZE_OF_RING_DESC; fold ds; try done; try lia.
  - eapply check_outside_rest; [| | | eassumption]; [lia | unfold u64_max; lia |].
    rewrite blen_byte_range by lia. left. lia.
  - eapply check_outside_rest; [| | | eassumption]; [lia | unfold u64_max; lia |].
    right. lia.
Qed.

(** A range inside a run of zeroes. *)
Lemma byte_range_zeroes P k R n :
  0 <= n <= Z.of_nat k ->
  byte_range (P ++ replicate k 0 ++ R) (blen P) (blen P + n) = replicate (Z.to_nat n) 0.
Proof.
  intros Hn. unfold byte_range, blen. rewrite Z.add_simpl_l, Nat2Z.id, drop_app_length.
  rewrite take_app_le by (rewrite length_replicate; lia). rewrite take_replicate. f_equal. lia.
Qed.

Section Accept.
Context {setup : ValidatedSetupRequest} {page : Z} {ak au : list SlotClassRequest} {nk nu : nat}.
Context {epoch : Z}.
Hypothesis Hpl : planned setup page ak au nk nu.
Hypothesis Hmax : total_size setup page ak au <= MAX_SECTION_BYTES.
Hypothesis Hepoch : is_u64 epoch /\ epoch <> 0.
Let plan := canonical_plan setup page ak au nk nu epoch.
Abbreviation ds := (rd_offset (sp_ring_directory plan)).
Abbreviation dl := (rd_length (sp_ring_directory plan)).
Abbreviation used := (sp_ring_count plan * SIZE_OF_RING_DESC).

Lemma accept_bounds :
  4096 <= ds /\ 128 <= used /\ ds + used <= ds + dl /\ ds + dl <= sp_section_size plan /\
  sp_section_size plan <= 2 ^ 30.
Proof using Hpl Hmax.
  pose proof (directory_fits Hpl (epoch := epoch)) as (Hd0 & Hd1 & Hd2).
  pose proof (planned_small Hpl) as (Hr & _).
  unfold SIZE_OF_GLOBAL_HEADER, SIZE_OF_RING_DESC, MAX_SECTION_BYTES in *.
  change (sp_ring_count plan) with (vt_ring_count (vs_topology setup)).
  change (sp_section_size plan) with (total_size setup page ak au).
  change plan with (canonical_plan setup page ak au nk nu epoch). lia.
Qed.

Lemma header_bytes_length : is_u64 epoch -> blen (pod_bytes (header plan)) = 4096.
Proof using Hpl Hmax.
  intros He. unfold blen. rewrite pod_bytes_length by (apply (header_valid Hpl Hmax), He).
  by rewrite header_size.
Qed.

Lemma gap_length : Z.of_nat (header_gap plan) = ds - 4096.
Proof using Hpl Hmax. pose proof accept_bounds. unfold header_gap, SIZE_OF_GLOBAL_HEADER. lia. Qed.

Lemma descs_blen : blen (mjoin (desc_bytes plan <$> rings plan)) = used.
Proof using Hpl Hmax.
  pose proof (planned_small Hpl) as (Hr & _). unfold plan. rewrite (planned_rings Hpl).
  pose proof (descs_length Hpl Hmax (epoch := epoch) 0
                (Z.to_nat (vt_ring_count (vs_topology setup))) ltac:(lia) ltac:(lia)) as Hl.
  rewrite Z2Nat.id in Hl by lia. exact Hl.
Qed.

(** A directory that starts with the descriptors and is zero after them, under
    the canonical header, is accepted. *)
Lemma validate_decoded_complete dir :
  Forall is_byte dir -> blen dir = dl ->
  byte_range dir 0 used = mjoin (desc_bytes plan <$> rings plan) ->
  existsb (fun b => negb (b =? 0)) (byte_range dir used dl) = false ->
  validate_decoded_header_directory_v21 (header plan) dir setup epoch = Ok plan.
Proof using Hpl Hmax Hepoch.
  intros Hb Hl Hd Hz. pose proof accept_bounds as (? & ? & ? & ? & ?).
  pose proof (planned_small Hpl) as (Hr & _ & _ & _ & Hpg & _).
  pose proof (planned_arenas Hpl Hmax epoch) as [[vk Hvk] [vu Hvu]]. fold plan in Hvk, Hvu.
  unfold validate_decoded_header_directory_v21.
  change (gh_page_size (header plan)) with page.
  change (gh_session_epoch (header plan)) with epoch.
  rewrite (proj2 (Z.eqb_neq page 0)) by lia. rewrite (proj1 (pl_page _ _ _ _ _ _ Hpl)).
  rewrite (proj2 (Z.eqb_neq epoch 0)) by apply Hepoch. rewrite Z.eqb_refl. cbn [negb orb].
  rewrite (planned_compute Hpl), (proj2 (Z.ltb_ge _ _)) by done. cbn [map_err]. cbn zeta.
  rewrite with_epoch_canonical. fold plan.
  rewrite (proj1 (header_matches_refl plan)), (proj2 (header_matches_refl plan)).
  change (gh_header_flags (header plan)) with 0. change (gh_flags (header plan)) with 0.
  change (gh_reserved (header plan)) with (replicate 3824 0).
  rewrite existsb_nonzero_replicate. cbn [negb orb Z.eqb].
  rewrite usize_small by lia. cbn [ok_or]. rewrite Hl, Z.ltb_irrefl.
  assert (check_descs plan (rings plan) dir = Ok tt) as ->.
  { unfold plan in Hd |- *. rewrite (planned_rings Hpl) in Hd |- *.
    rewrite <- (Z2Nat.id (vt_ring_count (vs_topology setup))) by lia.
    apply (check_descs_spec Hpl Hmax (epoch := epoch)); [done | done | lia | |].
    - rewrite Z2Nat.id, Z.add_0_l by lia. rewrite Hl.
      change (vt_ring_count (vs_topology setup)) with (sp_ring_count plan). lia.
    - rewrite Z2Nat.id, Z.add_0_l by lia. exact Hd. }
  rewrite mul_small by lia. cbn [ok_or]. rewrite usize_small by lia. cbn [ok_or].
  rewrite slice_ok by lia. rewrite Hz.
  change (gh_k2u_slots (header plan)) with (sp_k2u_slots plan).
  change (gh_k2u_slot_classes (header plan)) with (sp_k2u_slot_classes plan).
  change (gh_u2k_slots (header plan)) with (sp_u2k_slots plan).
  change (gh_u2k_slot_classes (header plan)) with (sp_u2k_slot_classes plan).
  by rewrite Hvk, Hvu.
Qed.

(** The parts of a buffer that starts with the image. *)
Lemma image_slices R :
  let b := image plan (sp_section_size plan) ++ R in
  blen b = sp_section_size plan + blen R /\
  byte_range b 0 4096 = pod_bytes (header plan) /\
  byte_range b 4096 ds = replicate (header_gap plan) 0 /\
  byte_range b ds (ds + used) = mjoin (desc_bytes plan <$> rings plan) /\
  (forall n, 0 <= n <= sp_section_size plan - ds - used ->
    byte_range b (ds + used) (ds + used + n) = replicate (Z.to_nat n) 0).
Proof using Hpl Hmax Hepoch.
  pose proof accept_bounds as (? & ? & ? & ? & ?).
  pose proof (header_bytes_length (proj1 Hepoch)) as HA. pose proof gap_length as HB.
  pose proof descs_blen as HC. unfold image. rewrite <- !(assoc_L (++)).
  set (A := pod_bytes (header plan)) in *. set (C := mjoin _) in *.
  set (kd := Z.to_nat (sp_section_size plan - ds - used)) in *.
  assert (Hkd : Z.of_nat kd = sp_section_size plan - ds - used) by (unfold kd; lia).
  assert (Hpre : blen (A ++ replicate (header_gap plan) 0) = ds)
    by (rewrite blen_app, blen_replicate; lia).
  assert (Hpre2 : blen ((A ++ replicate (header_gap plan) 0) ++ C) = ds + used)
    by (rewrite blen_app, Hpre; lia).
  cbn zeta. split_and!.
  - rewrite !blen_app, !blen_replicate. lia.
  - rewrite <- HA. apply (byte_range_prefix A).
  - rewrite <- HA. replace ds with (blen A + Z.of_nat (header_gap plan)) by lia.
    rewrite byte_range_zeroes by lia. by rewrite Nat2Z.id.
  - rewrite <- Hpre, <- HC. rewrite (assoc_L (++) A). apply byte_range_app.
  - intros n Hn. rewrite <- Hpre2.
    rewrite (assoc_L (++) A), (assoc_L (++) (A ++ _)). apply byte_range_zeroes. lia.
Qed.

Lemma image_outside_zero R :
  check_outside_zero ds used 0
    (byte_range (image plan (sp_section_size plan) ++ R) 0 (sp_section_size plan)) = true.
Proof using Hpl Hmax Hepoch.
  pose proof accept_bounds as (? & ? & ? & ? & ?).
  pose proof (image_slices R) as (Hl & Hhead & Hgap & Hdesc & Htail).
  set (b := image plan (sp_section_size plan) ++ R) in *.
  rewrite (byte_range_split b 0 4096), (byte_range_split b 4096 ds),
    (byte_range_split b ds (ds + used)) by lia.
  replace (sp_section_size plan) with (ds + used + (sp_section_size plan - ds - used)) by lia.
  rewrite Hhead, Hgap, Hdesc, Htail by lia.
  rewrite !check_outside_app, (header_bytes_length (proj1 Hepoch)), descs_blen, blen_replicate.
  rewrite gap_length, !check_outside_zeroes.
  rewrite check_outside_header
    by (rewrite (header_bytes_length (proj1 Hepoch)); unfold SIZE_OF_GLOBAL_HEADER; lia).
  rewrite check_outside_descs; [done | lia | rewrite descs_blen; lia | unfold u64_max; lia].
Qed.

(** Every buffer that starts with the image is accepted. *)
Lemma validate_finished_complete R :
  Forall is_byte (image plan (sp_section_size plan) ++ R) ->
  validate_finished_section_v21 (image plan (sp_section_size plan) ++ R) setup epoch = Ok plan.
Proof using Hpl Hmax Hepoch.
  intros Hb. pose proof accept_bounds as (? & ? & ? & ? & ?).
  pose proof (header_valid Hpl Hmax (proj1 Hepoch)) as Hhv.
  pose proof (image_slices R) as (Hl & Hhead & _ & Hdesc & Htail).
  pose proof (image_outside_zero R) as Hz.
  assert (0 <= blen R) by (unfold blen; lia).
  set (b := image plan (sp_section_size plan) ++ R) in *.
  unfold validate_finished_section_v21, decode_header. unfold SIZE_OF_GLOBAL_HEADER.
  rewrite (proj2 (Z.ltb_ge _ _)) by lia. rewrite slice_ok by lia. rewrite Hhead.
  rewrite (try_decode_piece GlobalHeader_Pod) by (apply pod_bytes_length, Hhv). cbn [map_err].
  assert (pod_read (pod_bytes (header plan)) = header plan) as ->.
  { rewrite <- (app_nil_r (pod_bytes _)). apply pod_read_bytes, Hhv. }
  change (gh_ring_directory (header plan)) with (sp_ring_directory plan).
  rewrite !usize_small by lia. cbn [ok_or]. rewrite add_small by lia. cbn [ok_or].
  rewrite (proj2 (Z.ltb_ge _ _)) by lia. rewrite slice_ok by lia.
  rewrite validate_decoded_complete.
  - rewrite usize_small by lia. cbn [ok_or]. rewrite (proj2 (Z.ltb_ge _ _)) by lia.
    rewrite mul_small by lia. cbn [ok_or]. rewrite usize_small by lia. cbn [ok_or].
    rewrite slice_ok by lia. by rewrite Hz.
  - by apply byte_range_byte.
  - rewrite blen_byte_range by lia. lia.
  - rewrite byte_range_nested by lia. by rewrite Z.add_0_r.
  - rewrite byte_range_nested by lia.
    replace (ds + dl) with (ds + used + (dl - used)) by lia. rewrite Htail by lia.
    apply existsb_nonzero_replicate.
Qed.
End Accept.

Lemma image_bytes plan n : Forall is_byte (image plan n).
Proof.
  unfold image. rewrite !Forall_app. split_and!; [apply pod_bytes_byte | by apply Forall_replicate | |
    by apply Forall_replicate].
  induction (rings plan) as [| r rs IH]; [constructor |].
  rewrite fmap_cons. cbn [mjoin list_join]. apply Forall_app. split; [apply pod_bytes_byte | exact IH].
Qed.

(** The constructor in terms of an accepted setup and its plan. *)
Lemma construct_image setup page plan epoch n :
  setup_ok setup -> is_u32 page -> compute setup page = Ok plan -> is_u64 epoch ->
  sp_section_size plan <= n ->
  construct (with_epoch plan epoch) (replicate (Z.to_nat n) 0) = Ok (image (with_epoch plan epoch) n) /\
  blen (image (with_epoch plan epoch) n) = n.
Proof.
  intros Hs Hu Hc He Hn.
  destruct (compute_Ok_planned _ _ _ Hs Hu Hc) as (ak & au & nk & nu & Hpl & -> & Hmax).
  rewrite with_epoch_canonical. split; [by apply (construct_eq Hpl Hmax He) |].
  pose proof (accept_bounds Hpl Hmax (epoch := epoch)) as (H1 & H2 & H3 & H4 & H5).
  unfold image. rewrite !blen_app, !blen_replicate.
  rewrite (header_bytes_length Hpl Hmax He), (gap_length Hpl Hmax), (descs_blen Hpl Hmax).
  change (sp_section_size (canonical_plan setup page ak au nk nu epoch) <= n) in Hn. lia.
Qed.

(** ** The theorems *)

(** C18: round trip of the section: writing a plan into any zeroed buffer
    that is large enough succeeds, keeps the buffer's length, and the finished
    buffer is accepted by the validator for the same SETUP and epoch, which
    recovers the plan. *)
Theorem section_image_roundtrip (input : bytes) profile mask probe sid setup page plan epoch n :
  Forall is_byte input -> FeatureSet_valid mask -> FeatureSet_valid probe ->
  validate_setup_request_v1 input profile mask probe sid = Ok setup -> is_u32 page ->
  compute setup page = Ok plan -> is_u64 epoch -> epoch <> 0 -> sp_section_size plan <= n ->
  exists img, construct (with_epoch plan epoch) (replicate (Z.to_nat n) 0) = Ok img /\
    blen img = n /\
    validate_finished_section_v21 img setup epoch = Ok (with_epoch plan epoch).
Proof.
  intros Hb Hm Hp Hv Hu Hc He He0 Hn.
  pose proof (validate_setup_ok _ _ _ _ _ _ Hb Hm Hp Hv) as Hs.
  destruct (construct_image _ _ _ epoch n Hs Hu Hc He Hn) as [Hcon Hl].
  eexists. split; [exact Hcon |]. split; [exact Hl |]. clear Hcon Hl.
  destruct (compute_Ok_planned _ _ _ Hs Hu Hc) as (ak & au & nk & nu & Hpl & -> & Hmax).
  rewrite with_epoch_canonical. set (p := canonical_plan setup page ak au nk nu epoch).
  pose proof (accept_bounds Hpl Hmax (epoch := epoch)) as (H1 & H2 & H3 & H4 & H5).
  change (sp_section_size p <= n) in Hn. set (size := sp_section_size p) in *.
  assert (image p n = image p size ++ replicate (Z.to_nat (n - size)) 0) as Hsplit.
  { unfold image. rewrite <- !(assoc_L (++)), <- replicate_add. do 3 f_equal. f_equal.
    fold p size in H1, H2, H3, H4, H5. lia. }
  pose proof (image_bytes p n) as Hib. rewrite Hsplit in Hib |- *.
  exact (validate_finished_complete Hpl Hmax (conj He He0) _ Hib).
Qed.

(** C9: equivalence of validation and construction: a byte buffer is
    accepted as a finished section exactly when its first [section_size] bytes
    are what [construct] writes for a plan computed from the same SETUP, at the
    page size the header carries and the expected, non-zero epoch. *)
Theorem finished_section_exact (input : bytes) profile mask probe sid setup b epoch p :
  Forall is_byte input -> FeatureSet_valid mask -> FeatureSet_valid probe ->
  validate_setup_request_v1 input profile mask probe sid = Ok setup ->
  Forall is_byte b -> is_u64 epoch ->
  validate_finished_section_v21 b setup epoch = Ok p <->
  epoch <> 0 /\
  exists page plan, is_u32 page /\ compute setup page = Ok plan /\ p = with_epoch plan epoch /\
    sp_section_size p <= blen b /\
    construct p (replicate (Z.to_nat (sp_section_size p)) 0)
    = Ok (take (Z.to_nat (sp_section_size p)) b).
Proof.
  intros Hb Hm Hp Hv Hbb He. pose proof (validate_setup_ok _ _ _ _ _ _ Hb Hm Hp Hv) as Hs. split.
  - intros H. apply validate_finished_sound in H as (He0 & (page & plan & Hu & Hc & ->) & Hl & Ht);
      [| assumption..].
    split; [exact He0 |]. exists page, plan. split; [exact Hu |]. split; [exact Hc |].
    split; [reflexivity |]. split; [exact Hl |]. rewrite Ht.
    destruct (compute_Ok_planned _ _ _ Hs Hu Hc) as (ak & au & nk & nu & Hpl & -> & Hmax).
    rewrite with_epoch_canonical. apply (construct_eq Hpl Hmax He). apply Z.le_refl.
  - intros (He0 & page & plan & Hu & Hc & -> & Hl & Hcon).
    destruct (compute_Ok_planned _ _ _ Hs Hu Hc) as (ak & au & nk & nu & Hpl & -> & Hmax).
    rewrite with_epoch_canonical in *.
    rewrite (construct_eq Hpl Hmax He) in Hcon by apply Z.le_refl. apply (inj Ok) in Hcon.
    set (p := canonical_plan setup page ak au nk nu epoch) in *.
    rewrite <- (take_drop (Z.to_nat (sp_section_size p)) b) in Hbb |- *.
    rewrite <- Hcon in Hbb |- *. by apply (validate_finished_complete Hpl Hmax (conj He He0)).
Qed.

Lemma validate_decoded_no_panic h dir setup epoch :
  setup_ok setup -> @pod_valid _ GlobalHeader_Pod h -> Forall is_byte dir -> is_u64 epoch ->
  validate_decoded_header_directory_v21 h dir setup epoch <> Err Panics.
Proof.
  intros Hs Hv Hb He. unfold validate_decoded_header_directory_v21.
  destruct (_ || _); [congruence |]. destruct (_ || _); [congruence |].
  destruct (compute setup (gh_page_size h)) as [plan | e] eqn:Ec; cbn [map_err]; [| congruence].
  pose proof (header_page_u32 _ Hv) as Hu.
  destruct (compute_Ok_planned _ _ _ Hs Hu Ec) as (ak & au & nk & nu & Hpl & -> & Hmax).
  cbn zeta. rewrite with_epoch_canonical.
  pose proof (accept_bounds Hpl Hmax (epoch := epoch)) as (? & ? & ? & ? & ?).
  pose proof (planned_small Hpl) as (Hr & _).
  destruct (negb _); [congruence |]. destruct (negb _); [congruence |].
  destruct (_ || _); [congruence |].
  rewrite usize_small by lia. cbn [ok_or].
  destruct (Z.ltb_spec (blen dir) (rd_length (sp_ring_directory
    (canonical_plan setup (gh_page_size h) ak au nk nu epoch)))) as [Hl | Hl]; [congruence |].
  pose proof (check_descs_spec Hpl Hmax (epoch := epoch) dir
    (Z.to_nat (vt_ring_count (vs_topology setup))) 0 Hb ltac:(lia) ltac:(lia)) as Hcd.
  rewrite Z2Nat.id, Z.add_0_l in Hcd by lia.
  rewrite <- (planned_rings Hpl epoch) in Hcd.
  destruct Hcd as [_ Hcd].
  { change (vt_ring_count (vs_topology setup)) with
      (sp_ring_count (canonical_plan setup (gh_page_size h) ak au nk nu epoch)). lia. }
  destruct (check_descs _ _ _) as [[] | e]; [| congruence].
  rewrite mul_small by lia. cbn [ok_or]. rewrite usize_small by lia. cbn [ok_or].
  rewrite slice_ok by lia. destruct (existsb _ _); [congruence |].
  destruct (validate_slot_arena _ _ _ _); cbn [map_err]; [| congruence].
  destruct (validate_slot_arena _ _ _ _); cbn [map_err]; congruence.
Qed.

(** C21: safety on hostile bytes: whatever the buffer holds, validating it
    as a finished section never slices out of range. *)
Theorem finished_section_never_panics (input : bytes) profile mask probe sid setup b epoch :
  Forall is_byte input -> FeatureSet_valid mask -> FeatureSet_valid probe ->
  validate_setup_request_v1 input profile mask probe sid = Ok setup ->
  Forall is_byte b -> is_u64 epoch ->
  validate_finished_section_v21 b setup epoch <> Err Panics.
Proof.
  intros Hb Hm Hp Hv Hbb He. pose proof (validate_setup_ok _ _ _ _ _ _ Hb Hm Hp Hv) as Hs.
  unfold validate_finished_section_v21.
  destruct (Z.ltb_spec (blen b) SIZE_OF_GLOBAL_HEADER) as [? | Hl]; [congruence |].
  destruct (finished_header b Hbb Hl) as (-> & _ & _ & -> & Hvh). revert Hvh.
  generalize (@pod_read _ GlobalHeader_Pod (byte_range b 0 SIZE_OF_GLOBAL_HEADER)). intros h Hvh.
  assert (Hreg : 0 <= rd_offset (gh_ring_directory h) /\ 0 <= rd_length (gh_ring_directory h)).
  { destruct Hvh as (_ & _ & _ & _ & _ & _ & _ & _ & _ & _ & _ & [[Hro _] [Hrl _]] & _).
    split; [exact Hro | exact Hrl]. }
  destruct (usize_try_from (rd_offset _)) as [ds |] eqn:E1; cbn [ok_or]; [| congruence].
  destruct (usize_try_from (rd_length _)) as [dl |] eqn:E2; cbn [ok_or]; [| congruence].
  unfold usize_try_from in E1, E2. case_match; [| done]. case_match; [| done].
  apply (inj Some) in E1, E2. subst ds dl.
  destruct (checked_add _ _ _) as [de |] eqn:E3; cbn [ok_or]; [| congruence].
  apply checked_add_Some in E3 as [-> _].
  destruct (Z.ltb_spec (blen b) (rd_offset (gh_ring_directory h) + rd_length (gh_ring_directory h)));
    [congruence |].
  rewrite slice_ok by lia.
  pose proof (validate_decoded_no_panic h (byte_range b (rd_offset (gh_ring_directory h))
    (rd_offset (gh_ring_directory h) + rd_length (gh_ring_directory h))) setup epoch Hs Hvh
    (byte_range_byte _ _ _ Hbb) He) as Hnp.
  destruct (validate_decoded_header_directory_v21 h _ setup epoch) as [p | e] eqn:Ed; [| congruence].
  apply validate_decoded_sound in Ed as (_ & (plan & Hc & ->) & _ & _);
    [| assumption | assumption | assumption | by apply byte_range_byte].
  destruct (compute_Ok_planned _ _ _ Hs (header_page_u32 _ Hvh) Hc)
    as (ak & au & nk & nu & Hpln & -> & Hmax).
  rewrite with_epoch_canonical.
  pose proof (accept_bounds Hpln Hmax (epoch := epoch)) as (? & ? & ? & ? & ?).
  rewrite usize_small by lia. cbn [ok_or].
  destruct (Z.ltb_spec (blen b) (sp_section_size
    (canonical_plan setup (gh_page_size h) ak au nk nu epoch))); [congruence |].
  rewrite mul_small by lia. cbn [ok_or]. rewrite usize_small by lia. cbn [ok_or].
  rewrite slice_ok by lia. destruct (check_outside_zero _ _ _ _); congruence.
Qed.

(** ** The smallest session, placed and written *)

Definition ex_plan : SectionLayoutPlan :=
  Eval vm_compute in
    match compute ex_validated_setup 4096 with
    | Ok p => p
    | Err _ => with_epoch (canonical_plan ex_validated_setup 4096 [] [] 0 0 0) 0
    end.

Lemma ex_compute : compute ex_validated_setup 4096 = Ok ex_plan.
Proof. vm_compute. reflexivity. Qed.

Lemma ex_input_bytes : Forall is_byte (@pod_bytes _ SetupRequestV1_Pod ex_setup).
Proof. apply pod_bytes_byte. Qed.

Lemma ex_mask_valid : FeatureSet_valid (mkFeatureSet 0x10 0).
Proof. split; unfold is_u64, u64_max; simpl; lia. Qed.

Lemma ex_probe_valid : FeatureSet_valid (mkFeatureSet 0x3 0).
Proof. split; unfold is_u64, u64_max; simpl; lia. Qed.

Lemma ex_page_u32 : is_u32 4096.
Proof. unfold is_u32, u32_max. lia. Qed.

Lemma ex_epoch_u64 : is_u64 7.
Proof. unfold is_u64, u64_max. lia. Qed.

Lemma ex_setup_ok : setup_ok ex_validated_setup.
Proof.
  exact (validate_setup_ok _ _ _ _ _ _ ex_input_bytes ex_mask_valid ex_probe_valid ex_setup_accepted).
Qed.

Lemma section_image_roundtrip_witness :
  exists img, construct (with_epoch ex_plan 7) (replicate (Z.to_nat 2000000) 0) = Ok img /\
    blen img = 2000000 /\
    validate_finished_section_v21 img ex_validated_setup 7 = Ok (with_epoch ex_plan 7).
Proof.
  apply (section_image_roundtrip _ _ _ _ _ ex_validated_setup 4096 ex_plan 7 2000000 ex_input_bytes
    ex_mask_valid ex_probe_valid ex_setup_accepted ex_page_u32 ex_compute ex_epoch_u64);
    vm_compute; discriminate.
Defined.

Lemma finished_section_exact_witness :
  validate_finished_section_v21
    (image (with_epoch ex_plan 7) (sp_section_size (with_epoch ex_plan 7))) ex_validated_setup 7
  = Ok (with_epoch ex_plan 7).
Proof.
  destruct (construct_image ex_validated_setup 4096 ex_plan 7 (sp_section_size ex_plan) ex_setup_ok
    ex_page_u32 ex_compute ex_epoch_u64 (Z.le_refl _)) as [Hcon Hl].
  apply (finished_section_exact _ _ _ _ _ ex_validated_setup _ 7 (with_epoch ex_plan 7) ex_input_bytes
    ex_mask_valid ex_probe_valid ex_setup_accepted (image_bytes _ _) ex_epoch_u64).
  split; [discriminate |]. exists 4096, ex_plan.
  split; [exact ex_page_u32 |]. split; [exact ex_compute |]. split; [reflexivity |].
  split; [apply Z.eq_le_incl; symmetry; exact Hl |].
  change (sp_section_size (with_epoch ex_plan 7)) with (sp_section_size ex_plan).
  rewrite take_ge; [exact Hcon |]. unfold blen in Hl.
  apply Nat2Z.inj_le. rewrite Hl, Z2Nat.id; [apply Z.le_refl | vm_compute; discriminate].
Defined.

Lemma finished_section_never_panics_witness :
  validate_finished_section_v21 (replicate 5000 255) ex_validated_setup 7 <> Err Panics.
Proof.
  apply (finished_section_never_panics _ _ _ _ _ ex_validated_setup _ 7 ex_input_bytes
    ex_mask_valid ex_probe_valid ex_setup_accepted); [| exact ex_epoch_u64].
  apply Forall_replicate. unfold is_byte. lia.
Defined.

Lemma compute_total_witness :
  exists plan, compute ex_validated_setup 4096 = Ok plan /\
    sp_section_size plan = section_bytes (vs_topology ex_validated_setup) 4096.
Proof.
  destruct (compute_total _ _ _ _ _ ex_validated_setup 4096 ex_input_bytes ex_mask_valid
    ex_probe_valid ex_setup_accepted ex_page_u32) as (plan & Hc & Hsize & _).
  exists plan. split; [exact Hc | exact Hsize].
Defined.

Lemma section_geometry_witness :
  rp_ring_index <$> rings ex_plan = [0] /\
  rd_offset (sp_k2u_slots ex_plan) + rd_length (sp_k2u_slots ex_plan)
    <= rd_offset (sp_u2k_slots ex_plan) /\
  holds 4096 4096 (sp_notify_names ex_plan).
Proof.
  pose proof (section_geometry _ _ _ _ _ ex_validated_setup 4096 ex_plan ex_input_bytes ex_mask_valid
    ex_probe_valid ex_setup_accepted ex_page_u32 ex_compute) as (Ho & _ & Hi & _ & _ & _ & _ & Hn).
  split; [exact Hi |]. split; [| exact Hn].
  apply (Ho 8%nat 9%nat); [lia | reflexivity | reflexivity].
Defined.
