(* ===== verification/Ring.v ===== *)
(** * Shared-memory rings: storage, the sole consumer, the SPSC producer

    fsring-abi/src/ring.rs. One ring is a producer page (the [tail] cursor), a
    consumer page (the [head] cursor and the park state) and [capacity] entries,
    each a sequence word and a body. Atomic accesses are sequentially consistent
    here; what each access reads or writes, and in which order, follows the
    source. [RingMpsc] interleaves the accesses of many producers; this file has
    the operations that run against quiescent memory and proves that the
    single-producer ring is a bounded FIFO queue. *)

From S2P Require Import Prelude.

Definition PARK_STATE_ACTIVE : Z := 0.
Definition PARK_STATE_POLLING : Z := 1.
Definition PARK_STATE_PARKED : Z := 2.

Inductive CursorFault : Type :=
| AheadOfProducer
| Regressed
| FutureSequence
| Exhausted
| OverCapacity.

Inductive PushError (T : Type) : Type :=
| Full (value : T)
| Contended (value : T)
| PushProtocol (fault : CursorFault) (value : T).
Arguments Full {T} value.
Arguments Contended {T} value.
Arguments PushProtocol {T} fault value.

Record PushReceipt := mkReceipt { position : Z; should_wake_flag : bool }.

Inductive PopError : Type := PopProtocol (fault : CursorFault).

Definition capacity_parts (capacity : Z) : Z * Z := (capacity, saturating_sub capacity 1).

Section Ring.
Context {B : Type} `{Inhabited B}.

(** The words of one ring in the shared section. *)
Record ring_mem := mkRing {
  r_tail : Z;
  r_head : Z;
  r_park : Z;
  r_seq : list Z;
  r_body : list B;
}.

Definition set_tail (v : Z) (m : ring_mem) : ring_mem :=
  mkRing v (r_head m) (r_park m) (r_seq m) (r_body m).
Definition set_head (v : Z) (m : ring_mem) : ring_mem :=
  mkRing (r_tail m) v (r_park m) (r_seq m) (r_body m).
Definition set_park (v : Z) (m : ring_mem) : ring_mem :=
  mkRing (r_tail m) (r_head m) v (r_seq m) (r_body m).

(** Entry accesses at index [i] (the source adds [i] to the entry pointer). *)
Definition load_sequence (m : ring_mem) (i : Z) : Z := r_seq m !!! Z.to_nat i.
Definition read_body (m : ring_mem) (i : Z) : B := r_body m !!! Z.to_nat i.
Definition store_sequence (i v : Z) (m : ring_mem) : ring_mem :=
  mkRing (r_tail m) (r_head m) (r_park m) (<[Z.to_nat i := v]> (r_seq m)) (r_body m).
Definition write_body (i : Z) (b : B) (m : ring_mem) : ring_mem :=
  mkRing (r_tail m) (r_head m) (r_park m) (r_seq m) (<[Z.to_nat i := b]> (r_body m)).

(** The producer's wake decision, sampled after publication. *)
Definition should_wake (m : ring_mem) : bool := r_park m =? PARK_STATE_PARKED.

(** ** The single-writer producer *)

Record SpscProducer := mkSpsc {
  sp_capacity : Z;
  sp_mask : Z;
  sp_tail : Z;
  sp_validated_head : Z;
}.

Definition spsc_attach (m : ring_mem) (capacity : Z) : SpscProducer :=
  let '(capacity, mask) := capacity_parts capacity in
  mkSpsc capacity mask (r_tail m) 0.

Definition spsc_try_push (m : ring_mem) (p : SpscProducer) (value : B)
    : ring_mem * SpscProducer * result (PushError B) PushReceipt :=
  let floor := sp_validated_head p in
  let observed_head := r_head m in
  let tail := sp_tail p in
  if observed_head <? floor then (m, p, Err (PushProtocol Regressed value))
  else if tail <? observed_head then (m, p, Err (PushProtocol AheadOfProducer value))
  else
    let p := mkSpsc (sp_capacity p) (sp_mask p) (sp_tail p) observed_head in
    if tail =? u64_max then (m, p, Err (PushProtocol Exhausted value))
    else
      match checked_sub tail observed_head with
      | None => (m, p, Err (PushProtocol AheadOfProducer value))
      | Some distance =>
          if distance =? sp_capacity p then (m, p, Err (Full value))
          else if sp_capacity p <? distance then (m, p, Err (PushProtocol OverCapacity value))
          else
            match checked_add u64_max tail 1 with
            | None => (m, p, Err (PushProtocol Exhausted value))
            | Some next =>
                let m := set_tail next m in
                let p := mkSpsc (sp_capacity p) (sp_mask p) next (sp_validated_head p) in
                let index := Z.land tail (sp_mask p) in
                let m := write_body index value m in
                let m := store_sequence index next m in
                (m, p, Ok (mkReceipt tail (should_wake m)))
            end
      end.

(** ** The sole consumer *)

Record SingleConsumer := mkConsumer { c_mask : Z; c_head : Z }.

Definition consumer_attach (m : ring_mem) (capacity : Z) : SingleConsumer :=
  let '(_, mask) := capacity_parts capacity in mkConsumer mask (r_head m).

Definition has_item (m : ring_mem) (c : SingleConsumer) : result PopError bool :=
  match checked_add u64_max (c_head c) 1 with
  | None => Err (PopProtocol Exhausted)
  | Some expected =>
      let index := Z.land (c_head c) (c_mask c) in
      let sequence := load_sequence m index in
      if sequence =? expected then Ok true
      else if sequence <? expected then Ok false
      else Err (PopProtocol FutureSequence)
  end.

Definition set_active (m : ring_mem) : ring_mem := set_park PARK_STATE_ACTIVE m.
Definition set_polling (m : ring_mem) : ring_mem := set_park PARK_STATE_POLLING m.
Definition park_declare (m : ring_mem) : ring_mem := set_park PARK_STATE_PARKED m.

Definition declare_park (m : ring_mem) (c : SingleConsumer)
    : ring_mem * result PopError bool :=
  let m := park_declare m in
  match has_item m c with
  | Ok false => (m, Ok true)
  | Ok true => (set_active m, Ok false)
  | Err error => (set_active m, Err error)
  end.

Definition try_pop (m : ring_mem) (c : SingleConsumer)
    : ring_mem * SingleConsumer * result PopError (option B) :=
  match checked_add u64_max (c_head c) 1 with
  | None => (m, c, Err (PopProtocol Exhausted))
  | Some next =>
      let index := Z.land (c_head c) (c_mask c) in
      let sequence := load_sequence m index in
      if sequence <? next then (m, c, Ok None)
      else if next <? sequence then (m, c, Err (PopProtocol FutureSequence))
      else
        let body := read_body m index in
        (set_head next m, mkConsumer (c_mask c) next, Ok (Some body))
  end.

(** The deferred pop: [try_peek] reads the body at the unadvanced head,
    [pop_commit] stores the head and mints the receipt, [pop_release] drops the
    decision. *)
Record PendingPop := mkPendingPop { pp_body : B; pp_sequence : Z; pp_next_head : Z }.
Record HeadAdvanceReceipt := mkHeadAdvance { ha_sequence : Z; ha_next_head : Z }.
Record CommittedPop := mkCommittedPop { cp_body : B; cp_receipt : HeadAdvanceReceipt }.

Definition try_peek (m : ring_mem) (c : SingleConsumer)
    : result PopError (option PendingPop) :=
  match checked_add u64_max (c_head c) 1 with
  | None => Err (PopProtocol Exhausted)
  | Some next =>
      let index := Z.land (c_head c) (c_mask c) in
      let sequence := load_sequence m index in
      if sequence <? next then Ok None
      else if next <? sequence then Err (PopProtocol FutureSequence)
      else Ok (Some (mkPendingPop (read_body m index) sequence next))
  end.

Definition pop_commit (m : ring_mem) (c : SingleConsumer) (pending : PendingPop)
    : ring_mem * SingleConsumer * CommittedPop :=
  (set_head (pp_next_head pending) m, mkConsumer (c_mask c) (pp_next_head pending),
   mkCommittedPop (pp_body pending)
     (mkHeadAdvance (pp_sequence pending) (pp_next_head pending))).

Definition pop_release (m : ring_mem) (c : SingleConsumer) (pending : PendingPop)
    : ring_mem * SingleConsumer := (m, c).

End Ring.
Arguments ring_mem : clear implicits.
Arguments mkRing {B}.
Arguments PendingPop : clear implicits.
Arguments CommittedPop : clear implicits.

(** ** The abstract specification: a bounded FIFO queue *)

Section Spec.
Context {B : Type} `{Inhabited B}.

(** The queue, the number of accepted pushes and of pops so far, and whether
    the consumer sleeps. *)
Record fifo := mkFifo { f_queue : list B; f_pushed : Z; f_popped : Z }.

Definition fifo_push (cap : Z) (s : fifo) (v : B) : fifo * result (PushError B) Z :=
  if f_pushed s =? u64_max then (s, Err (PushProtocol Exhausted v))
  else if Z.of_nat (length (f_queue s)) =? cap then (s, Err (Full v))
  else (mkFifo (f_queue s ++ [v]) (f_pushed s + 1) (f_popped s), Ok (f_pushed s)).

Definition fifo_pop (s : fifo) : fifo * result PopError (option B) :=
  if f_popped s =? u64_max then (s, Err (PopProtocol Exhausted))
  else
    match f_queue s with
    | [] => (s, Ok None)
    | b :: q => (mkFifo q (f_pushed s) (f_popped s + 1), Ok (Some b))
    end.

Inductive ring_op : Type := OpPush (v : B) | OpPop.
Inductive ring_out : Type :=
| OutPush (r : result (PushError B) Z)
| OutPop (r : result PopError (option B)).

Fixpoint fifo_run (cap : Z) (s : fifo) (ops : list ring_op) : list ring_out :=
  match ops with
  | [] => []
  | OpPush v :: rest =>
      let '(s', r) := fifo_push cap s v in OutPush r :: fifo_run cap s' rest
  | OpPop :: rest => let '(s', r) := fifo_pop s in OutPop r :: fifo_run cap s' rest
  end.

(** The same client program against the ring. *)
Definition receipt_position (r : result (PushError B) PushReceipt)
    : result (PushError B) Z :=
  match r with Ok rc => Ok (position rc) | Err e => Err e end.

Fixpoint ring_run (m : ring_mem B) (p : SpscProducer) (c : SingleConsumer)
    (ops : list ring_op) : list ring_out :=
  match ops with
  | [] => []
  | OpPush v :: rest =>
      let '(m', p', r) := spsc_try_push m p v in
      OutPush (receipt_position r) :: ring_run m' p' c rest
  | OpPop :: rest =>
      let '(m', c', r) := try_pop m c in OutPop r :: ring_run m' p c' rest
  end.

(** A freshly laid out ring: zero cursors, zero sequences, any bodies. *)
Definition fresh_ring (cap : Z) (m : ring_mem B) : Prop :=
  r_tail m = 0 /\ r_head m = 0 /\ r_seq m = replicate (Z.to_nat cap) 0 /\
  length (r_body m) = Z.to_nat cap.

Definition legal_capacity (cap : Z) : Prop := 2 <= cap /\ is_power_of_two cap = true.
End Spec.
Arguments fifo : clear implicits.
Arguments ring_op : clear implicits.
Arguments ring_out : clear implicits.

(** ** Positions and cells *)

(** The cell a position uses. *)
Definition cell (cap p : Z) : nat := Z.to_nat (p mod cap).

Lemma cell_land cap p : legal_capacity cap -> Z.to_nat (Z.land p (cap - 1)) = cell cap p.
Proof. intros [_ Hp]. unfold cell. by rewrite land_mask_mod. Qed.

Lemma cell_lt cap p : 0 < cap -> (cell cap p < Z.to_nat cap)%nat.
Proof. intros. unfold cell. pose proof (Z.mod_pos_bound p cap). lia. Qed.

(** Within one window of [cap] positions, distinct positions use distinct
    cells. *)
Lemma cell_inj cap p q : 0 < cap -> Z.abs (p - q) < cap -> cell cap p = cell cap q -> p = q.
Proof.
  unfold cell. intros Hc Hd He.
  pose proof (Z.mod_pos_bound p cap Hc). pose proof (Z.mod_pos_bound q cap Hc).
  assert (p mod cap = q mod cap) as Hm by lia.
  pose proof (Z.div_mod p cap ltac:(lia)). pose proof (Z.div_mod q cap ltac:(lia)).
  assert (p / cap = q / cap) by nia. nia.
Qed.

Lemma cell_wrap cap p : 0 < cap -> cell cap (p + cap) = cell cap p.
Proof.
  intros. unfold cell. f_equal. replace (p + cap) with (p + 1 * cap) by lia.
  by rewrite Z.mod_add by lia.
Qed.

Section Proofs.
Context {B : Type} `{Inhabited B}.
Implicit Types (m : ring_mem B) (s : fifo B).

(** [cell_holds m p b]: position [p] is published with body [b]. *)
Definition cell_holds (cap : Z) m (p : Z) (b : B) : Prop :=
  r_seq m !!! cell cap p = p + 1 /\ r_body m !!! cell cap p = b.

(** The ring represents the queue [s]. *)
Record spsc_rel (cap : Z) m (p : SpscProducer) (c : SingleConsumer) s : Prop := {
  sr_cap : legal_capacity cap;
  sr_seq_len : length (r_seq m) = Z.to_nat cap;
  sr_body_len : length (r_body m) = Z.to_nat cap;
  sr_spsc : sp_capacity p = cap /\ sp_mask p = cap - 1;
  sr_cons : c_mask c = cap - 1;
  sr_tail : r_tail m = f_pushed s /\ sp_tail p = f_pushed s;
  sr_head : r_head m = f_popped s /\ c_head c = f_popped s;
  sr_floor : 0 <= sp_validated_head p <= f_popped s;
  sr_count : f_pushed s = f_popped s + Z.of_nat (length (f_queue s));
  sr_bound : Z.of_nat (length (f_queue s)) <= cap;
  sr_width : f_pushed s <= u64_max;
  sr_full : forall i b, f_queue s !! i = Some b -> cell_holds cap m (f_popped s + Z.of_nat i) b;
  sr_stale : forall q, f_pushed s <= q < f_popped s + cap -> r_seq m !!! cell cap q <= q;
}.

Lemma spsc_rel_init cap m :
  legal_capacity cap -> fresh_ring cap m ->
  spsc_rel cap m (spsc_attach m cap) (consumer_attach m cap) (mkFifo [] 0 0).
Proof.
  intros Hc (Ht & Hh & Hs & Hb). pose proof (proj1 Hc) as Hc2.
  assert (Hm : saturating_sub cap 1 = cap - 1) by (unfold saturating_sub; lia).
  split; simpl; rewrite ?Ht, ?Hh, ?Hm; try done; try lia.
  - by rewrite Hs, length_replicate.
  - intros q Hq. rewrite Hs, lookup_total_replicate_2 by (apply cell_lt; lia). lia.
Qed.

(** Storing at a published position's cell leaves the other positions of the
    window alone. *)
Lemma publish_other cap m t v q :
  0 < cap -> Z.abs (t - q) < cap -> t <> q ->
  let m' := store_sequence (Z.land t (cap - 1)) (t + 1)
              (write_body (Z.land t (cap - 1)) v (set_tail (t + 1) m)) in
  legal_capacity cap ->
  r_seq m' !!! cell cap q = r_seq m !!! cell cap q /\
  r_body m' !!! cell cap q = r_body m !!! cell cap q.
Proof.
  intros Hc Hw Hne m' Hl. unfold m'. simpl. rewrite (cell_land cap t Hl).
  assert (cell cap t <> cell cap q) by (intros E; apply Hne; by apply (cell_inj cap)).
  by rewrite !list_lookup_total_insert_ne.
Qed.

Lemma spsc_push_refines cap m p c s v :
  spsc_rel cap m p c s ->
  let '(m', p', r) := spsc_try_push m p v in
  let '(s', r') := fifo_push cap s v in
  spsc_rel cap m' p' c s' /\ receipt_position r = r'.
Proof.
  intros [Hcap Hls Hlb [Hpc Hpm] Hcm [Ht1 Ht2] [Hh1 Hh2] Hfl Hcnt Hbd Hw Hfull Hst].
  pose proof (proj1 Hcap) as Hc2.
  unfold spsc_try_push, fifo_push, checked_sub, checked_add.
  rewrite Ht2, Hh1, Hpc, Hpm. simpl. rewrite ?Hpm.
  rewrite (proj2 (Z.ltb_ge _ _)), (proj2 (Z.ltb_ge _ _)) by lia.
  destruct (Z.eqb_spec (f_pushed s) u64_max) as [He | He].
  { split; [| done]. split; simpl; try done; lia. }
  rewrite (proj2 (Z.leb_le (f_popped s) (f_pushed s))) by lia.
  destruct (Z.eqb_spec (f_pushed s - f_popped s) cap) as [Hf | Hf].
  { rewrite (proj2 (Z.eqb_eq _ cap)) by lia. split; [| done]. split; simpl; try done; lia. }
  rewrite (proj2 (Z.eqb_neq _ cap)) by lia.
  rewrite (proj2 (Z.ltb_ge _ _)), (proj2 (Z.leb_le _ _)) by lia.
  split; [| done].
  assert (Hoth : forall q, Z.abs (f_pushed s - q) < cap -> f_pushed s <> q -> _)
    by (intros q ? ?; exact (publish_other cap m (f_pushed s) v q ltac:(lia) ltac:(lia)
                               ltac:(lia) Hcap)).
  simpl in Hoth.
  assert (Hlt : (cell cap (f_pushed s) < Z.to_nat cap)%nat) by (apply cell_lt; lia).
  split; simpl; rewrite ?length_insert, ?length_app; simpl; try done; try lia.
  - intros i b Hi. unfold cell_holds. simpl.
    apply lookup_app_Some in Hi as [Hi | [Hge Hi]].
    + pose proof (lookup_lt_Some _ _ _ Hi).
      destruct (Hoth (f_popped s + Z.of_nat i)) as [-> ->]; [lia | lia |]. by apply Hfull.
    + apply list_lookup_singleton_Some in Hi as [Hi ->].
      replace (f_popped s + Z.of_nat i) with (f_pushed s) by lia.
      rewrite (cell_land cap _ Hcap), !list_lookup_total_insert_eq by lia. done.
  - intros q Hq. destruct (Hoth q) as [-> _]; [lia | lia |]. apply Hst. lia.
Qed.

Lemma pop_refines cap m p c s :
  spsc_rel cap m p c s ->
  let '(m', c', r) := try_pop m c in
  let '(s', r') := fifo_pop s in
  spsc_rel cap m' p c' s' /\ r = r'.
Proof.
  intros [Hcap Hls Hlb [Hpc Hpm] Hcm [Ht1 Ht2] [Hh1 Hh2] Hfl Hcnt Hbd Hw Hfull Hst].
  pose proof (proj1 Hcap) as Hc2.
  unfold try_pop, fifo_pop, checked_add, load_sequence, read_body.
  rewrite Hcm, Hh2, (cell_land cap _ Hcap).
  destruct (Z.eqb_spec (f_popped s) u64_max) as [He | He].
  { rewrite (proj2 (Z.leb_gt _ _)) by lia. split; [| done]. split; done || lia. }
  rewrite (proj2 (Z.leb_le _ _)) by lia.
  destruct (f_queue s) as [| b q] eqn:Hq; simpl in *.
  - pose proof (Hst (f_popped s) ltac:(lia)).
    rewrite (proj2 (Z.ltb_lt _ _)) by lia. split; [| done].
    split; rewrite ?Hq; simpl; done || lia.
  - destruct (Hfull 0%nat b eq_refl) as [Hs0 Hb0]. rewrite Z.add_0_r in Hs0, Hb0.
    rewrite Hs0, Z.ltb_irrefl, Hb0. split; [| done].
    split; simpl; try done; try lia.
    + intros i b' Hi. replace (f_popped s + 1 + Z.of_nat i) with (f_popped s + Z.of_nat (S i))
        by lia. by apply (Hfull (S i)).
    + intros q' Hq'. destruct (Z.eq_dec q' (f_popped s + cap)) as [-> | Hne].
      * rewrite cell_wrap, Hs0 by lia. lia.
      * apply Hst. lia.
Qed.

Lemma ring_run_refines cap ops : forall m p c s,
  spsc_rel cap m p c s -> ring_run m p c ops = fifo_run cap s ops.
Proof.
  induction ops as [| [v |] ops IH]; intros m p c s HR; simpl; [done | |].
  - pose proof (spsc_push_refines cap m p c s v HR) as Hp.
    destruct (spsc_try_push m p v) as [[m' p'] r], (fifo_push cap s v) as [s' r'].
    destruct Hp as [HR' <-]. f_equal. by apply IH.
  - pose proof (pop_refines cap m p c s HR) as Hp.
    destruct (try_pop m c) as [[m' c'] r], (fifo_pop s) as [s' r'].
    destruct Hp as [HR' <-]. f_equal. by apply IH.
Qed.
End Proofs.

(** C13: refinement: every program of pushes and pops against a fresh SPSC
    ring of legal capacity observes exactly what it would observe against a
    bounded FIFO queue: the same positions, the same bodies in the same order,
    [Full] exactly when the queue holds [capacity] entries, and no protocol
    fault but cursor exhaustion after [2^64 - 1] pushes. *)
Theorem spsc_ring_is_bounded_fifo (B : Type) (inh : Inhabited B) cap (m : ring_mem B) ops :
  legal_capacity cap -> fresh_ring cap m ->
  ring_run m (spsc_attach m cap) (consumer_attach m cap) ops
  = fifo_run cap (mkFifo [] 0 0) ops.
Proof. intros Hc Hf. apply ring_run_refines. by apply spsc_rel_init. Qed.

Lemma spsc_ring_is_bounded_fifo_witness :
  ring_run (mkRing 0 0 0 [0; 0] [0; 0]%nat) (mkSpsc 2 1 0 0) (mkConsumer 1 0)
    [OpPush 5%nat; OpPush 6%nat; OpPush 7%nat; OpPop; OpPush 8%nat; OpPop; OpPop; OpPop]
  = [OutPush (Ok 0); OutPush (Ok 1); OutPush (Err (Full 7%nat)); OutPop (Ok (Some 5%nat));
     OutPush (Ok 2); OutPop (Ok (Some 6%nat)); OutPop (Ok (Some 8%nat)); OutPop (Ok None)].
Proof.
  refine (eq_trans (spsc_ring_is_bounded_fifo nat _ 2 (mkRing 0 0 0 [0; 0] [0; 0]%nat) _ _ _) _);
    [split; [lia | reflexivity] | repeat split; reflexivity | vm_compute; reflexivity].
Defined.

(** C34: a hostile consumer can store any [head]. Whatever it stores, one
    push by an attached producer keeps [validated_head <= tail <=
    validated_head + capacity]; a refused push hands the body back, writes
    nothing to the ring and keeps the tail; an accepted push writes only the
    cell of the position it returns and advances the tail by exactly one. *)
Theorem spsc_push_hostile_head (B : Type) (inh : Inhabited B) (m : ring_mem B) p v :
  0 <= r_head m -> 0 <= sp_validated_head p <= sp_tail p ->
  sp_tail p <= sp_validated_head p + sp_capacity p -> sp_tail p <= u64_max ->
  let '(m', p', r) := spsc_try_push m p v in
  0 <= sp_validated_head p' <= sp_tail p' /\
  sp_tail p' <= sp_validated_head p' + sp_capacity p' /\ sp_tail p' <= u64_max /\
  sp_validated_head p <= sp_validated_head p' /\
  match r with
  | Err (Full v') | Err (Contended v') | Err (PushProtocol _ v') =>
      v' = v /\ m' = m /\ sp_tail p' = sp_tail p
  | Ok rc =>
      position rc = sp_tail p /\ sp_tail p' = sp_tail p + 1 /\ r_tail m' = sp_tail p + 1 /\
      r_seq m' = <[Z.to_nat (Z.land (sp_tail p) (sp_mask p)) := sp_tail p + 1]> (r_seq m) /\
      r_body m' = <[Z.to_nat (Z.land (sp_tail p) (sp_mask p)) := v]> (r_body m)
  end.
Proof.
  intros Hh Hv Hc Hw. unfold spsc_try_push, checked_sub, checked_add.
  repeat (case_match; bools; simplify_eq/=; try lia); split_and!; try done; lia.
Qed.

Lemma spsc_push_hostile_head_witness :
  spsc_try_push (mkRing 2 9 0 [1; 2] [5; 6]%nat) (mkSpsc 2 1 2 0) 7%nat
    = (mkRing 2 9 0 [1; 2] [5; 6]%nat, mkSpsc 2 1 2 0,
       Err (PushProtocol AheadOfProducer 7%nat)) /\ 0 <= 0 <= 2.
Proof.
  split; [reflexivity |].
  exact (proj1 (spsc_push_hostile_head nat _ (mkRing 2 9 0 [1; 2] [5; 6]%nat)
    (mkSpsc 2 1 2 0) 7%nat ltac:(vm_compute; discriminate)
    ltac:(split; vm_compute; discriminate) ltac:(vm_compute; discriminate)
    ltac:(vm_compute; discriminate))).
Defined.

(** Committing a peek is popping: the deferred pop returns the same
    body, leaves the same memory and consumer, and its receipt carries the new
    head; releasing a peek changes nothing. *)
Theorem peek_commit_is_pop (B : Type) (inh : Inhabited B) (m : ring_mem B) c :
  match try_peek m c with
  | Err e => try_pop m c = (m, c, Err e)
  | Ok None => try_pop m c = (m, c, Ok None)
  | Ok (Some pending) =>
      let '(m', c', committed) := pop_commit m c pending in
      try_pop m c = (m', c', Ok (Some (cp_body committed))) /\
      ha_next_head (cp_receipt committed) = r_head m' /\
      ha_sequence (cp_receipt committed) = ha_next_head (cp_receipt committed) /\
      pop_release m c pending = (m, c)
  end.
Proof.
  unfold try_peek, try_pop, pop_commit, pop_release.
  repeat (case_match; bools; simplify_eq/=; try done).
  split_and!; try done. lia.
Qed.
