(* ===== verification/RingMpsc.v ===== *)
(** * The multi-producer ring, access by access

    [MpscProducer::try_push] of fsring-abi/src/ring.rs as a state machine whose
    every step performs one shared-memory access of the source, in the source's
    order, interleaved with the other producers and with the consumer. The
    consumer is either the ring's own [SingleConsumer] (honest) or a peer that
    stores anything into the page it owns (hostile). Accesses are sequentially
    consistent: the Release/Acquire pairs and the SeqCst fences of the source
    are what makes this a faithful reading on the supported targets; weaker
    orders are outside the model. *)

From S2P Require Import Prelude Ring.

Definition MAX_RESERVE_RETRIES : nat := 64.

(** Which refresh is running: the one that opens an iteration, or the one that
    rechecks a full snapshot [(tail, validated_head)]. *)
Inductive refresh : Type :=
| FirstRefresh
| SecondRefresh (tail validated_head : Z).

Section Machine.
Context {B : Type} `{Inhabited B}.

(** The program points of one [try_push] call; [value] is the argument, [n] the
    iterations left after the current one. *)
Inductive ppc : Type :=
| PIdle
| PLoop (n : nat) (value : B)                          (* head of the retry loop *)
| PFloor (n : nat) (value : B) (ph : refresh)          (* load validated_head (floor) *)
| PHead (n : nat) (value : B) (ph : refresh) (floor : Z)             (* load remote head *)
| PTail (n : nat) (value : B) (ph : refresh) (floor observed : Z)    (* load tail, compare *)
| PMax (n : nat) (value : B) (ph : refresh) (observed : Z)           (* fetch_max *)
| PSnapTail (n : nat) (value : B) (ph : refresh)                     (* snapshot: load tail *)
| PSnapHead (n : nat) (value : B) (ph : refresh) (tail : Z)          (* snapshot: load head *)
| PCas (n : nat) (value : B) (tail : Z)                (* compare_exchange_weak *)
| PBody (value : B) (tail : Z)                         (* write_body *)
| PSeq (value : B) (tail : Z)                          (* Release store of the sequence *)
| PWake (value : B) (tail : Z)                         (* load park_state *)
| PDone (value : B) (r : result (PushError B) PushReceipt).

Definition refresh_validated_head_tail (tail : Z) (n : nat) (value : B) (ph : refresh)
    (floor observed : Z) : ppc :=
  if observed <? floor then PDone value (Err (PushProtocol Regressed value))
  else if tail <? observed then PDone value (Err (PushProtocol AheadOfProducer value))
  else if floor <? observed then PMax n value ph observed
  else PSnapTail n value ph.

(** What [try_push] does with a completed capacity snapshot. *)
Definition after_snapshot (cap : Z) (n : nat) (value : B) (ph : refresh) (tail vhead : Z) : ppc :=
  match ph with
  | FirstRefresh =>
      if tail =? u64_max then PDone value (Err (PushProtocol Exhausted value))
      else
        match checked_sub tail vhead with
        | None => PLoop n value
        | Some distance =>
            if cap <=? distance then PFloor n value (SecondRefresh tail vhead)
            else
              match checked_add u64_max tail 1 with
              | None => PDone value (Err (PushProtocol Exhausted value))
              | Some _ => PCas n value tail
              end
        end
  | SecondRefresh tail1 vhead1 =>
      match checked_sub tail vhead with
      | None => PLoop n value
      | Some stable_distance =>
          if negb ((tail1 =? tail) && (vhead1 =? vhead)) then PLoop n value
          else if stable_distance =? cap then PDone value (Err (Full value))
          else if cap <? stable_distance then
            PDone value (Err (PushProtocol OverCapacity value))
          else PLoop n value
      end
  end.

(** One access of a producer. [weak] is the spurious failure that
    [compare_exchange_weak] is allowed. *)
Definition pstep (cap : Z) (weak : bool) (m : ring_mem B) (vhead : Z) (pc : ppc)
    : ring_mem B * Z * ppc :=
  let mask := cap - 1 in
  match pc with
  | PIdle => (m, vhead, PIdle)
  | PLoop O value => (m, vhead, PDone value (Err (Contended value)))
  | PLoop (S n) value => (m, vhead, PFloor n value FirstRefresh)
  | PFloor n value ph => (m, vhead, PHead n value ph vhead)
  | PHead n value ph floor => (m, vhead, PTail n value ph floor (r_head m))
  | PTail n value ph floor observed =>
      (m, vhead, refresh_validated_head_tail (r_tail m) n value ph floor observed)
  | PMax n value ph observed => (m, Z.max vhead observed, PSnapTail n value ph)
  | PSnapTail n value ph => (m, vhead, PSnapHead n value ph (r_tail m))
  | PSnapHead n value ph tail => (m, vhead, after_snapshot cap n value ph tail vhead)
  | PCas n value tail =>
      if weak || negb (r_tail m =? tail) then (m, vhead, PLoop n value)
      else (set_tail (tail + 1) m, vhead, PBody value tail)
  | PBody value tail => (write_body (Z.land tail mask) value m, vhead, PSeq value tail)
  | PSeq value tail =>
      (store_sequence (Z.land tail mask) (tail + 1) m, vhead, PWake value tail)
  | PWake value tail => (m, vhead, PDone value (Ok (mkReceipt tail (should_wake m))))
  | PDone value r => (m, vhead, PDone value r)
  end.

(** A call starts with the full retry budget. *)
Definition try_push_start (value : B) : ppc := PLoop MAX_RESERVE_RETRIES value.

(** The consumer's program points: [try_pop] and [declare_park], access by
    access. *)
Inductive cpc : Type :=
| CIdle
| CSeq                (* try_pop: load the sequence of the head cell *)
| CBody               (* try_pop: read the body *)
| CStore (b : B)      (* try_pop: store the head *)
| CDeclare            (* declare_park: store PARKED *)
| CRecheck            (* declare_park: load the sequence again *)
| CUnpark             (* declare_park found work, or the sleeper was woken: store ACTIVE *)
| CAsleep             (* declare_park returned true *)
| CFault (f : CursorFault).

(** [head] is the consumer's own copy of its cursor; [popped] the body handed
    to its caller by this step, if any. *)
Definition cstep (cap : Z) (m : ring_mem B) (head : Z) (pc : cpc)
    : ring_mem B * Z * cpc * option B :=
  let mask := cap - 1 in
  match pc with
  | CIdle => (m, head, CIdle, None)
  | CSeq =>
      match checked_add u64_max head 1 with
      | None => (m, head, CFault Exhausted, None)
      | Some next =>
          let sequence := load_sequence m (Z.land head mask) in
          if sequence <? next then (m, head, CIdle, None)
          else if next <? sequence then (m, head, CFault FutureSequence, None)
          else (m, head, CBody, None)
      end
  | CBody => (m, head, CStore (read_body m (Z.land head mask)), None)
  | CStore b => (set_head (head + 1) m, head + 1, CIdle, Some b)
  | CDeclare => (park_declare m, head, CRecheck, None)
  | CRecheck =>
      match checked_add u64_max head 1 with
      | None => (m, head, CUnpark, None)
      | Some expected =>
          let sequence := load_sequence m (Z.land head mask) in
          if sequence =? expected then (m, head, CUnpark, None)
          else if sequence <? expected then (m, head, CAsleep, None)
          else (m, head, CUnpark, None)
      end
  | CUnpark => (set_active m, head, CIdle, None)
  | CAsleep => (m, head, CAsleep, None)
  | CFault f => (m, head, CFault f, None)
  end.

(** The whole system. [log] and [popped] record the reserved values by position
    and the values handed out; [woken] records that a receipt asked for a wake
    since the consumer last declared itself parked. They are history only: no
    step reads them. *)
Record sys := mkSys {
  s_mem : ring_mem B;
  s_vhead : Z;
  s_prod : list ppc;
  s_chead : Z;
  s_cons : cpc;
  s_log : list B;
  s_popped : list B;
  s_woken : bool;
}.

Definition log_after (pc pc' : ppc) (log : list B) : list B :=
  match pc, pc' with
  | PCas _ v _, PBody _ _ => log ++ [v]
  | _, _ => log
  end.

Definition woken_after (pc' : ppc) (woken : bool) : bool :=
  match pc' with
  | PDone _ (Ok rc) => woken || should_wake_flag rc
  | _ => woken
  end.

(** The history after a producer moves from [pc] to [pc']. *)
Definition prod_update (s : sys) (i : nat) (pc : ppc) (m : ring_mem B) (vh : Z) (pc' : ppc)
    : sys :=
  mkSys m vh (<[i := pc']> (s_prod s)) (s_chead s) (s_cons s)
    (log_after pc pc' (s_log s)) (s_popped s)
    (match pc with PWake _ _ => woken_after pc' (s_woken s) | _ => s_woken s end).

Inductive consumer_kind : Type := Honest | Hostile.

(** One step of the system. *)
Inductive step (cap : Z) (k : consumer_kind) : sys -> sys -> Prop :=
| step_call s i v r v0 :
    s_prod s !! i = Some PIdle \/ s_prod s !! i = Some (PDone v0 r) ->
    step cap k s (mkSys (s_mem s) (s_vhead s) (<[i := try_push_start v]> (s_prod s))
                    (s_chead s) (s_cons s) (s_log s) (s_popped s) (s_woken s))
| step_prod s i pc weak m' vh' pc' :
    s_prod s !! i = Some pc -> pstep cap weak (s_mem s) (s_vhead s) pc = (m', vh', pc') ->
    step cap k s (prod_update s i pc m' vh' pc')
| step_pop_start s :
    k = Honest -> s_cons s = CIdle ->
    step cap k s (mkSys (s_mem s) (s_vhead s) (s_prod s) (s_chead s) CSeq
                    (s_log s) (s_popped s) (s_woken s))
| step_park_start s :
    k = Honest -> s_cons s = CIdle ->
    step cap k s (mkSys (s_mem s) (s_vhead s) (s_prod s) (s_chead s) CDeclare
                    (s_log s) (s_popped s) (s_woken s))
| step_wake s :
    k = Honest -> s_cons s = CAsleep ->
    step cap k s (mkSys (s_mem s) (s_vhead s) (s_prod s) (s_chead s) CUnpark
                    (s_log s) (s_popped s) (s_woken s))
| step_cons s m' h' pc' out :
    k = Honest -> cstep cap (s_mem s) (s_chead s) (s_cons s) = (m', h', pc', out) ->
    step cap k s (mkSys m' (s_vhead s) (s_prod s) h' pc' (s_log s)
                    (match out with Some b => s_popped s ++ [b] | None => s_popped s end)
                    (match s_cons s with CDeclare => false | _ => s_woken s end))
| step_hostile s h park :
    k = Hostile -> is_u64 h -> is_u32 park ->
    step cap k s (mkSys (set_park park (set_head h (s_mem s))) (s_vhead s) (s_prod s)
                    (s_chead s) (s_cons s) (s_log s) (s_popped s) (s_woken s)).

(** A freshly attached ring with [n] producers. *)
Definition init (cap : Z) (s : sys) : Prop :=
  fresh_ring cap (s_mem s) /\ s_vhead s = 0 /\ Forall (eq PIdle) (s_prod s) /\
  s_chead s = 0 /\ s_cons s = CIdle /\ s_log s = [] /\ s_popped s = [] /\ s_woken s = false.

Inductive reachable (cap : Z) (k : consumer_kind) : sys -> Prop :=
| reach_init s : init cap s -> reachable cap k s
| reach_step s s' : reachable cap k s -> step cap k s s' -> reachable cap k s'.

End Machine.
Arguments ppc : clear implicits.
Arguments cpc : clear implicits.
Arguments sys : clear implicits.

(** ** The cursor invariant: holds against every consumer *)

Section Cursors.
Context {B : Type} `{Inhabited B}.
Implicit Types (s : sys B) (pc : ppc B).

Definition refresh_ok (cap vhead tail : Z) (ph : refresh) : Prop :=
  match ph with
  | FirstRefresh => True
  | SecondRefresh t h => 0 <= h <= vhead /\ 0 <= t <= tail /\ cap <= t - h
  end.

(** What a producer at [pc] knows about the shared cursors. Every clause is
    stable under growth of both cursors. *)
Definition pc_cursors (cap vhead tail : Z) pc : Prop :=
  match pc with
  | PIdle | PLoop _ _ => True
  | PFloor _ _ ph | PTail _ _ ph _ _ | PSnapTail _ _ ph => refresh_ok cap vhead tail ph
  | PHead _ _ ph floor => refresh_ok cap vhead tail ph /\ 0 <= floor <= vhead
  | PMax _ _ ph observed => refresh_ok cap vhead tail ph /\ observed <= tail
  | PSnapHead _ _ ph t => refresh_ok cap vhead tail ph /\ 0 <= t <= tail
  | PCas _ _ t => 0 <= t < vhead + cap /\ t < u64_max
  | PBody _ t | PSeq _ t | PWake _ t => 0 <= t < tail
  | PDone _ (Ok rc) => 0 <= position rc < tail
  | PDone v (Err (PushProtocol OverCapacity _)) => False
  | PDone v (Err (PushProtocol _ v') | Err (Full v') | Err (Contended v')) => v' = v
  end.

Record cursors (cap vhead tail : Z) : Prop := {
  cu_cap : 2 <= cap;
  cu_floor : 0 <= vhead <= tail;
  cu_bound : tail <= vhead + cap;
  cu_width : tail <= u64_max;
}.

Lemma pc_cursors_mono cap vh tl vh' tl' pc :
  vh <= vh' -> tl <= tl' -> pc_cursors cap vh tl pc -> pc_cursors cap vh' tl' pc.
Proof.
  intros Hv Ht. destruct pc as [| | ? ? [] | ? ? [] | ? ? [] | ? ? [] | ? ? [] | ? ? [] | | | |
    | ? [rc | [| | [] ?]]]; simpl; try done; lia.
Qed.

(** One access of one producer keeps the cursors, only ever grows them, and
    establishes the producer's next knowledge. *)
Lemma pstep_cursors cap weak (m : ring_mem B) vh pc m' vh' pc' :
  cursors cap vh (r_tail m) -> pc_cursors cap vh (r_tail m) pc ->
  pstep cap weak m vh pc = (m', vh', pc') ->
  cursors cap vh' (r_tail m') /\ vh <= vh' /\ r_tail m <= r_tail m' /\
  pc_cursors cap vh' (r_tail m') pc'.
Proof.
  intros [Hc Hf Hb Hw] Hpc Hs.
  destruct pc as [| [| n] v | n v ph | n v ph fl | n v ph fl ob | n v ph ob | n v ph | n v ph t
                 | n v t | v t | v t | v t | v r]; simpl in Hs, Hpc; simplify_eq;
    try (destruct_and?; cbn [r_tail write_body store_sequence]; split_and!; [by split | lia | lia |]; simpl; first [done | lia | split; [done | lia]]).
  - (* PTail *)
    split_and!; [by split | lia | lia |]. unfold refresh_validated_head_tail.
    repeat case_match; bools; simpl; first [done | lia | split; [done | lia]].
  - (* PMax *)
    destruct Hpc as [Hph Ho]. split_and!; [split; lia | lia | lia |]. simpl.
    destruct ph; simpl in *; [done | lia].
  - (* PSnapHead *)
    destruct Hpc as [Hph Ht]. split_and!; [by split | lia | lia |]. unfold after_snapshot.
    destruct ph; simpl in *; repeat case_match; checked; simpl; done || lia.
  - (* PCas *)
    destruct (weak || negb (r_tail m =? t)) eqn:E; simplify_eq.
    + split_and!; [by split | lia | lia | done].
    + bools. simpl. split_and!; try lia. split; lia.
Qed.

Definition cursor_inv (cap : Z) s : Prop :=
  cursors cap (s_vhead s) (r_tail (s_mem s)) /\
  Forall (pc_cursors cap (s_vhead s) (r_tail (s_mem s))) (s_prod s).

Lemma cstep_tail cap (m : ring_mem B) h (cp : cpc B) m' h' (cp' : cpc B) out :
  cstep cap m h cp = (m', h', cp', out) ->
  r_tail m' = r_tail m /\ r_seq m' = r_seq m /\ r_body m' = r_body m.
Proof. destruct cp; simpl; intros; repeat case_match; by simplify_eq. Qed.

Lemma init_cursor_inv cap s : legal_capacity cap -> init cap s -> cursor_inv cap s.
Proof.
  intros [Hc _] ((Ht & Hh & _) & Hv & Hp & _). split.
  - rewrite Ht, Hv. split; unfold u64_max; lia.
  - revert Hp. apply Forall_impl. by intros ? <-.
Qed.

Lemma step_cursor_inv cap k s s' : cursor_inv cap s -> step cap k s s' -> cursor_inv cap s'.
Proof.
  intros [Hc Hp] Hs. destruct Hs as [s i v r v0 Hi | s i pc weak m' vh' pc' Hi He | s Hk Hi
    | s Hk Hi | s Hk Hi | s m' h' pc' out Hk He | s h pk Hk]; try by split.
  - split; [done |]. by apply Forall_insert.
  - destruct (pstep_cursors _ _ _ _ _ _ _ _ Hc (Forall_lookup_1 _ _ _ _ Hp Hi) He)
      as (Hc' & Hv & Ht & Hpc). split; [done |].
    apply Forall_insert; [| done]. simpl. revert Hp. apply Forall_impl.
    intros pc0. by apply pc_cursors_mono.
  - destruct (cstep_tail _ _ _ _ _ _ _ _ He) as [Ht _].
    unfold cursor_inv in *. simpl. by rewrite Ht.
Qed.

Lemma reachable_cursor_inv cap k s :
  legal_capacity cap -> reachable cap k s -> cursor_inv cap s.
Proof.
  intros Hc. induction 1; [by apply init_cursor_inv | by eapply step_cursor_inv].
Qed.
End Cursors.

(** ** The honest consumer: reservation order, publication, sleep *)

Section HonestInv.
Context {B : Type} `{Inhabited B}.
Implicit Types (s : sys B) (pc : ppc B) (m : ring_mem B) (log : list B).

(** The position a producer has reserved and not yet published. *)
Definition pending pc : option (Z * B) :=
  match pc with PBody v t | PSeq v t => Some (t, v) | _ => None end.

(** A position that is published with the body its reservation logged. *)
Definition published (cap : Z) m log (q : Z) : Prop :=
  r_seq m !!! cell cap q = q + 1 /\ log !! Z.to_nat q = Some (r_body m !!! cell cap q).

(** What a producer at [pc] knows when the consumer is honest. *)
Definition pc_honest (cap : Z) m (chead : Z) log pc : Prop :=
  match pc with
  | PTail _ _ _ floor observed => floor <= observed <= chead
  | PMax _ _ _ observed => observed <= chead
  | PBody v t => chead <= t /\ r_seq m !!! cell cap t <= t /\ log !! Z.to_nat t = Some v
  | PSeq v t => chead <= t /\ r_seq m !!! cell cap t <= t /\ log !! Z.to_nat t = Some v /\
                r_body m !!! cell cap t = v
  | PWake v t => log !! Z.to_nat t = Some v
  | PDone v (Ok rc) => log !! Z.to_nat (position rc) = Some v
  | PDone v (Err (PushProtocol f _)) => f = Exhausted
  | _ => True
  end.

Definition cons_honest (cap : Z) s : Prop :=
  let m := s_mem s in
  let h := s_chead s in
  match s_cons s with
  | CBody => h < r_tail m /\ h < u64_max /\ r_seq m !!! cell cap h = h + 1
  | CStore b => h < r_tail m /\ h < u64_max /\ r_seq m !!! cell cap h = h + 1 /\
                s_log s !! Z.to_nat h = Some b
  | CRecheck => r_park m = PARK_STATE_PARKED
  | CAsleep => r_park m = PARK_STATE_PARKED /\
      (r_seq m !!! cell cap h <= h \/ s_woken s = true \/
       exists i v, s_prod s !! i = Some (PWake v h))
  | CFault f => f = Exhausted
  | _ => True
  end.

Record honest_inv (cap : Z) s : Prop := {
  hi_cap : legal_capacity cap;
  hi_cur : cursor_inv cap s;
  hi_seq_len : length (r_seq (s_mem s)) = Z.to_nat cap;
  hi_body_len : length (r_body (s_mem s)) = Z.to_nat cap;
  hi_head : r_head (s_mem s) = s_chead s;
  hi_floor : s_vhead s <= s_chead s <= r_tail (s_mem s);
  hi_log : Z.of_nat (length (s_log s)) = r_tail (s_mem s);
  hi_popped : s_popped s = take (Z.to_nat (s_chead s)) (s_log s);
  hi_prod : Forall (pc_honest cap (s_mem s) (s_chead s) (s_log s)) (s_prod s);
  hi_owner : forall i j p q t v w,
      s_prod s !! i = Some p -> s_prod s !! j = Some q ->
      pending p = Some (t, v) -> pending q = Some (t, w) -> i = j;
  hi_cell : forall q, s_chead s <= q < r_tail (s_mem s) ->
      published cap (s_mem s) (s_log s) q \/
      exists i p v, s_prod s !! i = Some p /\ pending p = Some (q, v);
  hi_stale : forall q, r_tail (s_mem s) <= q < s_chead s + cap ->
      r_seq (s_mem s) !!! cell cap q <= q;
  hi_cons : cons_honest cap s;
}.

Lemma init_honest_inv cap s : legal_capacity cap -> init cap s -> honest_inv cap s.
Proof.
  intros Hc Hi. pose proof (init_cursor_inv cap s Hc Hi) as Hcur.
  destruct Hi as ((Ht & Hh & Hs & Hb) & Hv & Hp & Hch & Hcs & Hl & Hpo & Hw).
  destruct Hc as [Hc2 Hpow].
  assert (Hid : forall i p, s_prod s !! i = Some p -> PIdle = p)
    by (intros i p; by apply Forall_lookup_1).
  split; rewrite ?Hh, ?Hv, ?Ht, ?Hch, ?Hl, ?Hpo; try done; try lia.
  - by rewrite Hs, length_replicate.
  - revert Hp. apply Forall_impl. by intros ? <-.
  - intros i j p q t v w Hi _ Hpp _. by apply Hid in Hi as <-.
  - intros q Hq. rewrite Hs, lookup_total_replicate_2 by (apply cell_lt; lia). lia.
  - unfold cons_honest. by rewrite Hcs.
Qed.

(** The log only grows and the head only advances. *)
Lemma pc_honest_log cap m h log x pc :
  pc_honest cap m h log pc -> pc_honest cap m h (log ++ [x]) pc.
Proof.
  destruct pc as [| | | | | | | | | | | | ? [rc | [| | ? ?]]]; simpl; try done;
    intros; destruct_and?; split_and?; try done; by apply lookup_app_l_Some.
Qed.

Definition owner_unique (prod : list (ppc B)) : Prop :=
  forall i j p q t v w, prod !! i = Some p -> prod !! j = Some q ->
    pending p = Some (t, v) -> pending q = Some (t, w) -> i = j.

Lemma owner_unique_insert (prod : list (ppc B)) (i : nat) pc' :
  owner_unique prod ->
  (forall t v j q w, pending pc' = Some (t, v) -> j <> i -> prod !! j = Some q ->
     pending q = Some (t, w) -> False) ->
  owner_unique (<[i := pc']> prod).
Proof.
  intros Hu Hn j k p q t v w Hj Hk Hp Hq.
  apply list_lookup_insert_Some in Hj as [(<- & <- & _) | [Hji Hj]];
    apply list_lookup_insert_Some in Hk as [(<- & <- & _) | [Hki Hk]]; [done | | |].
  - exfalso. by eapply (Hn t v k q w).
  - exfalso. by eapply (Hn t w j p v).
  - by eapply Hu.
Qed.

Lemma holder_insert (prod : list (ppc B)) (i : nat) pc pc' q :
  prod !! i = Some pc ->
  (forall v, pending pc = Some (q, v) -> exists w, pending pc' = Some (q, w)) ->
  (exists j p v, prod !! j = Some p /\ pending p = Some (q, v)) ->
  exists j p v, <[i := pc']> prod !! j = Some p /\ pending p = Some (q, v).
Proof.
  intros Hi Hpc (j & p & v & Hj & Hp). destruct (decide (j = i)) as [-> | Hne].
  - simplify_eq. destruct (Hpc v Hp) as [w Hw]. exists i, pc', w.
    rewrite list_lookup_insert_eq; [done |]. by eapply lookup_lt_Some.
  - exists j, p, v. by rewrite list_lookup_insert_ne.
Qed.

(** A sleeper's witness [PWake] producer survives any move of another pc. *)
Lemma sleeper_insert (prod : list (ppc B)) (i : nat) pc pc' h :
  prod !! i = Some pc -> (forall v, pc <> PWake v h) ->
  (exists j v, prod !! j = Some (PWake v h)) ->
  exists j v, <[i := pc']> prod !! j = Some (PWake v h).
Proof.
  intros Hi Hpc (j & v & Hj). exists j, v. rewrite list_lookup_insert_ne; [done |].
  intros ->. simplify_eq. by eapply Hpc.
Qed.

(** Moves of a producer that neither touch the ring nor hold a reservation. *)
Lemma prod_quiet cap s i pc pc' vh' :
  honest_inv cap s -> s_prod s !! i = Some pc ->
  pending pc = None -> pending pc' = None -> (forall v t, pc <> PWake v t) ->
  s_vhead s <= vh' <= s_chead s ->
  pc_honest cap (s_mem s) (s_chead s) (s_log s) pc' ->
  let s' := mkSys (s_mem s) vh' (<[i := pc']> (s_prod s)) (s_chead s) (s_cons s)
              (s_log s) (s_popped s) (s_woken s) in
  cursor_inv cap s' -> honest_inv cap s'.
Proof.
  intros [Hcap Hcur Hsl Hbl Hh Hfl Hlog Hpop Hpr Hown Hcell Hst Hcons] Hi Hp Hp' Hnw Hv Hpc s' Hc'.
  split; simpl; try done; try lia.
  - by apply Forall_insert.
  - apply owner_unique_insert; [exact Hown |]. congruence.
  - intros q Hq. destruct (Hcell q Hq) as [| Hx]; [by left | right].
    eapply holder_insert; [done | | done]. congruence.
  - unfold cons_honest in *. simpl. destruct (s_cons s); try done.
    destruct Hcons as [Hpk [| [|]]]; split; auto. right; right. by eapply sleeper_insert.
Qed.

Lemma pending_lt cap vh tl pc t v :
  pc_cursors cap vh tl pc -> pending pc = Some (t, v) -> 0 <= t < tl.
Proof. destruct pc; simpl; intros; simplify_eq; done. Qed.

(** A successful reservation. *)
Lemma prod_reserve cap s i n v :
  honest_inv cap s -> s_prod s !! i = Some (PCas n v (r_tail (s_mem s))) ->
  let s' := mkSys (set_tail (r_tail (s_mem s) + 1) (s_mem s)) (s_vhead s)
              (<[i := PBody v (r_tail (s_mem s))]> (s_prod s)) (s_chead s) (s_cons s)
              (s_log s ++ [v]) (s_popped s) (s_woken s) in
  cursor_inv cap s' -> honest_inv cap s'.
Proof.
  intros [Hcap Hcur Hsl Hbl Hh Hfl Hlog Hpop Hpr Hown Hcell Hst Hcons] Hi s' Hc'.
  set (t := r_tail (s_mem s)) in *.
  assert (Ht : 0 <= t < s_vhead s + cap) by exact (proj1 (Forall_lookup_1 _ _ _ _ (proj2 Hcur) Hi)).
  assert (Hv0 : 0 <= s_vhead s) by apply (proj1 Hcur).
  assert (Hlast : (s_log s ++ [v]) !! Z.to_nat t = Some v).
  { rewrite lookup_app_r by lia. replace (Z.to_nat t - length (s_log s))%nat with 0%nat by lia.
    done. }
  split; simpl; fold t; try done; try lia.
  - rewrite length_app. simpl. lia.
  - rewrite take_app_le by lia. done.
  - apply Forall_insert.
    + revert Hpr. apply Forall_impl. intros pc Hpc. by apply pc_honest_log.
    + simpl. split_and!; [lia | apply Hst; lia | done].
  - apply owner_unique_insert; [exact Hown |].
    intros t' v' j q w [= <- <-] _ Hj Hq.
    pose proof (pending_lt _ _ _ _ _ _ (Forall_lookup_1 _ _ _ _ (proj2 Hcur) Hj) Hq). lia.
  - intros q Hq. destruct (Z.eq_dec q t) as [-> | Hne].
    + right. exists i, (PBody v t), v. rewrite list_lookup_insert_eq; [done |].
      by eapply lookup_lt_Some.
    + destruct (Hcell q ltac:(lia)) as [[Hs Hb] | Hx]; [left | right].
      * split; [done |]. by apply lookup_app_l_Some.
      * eapply holder_insert; [done | done | done].
  - intros q Hq. apply Hst. lia.
  - unfold cons_honest in *. simpl. fold t in Hcons |- *. destruct (s_cons s); try done.
    + lia.
    + destruct Hcons as (? & ? & ? & ?). split_and!; try done; [lia |]. by apply lookup_app_l_Some.
    + destruct Hcons as [Hpk [| [|]]]; split; auto. right; right. by eapply sleeper_insert.
Qed.

Lemma cell_ne cap h p q :
  0 < cap -> h <= p < h + cap -> h <= q < h + cap -> p <> q -> cell cap p <> cell cap q.
Proof. intros Hc Hp Hq Hne E. apply Hne. apply (cell_inj cap); [done | lia | done]. Qed.

Lemma holder_lt cap s q :
  honest_inv cap s ->
  (exists i p v, s_prod s !! i = Some p /\ pending p = Some (q, v)) ->
  r_seq (s_mem s) !!! cell cap q <= q.
Proof.
  intros Hinv (i & p & v & Hi & Hp).
  pose proof (Forall_lookup_1 _ _ _ _ (hi_prod _ _ Hinv) Hi) as Hk.
  destruct p; simpl in Hp; simplify_eq; simpl in Hk; tauto.
Qed.

(** What the invariant says of a reservation and of the cells around it. *)
Lemma pending_facts cap s i pc t v :
  honest_inv cap s -> s_prod s !! i = Some pc -> pending pc = Some (t, v) ->
  s_chead s <= t < r_tail (s_mem s) /\ r_tail (s_mem s) <= s_chead s + cap /\
  r_seq (s_mem s) !!! cell cap t <= t /\ (cell cap t < Z.to_nat cap)%nat /\
  (forall q, s_chead s <= q < s_chead s + cap -> q <> t -> cell cap t <> cell cap q) /\
  (forall j q u w, j <> i -> s_prod s !! j = Some q -> pending q = Some (u, w) ->
     s_chead s <= u < s_chead s + cap /\ u <> t).
Proof.
  intros Hinv Hi Hp. pose proof (holder_lt cap s t Hinv ltac:(eauto)) as Hst.
  pose proof (hi_owner _ _ Hinv) as Hown.
  destruct (hi_cur _ _ Hinv) as [[Hc2 Hf Hb Hw] Hcp]. pose proof (hi_floor _ _ Hinv) as Hfl.
  assert (Hrange : forall j q u w, s_prod s !! j = Some q -> pending q = Some (u, w) ->
    s_chead s <= u < r_tail (s_mem s)).
  { intros j q u w Hj Hq.
    pose proof (pending_lt _ _ _ _ _ _ (Forall_lookup_1 _ _ _ _ Hcp Hj) Hq).
    pose proof (Forall_lookup_1 _ _ _ _ (hi_prod _ _ Hinv) Hj) as Hk.
    destruct q; simpl in Hq; simplify_eq; simpl in Hk; lia. }
  pose proof (Hrange i pc t v Hi Hp). split_and!; try done; try lia.
  - apply cell_lt. lia.
  - intros q Hq Hne. by apply (cell_ne cap (s_chead s)); [lia | lia | lia |].
  - intros j q u w Hne Hj Hq. pose proof (Hrange j q u w Hj Hq). split; [lia |].
    intros ->. apply Hne. by eapply Hown.
Qed.

(** Other producers' knowledge only depends on the cells they hold. *)
Lemma pc_honest_frame cap m m' h log pc :
  (forall u w, pending pc = Some (u, w) ->
     r_seq m' !!! cell cap u = r_seq m !!! cell cap u /\
     r_body m' !!! cell cap u = r_body m !!! cell cap u) ->
  pc_honest cap m h log pc -> pc_honest cap m' h log pc.
Proof.
  intros Hc. destruct pc; simpl in *; try done;
    destruct (Hc _ _ eq_refl) as [E1 E2]; by rewrite ?E1, ?E2.
Qed.

Lemma prod_frame cap s i pc pc' t v m' :
  honest_inv cap s -> s_prod s !! i = Some pc -> pending pc = Some (t, v) ->
  (forall q, cell cap t <> cell cap q ->
     r_seq m' !!! cell cap q = r_seq (s_mem s) !!! cell cap q /\
     r_body m' !!! cell cap q = r_body (s_mem s) !!! cell cap q) ->
  pc_honest cap m' (s_chead s) (s_log s) pc' ->
  Forall (pc_honest cap m' (s_chead s) (s_log s)) (<[i := pc']> (s_prod s)).
Proof.
  intros Hinv Hi Hp Hm Hpc. destruct (pending_facts _ _ _ _ _ _ Hinv Hi Hp)
    as (_ & _ & _ & _ & Hne & Hoth).
  apply Forall_lookup. intros j q Hj.
  apply list_lookup_insert_Some in Hj as [(<- & <- & _) | [Hji Hj]]; [done |].
  apply (pc_honest_frame cap (s_mem s)); [| by eapply Forall_lookup_1; [apply Hinv |]].
  intros u w Hq. destruct (Hoth j q u w) as [Hu Hut]; [done.. |].
  apply Hm. by apply Hne.
Qed.

Lemma prod_body cap s i v t :
  honest_inv cap s -> s_prod s !! i = Some (PBody v t) ->
  let s' := mkSys (write_body (Z.land t (cap - 1)) v (s_mem s)) (s_vhead s)
              (<[i := PSeq v t]> (s_prod s)) (s_chead s) (s_cons s)
              (s_log s) (s_popped s) (s_woken s) in
  cursor_inv cap s' -> honest_inv cap s'.
Proof.
  intros Hinv Hi s' Hc'.
  destruct (pending_facts _ _ _ _ _ _ Hinv Hi eq_refl) as (Ht & Hw & Hle & Hlt & Hne & Hoth).
  pose proof (Forall_lookup_1 _ _ _ _ (hi_prod _ _ Hinv) Hi) as (_ & _ & Hlog).
  pose proof Hinv as [Hcap Hcur Hsl Hbl Hh Hfl Hln Hpop Hpr Hown Hcell Hst Hcons].
  assert (Hm : forall q, cell cap t <> cell cap q ->
    r_seq (s_mem s') !!! cell cap q = r_seq (s_mem s) !!! cell cap q /\
    r_body (s_mem s') !!! cell cap q = r_body (s_mem s) !!! cell cap q).
  { intros q Hq. simpl. rewrite (cell_land cap t Hcap), list_lookup_total_insert_ne; done. }
  split; simpl; rewrite ?length_insert; try done.
  - eapply (prod_frame _ s); [done | done | done | exact Hm |].
    simpl. split_and!; try done; [lia |].
    by rewrite (cell_land cap t Hcap), list_lookup_total_insert_eq by lia.
  - apply owner_unique_insert; [exact Hown |]. intros t' v' j q w [= <- <-] Hj Hjq Hq.
    by destruct (Hoth j q t w).
  - intros q Hq. destruct (Hcell q Hq) as [[Hs Hb] | Hx]; [left | right].
    + assert (q <> t) by (intros ->; lia).
      destruct (Hm q ltac:(apply Hne; [lia | done])) as [E1 E2].
      split; simpl in *; [done | by rewrite E2].
    + eapply holder_insert; [done | | done]. simpl. eauto.
  - unfold cons_honest in *. simpl. destruct (s_cons s); try done.
    destruct Hcons as [Hpk [| [|]]]; split; auto. right; right. by eapply sleeper_insert.
Qed.

Lemma prod_publish cap s i v t :
  honest_inv cap s -> s_prod s !! i = Some (PSeq v t) ->
  let s' := mkSys (store_sequence (Z.land t (cap - 1)) (t + 1) (s_mem s)) (s_vhead s)
              (<[i := PWake v t]> (s_prod s)) (s_chead s) (s_cons s)
              (s_log s) (s_popped s) (s_woken s) in
  cursor_inv cap s' -> honest_inv cap s'.
Proof.
  intros Hinv Hi s' Hc'.
  destruct (pending_facts _ _ _ _ _ _ Hinv Hi eq_refl) as (Ht & Hw & Hle & Hlt & Hne & Hoth).
  pose proof (Forall_lookup_1 _ _ _ _ (hi_prod _ _ Hinv) Hi) as (_ & _ & Hlog & Hbody).
  pose proof Hinv as [Hcap Hcur Hsl Hbl Hh Hfl Hln Hpop Hpr Hown Hcell Hst Hcons].
  assert (Hm : forall q, cell cap t <> cell cap q ->
    r_seq (s_mem s') !!! cell cap q = r_seq (s_mem s) !!! cell cap q /\
    r_body (s_mem s') !!! cell cap q = r_body (s_mem s) !!! cell cap q).
  { intros q Hq. simpl. rewrite (cell_land cap t Hcap), list_lookup_total_insert_ne; done. }
  assert (Hq : forall q, s_chead s <= q < s_chead s + cap -> q <> t ->
    r_seq (s_mem s') !!! cell cap q = r_seq (s_mem s) !!! cell cap q).
  { intros q Hq Hqt. by apply Hm, Hne. }
  split; simpl; rewrite ?length_insert; try done.
  - by eapply (prod_frame _ s); [done | done | done | exact Hm |].
  - by apply owner_unique_insert.
  - intros q Hr. destruct (Z.eq_dec q t) as [-> | Hqt].
    + left. split; simpl; [| by rewrite Hbody].
      by rewrite (cell_land cap t Hcap), list_lookup_total_insert_eq by lia.
    + destruct (Hcell q Hr) as [[Hs Hb] | Hx]; [left | right].
      * destruct (Hm q ltac:(apply Hne; [lia | done])) as [E1 E2].
        split; simpl in *; [by rewrite E1 | done].
      * eapply holder_insert; [done | | done]. intros w [= <- <-]. done.
  - intros q Hr. rewrite Hq by lia. by apply Hst.
  - unfold cons_honest in *. simpl. destruct (s_cons s); try done.
    + rewrite Hq; [done | lia | intros <-; lia].
    + rewrite Hq; [done | lia | intros <-; lia].
    + destruct Hcons as [Hpk Hor]. split; [done |].
      destruct (Z.eq_dec (s_chead s) t) as [-> | Hct].
      * right; right. exists i, v. rewrite list_lookup_insert_eq; [done |].
        by eapply lookup_lt_Some.
      * rewrite Hq by lia. destruct Hor as [| [|]]; auto. right; right.
        by eapply sleeper_insert.
Qed.

Lemma prod_wake cap s i v t :
  honest_inv cap s -> s_prod s !! i = Some (PWake v t) ->
  let s' := mkSys (s_mem s) (s_vhead s)
              (<[i := PDone v (Ok (mkReceipt t (should_wake (s_mem s))))]> (s_prod s))
              (s_chead s) (s_cons s) (s_log s) (s_popped s)
              (s_woken s || should_wake (s_mem s)) in
  cursor_inv cap s' -> honest_inv cap s'.
Proof.
  intros [Hcap Hcur Hsl Hbl Hh Hfl Hlog Hpop Hpr Hown Hcell Hst Hcons] Hi s' Hc'.
  split; simpl; try done.
  - apply Forall_insert; [done |]. exact (Forall_lookup_1 _ _ _ _ Hpr Hi).
  - by apply owner_unique_insert.
  - intros q Hq. destruct (Hcell q Hq) as [| Hx]; [by left | right].
    by eapply holder_insert.
  - unfold cons_honest, should_wake in *. simpl. destruct (s_cons s); try done.
    destruct Hcons as [Hpk _]. split; [done |]. right; left. rewrite Hpk.
    by rewrite orb_true_r.
Qed.

(** Consumer steps that leave the cursors and the cells alone. *)
Lemma cons_quiet cap s m' cp woken :
  honest_inv cap s ->
  r_tail m' = r_tail (s_mem s) -> r_head m' = r_head (s_mem s) ->
  r_seq m' = r_seq (s_mem s) -> r_body m' = r_body (s_mem s) ->
  let s' := mkSys m' (s_vhead s) (s_prod s) (s_chead s) cp (s_log s) (s_popped s) woken in
  cons_honest cap s' -> honest_inv cap s'.
Proof.
  intros [Hcap Hcur Hsl Hbl Hh Hfl Hlog Hpop Hpr Hown Hcell Hst Hcons] Et Eh Es Eb s' Hc.
  split; simpl; rewrite ?Et, ?Eh, ?Es, ?Eb; try done.
  - unfold cursor_inv in *. simpl. by rewrite Et.
  - revert Hpr. apply Forall_impl. intros pc. apply pc_honest_frame. by rewrite Es, Eb.
  - intros q Hq. unfold published. rewrite Es, Eb. by apply Hcell.
Qed.

(** The head cell is either published or stale: never ahead. *)
Lemma head_cell cap s :
  honest_inv cap s ->
  r_seq (s_mem s) !!! cell cap (s_chead s) <= s_chead s \/
  (s_chead s < r_tail (s_mem s) /\ published cap (s_mem s) (s_log s) (s_chead s)).
Proof.
  intros Hinv. pose proof (hi_floor _ _ Hinv). pose proof (proj1 (hi_cap _ _ Hinv)).
  destruct (Z.eq_dec (s_chead s) (r_tail (s_mem s))) as [He | He].
  - left. apply (hi_stale _ _ Hinv). lia.
  - destruct (hi_cell _ _ Hinv (s_chead s) ltac:(lia)) as [Hp | Hx].
    + right. split; [lia | done].
    + left. by apply holder_lt.
Qed.

Lemma cons_store cap s b :
  honest_inv cap s -> s_cons s = CStore b ->
  honest_inv cap (mkSys (set_head (s_chead s + 1) (s_mem s)) (s_vhead s) (s_prod s)
                    (s_chead s + 1) CIdle (s_log s) (s_popped s ++ [b]) (s_woken s)).
Proof.
  intros Hinv Hc.
  pose proof Hinv as [Hcap Hcur Hsl Hbl Hh Hfl Hln Hpop Hpr Hown Hcell Hst Hcons].
  unfold cons_honest in Hcons. rewrite Hc in Hcons. destruct Hcons as (Hlt & _ & Hseq & Hlog).
  destruct Hcur as [Hcu Hcp] eqn:E. pose proof (cu_floor _ _ _ Hcu).
  pose proof (cu_cap _ _ _ Hcu).
  assert (Hpend : forall i p t v, s_prod s !! i = Some p -> pending p = Some (t, v) ->
    s_chead s + 1 <= t).
  { intros i p t v Hi Hp. destruct (pending_facts _ _ _ _ _ _ Hinv Hi Hp) as (? & _ & Hle & _).
    destruct (Z.eq_dec t (s_chead s)) as [-> |]; lia. }
  split; simpl; try done; try lia.
  - rewrite Hpop. replace (Z.to_nat (s_chead s + 1)) with (S (Z.to_nat (s_chead s))) by lia.
    symmetry. by apply take_S_r.
  - apply Forall_lookup. intros i p Hi. pose proof (Forall_lookup_1 _ _ _ _ Hpr Hi) as Hk.
    pose proof (Hpend i p) as Hp.
    destruct p; simpl in *; try done; try lia;
      specialize (Hp _ _ Hi eq_refl); destruct_and?; split_and!; done.
  - intros q Hq. apply Hcell. lia.
  - intros q Hq. destruct (Z.eq_dec q (s_chead s + cap)) as [-> | Hne].
    + rewrite cell_wrap by lia. lia.
    + apply Hst. lia.
Qed.

Lemma cons_step_inv cap s m' h' (cp' : cpc B) out :
  honest_inv cap s -> cstep cap (s_mem s) (s_chead s) (s_cons s) = (m', h', cp', out) ->
  honest_inv cap (mkSys m' (s_vhead s) (s_prod s) h' cp' (s_log s)
    (match out with Some b => s_popped s ++ [b] | None => s_popped s end)
    (match s_cons s with CDeclare => false | _ => s_woken s end)).
Proof.
  intros Hinv He. pose proof (hi_cons _ _ Hinv) as Hc. pose proof (head_cell _ _ Hinv) as Hhc.
  pose proof (hi_cap _ _ Hinv) as Hcap. unfold cons_honest in Hc.
  destruct (s_cons s) as [| | | b | | | | | f] eqn:Ecp; simpl in He;
    rewrite ?(cell_land cap _ Hcap) in He; unfold load_sequence, read_body in He;
    rewrite ?(cell_land cap _ Hcap) in He.
  4: { simplify_eq. by apply cons_store. }
  all: repeat case_match; checked; simplify_eq; (apply cons_quiet; try done);
    unfold cons_honest; simpl; auto; try done; try lia.
  - destruct Hhc as [? | [? [? ?]]]; lia.
  - destruct Hc as (? & ? & ?). destruct Hhc as [? | [? [? Hl]]]; [lia |].
    split_and!; done.
Qed.

(** Producer steps, case by case over the program points. *)
Lemma prod_step_inv cap s i pc weak m' vh' pc' :
  honest_inv cap s -> s_prod s !! i = Some pc ->
  pstep cap weak (s_mem s) (s_vhead s) pc = (m', vh', pc') ->
  cursor_inv cap (prod_update s i pc m' vh' pc') ->
  honest_inv cap (prod_update s i pc m' vh' pc').
Proof.
  intros Hinv Hi He Hc'. pose proof (hi_floor _ _ Hinv) as Hfl.
  pose proof (Forall_lookup_1 _ _ _ _ (hi_prod _ _ Hinv) Hi) as Hk.
  pose proof (Forall_lookup_1 _ _ _ _ (proj2 (hi_cur _ _ Hinv)) Hi) as Hku.
  unfold prod_update in *.
  destruct pc as [| [| n] v | n v ph | n v ph fl | n v ph fl ob | n v ph ob | n v ph | n v ph t
                 | n v t | v t | v t | v t | v r]; simpl in He; simplify_eq; simpl in *;
    try (eapply prod_quiet; try done; try lia; simpl; try done; try lia; fail).
  - eapply prod_quiet; try done; try lia. simpl. rewrite (hi_head _ _ Hinv). lia.
  - unfold refresh_validated_head_tail in *. rewrite (proj2 (Z.ltb_ge _ _)) in * by lia.
    rewrite (proj2 (Z.ltb_ge _ _)) in * by lia.
    case_match; (eapply prod_quiet; try done; try lia; simpl; done || lia).
  - pose proof (cu_bound _ _ _ (proj1 (hi_cur _ _ Hinv))). destruct Hku as [_ Hku].
    eapply prod_quiet; try done; try lia; unfold after_snapshot in *;
      repeat case_match; checked; simpl; done || lia.
  - destruct (weak || negb (r_tail (s_mem s) =? t)) eqn:E; simplify_eq; simpl in *.
    + eapply prod_quiet; done || lia.
    + bools. subst t. by apply (prod_reserve cap s i n v).
  - by apply prod_body.
  - by apply prod_publish.
  - by apply prod_wake.
Qed.

Lemma step_honest_inv cap s s' :
  honest_inv cap s -> step cap Honest s s' -> honest_inv cap s'.
Proof.
  intros Hinv Hs. pose proof (step_cursor_inv _ _ _ _ (hi_cur _ _ Hinv) Hs) as Hc'.
  pose proof (hi_floor _ _ Hinv).
  destruct Hs as [s i v r v0 Hi | s i pc weak m' vh' pc' Hi He | s Hk Hi
    | s Hk Hi | s Hk Hi | s m' h' pc' out Hk He | s h pk Hk].
  - destruct Hi as [Hi | Hi]; (eapply prod_quiet; try done; lia).
  - by eapply prod_step_inv.
  - by apply cons_quiet.
  - by apply cons_quiet.
  - by apply cons_quiet.
  - by apply cons_step_inv.
  - done.
Qed.

Lemma reachable_honest_inv cap s :
  legal_capacity cap -> reachable cap Honest s -> honest_inv cap s.
Proof. intros Hc. induction 1; [by apply init_honest_inv | by eapply step_honest_inv]. Qed.
End HonestInv.

(** ** Every call ends *)

Section WaitFree.
Context {B : Type} `{Inhabited B}.

(** Accesses left before the call returns, at most. *)
Definition phase_cost (ph : refresh) : nat :=
  match ph with FirstRefresh => 6 | SecondRefresh _ _ => 0 end.

Definition remaining (pc : ppc B) : nat :=
  match pc with
  | PIdle | PDone _ _ => 0
  | PWake _ _ => 1
  | PSeq _ _ => 2
  | PBody _ _ => 3
  | PLoop n _ => 20 * n + 4
  | PCas n _ _ => 20 * n + 5
  | PSnapHead n _ ph _ => 20 * n + 6 + phase_cost ph
  | PSnapTail n _ ph => 20 * n + 7 + phase_cost ph
  | PMax n _ ph _ => 20 * n + 8 + phase_cost ph
  | PTail n _ ph _ _ => 20 * n + 9 + phase_cost ph
  | PHead n _ ph _ => 20 * n + 10 + phase_cost ph
  | PFloor n _ ph => 20 * n + 11 + phase_cost ph
  end.

Definition returned (pc : ppc B) : bool :=
  match pc with PDone _ _ => true | _ => false end.

Lemma pstep_remaining cap weak (m : ring_mem B) vh pc m' vh' pc' :
  pc <> PIdle -> pstep cap weak m vh pc = (m', vh', pc') ->
  pc' <> PIdle /\ (returned pc = false -> (remaining pc' < remaining pc)%nat) /\
  (remaining pc' <= remaining pc)%nat.
Proof.
  intros Hne Hs.
  destruct pc as [| [| n] v | n v ph | n v ph fl | n v ph fl ob | n v ph ob | n v ph | n v ph t
                 | n v t | v t | v t | v t | v r]; simpl in Hs; simplify_eq; try done;
    unfold refresh_validated_head_tail, after_snapshot in *;
    repeat case_match; simplify_eq; simpl; (split; [done |]); lia.
Qed.

(** The producer's own steps, each against whatever memory and validated head
    the other parties have left: [env] lists what it finds. *)
Fixpoint solo_run (cap : Z) (env : list (ring_mem B * Z * bool)) (pc : ppc B) : ppc B :=
  match env with
  | [] => pc
  | (m, vh, weak) :: rest => let '(_, _, pc') := pstep cap weak m vh pc in solo_run cap rest pc'
  end.

Lemma solo_run_returns cap env : forall pc,
  pc <> PIdle -> (remaining pc <= length env)%nat -> returned (solo_run cap env pc) = true.
Proof.
  induction env as [| [[m vh] weak] env IH]; intros pc Hne Hl; simpl in *.
  - destruct pc; simpl in *; try done; lia.
  - destruct (pstep cap weak m vh pc) as [[m' vh'] pc'] eqn:E.
    destruct (pstep_remaining _ _ _ _ _ _ _ _ Hne E) as (Hne' & Hlt & Hle).
    apply IH; [done |]. destruct (returned pc) eqn:Er; [| specialize (Hlt eq_refl); lia].
    destruct pc; simpl in *; try done; lia.
Qed.
End WaitFree.

(** C8: termination: a call of [try_push] returns within 1284 of its
    own accesses, whatever the other producers and the consumer, honest or
    hostile, do to the ring and to the validated head between any two of them,
    and however often the weak compare-exchange fails spuriously. *)
Theorem mpsc_try_push_wait_free (B : Type) cap (v : B)
    (env : list (ring_mem B * Z * bool)) :
  (1284 <= length env)%nat -> returned (solo_run cap env (try_push_start v)) = true.
Proof.
  intros Hl. apply solo_run_returns; [done |]. unfold try_push_start, MAX_RESERVE_RETRIES.
  simpl. lia.
Qed.

Lemma mpsc_try_push_wait_free_witness :
  returned (solo_run 2 (replicate 1284 (mkRing 2 0 0 [1; 2] [5; 6]%nat, 0, true))
              (try_push_start 7%nat)) = true.
Proof. apply (mpsc_try_push_wait_free nat 2 7%nat). rewrite length_replicate. lia. Defined.

(** C7: invariant: against any consumer, honest or hostile, and any
    interleaving of any number of producers, the validated head never passes the
    tail, the tail is never more than [capacity] past it, no call reports
    [OverCapacity], every refused call returns its own value, and [Full] is only
    ever reported by a step that sees the ring exactly full. *)
Theorem mpsc_cursors_safe (B : Type) (inh : Inhabited B) cap k (s : sys B) :
  legal_capacity cap -> reachable cap k s ->
  0 <= s_vhead s <= r_tail (s_mem s) /\ r_tail (s_mem s) <= s_vhead s + cap /\
  r_tail (s_mem s) <= u64_max /\
  (forall i v e, s_prod s !! i = Some (PDone v (Err e)) ->
     match e with
     | Full v' | Contended v' => v' = v
     | PushProtocol f v' => v' = v /\ f <> OverCapacity
     end) /\
  (forall i pc weak m' vh' v v',
     s_prod s !! i = Some pc -> returned pc = false ->
     pstep cap weak (s_mem s) (s_vhead s) pc = (m', vh', PDone v (Err (Full v'))) ->
     r_tail (s_mem s) = s_vhead s + cap).
Proof.
  intros Hc Hr. destruct (reachable_cursor_inv cap k s Hc Hr) as [[Hc2 Hf Hb Hw] Hp].
  split_and!; try done.
  - lia.
  - lia.
  - intros i v e Hi. pose proof (Forall_lookup_1 _ _ _ _ Hp Hi) as Hk.
    destruct e as [| | [] ?]; simpl in Hk; done.
  - intros i pc weak m' vh' v v' Hi Hn He.
    pose proof (Forall_lookup_1 _ _ _ _ Hp Hi) as Hk.
    destruct pc as [| [] | | | | | | ? ? [] | | | | |]; simpl in *;
      unfold refresh_validated_head_tail, after_snapshot in *;
      repeat case_match; checked; simplify_eq/=; lia.
Qed.

(** ** Executable schedules *)

Section Schedules.
Context {B : Type} `{Inhabited B}.

Inductive action : Type :=
| ACall (i : nat) (v : B)
| AProd (i : nat) (weak : bool)
| APop
| APark
| AWake
| ACons
| AHostile (head park : Z).

Definition is_idle (pc : ppc B) : bool :=
  match pc with PIdle | PDone _ _ => true | _ => false end.

(** One scheduled step, when it is enabled. *)
Definition exec (cap : Z) (k : consumer_kind) (s : sys B) (a : action) : option (sys B) :=
  match a, k, s_cons s with
  | ACall i v, _, _ =>
      match s_prod s !! i with
      | Some pc =>
          if is_idle pc then
            Some (mkSys (s_mem s) (s_vhead s) (<[i := try_push_start v]> (s_prod s))
                    (s_chead s) (s_cons s) (s_log s) (s_popped s) (s_woken s))
          else None
      | None => None
      end
  | AProd i weak, _, _ =>
      match s_prod s !! i with
      | Some pc =>
          let '(m', vh', pc') := pstep cap weak (s_mem s) (s_vhead s) pc in
          Some (prod_update s i pc m' vh' pc')
      | None => None
      end
  | APop, Honest, CIdle =>
      Some (mkSys (s_mem s) (s_vhead s) (s_prod s) (s_chead s) CSeq (s_log s) (s_popped s)
              (s_woken s))
  | APark, Honest, CIdle =>
      Some (mkSys (s_mem s) (s_vhead s) (s_prod s) (s_chead s) CDeclare (s_log s) (s_popped s)
              (s_woken s))
  | AWake, Honest, CAsleep =>
      Some (mkSys (s_mem s) (s_vhead s) (s_prod s) (s_chead s) CUnpark (s_log s) (s_popped s)
              (s_woken s))
  | ACons, Honest, _ =>
      let '(m', h', pc', out) := cstep cap (s_mem s) (s_chead s) (s_cons s) in
      Some (mkSys m' (s_vhead s) (s_prod s) h' pc' (s_log s)
              (match out with Some b => s_popped s ++ [b] | None => s_popped s end)
              (match s_cons s with CDeclare => false | _ => s_woken s end))
  | AHostile h park, Hostile, _ =>
      if (0 <=? h) && (h <=? u64_max) && (0 <=? park) && (park <=? u32_max) then
        Some (mkSys (set_park park (set_head h (s_mem s))) (s_vhead s) (s_prod s)
                (s_chead s) (s_cons s) (s_log s) (s_popped s) (s_woken s))
      else None
  | _, _, _ => None
  end.

Fixpoint exec_all (cap : Z) (k : consumer_kind) (s : sys B) (l : list action) : option (sys B) :=
  match l with
  | [] => Some s
  | a :: rest => match exec cap k s a with Some s' => exec_all cap k s' rest | None => None end
  end.

Lemma exec_step cap k s a s' : exec cap k s a = Some s' -> step cap k s s'.
Proof.
  unfold exec. intros He. destruct a as [i v | i weak | | | | | h park].
  - destruct (s_prod s !! i) as [pc |] eqn:Ei; [| done].
    destruct pc as [| | | | | | | | | | | | v0 r]; simplify_eq/=.
    + eapply (step_call _ _ _ i v (Err (Full v)) v). by left.
    + eapply (step_call _ _ _ i v r v0). by right.
  - destruct (s_prod s !! i) as [pc |] eqn:Ei; [| done].
    destruct (pstep cap weak (s_mem s) (s_vhead s) pc) as [[m' vh'] pc'] eqn:Ep.
    simplify_eq. by eapply step_prod.
  - destruct k, (s_cons s) eqn:Ec; simplify_eq. by apply step_pop_start.
  - destruct k, (s_cons s) eqn:Ec; simplify_eq. by apply step_park_start.
  - destruct k, (s_cons s) eqn:Ec; simplify_eq. by apply step_wake.
  - destruct k; [| done].
    destruct (cstep cap (s_mem s) (s_chead s) (s_cons s)) as [[[m' h'] pc'] out] eqn:Ep.
    simplify_eq. by eapply step_cons.
  - destruct k; [done |]. case_match; [| done]. bools. simplify_eq.
    apply step_hostile; unfold is_u64, is_u32; done || lia.
Qed.

Lemma exec_all_reachable cap k l : forall s s',
  reachable cap k s -> exec_all cap k s l = Some s' -> reachable cap k s'.
Proof.
  induction l as [| a l IH]; intros s s' Hr He; simpl in He; [by simplify_eq |].
  destruct (exec cap k s a) as [s1 |] eqn:E; [| done].
  eapply IH; [| done]. eapply reach_step; [done |]. by eapply exec_step.
Qed.
End Schedules.
Arguments action : clear implicits.

(** A fresh ring of capacity two shared by two producers, for the examples. *)
Definition two_producers : sys nat :=
  mkSys (mkRing 0 0 0 [0; 0] [0; 0]%nat) 0 [PIdle; PIdle] 0 CIdle [] [] false.

Lemma two_producers_init : init 2 two_producers.
Proof. repeat split; repeat constructor. Qed.

Definition push_schedule (i : nat) (v : nat) : list (action nat) :=
  ACall i v :: replicate 10 (AProd i false).

Lemma mpsc_cursors_safe_witness :
  exists s, exec_all 2 Hostile two_producers
      (push_schedule 0 5 ++ push_schedule 1 6 ++ [AHostile 9 0; ACall 0%nat 7%nat] ++
       replicate 4 (AProd 0%nat false)) = Some s /\
    s_prod s !! 0%nat = Some (PDone 7%nat (Err (PushProtocol AheadOfProducer 7%nat))) /\
    0 <= s_vhead s <= r_tail (s_mem s).
Proof.
  eexists. split; [vm_compute; reflexivity |]. split; [reflexivity |].
  refine (proj1 (mpsc_cursors_safe nat _ 2 Hostile _ _ _)).
  - split; [lia | reflexivity].
  - eapply exec_all_reachable; [apply reach_init, two_producers_init |].
    instantiate (1 := push_schedule 0 5 ++ push_schedule 1 6 ++ [AHostile 9 0; ACall 0%nat 7%nat] ++
       replicate 4 (AProd 0%nat false)). vm_compute. reflexivity.
Defined.

(** C3: linearization: with the ring's own consumer, in every
    interleaving of any number of producers, the consumer has received exactly
    the reserved values in reservation order up to its head, each exactly once;
    a returned receipt's position is where its value sits in that order; and
    neither side ever reports a protocol fault but cursor exhaustion. Two
    producers that hold unpublished reservations write different entries. *)
Theorem mpsc_fifo_linearizable (B : Type) (inh : Inhabited B) cap (s : sys B) :
  legal_capacity cap -> reachable cap Honest s ->
  s_popped s = take (Z.to_nat (r_head (s_mem s))) (s_log s) /\
  Z.of_nat (length (s_log s)) = r_tail (s_mem s) /\
  r_head (s_mem s) <= r_tail (s_mem s) <= r_head (s_mem s) + cap /\
  (forall i v rc, s_prod s !! i = Some (PDone v (Ok rc)) ->
     s_log s !! Z.to_nat (position rc) = Some v) /\
  (forall i v f v', s_prod s !! i = Some (PDone v (Err (PushProtocol f v'))) -> f = Exhausted) /\
  (forall f, s_cons s = CFault f -> f = Exhausted) /\
  (forall i j p q t u v w, i <> j -> s_prod s !! i = Some p -> s_prod s !! j = Some q ->
     pending p = Some (t, v) -> pending q = Some (u, w) ->
     Z.land t (cap - 1) <> Z.land u (cap - 1)).
Proof.
  intros Hc Hr. pose proof (reachable_honest_inv cap s Hc Hr) as Hi.
  pose proof (hi_floor _ _ Hi). pose proof (cu_bound _ _ _ (proj1 (hi_cur _ _ Hi))).
  rewrite (hi_head _ _ Hi). split_and!.
  - apply Hi.
  - apply Hi.
  - lia.
  - lia.
  - intros i v rc Hd. exact (Forall_lookup_1 _ _ _ _ (hi_prod _ _ Hi) Hd).
  - intros i v f v' Hd. exact (Forall_lookup_1 _ _ _ _ (hi_prod _ _ Hi) Hd).
  - intros f Hf. pose proof (hi_cons _ _ Hi) as Hk. unfold cons_honest in Hk.
    by rewrite Hf in Hk.
  - intros i j p q t u v w Hne Hp Hq Ht Hu E.
    destruct (pending_facts _ _ _ _ _ _ Hi Hp Ht) as (_ & _ & _ & _ & Hcell & Hoth).
    destruct (Hoth j q u w) as [Hu1 Hu2]; [congruence | done | done |].
    apply (Hcell u Hu1 Hu2). by rewrite <- !(cell_land cap _ Hc), E.
Qed.

Definition fifo_schedule : list (action nat) :=
  [ACall 0%nat 5%nat] ++ replicate 7 (AProd 0%nat false) ++ push_schedule 1 6 ++
  replicate 3 (AProd 0%nat false) ++ [APop; ACons; ACons; ACons].

Lemma mpsc_fifo_linearizable_witness :
  exists s, exec_all 2 Honest two_producers fifo_schedule = Some s /\
    s_log s = [5; 6]%nat /\ s_popped s = [5]%nat /\
    s_popped s = take (Z.to_nat (r_head (s_mem s))) (s_log s).
Proof.
  eexists. split; [vm_compute; reflexivity |]. split; [reflexivity |]. split; [reflexivity |].
  refine (proj1 (mpsc_fifo_linearizable nat _ 2 _ _ _)).
  - split; [lia | reflexivity].
  - eapply exec_all_reachable; [apply reach_init, two_producers_init |].
    instantiate (1 := fifo_schedule). vm_compute. reflexivity.
Defined.

(** C6: liveness: no wakeup is lost. If the consumer sleeps after
    [declare_park] while the entry at its head is published, then a receipt with
    [should_wake] has already been returned since it declared itself parked, or
    the publishing producer has yet to sample the park state and its next step
    returns such a receipt. *)
Theorem mpsc_no_lost_wakeup (B : Type) (inh : Inhabited B) cap (s : sys B) :
  legal_capacity cap -> reachable cap Honest s -> s_cons s = CAsleep ->
  load_sequence (s_mem s) (Z.land (r_head (s_mem s)) (cap - 1)) = r_head (s_mem s) + 1 ->
  s_woken s = true \/
  exists i v, s_prod s !! i = Some (PWake v (r_head (s_mem s))) /\
    forall weak, pstep cap weak (s_mem s) (s_vhead s) (PWake v (r_head (s_mem s)))
      = (s_mem s, s_vhead s, PDone v (Ok (mkReceipt (r_head (s_mem s)) true))).
Proof.
  intros Hc Hr Ha Hs. pose proof (reachable_honest_inv cap s Hc Hr) as Hi.
  pose proof (hi_cons _ _ Hi) as Hk. unfold cons_honest in Hk. rewrite Ha in Hk.
  unfold load_sequence in Hs. rewrite (cell_land cap _ Hc), (hi_head _ _ Hi) in Hs.
  rewrite (hi_head _ _ Hi).
  destruct Hk as [Hp [Hle | [Hw | (i & v & Hx)]]]; [lia | by left | right].
  exists i, v. split; [done |]. intros weak. simpl. unfold should_wake. by rewrite Hp.
Qed.

Definition sleep_schedule : list (action nat) :=
  [ACall 0%nat 5%nat] ++ replicate 8 (AProd 0%nat false) ++ [APark; ACons; ACons] ++
  [AProd 0%nat false].

Lemma mpsc_no_lost_wakeup_witness :
  exists s, exec_all 2 Honest two_producers sleep_schedule = Some s /\
    (s_woken s = true \/
     exists i v, s_prod s !! i = Some (PWake v (r_head (s_mem s))) /\
       forall weak, pstep 2 weak (s_mem s) (s_vhead s) (PWake v (r_head (s_mem s)))
         = (s_mem s, s_vhead s, PDone v (Ok (mkReceipt (r_head (s_mem s)) true)))).
Proof.
  eexists. split; [vm_compute; reflexivity |].
  apply (mpsc_no_lost_wakeup nat _ 2).
  - split; [lia | reflexivity].
  - eapply exec_all_reachable; [apply reach_init, two_producers_init |].
    instantiate (1 := sleep_schedule). vm_compute. reflexivity.
  - reflexivity.
  - vm_compute. reflexivity.
Defined.

Definition overlap_schedule : list (action nat) :=
  [ACall 0%nat 5%nat] ++ replicate 7 (AProd 0%nat false) ++ push_schedule 1 6 ++
  [AHostile 2 0; ACall 1%nat 7%nat] ++ replicate 8 (AProd 1%nat false).

(** C38: safety (a refutation of the comment on the reservation): a
    reservation does not give exclusive access to its entry against a hostile
    consumer. One that advances [head] over a reserved but unpublished entry
    passes the head checks, and a second producer then reserves the same entry
    while the first is still about to write its body. *)
Theorem mpsc_reservation_not_exclusive :
  exists s : sys nat, reachable 2 Hostile s /\
    s_prod s !! 0%nat = Some (PBody 5%nat 0) /\ s_prod s !! 1%nat = Some (PBody 7%nat 2) /\
    Z.land 0 (2 - 1) = Z.land 2 (2 - 1).
Proof.
  eexists. split_and!.
  - eapply (exec_all_reachable 2 Hostile overlap_schedule);
      [apply reach_init, two_producers_init | vm_compute; reflexivity].
  - reflexivity.
  - reflexivity.
  - reflexivity.
Qed.
