(* ===== verification/Messages.v ===== *)
(** * Message scalars

    The part of fsring-abi/src/validate/messages.rs the request table relies
    on: the validators' error type and the successor of a request generation. *)

From S2P Require Import Prelude Ids Slots Control.

Inductive MessageValidationError : Type :=
| IllegalWireForm
| IllegalVersion
| MsgControl (e : ControlError)
| FlagsOrReserved
| Identity
| InvalidScalar
| SizeState
| Relationship
| LocalOnlyWireForm
| Completion
| MsgGrant (e : BufferRefError)
| MsgRange (e : RangeError).

Definition next_req_generation_v21 (current : Z) : result MessageValidationError Z :=
  if REQ_GENERATION_MAX <=? current then Err InvalidScalar else Ok (current + 1).

Lemma next_req_generation_Ok g n :
  next_req_generation_v21 g = Ok n <-> n = g + 1 /\ g < REQ_GENERATION_MAX.
Proof. unfold next_req_generation_v21. case_match; bools; split; intros; simplify_eq; lia || done || (f_equal; lia). Qed.

(** A successor generation always packs into a request id of a legal slot. *)
Lemma next_generation_packs g n i :
  0 <= g -> 0 <= i <= REQ_INDEX_MAX -> next_req_generation_v21 g = Ok n ->
  exists id, ReqId_try_new n i = Ok id /\ ReqId_generation id = g + 1 /\ ReqId_slot_index id = i.
Proof.
  intros Hg Hi [-> Hlt]%next_req_generation_Ok.
  exists ((g + 1) * 2 ^ 24 + i).
  assert (ReqId_try_new (g + 1) i = Ok ((g + 1) * 2 ^ 24 + i)) as Hid
    by (apply ReqId_try_new_Ok; lia).
  destruct (ReqId_fields (g + 1) i _ ltac:(lia) ltac:(lia) Hid) as (? & ? & _). done.
Qed.
