(* ===== verification/ReqTab.v ===== *)
(** * The request table: data and operations

    driver/fsring-core/src/reqtab.rs with the ownership capabilities of
    typestate.rs. The table is a record; each method is a function from the
    table (and the values it consumes) to the table afterwards and its result.
    Slots borrowed from the caller are part of the table. A [NonZeroU64] is a
    [Z]; the invariant of [ReqTabInv] keeps it positive. Proofs are in
    [ReqTabInv] and [ReqTabSpec]. *)

From S2P Require Import Prelude Ids Slots Control Messages.

(** Return early from a method with the table unchanged. *)
Notation "'let*' x ':=' m 'on' t 'in' k" :=
  (match m with Ok x => k | Err e => (t, Err e) end)
  (at level 10, x binder, m at level 100, t at level 100, k at level 200) : fsr_scope.

(** ** Completion ownership (typestate.rs) *)

(** The kernel side of a request: the effect of marking it pending and of
    completing it. *)
Class CompletionSink (S : Type) := {
  sink_mark_pending : S -> S;
  sink_complete : S -> Z -> Z -> S;
}.

Record CompletionOwner (S : Type) := mkOwner { owner_sink : S }.
Record PendingToken (S : Type) := mkPending { pending_sink : S }.
Arguments mkOwner {S}.
Arguments owner_sink {S}.
Arguments mkPending {S}.
Arguments pending_sink {S}.

Definition owner_pending {S} `{CompletionSink S} (o : CompletionOwner S) : PendingToken S :=
  mkPending (sink_mark_pending (owner_sink o)).
Definition into_owner {S} (p : PendingToken S) : CompletionOwner S := mkOwner (pending_sink p).
Definition owner_complete {S} `{CompletionSink S} (o : CompletionOwner S)
    (status information : Z) : S := sink_complete (owner_sink o) status information.

(** ** Wire constants *)

Module op.
Definition PREPARE_OPEN : Z := 0x0001.
Definition COMMIT_OPEN : Z := 0x0002.
Definition ABORT_OPEN : Z := 0x0003.
Definition CLEANUP : Z := 0x0004.
Definition CLOSE : Z := 0x0005.
Definition READ : Z := 0x0010.
Definition WRITE : Z := 0x0011.
Definition FLUSH : Z := 0x0012.
Definition QUERY_INFO : Z := 0x0020.
Definition MUTATE : Z := 0x0021.
Definition QUERY_DIR : Z := 0x0022.
Definition QUERY_VOLUME : Z := 0x0023.
Definition QUERY_SECURITY : Z := 0x0024.
Definition REPLAY_OPEN : Z := 0x0041.
Definition QUERY_OP : Z := 0x0042.
Definition ACK_RESULT : Z := 0x0043.
Definition PT_ROUTE_ACK : Z := 0x0050.
Definition PT_EXTERNAL_SAFE_ACK : Z := 0x0051.
Definition DIR_CHANGE_ACK : Z := 0x0052.
End op.

Definition COMPLETION : Z := 0.

(** ** Errors *)

Inductive TopologyError : Type :=
| TopRingCountOutOfRange | TopMaxInflightOutOfRange | InvalidPartition.
Inductive TableInitError : Type :=
| ApplicationLength | SystemLength | NonPristineApplication | NonPristineSystem
| NonPristineGlobal | TableIdExhausted.
Inductive ApplicationPhaseError : Type := UnsupportedOpcode | NotJournaledSemantic.
Inductive AdmissionError : Type :=
| AdmissionFull | AdmissionTableNotActive | AdmissionSessionGenerationExhausted.
Inductive ControlAdmissionError : Type :=
| WrongLanePhase | RingOutOfRange | Busy | CtlTableNotActive | CtlSessionGenerationExhausted.
Inductive CaptureError : Type :=
| CapTableNotActive | WrongSession | ZeroRequestId | ZeroGeneration | UnassignedIndex
| CapVacant | CapRetired | StaleCurrentGeneration | NotVisible | CaptureInProgress
| CandidateInstalled | WrongKindCaptureRole.
Inductive EnvelopeError : Type := WrongKind | WrongOpcode.
Inductive CaptureFinishError : Type :=
| FinForeignTable | FinWrongClass | FinSlotOutOfRange | FinStaleBirth | StaleWireIdentity
| FinWrongState.
Inductive KeyError : Type :=
| ForeignTable | WrongClass | SlotOutOfRange | StaleBirth | Vacant.
Inductive PhaseError : Type :=
| WrongState | WrongPhaseClass | GenerationExhausted | TableNotActive.
Inductive ApplicationError : Type := AppKey (e : KeyError) | AppPhase (e : PhaseError).
Inductive TabControlError : Type := CtlKey (e : KeyError) | CtlPhase (e : PhaseError).
Inductive ReclaimError : Type :=
| RecForeignTable | RecWrongClass | RecSlotOutOfRange | RecStaleBirth
| StaleTerminalIdentity | NotTerminalizing.
Inductive SessionTransitionError : Type :=
| WrongMode | WrongEpoch | EpochExhausted | TopologyChanged | UnresolvedApplicationPhase
| TrUnresolvedCapture | LiveControlLane.
Inductive DrainError : Type := NotDraining | DrUnresolvedCapture.

(** An error that hands the refused value back. *)
Record PreservedError (E T : Type) := mkPreserved { pe_error : E; pe_value : T }.
Arguments mkPreserved {E T}.
Arguments pe_error {E T}.
Arguments pe_value {E T}.

(** ** Topology *)

Record RequestTopology := mkTopology { rt_ring_count : Z; rt_max_inflight : Z }.
#[export] Instance RequestTopology_eq : EqDecision RequestTopology.
Proof. solve_decision. Defined.

Definition classify_table_index (topology : RequestTopology) (index : Z)
    : result ReqIndexError ReqIndexClass :=
  classify_req_index index (rt_ring_count topology) (rt_max_inflight topology).

(** [matches!(classify(i), Ok(Application { index }) if index == i)] *)
Definition is_application_index (topology : RequestTopology) (i : Z) : bool :=
  match classify_table_index topology i with
  | Ok (ClassApplication index) => index =? i
  | _ => false
  end.

Definition RequestTopology_try_new (ring_count max_inflight : Z)
    : result TopologyError RequestTopology :=
  if (ring_count <? MIN_RING_COUNT) || (MAX_RING_COUNT <? ring_count) then
    Err TopRingCountOutOfRange
  else if (max_inflight =? 0) || (MAX_INFLIGHT <? max_inflight) then
    Err TopMaxInflightOutOfRange
  else
    let topology := mkTopology ring_count max_inflight in
    match classify_table_index topology 0 with
    | Ok (ClassApplication 0) =>
        match
          (match checked_mul u32_max ring_count SYSTEM_REQUEST_SLOTS_PER_RING with
           | Some count =>
               match checked_sub count 1 with
               | Some offset => checked_add u32_max SYSTEM_REQID_BASE offset
               | None => None
               end
           | None => None
           end)
        with
        | None => Err InvalidPartition
        | Some last_system =>
            match classify_table_index topology last_system,
                  classify_table_index topology GLOBAL_EXTERNAL_CHANGE_ACK_REQID with
            | Ok _, Ok ClassExternalChangeAck => Ok topology
            | _, _ => Err InvalidPartition
            end
        end
    | _ => Err InvalidPartition
    end.

(** ** Phases and lanes *)

Inductive ApplicationCaptureRole : Type := CompletionOnly | JournaledSemantic.
#[export] Instance ApplicationCaptureRole_eq : EqDecision ApplicationCaptureRole.
Proof. solve_decision. Defined.

Record ApplicationPhase := mkAppPhase { ap_opcode : Z; ap_capture_role : ApplicationCaptureRole }.

Definition is_application_opcode (opcode : Z) : bool :=
  existsb (Z.eqb opcode)
    [op.PREPARE_OPEN; op.COMMIT_OPEN; op.ABORT_OPEN; op.CLEANUP; op.CLOSE; op.READ; op.WRITE;
     op.FLUSH; op.QUERY_INFO; op.MUTATE; op.QUERY_DIR; op.QUERY_VOLUME; op.QUERY_SECURITY;
     op.QUERY_OP; op.ACK_RESULT].

Definition ApplicationPhase_new (opcode : Z) : result ApplicationPhaseError ApplicationPhase :=
  if is_application_opcode opcode then Ok (mkAppPhase opcode CompletionOnly)
  else Err UnsupportedOpcode.

Definition ApplicationPhase_journaled_semantic (opcode : Z)
    : result ApplicationPhaseError ApplicationPhase :=
  if negb (is_application_opcode opcode) then Err UnsupportedOpcode
  else if existsb (Z.eqb opcode) [op.COMMIT_OPEN; op.WRITE; op.MUTATE] then
    Ok (mkAppPhase opcode JournaledSemantic)
  else Err NotJournaledSemantic.

Inductive ControlLane : Type :=
| OpenLifecycle (ring_index : Z)
| PtRouteAck (ring_index : Z)
| PtExternalSafeAck (ring_index : Z)
| ExternalChangeAck.
#[export] Instance ControlLane_eq : EqDecision ControlLane.
Proof. solve_decision. Defined.

Inductive ControlPhase : Type :=
| ReplayOpen | RecoveryCleanup | RecoveryClose | PhPtRouteAck | PhPtExternalSafeAck
| PhExternalChangeAck.

Definition ControlPhase_opcode (p : ControlPhase) : Z :=
  match p with
  | ReplayOpen => op.REPLAY_OPEN
  | RecoveryCleanup => op.CLEANUP
  | RecoveryClose => op.CLOSE
  | PhPtRouteAck => op.PT_ROUTE_ACK
  | PhPtExternalSafeAck => op.PT_EXTERNAL_SAFE_ACK
  | PhExternalChangeAck => op.DIR_CHANGE_ACK
  end.

Definition control_lane_accepts_phase (lane : ControlLane) (phase : ControlPhase) : bool :=
  match lane, phase with
  | OpenLifecycle _, (ReplayOpen | RecoveryCleanup | RecoveryClose) => true
  | PtRouteAck _, PhPtRouteAck => true
  | PtExternalSafeAck _, PhPtExternalSafeAck => true
  | ExternalChangeAck, PhExternalChangeAck => true
  | _, _ => false
  end.

Inductive TableMode : Type := Active | Fencing | Draining.
#[export] Instance TableMode_eq : EqDecision TableMode.
Proof. solve_decision. Defined.

Inductive WireState : Type :=
| BetweenPhases | PreparedNotVisible | Visible | Capturing | Captured | Quarantined
| WireGenerationExhausted.
#[export] Instance WireState_eq : EqDecision WireState.
Proof. solve_decision. Defined.

Inductive ControlTerminalKind : Type :=
| KindCaptured | KindUnpublished | FenceNoCandidate | FenceGenerationExhausted | KindDrained.
#[export] Instance ControlTerminalKind_eq : EqDecision ControlTerminalKind.
Proof. solve_decision. Defined.

(** ** Keys, tokens and receipts *)

Record ApplicationKey := mkAppKey {
  ak_table_id : Z;
  ak_slot_index : Z;
  ak_birth_session_epoch : Z;
  ak_birth_generation : Z;
}.
Record ApplicationAdmission := mkAppAdmission { aa_key : ApplicationKey; aa_req_id : ReqId }.

Record ControlKey := mkCtlKey {
  ck_table_id : Z;
  ck_slot_index : Z;
  ck_lane : ControlLane;
  ck_birth_session_epoch : Z;
  ck_birth_generation : Z;
}.
Record ControlAdmission := mkCtlAdmission { ca_key : ControlKey; ca_req_id : ReqId }.

Record ApplicationCapture := mkAppCapture {
  ac_table_id : Z;
  ac_slot_index : Z;
  ac_birth_session_epoch : Z;
  ac_birth_generation : Z;
  ac_wire_session_epoch : Z;
  ac_req_id : ReqId;
  ac_expected_opcode : Z;
}.
Record ControlCapture := mkCtlCapture {
  cc_table_id : Z;
  cc_slot_index : Z;
  cc_lane : ControlLane;
  cc_birth_session_epoch : Z;
  cc_birth_generation : Z;
  cc_wire_session_epoch : Z;
  cc_req_id : ReqId;
  cc_expected_opcode : Z;
}.
Inductive CaptureToken : Type :=
| CaptureApplication (token : ApplicationCapture)
| CaptureControl (token : ControlCapture).

Record CapturedApplication := mkCapturedApp {
  cap_table_id : Z;
  cap_slot_index : Z;
  cap_birth_session_epoch : Z;
  cap_birth_generation : Z;
  cap_wire_session_epoch : Z;
  cap_req_id : ReqId;
}.
Record CapturedControl := mkCapturedCtl {
  cct_table_id : Z;
  cct_slot_index : Z;
  cct_lane : ControlLane;
  cct_birth_session_epoch : Z;
  cct_birth_generation : Z;
  cct_wire_session_epoch : Z;
  cct_req_id : ReqId;
}.

Record CompletionReceipt := mkCompletionReceipt {
  cr_table_id : Z;
  cr_slot_index : Z;
  cr_birth_session_epoch : Z;
  cr_birth_generation : Z;
  cr_terminal_wire_session_epoch : Z;
  cr_terminal_req_id : ReqId;
}.
Record ControlRelease := mkControlRelease {
  cl_table_id : Z;
  cl_slot_index : Z;
  cl_lane : ControlLane;
  cl_birth_session_epoch : Z;
  cl_birth_generation : Z;
  cl_terminal_wire_session_epoch : Z;
  cl_terminal_req_id : ReqId;
  cl_terminal_kind : ControlTerminalKind;
}.
Record CancelTarget := mkCancelTarget { ct_req_id : ReqId; ct_session_epoch : Z }.

Definition CaptureToken_req_id (t : CaptureToken) : ReqId :=
  match t with
  | CaptureApplication token => ac_req_id token
  | CaptureControl token => cc_req_id token
  end.
Definition CaptureToken_expected_opcode (t : CaptureToken) : Z :=
  match t with
  | CaptureApplication token => ac_expected_opcode token
  | CaptureControl token => cc_expected_opcode token
  end.
Definition validate_envelope (t : CaptureToken) (kind opcode : Z) : result EnvelopeError unit :=
  if negb (kind =? COMPLETION) then Err WrongKind
  else if negb (opcode =? CaptureToken_expected_opcode t) then Err WrongOpcode
  else Ok tt.

(** ** Where a control lane lives *)

Inductive ControlStorage : Type :=
| StSystem (slot_index backing_index : Z)
| StGlobal (slot_index : Z).

Definition storage_slot_index (st : ControlStorage) : Z :=
  match st with StSystem i _ | StGlobal i => i end.

(** The ring, the offset of the lane in the ring's slots, and its index class. *)
Definition lane_parts (lane : ControlLane) : option (Z * Z * ReqIndexClass) :=
  match lane with
  | OpenLifecycle r => Some (r, 0, ClassOpenLifecycle r)
  | PtRouteAck r => Some (r, 1, ClassPtRouteAck r)
  | PtExternalSafeAck r => Some (r, 2, ClassPtExternalSafeAck r)
  | ExternalChangeAck => None
  end.

#[export] Instance ReqIndexClass_eq : EqDecision ReqIndexClass.
Proof. solve_decision. Defined.

Definition control_storage (topology : RequestTopology) (lane : ControlLane)
    : result ControlAdmissionError ControlStorage :=
  match lane_parts lane with
  | None =>
      match classify_table_index topology GLOBAL_EXTERNAL_CHANGE_ACK_REQID with
      | Ok ClassExternalChangeAck => Ok (StGlobal GLOBAL_EXTERNAL_CHANGE_ACK_REQID)
      | _ => Err RingOutOfRange
      end
  | Some (ring_index, lane_offset, expected_class) =>
      if rt_ring_count topology <=? ring_index then Err RingOutOfRange
      else
        match
          (match checked_mul u32_max ring_index SYSTEM_REQUEST_SLOTS_PER_RING with
           | Some offset =>
               match checked_add u32_max offset lane_offset with
               | Some offset => checked_add u32_max SYSTEM_REQID_BASE offset
               | None => None
               end
           | None => None
           end)
        with
        | None => Err RingOutOfRange
        | Some slot_index =>
            match classify_table_index topology slot_index with
            | Ok class =>
                if bool_decide (class = expected_class) then
                  match checked_sub slot_index SYSTEM_REQID_BASE with
                  | Some backing_index => Ok (StSystem slot_index backing_index)
                  | None => Err RingOutOfRange
                  end
                else Err RingOutOfRange
            | Err _ => Err RingOutOfRange
            end
        end
  end.

Definition control_lane_from_class (class : ReqIndexClass) : option ControlLane :=
  match class with
  | ClassOpenLifecycle r => Some (OpenLifecycle r)
  | ClassPtRouteAck r => Some (PtRouteAck r)
  | ClassPtExternalSafeAck r => Some (PtExternalSafeAck r)
  | ClassExternalChangeAck => Some ExternalChangeAck
  | ClassApplication _ => None
  end.

Definition capture_state_error (state : WireState) : CaptureError :=
  match state with
  | Capturing => CaptureInProgress
  | Captured => CandidateInstalled
  | _ => NotVisible
  end.

Definition phase_is_pcancel_eligible (phase : ApplicationPhase) : bool :=
  negb (existsb (Z.eqb (ap_opcode phase)) [op.PREPARE_OPEN; op.QUERY_OP; op.ACK_RESULT]).

(** [allocate_table_id]: the process-wide counter after the call. A failed
    compare-exchange only reloads the counter, so the call is one atomic step. *)
Definition allocate_table_id (next_id : Z) : Z * result TableInitError Z :=
  if next_id =? u64_max then (next_id, Err TableIdExhausted)
  else
    let current := if next_id =? 0 then 1 else next_id in
    let next := match checked_add u64_max current 1 with Some n => n | None => u64_max end in
    (next, Ok current).

(** ** The table *)

Section Table.
Context {S C : Type} `{CompletionSink S}.

Record LiveApplication := mkLive {
  lv_pending : PendingToken S;
  lv_phase : ApplicationPhase;
  lv_birth_session_epoch : Z;
  lv_birth_generation : Z;
  lv_req_id : ReqId;
  lv_wire_state : WireState;
  lv_cancel_requested : bool;
}.
Inductive ApplicationSlotState : Type :=
| AppPristine
| AppFree (next_free : option Z) (generation : Z)
| AppRetired (generation : Z)
| AppTerminalizing (birth_session_epoch birth_generation terminal_wire_session_epoch : Z)
    (terminal_req_id : ReqId)
| AppLive (live : LiveApplication).

Record OccupiedControl := mkOccupied {
  oc_continuation : C;
  oc_phase : ControlPhase;
  oc_lane : ControlLane;
  oc_birth_session_epoch : Z;
  oc_birth_generation : Z;
  oc_req_id : ReqId;
  oc_wire_state : WireState;
}.
Inductive ControlSlotState : Type :=
| CtlPristine
| CtlAvailable (generation : Z)
| CtlRetired (generation : Z)
| CtlTerminalizing (lane : ControlLane) (birth_session_epoch birth_generation : Z)
    (terminal_wire_session_epoch : Z) (terminal_req_id : ReqId)
    (terminal_kind : ControlTerminalKind)
| CtlOccupied (occupied : OccupiedControl).

Record TerminalApplication := mkTerminalApp {
  ta_table_id : Z;
  ta_slot_index : Z;
  ta_birth_session_epoch : Z;
  ta_birth_generation : Z;
  ta_terminal_wire_session_epoch : Z;
  ta_terminal_req_id : ReqId;
  ta_pending : PendingToken S;
}.
Record TerminalControl := mkTerminalCtl {
  tc_table_id : Z;
  tc_slot_index : Z;
  tc_lane : ControlLane;
  tc_birth_session_epoch : Z;
  tc_birth_generation : Z;
  tc_terminal_wire_session_epoch : Z;
  tc_terminal_req_id : ReqId;
  tc_terminal_kind : ControlTerminalKind;
  tc_continuation : C;
}.

(** Complete the request: the sink after its completion effect, and the receipt
    that frees the slot. *)
Definition TerminalApplication_complete (t : TerminalApplication) (status information : Z)
    : S * CompletionReceipt :=
  (owner_complete (into_owner (ta_pending t)) status information,
   mkCompletionReceipt (ta_table_id t) (ta_slot_index t) (ta_birth_session_epoch t)
     (ta_birth_generation t) (ta_terminal_wire_session_epoch t) (ta_terminal_req_id t)).

Definition TerminalControl_release (t : TerminalControl) : C * ControlRelease :=
  (tc_continuation t,
   mkControlRelease (tc_table_id t) (tc_slot_index t) (tc_lane t) (tc_birth_session_epoch t)
     (tc_birth_generation t) (tc_terminal_wire_session_epoch t) (tc_terminal_req_id t)
     (tc_terminal_kind t)).

Record RequestTable := mkTable {
  table_id : Z;
  session_epoch : Z;
  topology : RequestTopology;
  application : list ApplicationSlotState;
  system : list ControlSlotState;
  global : ControlSlotState;
  free_head : option Z;
  application_retired : Z;
  mode : TableMode;
  needs_quiesce : bool;
}.
Implicit Types t : RequestTable.

(** Field assignments. *)
Definition set_app (i : Z) (st : ApplicationSlotState) t : RequestTable :=
  mkTable (table_id t) (session_epoch t) (topology t) (<[Z.to_nat i := st]> (application t))
    (system t) (global t) (free_head t) (application_retired t) (mode t) (needs_quiesce t).
Definition set_free_head (h : option Z) t : RequestTable :=
  mkTable (table_id t) (session_epoch t) (topology t) (application t) (system t) (global t) h
    (application_retired t) (mode t) (needs_quiesce t).
Definition set_retired (n : Z) t : RequestTable :=
  mkTable (table_id t) (session_epoch t) (topology t) (application t) (system t) (global t)
    (free_head t) n (mode t) (needs_quiesce t).
Definition set_mode (m : TableMode) t : RequestTable :=
  mkTable (table_id t) (session_epoch t) (topology t) (application t) (system t) (global t)
    (free_head t) (application_retired t) m (needs_quiesce t).
Definition set_quiesce t : RequestTable :=
  mkTable (table_id t) (session_epoch t) (topology t) (application t) (system t) (global t)
    (free_head t) (application_retired t) (mode t) true.
Definition set_ctl (st : ControlStorage) (v : ControlSlotState) t : RequestTable :=
  match st with
  | StSystem _ backing_index =>
      mkTable (table_id t) (session_epoch t) (topology t) (application t)
        (<[Z.to_nat backing_index := v]> (system t)) (global t) (free_head t)
        (application_retired t) (mode t) (needs_quiesce t)
  | StGlobal _ =>
      mkTable (table_id t) (session_epoch t) (topology t) (application t) (system t) v
        (free_head t) (application_retired t) (mode t) (needs_quiesce t)
  end.

Definition with_wire (w : WireState) (l : LiveApplication) : LiveApplication :=
  mkLive (lv_pending l) (lv_phase l) (lv_birth_session_epoch l) (lv_birth_generation l)
    (lv_req_id l) w (lv_cancel_requested l).
Definition with_cancel (l : LiveApplication) : LiveApplication :=
  mkLive (lv_pending l) (lv_phase l) (lv_birth_session_epoch l) (lv_birth_generation l)
    (lv_req_id l) (lv_wire_state l) true.
Definition with_phase (p : ApplicationPhase) (id : ReqId) (l : LiveApplication)
    : LiveApplication :=
  mkLive (lv_pending l) p (lv_birth_session_epoch l) (lv_birth_generation l) id
    PreparedNotVisible (lv_cancel_requested l).
Definition oc_with_wire (w : WireState) (o : OccupiedControl) : OccupiedControl :=
  mkOccupied (oc_continuation o) (oc_phase o) (oc_lane o) (oc_birth_session_epoch o)
    (oc_birth_generation o) (oc_req_id o) w.
Definition oc_with_phase (p : ControlPhase) (id : ReqId) (o : OccupiedControl)
    : OccupiedControl :=
  mkOccupied (oc_continuation o) p (oc_lane o) (oc_birth_session_epoch o)
    (oc_birth_generation o) id PreparedNotVisible.

(** Slot accesses. *)
Definition app_slot t (i : Z) : option ApplicationSlotState := application t !! Z.to_nat i.

Definition control_slot t (st : ControlStorage) : option ControlSlotState :=
  match st with
  | StSystem _ backing_index => system t !! Z.to_nat backing_index
  | StGlobal _ => Some (global t)
  end.

Definition control_slot_by_req_index t (slot_index : Z)
    : option (ControlStorage * ControlSlotState) :=
  if slot_index =? GLOBAL_EXTERNAL_CHANGE_ACK_REQID then Some (StGlobal slot_index, global t)
  else
    match checked_sub slot_index SYSTEM_REQID_BASE with
    | None => None
    | Some backing_index =>
        match system t !! Z.to_nat backing_index with
        | Some v => Some (StSystem slot_index backing_index, v)
        | None => None
        end
    end.

(** ** Construction *)

Definition is_app_pristine (s : ApplicationSlotState) : bool :=
  match s with AppPristine => true | _ => false end.
Definition is_ctl_pristine (s : ControlSlotState) : bool :=
  match s with CtlPristine => true | _ => false end.

(** The initial free list links each slot to the next. *)
Definition initial_free (len : Z) (index : nat) : ApplicationSlotState :=
  AppFree (match checked_add u32_max (Z.of_nat index) 1 with
           | Some next => if next <? len then Some next else None
           | None => None
           end) 0.

Definition try_new (next_table_id epoch : Z) (topo : RequestTopology)
    (app : list ApplicationSlotState) (sys : list ControlSlotState) (glob : ControlSlotState)
    : Z * result TableInitError RequestTable :=
  let application_len := Z.of_nat (length app) in
  if u32_max <? application_len then (next_table_id, Err ApplicationLength)
  else if negb (application_len =? rt_max_inflight topo) then
    (next_table_id, Err ApplicationLength)
  else
    match checked_mul u32_max (rt_ring_count topo) SYSTEM_REQUEST_SLOTS_PER_RING with
    | None => (next_table_id, Err SystemLength)
    | Some system_len =>
        if negb (system_len =? Z.of_nat (length sys)) then (next_table_id, Err SystemLength)
        else if existsb (fun s => negb (is_app_pristine s)) app then
          (next_table_id, Err NonPristineApplication)
        else if existsb (fun s => negb (is_ctl_pristine s)) sys then
          (next_table_id, Err NonPristineSystem)
        else if negb (is_ctl_pristine glob) then (next_table_id, Err NonPristineGlobal)
        else
          let '(next_table_id, id) := allocate_table_id next_table_id in
          match id with
          | Err e => (next_table_id, Err e)
          | Ok id =>
              (next_table_id,
               Ok (mkTable id epoch topo (imap (fun i _ => initial_free application_len i) app)
                     ((fun _ => CtlAvailable 0) <$> sys) (CtlAvailable 0) (Some 0) 0 Active
                     false))
          end
    end.

(** ** Admission *)

Definition admit_application t (phase : ApplicationPhase) (owner : CompletionOwner S)
    : RequestTable * result (PreservedError AdmissionError (CompletionOwner S))
        ApplicationAdmission :=
  if negb (bool_decide (mode t = Active)) then
    (t, Err (mkPreserved AdmissionTableNotActive owner))
  else
    match free_head t with
    | None =>
        if application_retired t =? rt_max_inflight (topology t) then
          (set_quiesce t, Err (mkPreserved AdmissionSessionGenerationExhausted owner))
        else (t, Err (mkPreserved AdmissionFull owner))
    | Some slot_index =>
        if negb (is_application_index (topology t) slot_index) then
          (t, Err (mkPreserved AdmissionFull owner))
        else
          match app_slot t slot_index with
          | Some (AppFree next_free generation) =>
              match next_req_generation_v21 generation with
              | Err _ =>
                  (set_quiesce t, Err (mkPreserved AdmissionSessionGenerationExhausted owner))
              | Ok generation =>
                  match ReqId_try_new generation slot_index with
                  | Err _ =>
                      (set_quiesce t,
                       Err (mkPreserved AdmissionSessionGenerationExhausted owner))
                  | Ok req_id =>
                      let key := mkAppKey (table_id t) slot_index (session_epoch t) generation in
                      let live := mkLive (owner_pending owner) phase (session_epoch t) generation
                                    req_id PreparedNotVisible false in
                      (set_free_head next_free (set_app slot_index (AppLive live) t),
                       Ok (mkAppAdmission key req_id))
                  end
              end
          | _ => (t, Err (mkPreserved AdmissionFull owner))
          end
    end.

Definition admit_control t (lane : ControlLane) (phase : ControlPhase) (continuation : C)
    : RequestTable * result (PreservedError ControlAdmissionError C) ControlAdmission :=
  if negb (bool_decide (mode t = Active)) then
    (t, Err (mkPreserved CtlTableNotActive continuation))
  else if negb (control_lane_accepts_phase lane phase) then
    (t, Err (mkPreserved WrongLanePhase continuation))
  else
    match control_storage (topology t) lane with
    | Err error => (t, Err (mkPreserved error continuation))
    | Ok storage =>
        let slot_index := storage_slot_index storage in
        match control_slot t storage with
        | None => (t, Err (mkPreserved RingOutOfRange continuation))
        | Some (CtlRetired _) =>
            (set_quiesce t, Err (mkPreserved CtlSessionGenerationExhausted continuation))
        | Some (CtlOccupied o) =>
            if bool_decide (oc_wire_state o = WireGenerationExhausted) then
              (set_quiesce t, Err (mkPreserved CtlSessionGenerationExhausted continuation))
            else (t, Err (mkPreserved Busy continuation))
        | Some (CtlTerminalizing _ _ _ _ _ _) => (t, Err (mkPreserved Busy continuation))
        | Some CtlPristine => (t, Err (mkPreserved CtlTableNotActive continuation))
        | Some (CtlAvailable generation) =>
            match next_req_generation_v21 generation with
            | Err _ =>
                (set_quiesce t, Err (mkPreserved CtlSessionGenerationExhausted continuation))
            | Ok generation =>
                match ReqId_try_new generation slot_index with
                | Err _ =>
                    (set_quiesce t,
                     Err (mkPreserved CtlSessionGenerationExhausted continuation))
                | Ok req_id =>
                    let key := mkCtlKey (table_id t) slot_index lane (session_epoch t)
                                 generation in
                    let o := mkOccupied continuation phase lane (session_epoch t) generation
                               req_id PreparedNotVisible in
                    (set_ctl storage (CtlOccupied o) t, Ok (mkCtlAdmission key req_id))
                end
            end
        end
    end.

(** ** Keys *)

Definition validate_application_key t (key : ApplicationKey) : result ApplicationError Z :=
  if negb (ak_table_id key =? table_id t) then Err (AppKey ForeignTable)
  else if negb (is_application_index (topology t) (ak_slot_index key)) then
    Err (AppKey WrongClass)
  else
    match app_slot t (ak_slot_index key) with
    | None => Err (AppKey SlotOutOfRange)
    | Some (AppLive l) =>
        if negb (lv_birth_session_epoch l =? ak_birth_session_epoch key)
           || negb (lv_birth_generation l =? ak_birth_generation key) then
          Err (AppKey StaleBirth)
        else Ok (ak_slot_index key)
    | Some _ => Err (AppKey Vacant)
    end.

Definition validate_control_key t (key : ControlKey) : result TabControlError ControlStorage :=
  if negb (ck_table_id key =? table_id t) then Err (CtlKey ForeignTable)
  else
    let? storage :=
      map_err (fun _ => CtlKey WrongClass) (control_storage (topology t) (ck_lane key)) in
    if negb (storage_slot_index storage =? ck_slot_index key) then Err (CtlKey WrongClass)
    else
      match control_slot t storage with
      | None => Err (CtlKey SlotOutOfRange)
      | Some (CtlOccupied o) =>
          if negb (bool_decide (oc_lane o = ck_lane key))
             || negb (oc_birth_session_epoch o =? ck_birth_session_epoch key)
             || negb (oc_birth_generation o =? ck_birth_generation key) then
            Err (CtlKey StaleBirth)
          else Ok storage
      | Some _ => Err (CtlKey Vacant)
      end.

(** The live entry a key names: the checks every keyed operation starts with. *)
Definition live_at t (index : Z) : result ApplicationError LiveApplication :=
  match app_slot t index with
  | None => Err (AppKey SlotOutOfRange)
  | Some (AppLive l) => Ok l
  | Some _ => Err (AppKey Vacant)
  end.
Definition occupied_at t (storage : ControlStorage) : result TabControlError OccupiedControl :=
  match control_slot t storage with
  | None => Err (CtlKey SlotOutOfRange)
  | Some (CtlOccupied o) => Ok o
  | Some _ => Err (CtlKey Vacant)
  end.

(** ** Phases *)

Definition mark_application_visible t (key : ApplicationKey)
    : RequestTable * result ApplicationError ReqId :=
  if negb (bool_decide (mode t = Active)) then (t, Err (AppPhase TableNotActive))
  else
    let* index := validate_application_key t key on t in
    let* l := live_at t index on t in
    if negb (bool_decide (lv_wire_state l = PreparedNotVisible)) then
      (t, Err (AppPhase WrongState))
    else (set_app index (AppLive (with_wire Visible l)) t, Ok (lv_req_id l)).

Definition mark_control_visible t (key : ControlKey)
    : RequestTable * result TabControlError ReqId :=
  if negb (bool_decide (mode t = Active)) then (t, Err (CtlPhase TableNotActive))
  else
    let* storage := validate_control_key t key on t in
    let* o := occupied_at t storage on t in
    if negb (bool_decide (oc_wire_state o = PreparedNotVisible)) then
      (t, Err (CtlPhase WrongState))
    else (set_ctl storage (CtlOccupied (oc_with_wire Visible o)) t, Ok (oc_req_id o)).

Definition begin_application_phase t (key : ApplicationKey) (phase : ApplicationPhase)
    : RequestTable * result ApplicationError ReqId :=
  if negb (bool_decide (mode t = Active)) then (t, Err (AppPhase TableNotActive))
  else
    let* index := validate_application_key t key on t in
    let* l := live_at t index on t in
    if negb (bool_decide (lv_wire_state l = BetweenPhases)) then (t, Err (AppPhase WrongState))
    else
      let exhausted :=
        (set_quiesce (set_app index (AppLive (with_wire WireGenerationExhausted l)) t),
         Err (AppPhase GenerationExhausted)) in
      match next_req_generation_v21 (ReqId_generation (lv_req_id l)) with
      | Err _ => exhausted
      | Ok generation =>
          match ReqId_try_new generation (ak_slot_index key) with
          | Err _ => exhausted
          | Ok next_req_id =>
              (set_app index (AppLive (with_phase phase next_req_id l)) t, Ok next_req_id)
          end
      end.

Definition begin_control_phase t (key : ControlKey) (phase : ControlPhase)
    : RequestTable * result TabControlError ReqId :=
  if negb (bool_decide (mode t = Active)) then (t, Err (CtlPhase TableNotActive))
  else if negb (control_lane_accepts_phase (ck_lane key) phase) then
    (t, Err (CtlPhase WrongPhaseClass))
  else
    let* storage := validate_control_key t key on t in
    let* o := occupied_at t storage on t in
    if negb (bool_decide (oc_wire_state o = BetweenPhases)) then (t, Err (CtlPhase WrongState))
    else
      let exhausted :=
        (set_quiesce (set_ctl storage (CtlOccupied (oc_with_wire WireGenerationExhausted o)) t),
         Err (CtlPhase GenerationExhausted)) in
      match next_req_generation_v21 (ReqId_generation (oc_req_id o)) with
      | Err _ => exhausted
      | Ok generation =>
          match ReqId_try_new generation (ck_slot_index key) with
          | Err _ => exhausted
          | Ok next_req_id =>
              (set_ctl storage (CtlOccupied (oc_with_phase phase next_req_id o)) t,
               Ok next_req_id)
          end
      end.

(** ** Capture *)

Definition capture_application t (kind : Z) (req_id : ReqId) (index : Z)
    : RequestTable * result CaptureError CaptureToken :=
  match app_slot t index with
  | None | Some AppPristine | Some (AppFree _ _) => (t, Err CapVacant)
  | Some (AppRetired _) => (t, Err CapRetired)
  | Some (AppTerminalizing _ _ _ _) => (t, Err NotVisible)
  | Some (AppLive l) =>
      if negb (lv_req_id l =? req_id) then (t, Err StaleCurrentGeneration)
      else if negb (bool_decide (lv_wire_state l = Visible)) then
        (t, Err (capture_state_error (lv_wire_state l)))
      else if negb (kind =? COMPLETION)
              && negb (bool_decide (ap_capture_role (lv_phase l) = JournaledSemantic)) then
        (t, Err WrongKindCaptureRole)
      else
        (set_app index (AppLive (with_wire Capturing l)) t,
         Ok (CaptureApplication
               (mkAppCapture (table_id t) index (lv_birth_session_epoch l)
                  (lv_birth_generation l) (session_epoch t) req_id (ap_opcode (lv_phase l)))))
  end.

Definition capture_control t (kind : Z) (req_id : ReqId) (lane : ControlLane)
    : RequestTable * result CaptureError CaptureToken :=
  match control_slot_by_req_index t (ReqId_slot_index req_id) with
  | None => (t, Err CapVacant)
  | Some (_, CtlPristine) | Some (_, CtlAvailable _) => (t, Err CapVacant)
  | Some (_, CtlRetired _) => (t, Err CapRetired)
  | Some (_, CtlTerminalizing _ _ _ _ _ _) => (t, Err NotVisible)
  | Some (storage, CtlOccupied o) =>
      if negb (bool_decide (oc_lane o = lane)) || negb (oc_req_id o =? req_id) then
        (t, Err StaleCurrentGeneration)
      else if negb (bool_decide (oc_wire_state o = Visible)) then
        (t, Err (capture_state_error (oc_wire_state o)))
      else if negb (kind =? COMPLETION) then (t, Err WrongKindCaptureRole)
      else
        (set_ctl storage (CtlOccupied (oc_with_wire Capturing o)) t,
         Ok (CaptureControl
               (mkCtlCapture (table_id t) (ReqId_slot_index req_id) lane
                  (oc_birth_session_epoch o) (oc_birth_generation o) (session_epoch t) req_id
                  (ControlPhase_opcode (oc_phase o)))))
  end.

Definition begin_capture t (observed_epoch kind : Z) (req_id : ReqId)
    : RequestTable * result CaptureError CaptureToken :=
  if bool_decide (mode t = Draining) then (t, Err CapTableNotActive)
  else if negb (observed_epoch =? session_epoch t) then (t, Err WrongSession)
  else if ReqId_raw req_id =? 0 then (t, Err ZeroRequestId)
  else if ReqId_generation req_id =? 0 then (t, Err ZeroGeneration)
  else
    match classify_table_index (topology t) (ReqId_slot_index req_id) with
    | Err _ => (t, Err UnassignedIndex)
    | Ok (ClassApplication index) => capture_application t kind req_id index
    | Ok class =>
        match control_lane_from_class class with
        | None => (t, Err UnassignedIndex)
        | Some lane => capture_control t kind req_id lane
        end
    end.

Definition install_application_candidate t (token : ApplicationCapture)
    : RequestTable * result (PreservedError CaptureFinishError ApplicationCapture)
        CapturedApplication :=
  let fail e := (t, Err (mkPreserved e token)) in
  if negb (ac_table_id token =? table_id t) then fail FinForeignTable
  else if negb (ReqId_slot_index (ac_req_id token) =? ac_slot_index token)
          || negb (is_application_index (topology t) (ac_slot_index token)) then
    fail FinWrongClass
  else
    match app_slot t (ac_slot_index token) with
    | None => fail FinSlotOutOfRange
    | Some (AppLive l) =>
        if negb (lv_birth_session_epoch l =? ac_birth_session_epoch token)
           || negb (lv_birth_generation l =? ac_birth_generation token) then fail FinStaleBirth
        else if negb (session_epoch t =? ac_wire_session_epoch token)
                || negb (lv_req_id l =? ac_req_id token)
                || negb (ap_opcode (lv_phase l) =? ac_expected_opcode token) then
          fail StaleWireIdentity
        else if negb (bool_decide (lv_wire_state l = Capturing)) then fail FinWrongState
        else
          (set_app (ac_slot_index token) (AppLive (with_wire Captured l)) t,
           Ok (mkCapturedApp (ac_table_id token) (ac_slot_index token)
                 (ac_birth_session_epoch token) (ac_birth_generation token)
                 (ac_wire_session_epoch token) (ac_req_id token)))
    | Some _ => fail FinStaleBirth
    end.

Definition install_control_candidate t (token : ControlCapture)
    : RequestTable * result (PreservedError CaptureFinishError ControlCapture)
        CapturedControl :=
  let fail e := (t, Err (mkPreserved e token)) in
  if negb (cc_table_id token =? table_id t) then fail FinForeignTable
  else
    match classify_table_index (topology t) (cc_slot_index token) with
    | Err _ => fail FinWrongClass
    | Ok class =>
        if negb (ReqId_slot_index (cc_req_id token) =? cc_slot_index token)
           || negb (bool_decide (control_lane_from_class class = Some (cc_lane token))) then
          fail FinWrongClass
        else
          match control_slot_by_req_index t (cc_slot_index token) with
          | None => fail FinSlotOutOfRange
          | Some (storage, CtlOccupied o) =>
              if negb (bool_decide (oc_lane o = cc_lane token))
                 || negb (oc_birth_session_epoch o =? cc_birth_session_epoch token)
                 || negb (oc_birth_generation o =? cc_birth_generation token) then
                fail FinStaleBirth
              else if negb (session_epoch t =? cc_wire_session_epoch token)
                      || negb (oc_req_id o =? cc_req_id token)
                      || negb (ControlPhase_opcode (oc_phase o) =? cc_expected_opcode token) then
                fail StaleWireIdentity
              else if negb (bool_decide (oc_wire_state o = Capturing)) then fail FinWrongState
              else
                (set_ctl storage (CtlOccupied (oc_with_wire Captured o)) t,
                 Ok (mkCapturedCtl (cc_table_id token) (cc_slot_index token) (cc_lane token)
                       (cc_birth_session_epoch token) (cc_birth_generation token)
                       (cc_wire_session_epoch token) (cc_req_id token)))
          | Some _ => fail FinStaleBirth
          end
    end.

(** ** Disposition of a captured request *)

(** The checks of [finish_application_disposition] and [terminalize_application]
    up to the point where they write the slot. *)
Definition captured_live t (captured : CapturedApplication)
    : result ApplicationError LiveApplication :=
  if negb (cap_table_id captured =? table_id t) then Err (AppKey ForeignTable)
  else if negb (ReqId_slot_index (cap_req_id captured) =? cap_slot_index captured)
          || negb (is_application_index (topology t) (cap_slot_index captured)) then
    Err (AppKey WrongClass)
  else
    let? l := live_at t (cap_slot_index captured) in
    if negb (lv_birth_session_epoch l =? cap_birth_session_epoch captured)
       || negb (lv_birth_generation l =? cap_birth_generation captured) then
      Err (AppKey StaleBirth)
    else if negb (session_epoch t =? cap_wire_session_epoch captured)
            || negb (lv_req_id l =? cap_req_id captured)
            || negb (bool_decide (lv_wire_state l = Captured)) then
      Err (AppPhase WrongState)
    else Ok l.

Definition finish_application_disposition t (captured : CapturedApplication)
    (next_state : WireState)
    : RequestTable * result (PreservedError ApplicationError CapturedApplication)
        ApplicationKey :=
  match captured_live t captured with
  | Err e => (t, Err (mkPreserved e captured))
  | Ok l =>
      (set_app (cap_slot_index captured) (AppLive (with_wire next_state l)) t,
       Ok (mkAppKey (cap_table_id captured) (cap_slot_index captured)
             (cap_birth_session_epoch captured) (cap_birth_generation captured)))
  end.

(** Shared by [finish_control_disposition] and [terminalize_control]; only the
    latter compares the request id's slot ([check_id]). *)
Definition captured_occupied t (check_id : bool) (captured : CapturedControl)
    : result TabControlError (ControlStorage * OccupiedControl) :=
  if negb (cct_table_id captured =? table_id t) then Err (CtlKey ForeignTable)
  else
    let? storage :=
      match control_storage (topology t) (cct_lane captured) with
      | Ok storage =>
          if (storage_slot_index storage =? cct_slot_index captured)
             && (negb check_id
                 || (ReqId_slot_index (cct_req_id captured) =? cct_slot_index captured)) then
            Ok storage
          else Err (CtlKey WrongClass)
      | Err _ => Err (CtlKey WrongClass)
      end in
    let? o := occupied_at t storage in
    if negb (bool_decide (oc_lane o = cct_lane captured))
       || negb (oc_birth_session_epoch o =? cct_birth_session_epoch captured)
       || negb (oc_birth_generation o =? cct_birth_generation captured) then
      Err (CtlKey StaleBirth)
    else if negb (session_epoch t =? cct_wire_session_epoch captured)
            || negb (oc_req_id o =? cct_req_id captured)
            || negb (bool_decide (oc_wire_state o = Captured)) then
      Err (CtlPhase WrongState)
    else Ok (storage, o).

Definition finish_control_disposition t (captured : CapturedControl) (next_state : WireState)
    : RequestTable * result (PreservedError TabControlError CapturedControl) ControlKey :=
  match captured_occupied t false captured with
  | Err e => (t, Err (mkPreserved e captured))
  | Ok (storage, o) =>
      (set_ctl storage (CtlOccupied (oc_with_wire next_state o)) t,
       Ok (mkCtlKey (cct_table_id captured) (cct_slot_index captured) (cct_lane captured)
             (cct_birth_session_epoch captured) (cct_birth_generation captured)))
  end.

Definition retain_application t (captured : CapturedApplication) :=
  if bool_decide (mode t = Draining) then
    (t, Err (mkPreserved (AppPhase TableNotActive) captured))
  else finish_application_disposition t captured BetweenPhases.

Definition retain_control t (captured : CapturedControl) :=
  if bool_decide (mode t = Draining) then
    (t, Err (mkPreserved (CtlPhase TableNotActive) captured))
  else finish_control_disposition t captured BetweenPhases.

Definition quarantine_application t (captured : CapturedApplication) :=
  finish_application_disposition t captured Quarantined.

Definition quarantine_control t (captured : CapturedControl) :=
  finish_control_disposition t captured Quarantined.

(** ** Termination *)

(** [mem::replace] of a live slot by its terminal identity, and the terminal
    capability that carries the request out. *)
Definition terminal_application t (index : Z) (epoch : Z) (l : LiveApplication)
    : RequestTable * TerminalApplication :=
  (set_app index
     (AppTerminalizing (lv_birth_session_epoch l) (lv_birth_generation l) epoch (lv_req_id l)) t,
   mkTerminalApp (table_id t) index (lv_birth_session_epoch l) (lv_birth_generation l) epoch
     (lv_req_id l) (lv_pending l)).

Definition terminal_control t (storage : ControlStorage) (kind : ControlTerminalKind)
    (epoch : Z) (o : OccupiedControl) : RequestTable * TerminalControl :=
  (set_ctl storage
     (CtlTerminalizing (oc_lane o) (oc_birth_session_epoch o) (oc_birth_generation o) epoch
        (oc_req_id o) kind) t,
   mkTerminalCtl (table_id t) (storage_slot_index storage) (oc_lane o)
     (oc_birth_session_epoch o) (oc_birth_generation o) epoch (oc_req_id o) kind
     (oc_continuation o)).

Definition terminalize_application t (captured : CapturedApplication)
    : RequestTable * result (PreservedError ApplicationError CapturedApplication)
        TerminalApplication :=
  if bool_decide (mode t = Draining) then
    (t, Err (mkPreserved (AppPhase TableNotActive) captured))
  else
    match captured_live t captured with
    | Err e => (t, Err (mkPreserved e captured))
    | Ok l =>
        let '(t', terminal) :=
          terminal_application t (cap_slot_index captured) (session_epoch t) l in
        (t', Ok terminal)
    end.

Definition withdraw_unpublished_application t (key : ApplicationKey)
    : RequestTable * result ApplicationError TerminalApplication :=
  let* index := validate_application_key t key on t in
  let* l := live_at t index on t in
  if negb (bool_decide (lv_wire_state l = PreparedNotVisible)) then (t, Err (AppPhase WrongState))
  else
    let '(t', terminal) := terminal_application t index (session_epoch t) l in (t', Ok terminal).

Definition terminalize_control t (captured : CapturedControl)
    : RequestTable * result (PreservedError TabControlError CapturedControl) TerminalControl :=
  if bool_decide (mode t = Draining) then
    (t, Err (mkPreserved (CtlPhase TableNotActive) captured))
  else
    match captured_occupied t true captured with
    | Err e => (t, Err (mkPreserved e captured))
    | Ok (storage, o) =>
        let '(t', terminal) := terminal_control t storage KindCaptured (session_epoch t) o in
        (t', Ok terminal)
    end.

Definition withdraw_unpublished_control t (key : ControlKey)
    : RequestTable * result TabControlError TerminalControl :=
  let* storage := validate_control_key t key on t in
  let* o := occupied_at t storage on t in
  if negb (bool_decide (oc_wire_state o = PreparedNotVisible)) then (t, Err (CtlPhase WrongState))
  else
    let '(t', terminal) := terminal_control t storage KindUnpublished (session_epoch t) o in
    (t', Ok terminal).

(** ** Reclaim *)

Definition reclaim_completed t (receipt : CompletionReceipt)
    : RequestTable * result (PreservedError ReclaimError CompletionReceipt) unit :=
  let fail e := (t, Err (mkPreserved e receipt)) in
  if negb (cr_table_id receipt =? table_id t) then fail RecForeignTable
  else if negb (ReqId_slot_index (cr_terminal_req_id receipt) =? cr_slot_index receipt)
          || negb (is_application_index (topology t) (cr_slot_index receipt)) then
    fail RecWrongClass
  else
    match app_slot t (cr_slot_index receipt) with
    | None => fail RecSlotOutOfRange
    | Some (AppTerminalizing be bg epoch id) =>
        if negb (be =? cr_birth_session_epoch receipt)
           || negb (bg =? cr_birth_generation receipt) then fail RecStaleBirth
        else if negb (epoch =? cr_terminal_wire_session_epoch receipt)
                || negb (id =? cr_terminal_req_id receipt) then fail StaleTerminalIdentity
        else
          let terminal_generation := ReqId_generation (cr_terminal_req_id receipt) in
          let current := cr_terminal_wire_session_epoch receipt =? session_epoch t in
          if current && (terminal_generation =? REQ_GENERATION_MAX) then
            let t := set_app (cr_slot_index receipt) (AppRetired terminal_generation) t in
            (set_quiesce (set_retired (saturating_add u32_max (application_retired t) 1) t),
             Ok tt)
          else
            let generation := if current then terminal_generation else 0 in
            let t := set_app (cr_slot_index receipt) (AppFree (free_head t) generation) t in
            (set_free_head (Some (cr_slot_index receipt)) t, Ok tt)
    | Some _ => fail NotTerminalizing
    end.

Definition reclaim_control t (receipt : ControlRelease)
    : RequestTable * result (PreservedError ReclaimError ControlRelease) unit :=
  let fail e := (t, Err (mkPreserved e receipt)) in
  if negb (cl_table_id receipt =? table_id t) then fail RecForeignTable
  else
    match control_storage (topology t) (cl_lane receipt) with
    | Err _ => fail RecWrongClass
    | Ok storage =>
        if negb ((storage_slot_index storage =? cl_slot_index receipt)
                 && (ReqId_slot_index (cl_terminal_req_id receipt) =? cl_slot_index receipt)) then
          fail RecWrongClass
        else
          match control_slot t storage with
          | None => fail RecSlotOutOfRange
          | Some (CtlTerminalizing lane be bg epoch id kind) =>
              if negb (bool_decide (lane = cl_lane receipt))
                 || negb (be =? cl_birth_session_epoch receipt)
                 || negb (bg =? cl_birth_generation receipt) then fail RecStaleBirth
              else if negb (epoch =? cl_terminal_wire_session_epoch receipt)
                      || negb (id =? cl_terminal_req_id receipt)
                      || negb (bool_decide (kind = cl_terminal_kind receipt)) then
                fail StaleTerminalIdentity
              else
                let terminal_generation := ReqId_generation (cl_terminal_req_id receipt) in
                let current := cl_terminal_wire_session_epoch receipt =? session_epoch t in
                if current && (terminal_generation =? REQ_GENERATION_MAX) then
                  (set_quiesce (set_ctl storage (CtlRetired terminal_generation) t), Ok tt)
                else
                  (set_ctl storage (CtlAvailable (if current then terminal_generation else 0)) t,
                   Ok tt)
          | Some _ => fail NotTerminalizing
          end
    end.

(** ** Cancellation *)

Definition record_cancel t (key : ApplicationKey) : RequestTable * result ApplicationError unit :=
  let* index := validate_application_key t key on t in
  let* l := live_at t index on t in
  (set_app index (AppLive (with_cancel l)) t, Ok tt).

Definition pcancel_target t (key : ApplicationKey)
    : result ApplicationError (option CancelTarget) :=
  let? index := validate_application_key t key in
  let? l := live_at t index in
  if negb (lv_cancel_requested l) || negb (bool_decide (lv_wire_state l = Visible))
     || negb (phase_is_pcancel_eligible (lv_phase l)) then Ok None
  else Ok (Some (mkCancelTarget (lv_req_id l) (session_epoch t))).

(** ** Fencing *)

Definition begin_fence t : RequestTable * result SessionTransitionError unit :=
  if negb (bool_decide (mode t = Active)) then (t, Err WrongMode)
  else (set_mode Fencing t, Ok tt).

Definition retain_after_fence t (key : ApplicationKey)
    : RequestTable * result ApplicationError unit :=
  if negb (bool_decide (mode t = Fencing)) then (t, Err (AppPhase TableNotActive))
  else
    let* index := validate_application_key t key on t in
    let* l := live_at t index on t in
    if negb (bool_decide (lv_wire_state l = Visible)) then (t, Err (AppPhase WrongState))
    else (set_app index (AppLive (with_wire BetweenPhases l)) t, Ok tt).

Definition terminalize_application_after_fence t (key : ApplicationKey)
    : RequestTable * result ApplicationError TerminalApplication :=
  if negb (bool_decide (mode t = Fencing)) then (t, Err (AppPhase TableNotActive))
  else
    let* index := validate_application_key t key on t in
    let* l := live_at t index on t in
    if negb (lv_cancel_requested l)
       || negb (match lv_wire_state l with
                | Visible | BetweenPhases | WireGenerationExhausted => true
                | _ => false
                end) then (t, Err (AppPhase WrongState))
    else
      let '(t', terminal) := terminal_application t index (session_epoch t) l in
      (t', Ok terminal).

Definition terminalize_control_after_fence t (key : ControlKey)
    : RequestTable * result TabControlError TerminalControl :=
  if negb (bool_decide (mode t = Fencing)) then (t, Err (CtlPhase TableNotActive))
  else
    let* storage := validate_control_key t key on t in
    let* o := occupied_at t storage on t in
    let* kind :=
      match oc_wire_state o with
      | Visible | BetweenPhases => Ok FenceNoCandidate
      | WireGenerationExhausted => Ok FenceGenerationExhausted
      | _ => Err (CtlPhase WrongState)
      end on t in
    let '(t', terminal) := terminal_control t storage kind (session_epoch t) o in
    (t', Ok terminal).

(** ** Rebinding to the next session *)

Fixpoint applications_resolved (l : list ApplicationSlotState)
    : result SessionTransitionError unit :=
  match l with
  | [] => Ok tt
  | AppLive live :: rest =>
      match lv_wire_state live with
      | Capturing => Err TrUnresolvedCapture
      | PreparedNotVisible | Visible | Captured => Err UnresolvedApplicationPhase
      | BetweenPhases | Quarantined | WireGenerationExhausted => applications_resolved rest
      end
  | _ :: rest => applications_resolved rest
  end.

Fixpoint controls_resolved (l : list ControlSlotState) : result SessionTransitionError unit :=
  match l with
  | [] => Ok tt
  | CtlOccupied o :: _ =>
      if bool_decide (oc_wire_state o = Capturing) then Err TrUnresolvedCapture
      else Err LiveControlLane
  | _ :: rest => controls_resolved rest
  end.

Definition rebind_live (index : nat) (l : LiveApplication) : LiveApplication :=
  mkLive (lv_pending l) (lv_phase l) (lv_birth_session_epoch l) (lv_birth_generation l)
    (ReqId_from_raw (Z.of_nat index))
    (if bool_decide (lv_wire_state l = WireGenerationExhausted) then BetweenPhases
     else lv_wire_state l)
    (lv_cancel_requested l).

(** The backward loop over the slots: indices [n - 1] down to [0]. *)
Fixpoint rebind_applications (n : nat) (app : list ApplicationSlotState) (head : option Z)
    : list ApplicationSlotState * option Z :=
  match n with
  | O => (app, head)
  | Datatypes.S index =>
      match app !! index with
      | None => rebind_applications index app head
      | Some slot =>
          if u32_max <? Z.of_nat index then rebind_applications index app head
          else
            match slot with
            | AppFree _ _ | AppRetired _ =>
                rebind_applications index (<[index := AppFree head 0]> app)
                  (Some (Z.of_nat index))
            | AppLive l =>
                rebind_applications index (<[index := AppLive (rebind_live index l)]> app) head
            | AppTerminalizing _ _ _ _ | AppPristine => rebind_applications index app head
            end
      end
  end.

Definition rebind_control (s : ControlSlotState) : ControlSlotState :=
  match s with CtlAvailable _ | CtlRetired _ => CtlAvailable 0 | _ => s end.

Definition rebind_session t (next_epoch : Z) (topo : RequestTopology)
    : RequestTable * result SessionTransitionError unit :=
  if negb (bool_decide (mode t = Fencing)) then (t, Err WrongMode)
  else
    let* expected_epoch :=
      ok_or (checked_add u64_max (session_epoch t) 1) EpochExhausted on t in
    if negb (next_epoch =? expected_epoch) then (t, Err WrongEpoch)
    else if negb (bool_decide (topo = topology t)) then (t, Err TopologyChanged)
    else
      let* _ := applications_resolved (application t) on t in
      let* _ := controls_resolved (system t ++ [global t]) on t in
      let '(app, head) :=
        rebind_applications (length (application t)) (application t) None in
      (mkTable (table_id t) next_epoch (topology t) app (rebind_control <$> system t)
         (rebind_control (global t)) head 0 Active false, Ok tt).

(** ** Draining *)

Definition begin_drain t : RequestTable := set_mode Draining t.

Definition is_capture_state (w : WireState) : bool :=
  match w with Capturing | Captured => true | _ => false end.

(** The first live slot that no capture holds, and whether one was skipped. *)
Fixpoint find_drainable (index : nat) (l : list ApplicationSlotState) (unresolved : bool)
    : option (nat * LiveApplication) * bool :=
  match l with
  | [] => (None, unresolved)
  | AppLive live :: rest =>
      if is_capture_state (lv_wire_state live) then find_drainable (Datatypes.S index) rest true
      else if u32_max <? Z.of_nat index then find_drainable (Datatypes.S index) rest unresolved
      else (Some (index, live), unresolved)
  | _ :: rest => find_drainable (Datatypes.S index) rest unresolved
  end.

Definition drain_next_application t
    : RequestTable * result DrainError (option TerminalApplication) :=
  if negb (bool_decide (mode t = Draining)) then (t, Err NotDraining)
  else
    match find_drainable 0 (application t) false with
    | (Some (index, l), _) =>
        let '(t', terminal) := terminal_application t (Z.of_nat index) (session_epoch t) l in
        (t', Ok (Some terminal))
    | (None, true) => (t, Err DrUnresolvedCapture)
    | (None, false) => (t, Ok None)
    end.

(** [drain_control_slot]: what one control slot yields, and the flag after it. *)
Definition drain_control_slot (s : ControlSlotState) (unresolved : bool)
    : option OccupiedControl * bool :=
  match s with
  | CtlOccupied o =>
      if is_capture_state (oc_wire_state o) then (None, true) else (Some o, unresolved)
  | _ => (None, unresolved)
  end.

Fixpoint find_drainable_system (index : nat) (l : list ControlSlotState) (unresolved : bool)
    : option (ControlStorage * OccupiedControl) * bool :=
  match l with
  | [] => (None, unresolved)
  | s :: rest =>
      match
        (if u32_max <? Z.of_nat index then None
         else checked_add u32_max SYSTEM_REQID_BASE (Z.of_nat index))
      with
      | None => find_drainable_system (Datatypes.S index) rest unresolved
      | Some slot_index =>
          match drain_control_slot s unresolved with
          | (Some o, u) => (Some (StSystem slot_index (Z.of_nat index), o), u)
          | (None, u) => find_drainable_system (Datatypes.S index) rest u
          end
      end
  end.

Definition drain_next_control t : RequestTable * result DrainError (option TerminalControl) :=
  if negb (bool_decide (mode t = Draining)) then (t, Err NotDraining)
  else
    let found :=
      match find_drainable_system 0 (system t) false with
      | (Some found, u) => (Some found, u)
      | (None, u) =>
          match drain_control_slot (global t) u with
          | (Some o, u) => (Some (StGlobal GLOBAL_EXTERNAL_CHANGE_ACK_REQID, o), u)
          | (None, u) => (None, u)
          end
      end in
    match found with
    | (Some (storage, o), _) =>
        let '(t', terminal) := terminal_control t storage KindDrained (session_epoch t) o in
        (t', Ok (Some terminal))
    | (None, true) => (t, Err DrUnresolvedCapture)
    | (None, false) => (t, Ok None)
    end.

End Table.
Arguments LiveApplication : clear implicits.
Arguments ApplicationSlotState : clear implicits.
Arguments OccupiedControl : clear implicits.
Arguments ControlSlotState : clear implicits.
Arguments TerminalApplication : clear implicits.
Arguments TerminalControl : clear implicits.
Arguments RequestTable : clear implicits.
