(* ===== verification/ReqTabInv.v ===== *)
(** * The request table: lifecycle and invariant

    An abstract transition relation for the table: the lifecycle every slot
    follows and the events it emits. [run_op] is the table's whole mutating
    interface; [run_op_trans] shows that each operation of [ReqTab] is one
    transition, and the table's invariants are proved over the transitions. *)

From S2P Require Import Prelude Ids Slots Control Messages ReqTab.

(** What an operation makes visible outside the table. *)
Inductive event (S C : Type) : Type :=
| EvIssue (epoch : Z) (id : ReqId)
| EvCapture (epoch : Z) (id : ReqId)
| EvAdmit (s : S)
| EvTerminal (s : S)
| EvAdmitCtl (c : C)
| EvTerminalCtl (c : C).
Arguments EvIssue {S C}.
Arguments EvCapture {S C}.
Arguments EvAdmit {S C}.
Arguments EvTerminal {S C}.
Arguments EvAdmitCtl {S C}.
Arguments EvTerminalCtl {S C}.

(** The wire states a request moves through without a new request id. *)
Inductive wire_step : WireState -> WireState -> Prop :=
| ws_publish : wire_step PreparedNotVisible Visible
| ws_capture : wire_step Visible Capturing
| ws_install : wire_step Capturing Captured
| ws_retain : wire_step Captured BetweenPhases
| ws_quarantine : wire_step Captured Quarantined
| ws_exhaust : wire_step BetweenPhases WireGenerationExhausted
| ws_fence : wire_step Visible BetweenPhases.

(** Not yet captured under the current request id. *)
Definition capturable (w : WireState) : bool :=
  match w with PreparedNotVisible | Visible => true | _ => false end.

Section Lifecycle.
Context {S C : Type} `{CompletionSink S}.
Abbreviation table := (RequestTable S C).
Implicit Types (t : table) (l : LiveApplication S) (o : OccupiedControl C).

Definition capture_event (epoch : Z) (id : ReqId) (w : WireState) : list (event S C) :=
  match w with Capturing => [EvCapture epoch id] | _ => [] end.

(** [id] is the next request id of slot [i] after generation [g]. *)
Definition next_id (i g : Z) (id : ReqId) : Prop :=
  ReqId_generation id = g + 1 /\ ReqId_slot_index id = i /\ is_u64 id /\ 0 <= g < REQ_GENERATION_MAX.

Inductive live_move (epoch i : Z) l : list (event S C) -> LiveApplication S -> Prop :=
| lm_wire w :
    wire_step (lv_wire_state l) w ->
    live_move epoch i l (capture_event epoch (lv_req_id l) w) (with_wire w l)
| lm_cancel : live_move epoch i l [] (with_cancel l)
| lm_phase p id :
    lv_wire_state l = BetweenPhases -> next_id i (ReqId_generation (lv_req_id l)) id ->
    live_move epoch i l [EvIssue epoch id] (with_phase p id l).

Inductive occupied_move (epoch i : Z) o : list (event S C) -> OccupiedControl C -> Prop :=
| om_wire w :
    wire_step (oc_wire_state o) w ->
    occupied_move epoch i o (capture_event epoch (oc_req_id o) w) (oc_with_wire w o)
| om_phase p id :
    oc_wire_state o = BetweenPhases -> next_id i (ReqId_generation (oc_req_id o)) id ->
    control_lane_accepts_phase (oc_lane o) p = true ->
    occupied_move epoch i o [EvIssue epoch id] (oc_with_phase p id o).

Definition storage_ok t (st : ControlStorage) : Prop :=
  match st with
  | StSystem i b => i = SYSTEM_REQID_BASE + b /\ 0 <= b < Z.of_nat (length (system t))
  | StGlobal i => i = GLOBAL_EXTERNAL_CHANGE_ACK_REQID
  end.

Definition maybe_quiesce (b : bool) t : table := if b then set_quiesce t else t.

Inductive trans t : list (event S C) -> table -> Prop :=
| tr_skip b : trans t [] (maybe_quiesce b t)
| tr_mode m : m = Draining \/ (m = Fencing /\ mode t = Active) -> trans t [] (set_mode m t)
| tr_admit i n g id p (owner : CompletionOwner S) :
    mode t = Active -> free_head t = Some i -> 0 <= i ->
    app_slot t i = Some (AppFree n g) -> next_id i g id ->
    let l := mkLive (owner_pending owner) p (session_epoch t) (g + 1) id PreparedNotVisible false in
    trans t [EvIssue (session_epoch t) id; EvAdmit (pending_sink (owner_pending owner))]
      (set_free_head n (set_app i (AppLive l) t))
| tr_live b i l evs l' :
    0 <= i -> app_slot t i = Some (AppLive l) -> live_move (session_epoch t) i l evs l' ->
    trans t evs (maybe_quiesce b (set_app i (AppLive l') t))
| tr_terminal i l :
    0 <= i -> app_slot t i = Some (AppLive l) ->
    trans t [EvTerminal (pending_sink (lv_pending l))]
      (fst (terminal_application t i (session_epoch t) l))
| tr_free i be bg e id g :
    0 <= i -> app_slot t i = Some (AppTerminalizing be bg e id) ->
    (if e =? session_epoch t then ReqId_generation id <> REQ_GENERATION_MAX /\ g = ReqId_generation id
     else g = 0) ->
    trans t [] (set_free_head (Some i) (set_app i (AppFree (free_head t) g) t))
| tr_retire i be bg id :
    0 <= i -> app_slot t i = Some (AppTerminalizing be bg (session_epoch t) id) ->
    ReqId_generation id = REQ_GENERATION_MAX ->
    trans t []
      (set_quiesce (set_retired (saturating_add u32_max (application_retired t) 1)
         (set_app i (AppRetired (ReqId_generation id)) t)))
| tr_ctl_admit st lane g id p c :
    mode t = Active -> storage_ok t st -> control_slot t st = Some (CtlAvailable g) ->
    control_lane_accepts_phase lane p = true ->
    next_id (storage_slot_index st) g id ->
    let o := mkOccupied c p lane (session_epoch t) (g + 1) id PreparedNotVisible in
    trans t [EvIssue (session_epoch t) id; EvAdmitCtl c] (set_ctl st (CtlOccupied o) t)
| tr_occupied b st o evs o' :
    storage_ok t st -> control_slot t st = Some (CtlOccupied o) ->
    occupied_move (session_epoch t) (storage_slot_index st) o evs o' ->
    trans t evs (maybe_quiesce b (set_ctl st (CtlOccupied o') t))
| tr_ctl_terminal st o k :
    storage_ok t st -> control_slot t st = Some (CtlOccupied o) ->
    trans t [EvTerminalCtl (oc_continuation o)]
      (fst (terminal_control t st k (session_epoch t) o))
| tr_ctl_free b st lane be bg e id k s' :
    storage_ok t st -> control_slot t st = Some (CtlTerminalizing lane be bg e id k) ->
    (if e =? session_epoch t
     then s' = (if ReqId_generation id =? REQ_GENERATION_MAX then CtlRetired (ReqId_generation id)
                else CtlAvailable (ReqId_generation id))
     else s' = CtlAvailable 0) ->
    trans t [] (maybe_quiesce b (set_ctl st s' t))
| tr_rebind app head :
    mode t = Fencing -> session_epoch t + 1 <= u64_max ->
    applications_resolved (application t) = Ok tt ->
    controls_resolved (system t ++ [global t]) = Ok tt ->
    rebind_applications (length (application t)) (application t) None = (app, head) ->
    trans t []
      (mkTable (table_id t) (session_epoch t + 1) (topology t) app (rebind_control <$> system t)
         (rebind_control (global t)) head 0 Active false).

(** ** The interface *)

Inductive table_op : Type :=
| OpAdmitApplication (phase : ApplicationPhase) (owner : CompletionOwner S)
| OpAdmitControl (lane : ControlLane) (phase : ControlPhase) (continuation : C)
| OpMarkApplicationVisible (key : ApplicationKey)
| OpMarkControlVisible (key : ControlKey)
| OpBeginApplicationPhase (key : ApplicationKey) (phase : ApplicationPhase)
| OpBeginControlPhase (key : ControlKey) (phase : ControlPhase)
| OpBeginCapture (observed_epoch kind : Z) (req_id : ReqId)
| OpInstallApplication (token : ApplicationCapture)
| OpInstallControl (token : ControlCapture)
| OpRetainApplication (captured : CapturedApplication)
| OpRetainControl (captured : CapturedControl)
| OpQuarantineApplication (captured : CapturedApplication)
| OpQuarantineControl (captured : CapturedControl)
| OpTerminalizeApplication (captured : CapturedApplication)
| OpTerminalizeControl (captured : CapturedControl)
| OpWithdrawApplication (key : ApplicationKey)
| OpWithdrawControl (key : ControlKey)
| OpReclaimCompleted (receipt : CompletionReceipt)
| OpReclaimControl (receipt : ControlRelease)
| OpRecordCancel (key : ApplicationKey)
| OpBeginFence
| OpRetainAfterFence (key : ApplicationKey)
| OpTerminalizeApplicationAfterFence (key : ApplicationKey)
| OpTerminalizeControlAfterFence (key : ControlKey)
| OpRebindSession (next_epoch : Z) (topo : RequestTopology)
| OpBeginDrain
| OpDrainNextApplication
| OpDrainNextControl.

Definition on_issue {E} (t : table) (r : table * result E ReqId) : table * list (event S C) :=
  match r with
  | (t', Ok id) => (t', [EvIssue (session_epoch t) id])
  | (t', Err _) => (t', [])
  end.
Definition on_none {E A} (r : table * result E A) : table * list (event S C) := (fst r, []).
Definition on_terminal {E} (r : table * result E (TerminalApplication S))
    : table * list (event S C) :=
  match r with
  | (t', Ok ta) => (t', [EvTerminal (pending_sink (ta_pending ta))])
  | (t', Err _) => (t', [])
  end.
Definition on_terminal_ctl {E} (r : table * result E (TerminalControl C))
    : table * list (event S C) :=
  match r with
  | (t', Ok tc) => (t', [EvTerminalCtl (tc_continuation tc)])
  | (t', Err _) => (t', [])
  end.
Definition some_ok {E A} (r : table * result E (option A)) : table * result (option E) A :=
  match r with
  | (t', Ok (Some a)) => (t', Ok a)
  | (t', Ok None) => (t', Err None)
  | (t', Err e) => (t', Err (Some e))
  end.

(** Run one operation; the events are read off its result. *)
Definition run_op t (o : table_op) : table * list (event S C) :=
  match o with
  | OpAdmitApplication phase owner =>
      match admit_application t phase owner with
      | (t', Ok adm) =>
          (t', [EvIssue (session_epoch t) (aa_req_id adm);
                EvAdmit (pending_sink (owner_pending owner))])
      | (t', Err _) => (t', [])
      end
  | OpAdmitControl lane phase c =>
      match admit_control t lane phase c with
      | (t', Ok adm) => (t', [EvIssue (session_epoch t) (ca_req_id adm); EvAdmitCtl c])
      | (t', Err _) => (t', [])
      end
  | OpMarkApplicationVisible key => on_none (mark_application_visible t key)
  | OpMarkControlVisible key => on_none (mark_control_visible t key)
  | OpBeginApplicationPhase key phase => on_issue t (begin_application_phase t key phase)
  | OpBeginControlPhase key phase => on_issue t (begin_control_phase t key phase)
  | OpBeginCapture e kind id =>
      match begin_capture t e kind id with
      | (t', Ok token) => (t', [EvCapture (session_epoch t) (CaptureToken_req_id token)])
      | (t', Err _) => (t', [])
      end
  | OpInstallApplication token => on_none (install_application_candidate t token)
  | OpInstallControl token => on_none (install_control_candidate t token)
  | OpRetainApplication c => on_none (retain_application t c)
  | OpRetainControl c => on_none (retain_control t c)
  | OpQuarantineApplication c => on_none (quarantine_application t c)
  | OpQuarantineControl c => on_none (quarantine_control t c)
  | OpTerminalizeApplication c => on_terminal (terminalize_application t c)
  | OpTerminalizeControl c => on_terminal_ctl (terminalize_control t c)
  | OpWithdrawApplication key => on_terminal (withdraw_unpublished_application t key)
  | OpWithdrawControl key => on_terminal_ctl (withdraw_unpublished_control t key)
  | OpReclaimCompleted receipt => on_none (reclaim_completed t receipt)
  | OpReclaimControl receipt => on_none (reclaim_control t receipt)
  | OpRecordCancel key => on_none (record_cancel t key)
  | OpBeginFence => on_none (begin_fence t)
  | OpRetainAfterFence key => on_none (retain_after_fence t key)
  | OpTerminalizeApplicationAfterFence key =>
      on_terminal (terminalize_application_after_fence t key)
  | OpTerminalizeControlAfterFence key =>
      on_terminal_ctl (terminalize_control_after_fence t key)
  | OpRebindSession next_epoch topo => on_none (rebind_session t next_epoch topo)
  | OpBeginDrain => (begin_drain t, [])
  | OpDrainNextApplication => on_terminal (some_ok (drain_next_application t))
  | OpDrainNextControl => on_terminal_ctl (some_ok (drain_next_control t))
  end.

Fixpoint run_ops t (ops : list table_op) : table * list (event S C) :=
  match ops with
  | [] => (t, [])
  | o :: rest =>
      let '(t1, evs) := run_op t o in
      let '(t2, evs') := run_ops t1 rest in (t2, evs ++ evs')
  end.
End Lifecycle.
Arguments table_op : clear implicits.

(** ** The invariant *)

Section Invariant.
Context {S C : Type} `{CompletionSink S}.
Abbreviation table := (RequestTable S C).
Implicit Types (t : table) (l : LiveApplication S) (o : OccupiedControl C).

Definition id_ok (i : Z) (id : ReqId) : Prop := is_u64 id /\ ReqId_slot_index id = i.

(** A birth in session [be] with generation [bg], seen from session [e] where the
    slot's current generation is [g]. *)
Definition birth_ok (e be bg g : Z) : Prop := 1 <= be <= e /\ 1 <= bg /\ (be = e -> bg <= g).

Definition app_ok (epoch i : Z) (st : ApplicationSlotState S) : Prop :=
  match st with
  | AppPristine => False
  | AppFree _ g => 0 <= g < REQ_GENERATION_MAX
  | AppRetired g => g = REQ_GENERATION_MAX
  | AppTerminalizing be bg e id =>
      id_ok i id /\ 1 <= e <= epoch /\ birth_ok e be bg (ReqId_generation id)
  | AppLive l =>
      id_ok i (lv_req_id l) /\
      birth_ok epoch (lv_birth_session_epoch l) (lv_birth_generation l)
        (ReqId_generation (lv_req_id l))
  end.

Definition ctl_ok (epoch i : Z) (st : ControlSlotState C) : Prop :=
  match st with
  | CtlPristine => False
  | CtlAvailable g => 0 <= g < REQ_GENERATION_MAX
  | CtlRetired g => g = REQ_GENERATION_MAX
  | CtlTerminalizing _ be bg e id _ =>
      id_ok i id /\ 1 <= e <= epoch /\ birth_ok e be bg (ReqId_generation id)
  | CtlOccupied o =>
      id_ok i (oc_req_id o) /\
      birth_ok epoch (oc_birth_session_epoch o) (oc_birth_generation o)
        (ReqId_generation (oc_req_id o))
  end.

(** The free list threaded through the slots: [fl] lists the slots it visits. *)
Fixpoint chain (app : list (ApplicationSlotState S)) (h : option Z) (fl : list nat) : Prop :=
  match fl with
  | [] => h = None
  | i :: rest => h = Some (Z.of_nat i) /\ exists n g, app !! i = Some (AppFree n g) /\ chain app n rest
  end.

Definition is_free (st : ApplicationSlotState S) : bool :=
  match st with AppFree _ _ => true | _ => false end.
Definition is_retired (st : ApplicationSlotState S) : bool :=
  match st with AppRetired _ => true | _ => false end.

(** The free list visits every free slot exactly once. *)
Definition free_list (app : list (ApplicationSlotState S)) (h : option Z) : Prop :=
  exists fl, chain app h fl /\ NoDup fl /\
    forall i st, app !! i = Some st -> is_free st = true -> i ∈ fl.

Definition count_retired (app : list (ApplicationSlotState S)) : Z :=
  Z.of_nat (length (filter (fun st => is_retired st = true) app)).

Record table_inv t : Prop := {
  ti_rings : MIN_RING_COUNT <= rt_ring_count (topology t) <= MAX_RING_COUNT;
  ti_inflight : 0 < rt_max_inflight (topology t) <= MAX_INFLIGHT;
  ti_epoch : 1 <= session_epoch t <= u64_max;
  ti_app_len : Z.of_nat (length (application t)) = rt_max_inflight (topology t);
  ti_sys_len : Z.of_nat (length (system t)) = rt_ring_count (topology t) * 3;
  ti_app : forall i st, application t !! i = Some st -> app_ok (session_epoch t) (Z.of_nat i) st;
  ti_sys : forall b st, system t !! b = Some st ->
      ctl_ok (session_epoch t) (SYSTEM_REQID_BASE + Z.of_nat b) st;
  ti_glob : ctl_ok (session_epoch t) GLOBAL_EXTERNAL_CHANGE_ACK_REQID (global t);
  ti_free : free_list (application t) (free_head t);
  ti_retired : application_retired t = count_retired (application t);
}.

(** ** Indices *)

Lemma is_application_index_spec t i :
  table_inv t -> 0 <= i ->
  is_application_index (topology t) i = true <-> i < rt_max_inflight (topology t).
Proof.
  intros Hi H0. pose proof (ti_rings _ Hi). pose proof (ti_inflight _ Hi).
  unfold is_application_index, classify_table_index, classify_req_index, MIN_RING_COUNT,
    MAX_RING_COUNT, MAX_INFLIGHT in *. change REQ_INDEX_MAX with 16777215.
  split.
  - intros Hc. repeat case_match; bools; simplify_eq; try done; lia.
  - intros Hlt. repeat rewrite (proj2 (Z.ltb_ge _ _)) by lia. simpl.
    rewrite (proj2 (Z.eqb_neq _ _)) by lia. simpl.
    rewrite (proj2 (Z.ltb_lt i _)) by done. apply Z.eqb_refl.
Qed.

Lemma app_slot_lt t i st :
  table_inv t -> 0 <= i -> app_slot t i = Some st ->
  i < rt_max_inflight (topology t) /\ i <= REQ_INDEX_MAX /\ app_ok (session_epoch t) i st.
Proof.
  unfold app_slot. intros Hi H0 Hs. pose proof (lookup_lt_Some _ _ _ Hs).
  pose proof (ti_app_len _ Hi). pose proof (ti_inflight _ Hi).
  pose proof (ti_app _ Hi _ _ Hs) as Hok. rewrite Z2Nat.id in Hok by lia.
  unfold MAX_INFLIGHT in *. change REQ_INDEX_MAX with 16777215. split_and!; [lia | lia | done].
Qed.

Lemma ctl_slot_ok t st v :
  table_inv t -> storage_ok t st -> control_slot t st = Some v ->
  0 <= storage_slot_index st <= REQ_INDEX_MAX /\
  ctl_ok (session_epoch t) (storage_slot_index st) v.
Proof.
  intros Hi. pose proof (ti_sys_len _ Hi). pose proof (ti_rings _ Hi).
  change REQ_INDEX_MAX with 16777215.
  destruct st as [i b | i]; simpl; intros Hs Hv.
  - destruct Hs as [-> Hb]. pose proof (ti_sys _ Hi _ _ Hv) as Hok.
    rewrite Z2Nat.id in Hok by lia. unfold SYSTEM_REQID_BASE, MAX_RING_COUNT in *.
    split; [lia | done].
  - subst i. simplify_eq. split; [unfold GLOBAL_EXTERNAL_CHANGE_ACK_REQID; lia | apply Hi].
Qed.

Lemma control_storage_ok t lane st :
  table_inv t -> control_storage (topology t) lane = Ok st -> storage_ok t st.
Proof.
  intros Hi. pose proof (ti_sys_len _ Hi) as Hlen. pose proof (ti_rings _ Hi).
  pose proof (ti_inflight _ Hi).
  unfold control_storage. destruct (lane_parts lane) as [[[r off] cls] |] eqn:El.
  - intros Hc. destruct (_ <=? _) eqn:Hr in Hc; [done |].
    destruct (checked_mul _ _ _) as [a |]; [| done].
    destruct (checked_add _ a off) as [a2 |]; [| done].
    destruct (checked_add _ SYSTEM_REQID_BASE a2) as [i |]; [| done].
    destruct (classify_table_index (topology t) i) as [c |] eqn:Hcl; [| done].
    destruct (bool_decide (c = cls)) eqn:Hb in Hc; [| done].
    destruct (checked_sub i SYSTEM_REQID_BASE) as [b |] eqn:Hs in Hc; [| done].
    apply checked_sub_Some in Hs as [-> Hge]. bools. subst c.
    apply classify_cases in Hcl as [Hwf Hci]; [| unfold SYSTEM_REQID_BASE in *; lia | done | lia].
    unfold SYSTEM_REQUEST_SLOTS_PER_RING, SYSTEM_REQID_BASE in *.
    destruct lane; simplify_eq/=; simpl in *; unfold SYSTEM_REQID_BASE; lia.
  - intros Hc. break_in Hc. by simplify_eq/=.
Qed.

(** ** Keys and tokens name the slot they were issued for *)

Definition key_ok (key : ApplicationKey) : Prop := 0 <= ak_slot_index key.

Lemma validate_application_key_Ok t key i :
  validate_application_key t key = Ok i ->
  i = ak_slot_index key /\ exists l, app_slot t i = Some (AppLive l) /\
    lv_birth_session_epoch l = ak_birth_session_epoch key /\
    lv_birth_generation l = ak_birth_generation key.
Proof.
  unfold validate_application_key. intros Hv. break_in Hv. simplify_eq. bools. eauto 10.
Qed.

Lemma live_at_Ok t i l : live_at t i = Ok l <-> app_slot t i = Some (AppLive l).
Proof. unfold live_at. repeat case_match; split; intros; simplify_eq; done. Qed.

Lemma occupied_at_Ok t st o : occupied_at t st = Ok o <-> control_slot t st = Some (CtlOccupied o).
Proof. unfold occupied_at. repeat case_match; split; intros; simplify_eq; done. Qed.

Lemma validate_control_key_Ok t key st :
  table_inv t -> validate_control_key t key = Ok st ->
  storage_ok t st /\ storage_slot_index st = ck_slot_index key /\
  exists o, control_slot t st = Some (CtlOccupied o) /\ oc_lane o = ck_lane key /\
    oc_birth_session_epoch o = ck_birth_session_epoch key /\
    oc_birth_generation o = ck_birth_generation key.
Proof.
  unfold validate_control_key. intros Hi Hv.
  destruct (negb _) in Hv; [done |].
  destruct (control_storage _ _) as [st0 |] eqn:Hst in Hv; [| done]. simpl in Hv.
  apply control_storage_ok in Hst; [| done].
  break_in Hv. simplify_eq. bools. eauto 10.
Qed.

Lemma slot_index_nonneg id : 0 <= ReqId_slot_index id.
Proof. rewrite ReqId_slot_index_mod. apply Z.mod_pos_bound. lia. Qed.

Lemma captured_live_Ok t c l :
  captured_live t c = Ok l ->
  0 <= cap_slot_index c /\ app_slot t (cap_slot_index c) = Some (AppLive l) /\
  lv_wire_state l = Captured /\ lv_req_id l = cap_req_id c.
Proof.
  unfold captured_live. intros Hc. break_in Hc. simplify_eq. bools.
  pose proof (slot_index_nonneg (cap_req_id c)).
  rewrite live_at_Ok in *. split_and!; done || lia.
Qed.

Lemma captured_occupied_Ok t b c st o :
  table_inv t -> captured_occupied t b c = Ok (st, o) ->
  storage_ok t st /\ control_slot t st = Some (CtlOccupied o) /\ oc_wire_state o = Captured.
Proof.
  unfold captured_occupied. intros Hi Hc.
  destruct (negb _) in Hc; [done |].
  destruct (control_storage _ _) as [st0 |] eqn:Hst in Hc; [| done].
  apply control_storage_ok in Hst; [| done].
  break_in Hc. simplify_eq. bools. rewrite occupied_at_Ok in *. done.
Qed.

Lemma by_req_index_ok t i st v :
  0 <= i -> control_slot_by_req_index t i = Some (st, v) ->
  storage_ok t st /\ storage_slot_index st = i /\ control_slot t st = Some v.
Proof.
  unfold control_slot_by_req_index. intros Hi Hc. break_in Hc; simplify_eq; bools; simpl; [done |].
  checked. subst.
  match goal with H : system t !! _ = Some _ |- _ => pose proof (lookup_lt_Some _ _ _ H) end.
  unfold SYSTEM_REQID_BASE in *. split_and!; done || lia.
Qed.

Lemma generation_nonneg i id : id_ok i id -> 0 <= ReqId_generation id.
Proof. intros [[? ?] _]. rewrite ReqId_generation_div. apply Z.div_pos; lia. Qed.

Lemma next_id_intro i g n id :
  0 <= g -> 0 <= i <= REQ_INDEX_MAX -> next_req_generation_v21 g = Ok n ->
  ReqId_try_new n i = Ok id -> n = g + 1 /\ next_id i g id.
Proof.
  intros Hg Hi Hn Hid. apply next_req_generation_Ok in Hn as [-> Hlt].
  destruct (ReqId_fields (g + 1) i id) as (? & ? & ?); [lia | lia | done |].
  unfold next_id, is_u64. done.
Qed.

(** ** Each operation is one transition *)

Definition op_ok (o : table_op S C) : Prop :=
  match o with
  | OpMarkApplicationVisible key | OpBeginApplicationPhase key _ | OpWithdrawApplication key
  | OpRecordCancel key | OpRetainAfterFence key | OpTerminalizeApplicationAfterFence key =>
      key_ok key
  | _ => True
  end.

(** Refused operations change nothing (but possibly ask for quiescence). *)
Lemma trans_same t : trans t [] t.
Proof. exact (tr_skip t false). Qed.
Lemma trans_quiesce t : trans t [] (set_quiesce t).
Proof. exact (tr_skip t true). Qed.
Lemma trans_live t i l evs l' :
  0 <= i -> app_slot t i = Some (AppLive l) -> live_move (session_epoch t) i l evs l' ->
  trans t evs (set_app i (AppLive l') t).
Proof. exact (tr_live t false i l evs l'). Qed.
Lemma trans_occupied t st o evs o' :
  storage_ok t st -> control_slot t st = Some (CtlOccupied o) ->
  occupied_move (session_epoch t) (storage_slot_index st) o evs o' ->
  trans t evs (set_ctl st (CtlOccupied o') t).
Proof. exact (tr_occupied t false st o evs o'). Qed.

Lemma trans_live_wire t i l w :
  0 <= i -> app_slot t i = Some (AppLive l) -> wire_step (lv_wire_state l) w ->
  trans t (capture_event (session_epoch t) (lv_req_id l) w) (set_app i (AppLive (with_wire w l)) t).
Proof. intros. eapply trans_live; [done | done |]. by apply lm_wire. Qed.
Lemma trans_occupied_wire t st o w :
  storage_ok t st -> control_slot t st = Some (CtlOccupied o) -> wire_step (oc_wire_state o) w ->
  trans t (capture_event (session_epoch t) (oc_req_id o) w)
    (set_ctl st (CtlOccupied (oc_with_wire w o)) t).
Proof. intros. eapply trans_occupied; [done | done |]. by apply om_wire. Qed.


(** A refused operation: the table is unchanged up to the quiesce flag. *)
Ltac refused :=
  cbn [fst snd]; intros [= <- <-];
  lazymatch goal with
  | |- trans ?t [] ?t => apply trans_same
  | |- trans ?t [] (set_quiesce ?t) => apply trans_quiesce
  end.

(** The next guard of the operation: taken, the operation is refused. *)
Ltac take_guard :=
  match goal with
  | |- context [if ?b then _ else _] =>
      let E := fresh "E" in
      destruct b eqn:E; [refused |]
  end.

Lemma admit_application_trans t p owner t' evs :
  table_inv t -> run_op t (OpAdmitApplication p owner) = (t', evs) -> trans t evs t'.
Proof.
  intros Hi. simpl. unfold admit_application.
  destruct (bool_decide (mode t = Active)) eqn:Hm; simpl; [| refused].
  destruct (free_head t) as [i |] eqn:Hh; [| take_guard; refused].
  destruct (ti_free _ Hi) as (fl & Hc & _).
  destruct fl as [| j fl]; simpl in Hc; [congruence |].
  destruct Hc as [Hj (n & g & Hs & _)]. rewrite Hh in Hj. injection Hj as ->.
  assert (Ha : app_slot t (Z.of_nat j) = Some (AppFree n g)) by (unfold app_slot; by rewrite Nat2Z.id).
  destruct (app_slot_lt t (Z.of_nat j) _ Hi ltac:(lia) Ha) as (Hlt & Hmax & Hok).
  rewrite (proj2 (is_application_index_spec t (Z.of_nat j) Hi ltac:(lia)) Hlt). simpl.
  rewrite Ha.
  destruct (next_req_generation_v21 g) as [g' |] eqn:Hg; [| refused].
  destruct (ReqId_try_new g' _) as [id |] eqn:Hid; [| refused].
  intros [= <- <-]. simpl in Hok. bools.
  destruct (next_id_intro (Z.of_nat j) g g' id) as [-> Hn]; [lia | lia | done | done |].
  by apply (tr_admit t (Z.of_nat j) n g id p owner); [| | lia | |].
Qed.

Lemma admit_control_trans t lane p c t' evs :
  table_inv t -> run_op t (OpAdmitControl lane p c) = (t', evs) -> trans t evs t'.
Proof.
  intros Hi. simpl. unfold admit_control.
  destruct (bool_decide (mode t = Active)) eqn:Hm; simpl; [| refused].
  destruct (control_lane_accepts_phase lane p) eqn:Hp; simpl;
    [| refused].
  destruct (control_storage _ lane) as [st |] eqn:Hst; [| refused].
  apply control_storage_ok in Hst; [| done].
  destruct (control_slot t st) as [[| g | | |] |] eqn:Hs;
    try refused;
    try (match goal with |- context [if ?b then _ else _] => destruct b end; refused).
  destruct (ctl_slot_ok _ _ _ Hi Hst Hs) as [Hr Hok]. simpl in Hok.
  destruct (next_req_generation_v21 g) as [g' |] eqn:Hg; [| refused].
  destruct (ReqId_try_new g' _) as [id |] eqn:Hid; [| refused].
  intros [= <- <-]. bools.
  destruct (next_id_intro (storage_slot_index st) g g' id) as [-> Hn]; [lia | lia | done | done |].
  by apply (tr_ctl_admit t st lane g id p c).
Qed.

(** The opening of every keyed operation: the slot the key names is live. *)
Ltac keyed_app Hi Hk :=
  match goal with
  | |- context [validate_application_key ?t ?key] =>
      let i := fresh "i" in let l := fresh "l" in let Hs := fresh "Hs" in
      destruct (validate_application_key t key) as [i |] eqn:Hs;
      [| refused];
      apply validate_application_key_Ok in Hs as (-> & l & Hs & _);
      rewrite (proj2 (live_at_Ok t _ l) Hs)
  end.
Ltac keyed_ctl Hi :=
  match goal with
  | |- context [validate_control_key ?t ?key] =>
      let st := fresh "st" in let o := fresh "o" in let Hs := fresh "Hs" in
      let Hst := fresh "Hst" in let Hidx := fresh "Hidx" in
      destruct (validate_control_key t key) as [st |] eqn:Hs;
      [| refused];
      apply validate_control_key_Ok in Hs as (Hst & Hidx & o & Hs & Hlane & _); [| exact Hi];
      rewrite (proj2 (occupied_at_Ok t _ o) Hs)
  end.

Ltac wire_known :=
  match goal with
  | E : lv_wire_state ?l = _ |- wire_step (lv_wire_state ?l) _ => rewrite E; constructor
  | E : oc_wire_state ?o = _ |- wire_step (oc_wire_state ?o) _ => rewrite E; constructor
  end.

Lemma keyed_application_trans t (a : table_op S C) t' evs :
  table_inv t -> op_ok a -> run_op t a = (t', evs) ->
  match a with
  | OpMarkApplicationVisible _ | OpWithdrawApplication _ | OpRecordCancel _
  | OpRetainAfterFence _ | OpTerminalizeApplicationAfterFence _ => trans t evs t'
  | _ => True
  end.
Proof.
  intros Hi Hk. destruct a; try done; simpl in *; unfold on_none, on_terminal;
    unfold mark_application_visible, withdraw_unpublished_application, record_cancel,
      retain_after_fence, terminalize_application_after_fence;
    try take_guard;
    keyed_app Hi Hk; try take_guard;
    intros; simplify_eq/=; bools.
  - by apply (trans_live_wire t (ak_slot_index key) l Visible); [| | wire_known].
  - by apply (tr_terminal t).
  - by eapply trans_live; [| | apply lm_cancel].
  - by apply (trans_live_wire t (ak_slot_index key) l BetweenPhases); [| | wire_known].
  - by apply (tr_terminal t).
Qed.

Lemma keyed_control_trans t (a : table_op S C) t' evs :
  table_inv t -> run_op t a = (t', evs) ->
  match a with
  | OpMarkControlVisible _ | OpWithdrawControl _ | OpTerminalizeControlAfterFence _ =>
      trans t evs t'
  | _ => True
  end.
Proof.
  intros Hi. destruct a; try done; simpl in *; unfold on_none, on_terminal_ctl;
    unfold mark_control_visible, withdraw_unpublished_control, terminalize_control_after_fence;
    try take_guard;
    keyed_ctl Hi.
  - take_guard. intros; simplify_eq/=; bools.
    by apply (trans_occupied_wire t st o Visible); [| | wire_known].
  - take_guard. intros; simplify_eq/=; bools. by apply (tr_ctl_terminal t).
  - destruct (oc_wire_state o); try refused; cbn [fst]; intros [= <- <-];
      by apply (tr_ctl_terminal t).
Qed.

Lemma begin_phase_trans t (a : table_op S C) t' evs :
  table_inv t -> op_ok a -> run_op t a = (t', evs) ->
  match a with
  | OpBeginApplicationPhase _ _ | OpBeginControlPhase _ _ => trans t evs t'
  | _ => True
  end.
Proof.
  intros Hi Hk. destruct a as [| | | | key p | key p | | | | | | | | | | | | | | | | | | | | | |];
    try done; simpl in *; unfold on_issue, begin_application_phase, begin_control_phase;
    take_guard.
  - keyed_app Hi Hk. take_guard. bools.
    destruct (app_slot_lt t (ak_slot_index key) _ Hi Hk Hs) as (_ & Hmax & [Hid _]).
    pose proof (generation_nonneg _ _ Hid).
    destruct (next_req_generation_v21 _) as [g |] eqn:Hg;
      [destruct (ReqId_try_new g _) as [id |] eqn:Hn |]; intros; simplify_eq/=.
    2,3: by eapply (tr_live t true); [| | apply (lm_wire _ _ _ WireGenerationExhausted); wire_known].
    eapply trans_live; [done | done |]. apply lm_phase; [done |].
    by eapply next_id_intro.
  - take_guard. keyed_ctl Hi. take_guard. bools.
    destruct (ctl_slot_ok _ _ _ Hi Hst Hs) as [Hr [Hid _]].
    pose proof (generation_nonneg _ _ Hid).
    destruct (next_req_generation_v21 _) as [g |] eqn:Hg;
      [destruct (ReqId_try_new g _) as [id |] eqn:Hn |]; intros; simplify_eq/=.
    2,3: by eapply (tr_occupied t true); [| | apply (om_wire _ _ _ WireGenerationExhausted); wire_known].
    eapply trans_occupied; [done | done |]. apply om_phase; [done | | by rewrite Hlane].
    rewrite <- Hidx in Hn. by eapply next_id_intro.
Qed.

Lemma begin_capture_trans t e k id t' evs :
  table_inv t -> run_op t (OpBeginCapture e k id) = (t', evs) -> trans t evs t'.
Proof.
  intros Hi. simpl. unfold begin_capture. do 4 take_guard.
  destruct (classify_table_index _ _) as [c |] eqn:Hc; [| refused].
  apply classify_cases in Hc as [_ Hci];
    [| apply slot_index_nonneg | apply Hi | pose proof (ti_inflight _ Hi); lia].
  assert (Hctl : forall lane,
    (let (t0, r) := capture_control t k id lane in
     match r with
     | Ok token => (t0, [EvCapture (session_epoch t) (CaptureToken_req_id token)])
     | Err _ => (t0, [])
     end) = (t', evs) -> trans t evs t').
  { intros lane. unfold capture_control.
    destruct (control_slot_by_req_index _ _) as [[st v] |] eqn:Hs;
      [| refused].
    apply by_req_index_ok in Hs as (Hst & Hsi & Hs); [| apply slot_index_nonneg].
    destruct v as [| | | | o]; try (refused).
    repeat take_guard. bools. intros; simplify_eq/=.
    by apply (trans_occupied_wire t st o Capturing); [| | wire_known]. }
  destruct c as [i | | | |]; try (apply Hctl; fail).
  unfold capture_application. destruct (app_slot t i) as [[| | | | l] |] eqn:Hs;
    try (refused).
  repeat take_guard. bools. intros; simplify_eq/=.
  pose proof (slot_index_nonneg (lv_req_id l)).
  by apply (trans_live_wire t (ReqId_slot_index (lv_req_id l)) l Capturing); [| | wire_known].
Qed.

Lemma install_trans t (a : table_op S C) t' evs :
  table_inv t -> run_op t a = (t', evs) ->
  match a with
  | OpInstallApplication _ | OpInstallControl _ => trans t evs t'
  | _ => True
  end.
Proof.
  intros Hi. destruct a as [| | | | | | | tok | tok | | | | | | | | | | | | | | | | | | |];
    try done; simpl in *; unfold on_none, install_application_candidate, install_control_candidate.
  - repeat take_guard. bools. destruct (app_slot t _) as [[| | | | l] |] eqn:Hs;
      try (refused).
    repeat take_guard. bools. intros; simplify_eq/=.
    pose proof (slot_index_nonneg (ac_req_id tok)).
    by apply (trans_live_wire t (ac_slot_index tok) l Captured); [lia | | wire_known].
  - take_guard. destruct (classify_table_index _ _) as [c |]; [| refused].
    take_guard. bools. destruct (control_slot_by_req_index _ _) as [[st v] |] eqn:Hs;
      [| refused].
    pose proof (slot_index_nonneg (cc_req_id tok)).
    apply by_req_index_ok in Hs as (Hst & Hsi & Hs); [| lia].
    destruct v as [| | | | o]; try (refused).
    repeat take_guard. bools. intros; simplify_eq/=.
    by apply (trans_occupied_wire t st o Captured); [| | wire_known].
Qed.

Lemma disposition_trans t (a : table_op S C) t' evs :
  table_inv t -> run_op t a = (t', evs) ->
  match a with
  | OpRetainApplication _ | OpRetainControl _ | OpQuarantineApplication _ | OpQuarantineControl _
  | OpTerminalizeApplication _ | OpTerminalizeControl _ => trans t evs t'
  | _ => True
  end.
Proof.
  intros Hi. destruct a; try done; simpl in *;
    unfold on_none, on_terminal, on_terminal_ctl, retain_application, retain_control,
      quarantine_application, quarantine_control, terminalize_application, terminalize_control,
      finish_application_disposition, finish_control_disposition;
    try take_guard;
    match goal with
    | |- context [captured_live ?t ?c] =>
        destruct (captured_live t c) as [l |] eqn:Hc; [| refused];
        apply captured_live_Ok in Hc as (H0 & Hs & Hw & _)
    | |- context [captured_occupied ?t ?b ?c] =>
        destruct (captured_occupied t b c) as [[st o] |] eqn:Hc;
        [| refused];
        apply captured_occupied_Ok in Hc as (Hst & Hs & Hw); [| done]
    end; intros; simplify_eq/=.
  - by apply (trans_live_wire t (cap_slot_index captured) l BetweenPhases); [| | wire_known].
  - by apply (trans_occupied_wire t st o BetweenPhases); [| | wire_known].
  - by apply (trans_live_wire t (cap_slot_index captured) l Quarantined); [| | wire_known].
  - by apply (trans_occupied_wire t st o Quarantined); [| | wire_known].
  - by apply (tr_terminal t).
  - by apply (tr_ctl_terminal t).
Qed.

Lemma reclaim_trans t (a : table_op S C) t' evs :
  table_inv t -> run_op t a = (t', evs) ->
  match a with
  | OpReclaimCompleted _ | OpReclaimControl _ => trans t evs t'
  | _ => True
  end.
Proof.
  intros Hi. destruct a as [| | | | | | | | | | | | | | | | | rc | rc | | | | | | | | |];
    try done; simpl in *; unfold on_none, reclaim_completed, reclaim_control.
  - do 2 take_guard. bools.
    destruct (app_slot t _) as [[| | | be bg e id |] |] eqn:Hs;
      [refused | refused | refused | | refused | refused].
    do 2 take_guard. bools. subst e id.
    pose proof (slot_index_nonneg (cr_terminal_req_id rc)) as Hnn.
    destruct (_ && _) eqn:Hcur; cbn [fst]; intros [= <- <-].
    + bools. eapply (tr_retire t); [lia | | done].
      match goal with E : cr_terminal_wire_session_epoch rc = session_epoch t |- _ => by rewrite <- E end.
    + eapply (tr_free t); [lia | done |]. destruct (_ =? session_epoch t); [| done].
      cbn [andb] in Hcur. bools. done.
  - take_guard. destruct (control_storage _ _) as [st |] eqn:Hst; [| refused].
    apply control_storage_ok in Hst; [| done]. take_guard.
    destruct (control_slot t st) as [[| | | lane be bg e id k |] |] eqn:Hs;
      [refused | refused | refused | | refused | refused].
    do 2 take_guard. bools. subst e id.
    destruct (_ && _) eqn:Hcur; cbn [fst]; intros [= <- <-].
    + bools. eapply (tr_ctl_free t true); [done | done |].
      rewrite (proj2 (Z.eqb_eq _ _)) by done. by rewrite (proj2 (Z.eqb_eq _ _)) by done.
    + eapply (tr_ctl_free t false); [done | done |]. destruct (_ =? session_epoch t); [| done].
      cbn [andb] in Hcur. by rewrite Hcur.
Qed.

Lemma find_drainable_spec (app : list (ApplicationSlotState S)) : forall k u i l b,
  find_drainable k app u = (Some (i, l), b) ->
  (k <= i)%nat /\ app !! (i - k)%nat = Some (AppLive l) /\
  is_capture_state (lv_wire_state l) = false.
Proof.
  induction app as [| st app IH]; intros k u i l b Hf; simpl in Hf; [done |].
  assert (Hrec : forall u', find_drainable (Datatypes.S k) app u' = (Some (i, l), b) ->
    (k <= i)%nat /\ (st :: app) !! (i - k)%nat = Some (AppLive l) /\
    is_capture_state (lv_wire_state l) = false).
  { intros u' Hr. destruct (IH _ _ _ _ _ Hr) as (Hle & Hl & Hw). split_and!; [lia | | done].
    by replace (i - k)%nat with (Datatypes.S (i - Datatypes.S k)) by lia. }
  destruct st as [| | | | l0]; eauto.
  destruct (is_capture_state (lv_wire_state l0)) eqn:Hw; eauto.
  destruct (u32_max <? Z.of_nat k); eauto. simplify_eq. by rewrite Nat.sub_diag.
Qed.

Lemma find_drainable_system_spec (sys : list (ControlSlotState C)) : forall k u st o b,
  find_drainable_system k sys u = (Some (st, o), b) ->
  exists j, (k <= j)%nat /\ st = StSystem (SYSTEM_REQID_BASE + Z.of_nat j) (Z.of_nat j) /\
    sys !! (j - k)%nat = Some (CtlOccupied o) /\ is_capture_state (oc_wire_state o) = false.
Proof.
  induction sys as [| s sys IH]; intros k u st o b Hf; simpl in Hf; [done |].
  assert (Hrec : forall u', find_drainable_system (Datatypes.S k) sys u' = (Some (st, o), b) ->
    exists j, (k <= j)%nat /\ st = StSystem (SYSTEM_REQID_BASE + Z.of_nat j) (Z.of_nat j) /\
    (s :: sys) !! (j - k)%nat = Some (CtlOccupied o) /\ is_capture_state (oc_wire_state o) = false).
  { intros u' Hr. destruct (IH _ _ _ _ _ Hr) as (j & Hle & Hst & Hl & Hw). exists j.
    split_and!; [lia | done | | done].
    by replace (j - k)%nat with (Datatypes.S (j - Datatypes.S k)) by lia. }
  destruct (u32_max <? Z.of_nat k); [by eapply Hrec |].
  destruct (checked_add _ _ _) as [i |] eqn:Hi; [| by eapply Hrec].
  destruct s as [| | | | o0]; simpl in Hf; try by eapply Hrec.
  destruct (is_capture_state (oc_wire_state o0)) eqn:Hw; [by eapply Hrec |].
  simplify_eq. apply checked_add_Some in Hi as [-> _]. exists k. by rewrite Nat.sub_diag.
Qed.

Lemma drain_trans t (a : table_op S C) t' evs :
  table_inv t -> run_op t a = (t', evs) ->
  match a with
  | OpDrainNextApplication | OpDrainNextControl => trans t evs t'
  | _ => True
  end.
Proof.
  intros Hi. destruct a; try done; simpl; unfold on_terminal, on_terminal_ctl, some_ok,
    drain_next_application, drain_next_control; take_guard.
  - destruct (find_drainable 0 (application t) false) as [[[i l] |] u] eqn:Hf;
      [| destruct u; refused]. simpl. intros [= <- <-].
    apply find_drainable_spec in Hf as (_ & Hl & _). rewrite Nat.sub_0_r in Hl.
    eapply (tr_terminal t (Z.of_nat i) l); [lia |]. unfold app_slot. by rewrite Nat2Z.id.
  - destruct (find_drainable_system 0 (system t) false) as [[[st o] |] u] eqn:Hf.
    + simpl. intros [= <- <-].
      apply find_drainable_system_spec in Hf as (j & _ & -> & Hl & _).
      rewrite Nat.sub_0_r in Hl. pose proof (lookup_lt_Some _ _ _ Hl).
      eapply (tr_ctl_terminal t (StSystem (SYSTEM_REQID_BASE + Z.of_nat j) (Z.of_nat j)));
        unfold storage_ok, control_slot; [lia |]. by rewrite Nat2Z.id.
    + destruct (drain_control_slot (global t) u) as [[o |] u'] eqn:Hd;
        [| destruct u'; refused]. simpl. intros [= <- <-].
      unfold drain_control_slot in Hd. repeat case_match; simplify_eq.
      eapply (tr_ctl_terminal t (StGlobal GLOBAL_EXTERNAL_CHANGE_ACK_REQID));
        unfold storage_ok, control_slot; congruence.
Qed.

Lemma session_trans t (a : table_op S C) t' evs :
  table_inv t -> run_op t a = (t', evs) ->
  match a with
  | OpBeginFence | OpBeginDrain | OpRebindSession _ _ => trans t evs t'
  | _ => True
  end.
Proof.
  intros Hi. destruct a as [| | | | | | | | | | | | | | | | | | | | | | | | e topo | | |];
    try done; simpl; unfold on_none, begin_fence, rebind_session.
  - take_guard. bools. cbn [fst]. intros [= <- <-]. apply tr_mode. by right.
  - take_guard. destruct (checked_add _ _ _) as [e' |] eqn:He; simpl; [| refused].
    apply checked_add_Some in He as [-> He]. do 2 take_guard. bools. subst e topo.
    destruct (applications_resolved _) as [[] |] eqn:Ha; [| refused].
    destruct (controls_resolved _) as [[] |] eqn:Hc; [| refused].
    destruct (rebind_applications _ _ _) as [app head] eqn:Hr. cbn [fst]. intros [= <- <-].
    by apply tr_rebind.
  - intros [= <- <-]. apply tr_mode. by left.
Qed.

(** Every operation of the interface is one transition of the lifecycle. *)
Lemma run_op_trans t a t' evs :
  table_inv t -> op_ok a -> run_op t a = (t', evs) -> trans t evs t'.
Proof.
  intros Hi Hk Hr. destruct a;
    first [ exact (admit_application_trans _ _ _ _ _ Hi Hr)
          | exact (admit_control_trans _ _ _ _ _ _ Hi Hr)
          | exact (begin_capture_trans _ _ _ _ _ _ Hi Hr)
          | exact (keyed_application_trans _ _ _ _ Hi Hk Hr)
          | exact (keyed_control_trans _ _ _ _ Hi Hr)
          | exact (begin_phase_trans _ _ _ _ Hi Hk Hr)
          | exact (install_trans _ _ _ _ Hi Hr)
          | exact (disposition_trans _ _ _ _ Hi Hr)
          | exact (reclaim_trans _ _ _ _ Hi Hr)
          | exact (drain_trans _ _ _ _ Hi Hr)
          | exact (session_trans _ _ _ _ Hi Hr) ].
Qed.

(** ** The free list under slot updates *)

Abbreviation slots := (list (ApplicationSlotState S)).

Lemma chain_free (app : slots) fl : forall h i,
  chain app h fl -> i ∈ fl -> exists n g, app !! i = Some (AppFree n g).
Proof.
  induction fl as [| j fl IH]; intros h i Hc Hi; [by apply not_elem_of_nil in Hi |].
  destruct Hc as [_ (n & g & Hj & Hc)]. apply elem_of_cons in Hi as [-> | Hi]; eauto.
Qed.

Lemma chain_insert (app : slots) fl i st : forall h,
  i ∉ fl -> chain app h fl -> chain (<[i := st]> app) h fl.
Proof.
  induction fl as [| j fl IH]; intros h Hi Hc; [done |]. destruct Hc as [-> (n & g & Hj & Hc)].
  apply not_elem_of_cons in Hi as [Hne Hi]. split; [done |]. exists n, g.
  rewrite list_lookup_insert_ne by done. eauto.
Qed.

Lemma free_list_update (app : slots) h i old st :
  app !! i = Some old -> is_free old = false -> is_free st = false ->
  free_list app h -> free_list (<[i := st]> app) h.
Proof.
  intros Hi Ho Hn (fl & Hc & Hd & Ha). exists fl. split_and!; [| done |].
  - apply chain_insert; [| done]. intros Hin. destruct (chain_free _ _ _ _ Hc Hin) as (n & g & Hf).
    by simplify_eq.
  - intros j st' Hj Hf. apply list_lookup_insert_Some in Hj as [(<- & <- & _) | [_ Hj]];
      [congruence | by eapply Ha].
Qed.

Lemma free_list_pop (app : slots) i n g st :
  app !! i = Some (AppFree n g) -> is_free st = false ->
  free_list app (Some (Z.of_nat i)) -> free_list (<[i := st]> app) n.
Proof.
  intros Hi Hn (fl & Hc & Hd & Ha). destruct fl as [| j fl]; [done |].
  destruct Hc as [Hj (n' & g' & Hs & Hc)]. simplify_eq.
  apply list.NoDup_cons in Hd as [Hnin Hd]. exists fl. split_and!; [| done |].
  - by apply chain_insert.
  - intros k st' Hk Hf. apply list_lookup_insert_Some in Hk as [(<- & <- & _) | [Hne Hk]];
      [congruence |]. specialize (Ha k st' Hk Hf). by apply elem_of_cons in Ha as [-> | ?].
Qed.

Lemma free_list_push (app : slots) h i old g :
  app !! i = Some old -> is_free old = false ->
  free_list app h -> free_list (<[i := AppFree h g]> app) (Some (Z.of_nat i)).
Proof.
  intros Hi Ho (fl & Hc & Hd & Ha).
  assert (Hnin : i ∉ fl).
  { intros Hin. destruct (chain_free _ _ _ _ Hc Hin) as (n & g' & Hf). by simplify_eq. }
  exists (i :: fl). split_and!.
  - split; [done |]. exists h, g. rewrite list_lookup_insert_eq by (by eapply lookup_lt_Some).
    split; [done |]. by apply chain_insert.
  - by constructor.
  - intros k st' Hk Hf. apply list_lookup_insert_Some in Hk as [(<- & <- & _) | [Hne Hk]];
      [by left | right; by eapply Ha].
Qed.

Definition retired_bit (st : ApplicationSlotState S) : Z := if is_retired st then 1 else 0.

Lemma count_retired_cons st (app : slots) :
  count_retired (st :: app) = retired_bit st + count_retired app.
Proof.
  unfold count_retired, retired_bit. rewrite filter_cons.
  destruct (is_retired st); [rewrite decide_True by done | rewrite decide_False by done];
    rewrite ?length_cons; lia.
Qed.

Lemma count_retired_insert (app : slots) : forall i old st,
  app !! i = Some old ->
  count_retired (<[i := st]> app) = count_retired app - retired_bit old + retired_bit st.
Proof.
  induction app as [| x app IH]; intros [| i] old st Hi; simplify_eq/=;
    rewrite !count_retired_cons; [lia |]. rewrite (IH i old st Hi). lia.
Qed.

Lemma count_retired_zero (app : slots) :
  (forall i st, app !! i = Some st -> is_retired st = false) -> count_retired app = 0.
Proof.
  induction app as [| x app IH]; intros Hn; [done |]. rewrite count_retired_cons, IH.
  - unfold retired_bit. by rewrite (Hn 0%nat x eq_refl).
  - intros i st Hi. by apply (Hn (Datatypes.S i)).
Qed.

Lemma count_retired_le (app : slots) : 0 <= count_retired app <= Z.of_nat (length app).
Proof. unfold count_retired. pose proof (length_filter (fun st => is_retired st = true) app). lia. Qed.

(** ** Rebinding *)

(** What the backward loop does to slot [j]. *)
Definition rebound (j : nat) (st st' : ApplicationSlotState S) : Prop :=
  match st with
  | AppFree _ _ | AppRetired _ => exists n, st' = AppFree n 0
  | AppLive l => st' = AppLive (rebind_live j l)
  | _ => st' = st
  end.

(** After the loop over the slots below [n]. *)
Definition rebind_post (n : nat) (app app' : slots) (head' : option Z) : Prop :=
  length app' = length app /\ free_list app' head' /\
  (forall j st, app !! j = Some st -> (n <= j)%nat -> app' !! j = Some st) /\
  (forall j st, app !! j = Some st -> (j < n)%nat ->
     exists st', app' !! j = Some st' /\ rebound j st st').

Lemma rebind_applications_spec n : forall (app : slots) head fl app' head',
  (n <= length app)%nat -> Z.of_nat n <= u32_max ->
  chain app head fl -> NoDup fl -> (forall j, j ∈ fl -> (n <= j)%nat) ->
  (forall j st, (n <= j)%nat -> app !! j = Some st -> is_free st = true -> j ∈ fl) ->
  rebind_applications n app head = (app', head') -> rebind_post n app app' head'.
Proof.
  induction n as [| i IH]; intros app head fl app' head' Hl Hu Hc Hd Hge Hall Hr; simpl in Hr.
  { simplify_eq. split_and!; [done | | done | lia]. exists fl. split_and!; try done.
    intros j st Hj Hf. by apply (Hall j st); [lia | |]. }
  destruct (lookup_lt_is_Some_2 app i ltac:(lia)) as [st0 Hi]. rewrite Hi in Hr.
  rewrite (proj2 (Z.ltb_ge _ _)) in Hr by lia.
  assert (Hnin : i ∉ fl) by (intros Hin; specialize (Hge i Hin); lia).
  assert (Hstep : forall v h fl1, rebound i st0 v ->
    rebind_applications i (<[i := v]> app) h = (app', head') ->
    chain (<[i := v]> app) h fl1 -> NoDup fl1 -> (forall j, j ∈ fl1 -> (i <= j)%nat) ->
    (is_free v = true -> i ∈ fl1) -> (forall j, j ∈ fl -> j ∈ fl1) ->
    rebind_post (Datatypes.S i) app app' head').
  { intros v h fl1 Hv Hrun Hc1 Hd1 Hge1 Hvf Hsub.
    destruct (IH (<[i := v]> app) h fl1 app' head') as (Hlen & Hfl & Hsame & Hreb);
      rewrite ?length_insert; try done; try lia.
    - intros j st Hj Hlk Hf. apply list_lookup_insert_Some in Hlk as [(<- & <- & _) | [Hne Hlk]];
        [by apply Hvf |]. apply Hsub. eapply Hall; [| done | done]. lia.
    - rewrite length_insert in Hlen. split_and!; [done | done | |].
      + intros j st Hj Hlt. apply Hsame; [| lia]. by rewrite list_lookup_insert_ne by lia.
      + intros j st Hj Hlt. destruct (Nat.eq_dec j i) as [-> | Hne].
        * simplify_eq. exists v. split; [| done]. apply Hsame; [| lia].
          by rewrite list_lookup_insert_eq by lia.
        * apply Hreb; [| lia]. by rewrite list_lookup_insert_ne by lia. }
  assert (Hpush : rebound i st0 (AppFree head 0) ->
    rebind_applications i (<[i := AppFree head 0]> app) (Some (Z.of_nat i)) = (app', head') ->
    rebind_post (Datatypes.S i) app app' head').
  { intros Hb Hrun. apply (Hstep (AppFree head 0) (Some (Z.of_nat i)) (i :: fl)); try done.
    - split; [done |]. exists head, 0. rewrite list_lookup_insert_eq by lia.
      split; [done |]. by apply chain_insert.
    - by constructor.
    - intros j [-> | Hj]%elem_of_cons; [lia | specialize (Hge j Hj); lia].
    - by left.
    - intros j Hj. by right. }
  assert (Hid : <[i := st0]> app = app) by (by apply list_insert_id).
  destruct st0 as [| nf g | g | be bg e id | l].
  - apply (Hstep AppPristine head fl); rewrite ?Hid; try done. intros j Hj. specialize (Hge j Hj). lia.
  - apply Hpush; [by exists head | done].
  - apply Hpush; [by exists head | done].
  - apply (Hstep (AppTerminalizing be bg e id) head fl); rewrite ?Hid; try done.
    intros j Hj. specialize (Hge j Hj). lia.
  - apply (Hstep (AppLive (rebind_live i l)) head fl); try done.
    + by apply chain_insert.
    + intros j Hj. specialize (Hge j Hj). lia.
Qed.

(** ** Preservation *)

Lemma inv_quiesce b t : table_inv t -> table_inv (maybe_quiesce b t).
Proof. intros [? ? ? ? ? ? ? ? ? ?]. destruct b; by split. Qed.

Lemma app_ok_insert t i st :
  table_inv t -> 0 <= i -> app_ok (session_epoch t) i st ->
  forall j st', <[Z.to_nat i := st]> (application t) !! j = Some st' ->
    app_ok (session_epoch t) (Z.of_nat j) st'.
Proof.
  intros Hi H0 Hok j st' Hj. apply list_lookup_insert_Some in Hj as [(<- & <- & _) | [_ Hj]].
  - by rewrite Z2Nat.id by done.
  - by apply (ti_app _ Hi).
Qed.

Lemma inv_set_app t i old st :
  table_inv t -> 0 <= i -> app_slot t i = Some old ->
  is_free old = false -> is_free st = false ->
  is_retired old = false -> is_retired st = false ->
  app_ok (session_epoch t) i st -> table_inv (set_app i st t).
Proof.
  intros Hi H0 Hs Hfo Hf Hro Hr Hok. pose proof Hi as [Hrc Hmi He Hal Hsl Happ Hsys Hgl Hfl Hrt].
  split; simpl; rewrite ?length_insert; try done.
  - by apply app_ok_insert.
  - by eapply free_list_update.
  - rewrite (count_retired_insert _ _ old) by exact Hs. unfold retired_bit. rewrite Hro, Hr. lia.
Qed.

Lemma inv_set_ctl t st v :
  table_inv t -> storage_ok t st -> ctl_ok (session_epoch t) (storage_slot_index st) v ->
  table_inv (set_ctl st v t).
Proof.
  intros Hi Hst Hok. pose proof Hi as [Hrc Hmi He Hal Hsl Happ Hsys Hgl Hfl Hrt].
  destruct st as [i b | i]; split; simpl in *; rewrite ?length_insert; try done.
  - destruct Hst as [-> Hb]. intros j st' Hj.
    apply list_lookup_insert_Some in Hj as [(<- & <- & _) | [_ Hj]].
    + by rewrite Z2Nat.id by lia.
    + by apply Hsys.
  - by subst i.
Qed.

Lemma birth_ok_next e be bg g : birth_ok e be bg g -> birth_ok e be bg (g + 1).
Proof. unfold birth_ok. intros (? & ? & Hb). split_and!; try lia. Qed.

Lemma live_move_ok e i l (evs : list (event S C)) l' :
  app_ok e i (AppLive l) -> live_move e i l evs l' -> app_ok e i (AppLive l').
Proof.
  intros [Hid Hb] Hm. destruct Hm as [w Hw | | p id Hw (Hg & Hs & Hu & _)]; simpl; try done.
  rewrite Hg. split; [done |]. by apply birth_ok_next.
Qed.

Lemma occupied_move_ok e i o (evs : list (event S C)) o' :
  ctl_ok e i (CtlOccupied o) -> occupied_move e i o evs o' -> ctl_ok e i (CtlOccupied o').
Proof.
  intros [Hid Hb] Hm. destruct Hm as [w Hw | p id Hw (Hg & Hs & Hu & _)]; simpl; try done.
  rewrite Hg. split; [done |]. by apply birth_ok_next.
Qed.

Lemma admitted_birth e i g id : 1 <= e -> next_id i g id -> birth_ok e e (g + 1) (ReqId_generation id).
Proof. intros He (-> & _ & _ & Hg). unfold birth_ok. lia. Qed.

Lemma generation_max i id : id_ok i id -> ReqId_generation id <= REQ_GENERATION_MAX.
Proof.
  intros [[? ?] _]. rewrite ReqId_generation_div. change REQ_GENERATION_MAX with (2 ^ 40 - 1).
  unfold u64_max in *. assert (id / 2 ^ 24 < 2 ^ 40); [| lia]. apply Z.div_lt_upper_bound; lia.
Qed.

Lemma rebound_ok e j st st' :
  0 <= Z.of_nat j <= REQ_INDEX_MAX -> app_ok e (Z.of_nat j) st -> rebound j st st' ->
  app_ok (e + 1) (Z.of_nat j) st' /\ is_retired st' = false.
Proof.
  intros Hj Hok Hr.
  destruct st as [| n g | g | be bg e0 id | l]; simpl in Hr, Hok; try done.
  - destruct Hr as [m ->]. simpl. split; [| done].
    pose proof REQ_GENERATION_MAX_pos. lia.
  - destruct Hr as [m ->]. simpl. split; [| done].
    pose proof REQ_GENERATION_MAX_pos. lia.
  - subst st'. simpl. destruct Hok as (? & ? & ?). split; [| done]. split_and!; done || lia.
  - subst st'. simpl. destruct (ReqId_raw_slot_index (Z.of_nat j) Hj) as [Hs Hg].
    destruct Hok as (_ & Hb & Hg1 & _). split; [| done]. unfold id_ok, birth_ok, is_u64.
    rewrite Hs, Hg. change REQ_INDEX_MAX with 16777215 in Hj.
    unfold ReqId_from_raw, u64_max. split_and!; lia.
Qed.

Lemma controls_resolved_spec (l : list (ControlSlotState C)) :
  controls_resolved l = Ok tt -> forall st, st ∈ l -> forall o, st <> CtlOccupied o.
Proof.
  induction l as [| s l IH]; intros Hr st Hin o Hst; [by apply not_elem_of_nil in Hin |].
  subst st. apply elem_of_cons in Hin as [<- | Hin]; simpl in Hr; [by case_match |].
  destruct s; try (by eapply IH). by case_match.
Qed.

Lemma rebind_control_ok e i (st : ControlSlotState C) :
  (forall o, st <> CtlOccupied o) -> ctl_ok e i st -> ctl_ok (e + 1) i (rebind_control st).
Proof.
  intros Hn Hok. destruct st as [| g | g | lane be bg e0 id k | o]; pose proof REQ_GENERATION_MAX_pos;
    simpl in *; try done; try lia.
  - destruct Hok as (? & ? & ?). split_and!; done || lia.
  - by destruct (Hn o).
Qed.

Lemma inv_admit t i n g st :
  table_inv t -> free_head t = Some i -> 0 <= i -> app_slot t i = Some (AppFree n g) ->
  is_free st = false -> is_retired st = false -> app_ok (session_epoch t) i st ->
  table_inv (set_free_head n (set_app i st t)).
Proof.
  intros Hi Hh H0 Hs Hf Hr Hok. pose proof Hi as [Hrc Hmi He Hal Hsl Happ Hsys Hgl Hfl Hrt].
  split; simpl; rewrite ?length_insert; try done.
  - by apply app_ok_insert.
  - eapply free_list_pop; [exact Hs | done |]. by rewrite Z2Nat.id, <- Hh by done.
  - rewrite (count_retired_insert _ _ (AppFree n g)) by exact Hs. unfold retired_bit.
    rewrite Hr. simpl. lia.
Qed.

Lemma inv_release t i old g :
  table_inv t -> 0 <= i -> app_slot t i = Some old ->
  is_free old = false -> is_retired old = false -> 0 <= g < REQ_GENERATION_MAX ->
  table_inv (set_free_head (Some i) (set_app i (AppFree (free_head t) g) t)).
Proof.
  intros Hi H0 Hs Hf Hr Hok. pose proof Hi as [Hrc Hmi He Hal Hsl Happ Hsys Hgl Hfl Hrt].
  split; simpl; rewrite ?length_insert; try done.
  - by apply app_ok_insert.
  - pose proof (free_list_push _ _ _ old g Hs Hf Hfl) as Hp. by rewrite Z2Nat.id in Hp by done.
  - rewrite (count_retired_insert _ _ old) by exact Hs. unfold retired_bit. rewrite Hr. simpl. lia.
Qed.

Lemma inv_retire t i old g :
  table_inv t -> 0 <= i -> app_slot t i = Some old ->
  is_free old = false -> is_retired old = false -> g = REQ_GENERATION_MAX ->
  table_inv (set_quiesce (set_retired (saturating_add u32_max (application_retired t) 1)
    (set_app i (AppRetired g) t))).
Proof.
  intros Hi H0 Hs Hf Hr Hok. pose proof Hi as [Hrc Hmi He Hal Hsl Happ Hsys Hgl Hfl Hrt].
  assert (Hcount : count_retired (<[Z.to_nat i := AppRetired g]> (application t))
                   = count_retired (application t) + 1).
  { rewrite (count_retired_insert _ _ old) by exact Hs. unfold retired_bit. rewrite Hr. simpl. lia. }
  pose proof (count_retired_le (<[Z.to_nat i := AppRetired g]> (application t))) as Hle.
  rewrite length_insert in Hle.
  split; simpl; rewrite ?length_insert; try done.
  - by apply app_ok_insert.
  - by eapply free_list_update.
  - unfold saturating_add, u32_max. unfold MAX_INFLIGHT in Hmi. lia.
Qed.

Lemma rebind_post_of t app head :
  table_inv t ->
  rebind_applications (length (application t)) (application t) None = (app, head) ->
  rebind_post (length (application t)) (application t) app head.
Proof.
  intros Hi. pose proof (ti_inflight _ Hi) as Hmi. pose proof (ti_app_len _ Hi).
  unfold MAX_INFLIGHT in Hmi.
  apply (rebind_applications_spec _ _ None []); try done.
  - unfold u32_max. lia.
  - apply NoDup_nil_2.
  - intros j Hj. by apply not_elem_of_nil in Hj.
  - intros j st Hj Hl. apply lookup_lt_Some in Hl. lia.
Qed.

Lemma inv_rebind t app head :
  table_inv t -> session_epoch t + 1 <= u64_max ->
  controls_resolved (system t ++ [global t]) = Ok tt ->
  rebind_applications (length (application t)) (application t) None = (app, head) ->
  table_inv (mkTable (table_id t) (session_epoch t + 1) (topology t) app
    (rebind_control <$> system t) (rebind_control (global t)) head 0 Active false).
Proof.
  intros Hi He Hc Hr. pose proof Hi as [Hrc Hmi Hep Hal Hsl Happ Hsys Hgl Hfl Hrt].
  pose proof (controls_resolved_spec _ Hc) as Hno. unfold MAX_INFLIGHT in Hmi.
  destruct (rebind_post_of t app head Hi Hr) as (Hlen & Hfl' & _ & Hreb).
  assert (Hslot : forall j st', app !! j = Some st' ->
    app_ok (session_epoch t + 1) (Z.of_nat j) st' /\ is_retired st' = false).
  { intros j st' Hj. pose proof (lookup_lt_Some _ _ _ Hj).
    destruct (lookup_lt_is_Some_2 (application t) j ltac:(lia)) as [st Hst].
    destruct (Hreb j st Hst ltac:(lia)) as (st2 & Hst2 & Hb). simplify_eq.
    eapply rebound_ok; [change REQ_INDEX_MAX with 16777215; lia | by apply Happ | done]. }
  split; simpl; rewrite ?length_fmap; try done; try lia.
  - intros j st Hj. by apply Hslot.
  - intros b st Hb. rewrite list_lookup_fmap in Hb.
    destruct (system t !! b) as [s0 |] eqn:Hs0; simplify_eq/=.
    apply rebind_control_ok; [| by apply Hsys]. apply Hno. apply elem_of_app. left.
    by eapply list_elem_of_lookup_2.
  - apply rebind_control_ok; [| done]. apply Hno. apply elem_of_app. right. by left.
  - symmetry. apply count_retired_zero. intros j st Hj. by apply (Hslot j st).
Qed.

Lemma trans_inv t evs t' : table_inv t -> trans t evs t' -> table_inv t'.
Proof.
  intros Hi Ht. destruct Ht as [b | m Hm | i n g id p owner Hm Hh H0 Hs Hn l0 | b i l evs l' H0 Hs Hmv
    | i l H0 Hs | i be bg e id g H0 Hs Hg | i be bg id H0 Hs Hg
    | st lane g id p c Hm Hst Hs Hl Hn o0 | b st o evs o' Hst Hs Hmv | st o k Hst Hs
    | b st lane be bg e id k s' Hst Hs Hg | app head Hm He Ha Hc Hr].
  - by apply inv_quiesce.
  - destruct Hi. by split.
  - apply (inv_admit t i n g); try done. subst l0. simpl.
    destruct (app_slot_lt t i _ Hi H0 Hs) as (_ & _ & Hok).
    pose proof (admitted_birth _ i g id (proj1 (ti_epoch _ Hi)) Hn). destruct Hn as (? & ? & ? & ?).
    split; [done | done].
  - apply inv_quiesce. destruct (app_slot_lt t i _ Hi H0 Hs) as (_ & _ & Hok).
    eapply inv_set_app; try done. by eapply live_move_ok.
  - destruct (app_slot_lt t i _ Hi H0 Hs) as (_ & _ & Hid & Hb).
    pose proof (ti_epoch _ Hi). eapply inv_set_app; try done. simpl. split_and!; done || lia.
  - destruct (app_slot_lt t i _ Hi H0 Hs) as (_ & _ & Hid & _).
    pose proof (generation_nonneg _ _ Hid). pose proof (generation_max _ _ Hid).
    pose proof REQ_GENERATION_MAX_pos.
    apply (inv_release t i (AppTerminalizing be bg e id)); try done.
    destruct (e =? session_epoch t); lia.
  - apply (inv_retire t i (AppTerminalizing be bg (session_epoch t) id)); done.
  - apply inv_set_ctl; [done | done |]. subst o0. simpl.
    pose proof (admitted_birth _ (storage_slot_index st) g id (proj1 (ti_epoch _ Hi)) Hn).
    destruct Hn as (? & ? & ? & ?). split; done.
  - apply inv_quiesce, inv_set_ctl; [done | done |].
    destruct (ctl_slot_ok _ _ _ Hi Hst Hs) as [_ Hok]. by eapply occupied_move_ok.
  - destruct (ctl_slot_ok _ _ _ Hi Hst Hs) as [_ [Hid Hb]]. pose proof (ti_epoch _ Hi).
    apply inv_set_ctl; [done | done |]. simpl. split_and!; done || lia.
  - destruct (ctl_slot_ok _ _ _ Hi Hst Hs) as [_ [Hid Hb]].
    pose proof (generation_nonneg _ _ Hid). pose proof (generation_max _ _ Hid).
    pose proof REQ_GENERATION_MAX_pos.
    apply inv_quiesce, inv_set_ctl; [done | done |].
    destruct (e =? session_epoch t); subst s'; [| simpl; lia].
    destruct (Z.eqb_spec (ReqId_generation id) REQ_GENERATION_MAX); simpl; lia.
  - by apply (inv_rebind t app head).
Qed.
End Invariant.
