(* ===== verification/ReqTabSpec.v ===== *)
(** * The request table: what its clients can rely on

    Theorems over every sequence of operations on a fresh table: request ids
    are never reissued, each is captured at most once, every completion owner
    and every continuation is handed back exactly once, dead keys stay dead,
    admission fails only for the reasons it names, and draining ends with
    nothing live. *)

From S2P Require Import Prelude Ids Slots Control Messages ReqTab ReqTabInv.

Section Views.
Context {S C : Type} `{CompletionSink S}.
Abbreviation table := (RequestTable S C).
Implicit Types (t : table) (l : LiveApplication S) (o : OccupiedControl C).

(** The generation a slot has reached in session [epoch], and whether its
    current request id can still be captured. *)
Definition app_view (epoch : Z) (st : ApplicationSlotState S) : Z * bool :=
  match st with
  | AppPristine => (0, false)
  | AppFree _ g | AppRetired g => (g, false)
  | AppTerminalizing _ _ e id => (if e =? epoch then ReqId_generation id else 0, false)
  | AppLive l => (ReqId_generation (lv_req_id l), capturable (lv_wire_state l))
  end.

Definition ctl_view (epoch : Z) (st : ControlSlotState C) : Z * bool :=
  match st with
  | CtlPristine => (0, false)
  | CtlAvailable g | CtlRetired g => (g, false)
  | CtlTerminalizing _ _ _ e id _ => (if e =? epoch then ReqId_generation id else 0, false)
  | CtlOccupied o => (ReqId_generation (oc_req_id o), capturable (oc_wire_state o))
  end.

(** The view of request index [idx], application and control slots alike. *)
Definition view t (idx : Z) : Z * bool :=
  if idx =? GLOBAL_EXTERNAL_CHANGE_ACK_REQID then ctl_view (session_epoch t) (global t)
  else if SYSTEM_REQID_BASE <=? idx then
    from_option (ctl_view (session_epoch t)) (0, false)
      (system t !! Z.to_nat (idx - SYSTEM_REQID_BASE))
  else from_option (app_view (session_epoch t)) (0, false) (application t !! Z.to_nat idx).

(** Views only move forward within a session. *)
Definition advance (v v' : Z * bool) : Prop :=
  v.1 < v'.1 \/ (v.1 = v'.1 /\ (v'.2 = true -> v.2 = true)).

Lemma advance_refl v : advance v v.
Proof. right. by split. Qed.

(** Only index [i] changed, to view [v]. *)
Definition view_update t t' (i : Z) (v : Z * bool) : Prop :=
  session_epoch t' = session_epoch t /\
  forall idx, 0 <= idx -> view t' idx = if idx =? i then v else view t idx.

Lemma view_quiesce b t idx : view (maybe_quiesce b t) idx = view t idx.
Proof. by destruct b. Qed.

Lemma view_app t i st :
  table_inv t -> 0 <= i -> app_slot t i = Some st -> view t i = app_view (session_epoch t) st.
Proof.
  intros Hi H0 Hs. destruct (app_slot_lt t i st Hi H0 Hs) as (Hlt & _ & _).
  pose proof (ti_inflight _ Hi). unfold view, app_slot in *.
  unfold GLOBAL_EXTERNAL_CHANGE_ACK_REQID, SYSTEM_REQID_BASE, MAX_INFLIGHT in *.
  rewrite (proj2 (Z.eqb_neq _ _)), (proj2 (Z.leb_gt _ _)) by lia. by rewrite Hs.
Qed.

Lemma view_set_app t i old st :
  table_inv t -> 0 <= i -> app_slot t i = Some old ->
  view_update t (set_app i st t) i (app_view (session_epoch t) st).
Proof.
  intros Hi H0 Hs. destruct (app_slot_lt t i old Hi H0 Hs) as (Hlt & _ & _).
  pose proof (ti_inflight _ Hi). split; [done |]. intros idx Hx. unfold view; simpl.
  unfold GLOBAL_EXTERNAL_CHANGE_ACK_REQID, SYSTEM_REQID_BASE, MAX_INFLIGHT in *.
  destruct (Z.eqb_spec idx i) as [-> | Hne].
  - rewrite (proj2 (Z.eqb_neq _ _)), (proj2 (Z.leb_gt _ _)) by lia.
    rewrite list_lookup_insert_eq; [done |]. by eapply lookup_lt_Some.
  - repeat case_match; try done. bools. rewrite list_lookup_insert_ne by lia. done.
Qed.

Lemma storage_range t st :
  table_inv t -> storage_ok t st ->
  match st with
  | StSystem i b => i = SYSTEM_REQID_BASE + b /\ 0 <= b < Z.of_nat (length (system t)) /\
                    i < GLOBAL_EXTERNAL_CHANGE_ACK_REQID
  | StGlobal i => i = GLOBAL_EXTERNAL_CHANGE_ACK_REQID
  end.
Proof.
  intros Hi. pose proof (ti_sys_len _ Hi). pose proof (ti_rings _ Hi).
  unfold GLOBAL_EXTERNAL_CHANGE_ACK_REQID, SYSTEM_REQID_BASE, MAX_RING_COUNT in *.
  destruct st; simpl; [| done]. unfold SYSTEM_REQID_BASE. lia.
Qed.

Lemma view_ctl t st v :
  table_inv t -> storage_ok t st -> control_slot t st = Some v ->
  view t (storage_slot_index st) = ctl_view (session_epoch t) v.
Proof.
  intros Hi Hst Hs. pose proof (storage_range t st Hi Hst) as Hr. unfold view.
  destruct st as [i b | i]; simpl in *.
  - destruct Hr as (-> & Hb & Hg). rewrite (proj2 (Z.eqb_neq _ _)), (proj2 (Z.leb_le _ _)) by lia.
    replace (SYSTEM_REQID_BASE + b - SYSTEM_REQID_BASE) with b by lia. by rewrite Hs.
  - subst i. by simplify_eq.
Qed.

Lemma view_set_ctl t st v :
  table_inv t -> storage_ok t st ->
  view_update t (set_ctl st v t) (storage_slot_index st) (ctl_view (session_epoch t) v).
Proof.
  intros Hi Hst. pose proof (storage_range t st Hi Hst) as Hr.
  assert (Hbase : SYSTEM_REQID_BASE <= GLOBAL_EXTERNAL_CHANGE_ACK_REQID) by done.
  split; [by destruct st |]. intros idx Hx. unfold view.
  destruct st as [i b | i]; simpl in *.
  - destruct Hr as (-> & Hb & Hg). destruct (Z.eqb_spec idx (SYSTEM_REQID_BASE + b)) as [-> | Hne].
    + rewrite (proj2 (Z.eqb_neq _ _)), (proj2 (Z.leb_le _ _)) by lia.
      replace (SYSTEM_REQID_BASE + b - SYSTEM_REQID_BASE) with b by lia.
      rewrite list_lookup_insert_eq by lia. done.
    + repeat case_match; try done. bools. rewrite list_lookup_insert_ne by lia. done.
  - subst i. by destruct (Z.eqb_spec idx GLOBAL_EXTERNAL_CHANGE_ACK_REQID).
Qed.

(** What one event says about the views around the step that emitted it. *)
Definition event_ok t t' (ev : event S C) : Prop :=
  match ev with
  | EvIssue e id => e = session_epoch t /\ (view t (ReqId_slot_index id)).1 + 1 = ReqId_generation id /\
                    view t' (ReqId_slot_index id) = (ReqId_generation id, true)
  | EvCapture e id => e = session_epoch t /\
                    view t (ReqId_slot_index id) = (ReqId_generation id, true) /\
                    view t' (ReqId_slot_index id) = (ReqId_generation id, false)
  | _ => True
  end.

(** A capturable view is old, or was issued by this step. *)
Definition origin t (evs : list (event S C)) (idx : Z) (v : Z * bool) : Prop :=
  v.2 = true -> view t idx = v \/
  exists id, EvIssue (session_epoch t) id ∈ evs /\ ReqId_slot_index id = idx /\
    ReqId_generation id = v.1.

(** A step either stays in the session, where views advance, or opens the next,
    where nothing is capturable. *)
Definition step_ok t (evs : list (event S C)) t' : Prop :=
  (session_epoch t' = session_epoch t /\
   (forall idx, 0 <= idx -> advance (view t idx) (view t' idx) /\ origin t evs idx (view t' idx)) /\
   Forall (event_ok t t') evs) \/
  (session_epoch t' = session_epoch t + 1 /\ evs = [] /\
   forall idx, 0 <= idx -> (view t' idx).2 = false).

Lemma step_ok_update t t' i v evs :
  view_update t t' i v -> advance (view t i) v -> origin t evs i v ->
  Forall (event_ok t t') evs -> step_ok t evs t'.
Proof.
  intros [He Hv] Ha Ho Hf. left. split_and!; try done. intros idx Hx. rewrite Hv by done.
  destruct (Z.eqb_spec idx i) as [-> | _]; [done |].
  split; [apply advance_refl | intros _; by left].
Qed.

Lemma wire_step_capturable w w' : wire_step w w' -> capturable w' = true -> capturable w = true.
Proof. by destruct 1. Qed.

Lemma wire_capture_ok t t' i id w w' :
  0 <= i -> ReqId_slot_index id = i -> wire_step w w' ->
  view t i = (ReqId_generation id, capturable w) ->
  view_update t t' i (ReqId_generation id, capturable w') ->
  Forall (event_ok t t') (capture_event (session_epoch t) id w').
Proof.
  intros H0 Hid Hw Hv [_ Hu]. destruct Hw; simpl; constructor; [| constructor].
  simpl. rewrite Hid, Hv, Hu, Z.eqb_refl by done. done.
Qed.

Lemma issue_ok t t' i g id :
  0 <= i -> next_id i g id -> (view t i).1 = g ->
  view_update t t' i (ReqId_generation id, true) -> event_ok t t' (EvIssue (session_epoch t) id).
Proof.
  intros H0 (Hg & Hs & _) Hv [_ Hu]. simpl. rewrite Hs, Hv, Hu, Z.eqb_refl, Hg by done. done.
Qed.

Lemma live_move_view t t' i l evs l' :
  0 <= i -> ReqId_slot_index (lv_req_id l) = i ->
  view t i = app_view (session_epoch t) (AppLive l) ->
  view_update t t' i (app_view (session_epoch t) (AppLive l')) ->
  live_move (session_epoch t) i l evs l' ->
  advance (view t i) (app_view (session_epoch t) (AppLive l')) /\
  origin t evs i (app_view (session_epoch t) (AppLive l')) /\ Forall (event_ok t t') evs.
Proof.
  intros H0 Hid Hv Hu Hm. unfold origin. rewrite Hv.
  destruct Hm as [w Hw | | p id Hw Hn]; simpl in *; split_and!.
  - right. split; [done |]. by apply wire_step_capturable.
  - intros Hc. left. by rewrite Hc, (wire_step_capturable _ _ Hw Hc).
  - by eapply wire_capture_ok.
  - apply advance_refl.
  - by left.
  - constructor.
  - left. simpl. destruct Hn as (-> & _). lia.
  - intros _. right. exists id. destruct Hn as (_ & ? & _). split_and!; [by left | done | done].
  - constructor; [| constructor]. by eapply issue_ok; [| | rewrite Hv |].
Qed.

Lemma occupied_move_view t t' i o evs o' :
  0 <= i -> ReqId_slot_index (oc_req_id o) = i ->
  view t i = ctl_view (session_epoch t) (CtlOccupied o) ->
  view_update t t' i (ctl_view (session_epoch t) (CtlOccupied o')) ->
  occupied_move (session_epoch t) i o evs o' ->
  advance (view t i) (ctl_view (session_epoch t) (CtlOccupied o')) /\
  origin t evs i (ctl_view (session_epoch t) (CtlOccupied o')) /\ Forall (event_ok t t') evs.
Proof.
  intros H0 Hid Hv Hu Hm. unfold origin. rewrite Hv.
  destruct Hm as [w Hw | p id Hw Hn]; simpl in *; split_and!.
  - right. split; [done |]. by apply wire_step_capturable.
  - intros Hc. left. by rewrite Hc, (wire_step_capturable _ _ Hw Hc).
  - by eapply wire_capture_ok.
  - left. simpl. destruct Hn as (-> & _). lia.
  - intros _. right. exists id. destruct Hn as (_ & ? & _). split_and!; [by left | done | done].
  - constructor; [| constructor]. by eapply issue_ok; [| | rewrite Hv |].
Qed.

Lemma update_quiesce b t t' i v : view_update t t' i v -> view_update t (maybe_quiesce b t') i v.
Proof. by destruct b. Qed.

Lemma applications_resolved_spec (app : list (ApplicationSlotState S)) :
  applications_resolved app = Ok tt -> forall i l, app !! i = Some (AppLive l) ->
  lv_wire_state l = BetweenPhases \/ lv_wire_state l = Quarantined \/
  lv_wire_state l = WireGenerationExhausted.
Proof.
  induction app as [| st app IH]; intros Hr i l Hi; [done |].
  destruct i as [| i]; simpl in Hi; simplify_eq; simpl in Hr.
  - destruct (lv_wire_state l); auto; done.
  - eapply IH; [| done]. destruct st; try done. by case_match.
Qed.

(** After rebinding no request id is visible. *)
Lemma rebind_not_capturable t app head :
  table_inv t -> applications_resolved (application t) = Ok tt ->
  controls_resolved (system t ++ [global t]) = Ok tt ->
  rebind_applications (length (application t)) (application t) None = (app, head) ->
  forall idx, 0 <= idx ->
    (view (mkTable (table_id t) (session_epoch t + 1) (topology t) app
       (rebind_control <$> system t) (rebind_control (global t)) head 0 Active false) idx).2 = false.
Proof.
  intros Hi Ha Hc Hr idx Hx. pose proof (controls_resolved_spec _ Hc) as Hno.
  assert (Hctl : forall st, st ∈ system t ++ [global t] ->
    (ctl_view (session_epoch t + 1) (rebind_control st)).2 = false).
  { intros st Hst. specialize (Hno st Hst). destruct st; try done. by destruct (Hno occupied). }
  unfold view; simpl. repeat case_match.
  - apply Hctl, elem_of_app. right. by left.
  - rewrite list_lookup_fmap.
    destruct (system t !! _) as [st |] eqn:Hs; [| done]. simpl. apply Hctl, elem_of_app. left.
    by eapply list_elem_of_lookup_2.
  - destruct (app !! Z.to_nat idx) as [st' |] eqn:Hs; [| done]. simpl.
    destruct (rebind_post_of t app head Hi Hr) as (Hlen & _ & _ & Hreb).
    pose proof (lookup_lt_Some _ _ _ Hs).
    destruct (lookup_lt_is_Some_2 (application t) (Z.to_nat idx) ltac:(lia)) as [st Hst].
    destruct (Hreb _ st Hst ltac:(lia)) as (st2 & Hst2 & Hb).
    assert (st2 = st') as -> by congruence.
    destruct st as [| nf g | g | | l]; simpl in Hb;
      [by subst | by destruct Hb as [? ->] | by destruct Hb as [? ->] | by subst |]. subst st'.
    destruct (applications_resolved_spec _ Ha _ _ Hst) as [E | [E | E]];
      unfold rebind_live; simpl; by rewrite E.
Qed.

Lemma trans_step_ok t evs t' : table_inv t -> trans t evs t' -> step_ok t evs t'.
Proof.
  intros Hi Ht. destruct Ht as [b | m Hm | i n g id p owner Hm Hh H0 Hs Hn l0 | b i l evs l' H0 Hs Hmv
    | i l H0 Hs | i be bg e id g H0 Hs Hg | i be bg id H0 Hs Hg
    | st lane g id p c Hm Hst Hs Hl Hn o0 | b st o evs o' Hst Hs Hmv | st o k Hst Hs
    | b st lane be bg e id k s' Hst Hs Hg | app head Hm He Ha Hc Hr].
  - left. split_and!; [by destruct b | | constructor].
    intros idx _. rewrite view_quiesce. split; [apply advance_refl | intros _; by left].
  - left. split_and!; [done | | constructor]. intros idx _. split; [apply advance_refl | intros _; by left].
  - pose proof (view_app t i _ Hi H0 Hs) as Hv.
    pose proof (view_set_app t i _ (AppLive l0) Hi H0 Hs) as Hu.
    apply (step_ok_update t _ i (app_view (session_epoch t) (AppLive l0)) _ Hu).
    + left. rewrite Hv. simpl. destruct Hn as (-> & _). lia.
    + intros _. right. exists id. destruct Hn as (_ & ? & _). split_and!; [by left | done | done].
    + constructor; [| by constructor]. by eapply issue_ok; [| | rewrite Hv |].
  - pose proof (view_app t i _ Hi H0 Hs) as Hv.
    pose proof (view_set_app t i _ (AppLive l') Hi H0 Hs) as Hu.
    destruct (app_slot_lt t i _ Hi H0 Hs) as (_ & _ & [_ Hid] & _).
    apply (update_quiesce b) in Hu.
    destruct (live_move_view t _ i l evs l' H0 Hid Hv Hu Hmv) as (Hadv & Hor & Hev).
    by apply (step_ok_update t _ i _ _ Hu).
  - pose proof (view_app t i _ Hi H0 Hs) as Hv.
    eapply step_ok_update; [by eapply view_set_app | | done | by constructor].
    rewrite Hv. simpl. rewrite Z.eqb_refl. by right.
  - pose proof (view_app t i _ Hi H0 Hs) as Hv.
    eapply (step_ok_update t _ i (g, false));
      [exact (view_set_app t i _ (AppFree (free_head t) g) Hi H0 Hs) | | done | constructor].
    rewrite Hv. simpl. right. simpl. destruct (e =? session_epoch t); [| done].
    by destruct Hg as [_ ->].
  - pose proof (view_app t i _ Hi H0 Hs) as Hv.
    eapply (step_ok_update t _ i (ReqId_generation id, false));
      [exact (view_set_app t i _ (AppRetired (ReqId_generation id)) Hi H0 Hs) | | done | constructor].
    rewrite Hv. simpl. rewrite Z.eqb_refl. by right.
  - pose proof (view_ctl t st _ Hi Hst Hs) as Hv.
    pose proof (view_set_ctl t st (CtlOccupied o0) Hi Hst) as Hu.
    destruct (ctl_slot_ok t st _ Hi Hst Hs) as [Hr _].
    apply (step_ok_update t _ _ _ _ Hu).
    + left. rewrite Hv. simpl. destruct Hn as (-> & _). lia.
    + intros _. right. exists id. destruct Hn as (_ & ? & _). split_and!; [by left | done | done].
    + constructor; [| by constructor]. by eapply (issue_ok t _ (storage_slot_index st) g); [lia | | rewrite Hv |].
  - pose proof (view_ctl t st _ Hi Hst Hs) as Hv.
    pose proof (view_set_ctl t st (CtlOccupied o') Hi Hst) as Hu.
    destruct (ctl_slot_ok t st _ Hi Hst Hs) as [Hr [[_ Hid] _]].
    apply (update_quiesce b) in Hu.
    destruct (occupied_move_view t _ _ o evs o' (proj1 Hr) Hid Hv Hu Hmv) as (Hadv & Hor & Hev).
    by apply (step_ok_update t _ _ _ _ Hu).
  - pose proof (view_ctl t st _ Hi Hst Hs) as Hv.
    eapply step_ok_update; [by apply view_set_ctl | | done | by constructor].
    rewrite Hv. simpl. rewrite Z.eqb_refl. by right.
  - pose proof (view_ctl t st _ Hi Hst Hs) as Hv.
    eapply step_ok_update; [apply update_quiesce; by apply view_set_ctl | | | constructor];
      [| by destruct (e =? session_epoch t); subst s'; [case_match |]].
    rewrite Hv. simpl. right. destruct (e =? session_epoch t); subst s'; [| done].
    by case_match.
  - right. split_and!; [done | done |]. by apply rebind_not_capturable.
Qed.
End Views.

(** ** Fresh tables *)

Section Fresh.
Context {S C : Type} `{CompletionSink S}.
Abbreviation table := (RequestTable S C).
Implicit Types (t : table).

(** A table as the driver builds it: a topology accepted by [try_new] of the
    topology, and slots accepted by [try_new] of the table. *)
Definition fresh_table t : Prop :=
  exists next next' rc mi topo epoch (app : list (ApplicationSlotState S)) sys glob,
    is_u32 rc /\ is_u32 mi /\ 1 <= epoch <= u64_max /\
    RequestTopology_try_new rc mi = Ok topo /\
    try_new next epoch topo app sys glob = (next', Ok t).

Lemma topology_try_new_Ok rc mi topo :
  is_u32 rc -> is_u32 mi -> RequestTopology_try_new rc mi = Ok topo ->
  topo = mkTopology rc mi /\ MIN_RING_COUNT <= rc <= MAX_RING_COUNT /\ 0 < mi <= MAX_INFLIGHT.
Proof.
  unfold is_u32. intros Hr Hm Ht. unfold RequestTopology_try_new in Ht.
  destruct (_ || _) eqn:E1 in Ht; [done |]. destruct (_ || _) eqn:E2 in Ht; [done |]. bools.
  split_and!; try lia. repeat case_match; by simplify_eq.
Qed.

Lemma chain_initial (n : nat) (app : list (ApplicationSlotState S)) :
  Z.of_nat n <= u32_max -> length app = n -> forall m k, (k + m = n)%nat ->
  chain (imap (fun i _ => initial_free (S := S) (Z.of_nat n) i) app)
    (if Z.of_nat k <? Z.of_nat n then Some (Z.of_nat k) else None) (seq k m).
Proof.
  intros Hn Hl m. induction m as [| m IH]; intros k Hk; simpl.
  - by rewrite (proj2 (Z.ltb_ge _ _)) by lia.
  - rewrite (proj2 (Z.ltb_lt _ _)) by lia. split; [done |].
    destruct (lookup_lt_is_Some_2 app k ltac:(lia)) as [x Hx].
    eexists _, _. split; [rewrite list_lookup_imap, Hx; reflexivity |].
    assert (checked_add u32_max (Z.of_nat k) 1 = Some (Z.of_nat (Datatypes.S k))) as ->
      by (apply checked_add_Some; lia).
    apply IH. lia.
Qed.

Lemma fresh_table_inv t : fresh_table t -> table_inv t.
Proof.
  intros (next & next' & rc & mi & topo & epoch & app & sys & glob & Hrc & Hmi & He & Ht & Hn).
  destruct (topology_try_new_Ok rc mi topo Hrc Hmi Ht) as (-> & Hr & Hm).
  unfold try_new in Hn. simpl in Hn.
  destruct (u32_max <? _) eqn:E0 in Hn; [done |]. destruct (negb _) eqn:E1 in Hn; [done |].
  destruct (checked_mul _ _ _) as [sl |] eqn:E2 in Hn; [| done].
  destruct (negb _) eqn:E3 in Hn; [done |]. do 3 (destruct (_ : bool) in Hn; [done |]).
  destruct (allocate_table_id next) as [? [id |]] in Hn; simplify_eq. bools.
  apply checked_mul_Some in E2 as [-> _]. pose proof REQ_GENERATION_MAX_pos.
  unfold SYSTEM_REQUEST_SLOTS_PER_RING, MIN_RING_COUNT, MAX_INFLIGHT in *.
  assert (Hslot : forall i st, imap (fun i _ => initial_free (S := S) (Z.of_nat (length app)) i) app !! i
    = Some st -> exists n, st = AppFree n 0).
  { intros i st Hi. rewrite list_lookup_imap in Hi.
    destruct (app !! i); simplify_eq/=. unfold initial_free. eauto. }
  split; simpl; rewrite ?length_imap, ?length_fmap; try done; try lia.
  - intros i st Hi. destruct (Hslot i st Hi) as [n ->]. simpl. lia.
  - intros b st Hb. rewrite list_lookup_fmap in Hb.
    destruct (sys !! b); simplify_eq/=. lia.
  - exists (seq 0 (length app)). split_and!.
    + pose proof (chain_initial (length app) app ltac:(lia) eq_refl (length app) 0%nat eq_refl) as Hc.
      by rewrite (proj2 (Z.ltb_lt _ _)) in Hc by lia.
    + apply NoDup_ListNoDup, seq_NoDup.
    + intros i st Hi _. apply lookup_lt_Some in Hi. rewrite length_imap in Hi.
      apply list_elem_of_In, in_seq. lia.
  - symmetry. apply count_retired_zero. intros i st Hi. by destruct (Hslot i st Hi) as [n ->].
Qed.

Lemma fresh_shape t :
  fresh_table t ->
  (forall i st, application t !! i = Some st -> exists n, st = AppFree n 0) /\
  (forall st, st ∈ system t ++ [global t] -> st = CtlAvailable 0).
Proof.
  intros (next & next' & rc & mi & topo & epoch & app & sys & glob & _ & _ & _ & _ & Hn).
  unfold try_new in Hn. repeat case_match; simplify_eq/=. split.
  - intros i st Hi. rewrite list_lookup_imap in Hi.
    destruct (app !! i); simplify_eq/=. unfold initial_free. eauto.
  - intros st [Hst | Hst]%elem_of_app.
    + by apply list_elem_of_fmap in Hst as (? & -> & _).
    + by apply list_elem_of_singleton in Hst.
Qed.

Lemma run_op_inv t a t' evs :
  table_inv t -> op_ok a -> run_op t a = (t', evs) -> table_inv t'.
Proof. intros Hi Hk Hr. by eapply trans_inv, run_op_trans. Qed.

Lemma run_ops_inv ops : forall t t' evs,
  table_inv t -> Forall op_ok ops -> run_ops t ops = (t', evs) -> table_inv t'.
Proof.
  induction ops as [| a ops IH]; intros t t' evs Hi Hf Hr; simpl in Hr; [by simplify_eq |].
  apply list.Forall_cons in Hf as [Ha Hf].
  destruct (run_op t a) as [t1 evs1] eqn:E1. destruct (run_ops t1 ops) as [t2 evs2] eqn:E2.
  simplify_eq. eapply IH; [| done | done]. by eapply run_op_inv.
Qed.
End Fresh.

(** ** Issue and capture *)

Section Identity.
Context {S C : Type} `{CompletionSink S}.
Abbreviation table := (RequestTable S C).
Implicit Types (t : table) (x : Z * ReqId).

Definition issues (evs : list (event S C)) : list (Z * ReqId) :=
  omap (fun ev => match ev with EvIssue e id => Some (e, id) | _ => None end) evs.
Definition captures (evs : list (event S C)) : list (Z * ReqId) :=
  omap (fun ev => match ev with EvCapture e id => Some (e, id) | _ => None end) evs.

Lemma elem_of_issues x evs : x ∈ issues evs <-> EvIssue x.1 x.2 ∈ evs.
Proof.
  unfold issues. rewrite list_elem_of_omap. destruct x as [e id]. split.
  - intros ([] & Hin & Hx); by simplify_eq.
  - intros Hin. eexists. split; [done |]. done.
Qed.
Lemma elem_of_captures x evs : x ∈ captures evs <-> EvCapture x.1 x.2 ∈ evs.
Proof.
  unfold captures. rewrite list_elem_of_omap. destruct x as [e id]. split.
  - intros ([] & Hin & Hx); by simplify_eq.
  - intros Hin. eexists. split; [done |]. done.
Qed.

(** Not yet issued at [t]; not yet captured at [t]. *)
Definition unissued t x : Prop :=
  session_epoch t < x.1 \/
  (session_epoch t = x.1 /\ (view t (ReqId_slot_index x.2)).1 < ReqId_generation x.2).
Definition uncaptured t x : Prop :=
  unissued t x \/
  (session_epoch t = x.1 /\ view t (ReqId_slot_index x.2) = (ReqId_generation x.2, true)).

Lemma unissued_back t evs t' x : step_ok t evs t' -> unissued t' x -> unissued t x.
Proof.
  unfold unissued. intros [(He & Ha & _) | [He _]]; rewrite He; [| lia].
  intros [Hx | [Hx Hg]]; [by left | right]. split; [done |].
  destruct (Ha (ReqId_slot_index x.2) (slot_index_nonneg _)) as [[? | [? _]] _]; lia.
Qed.

Lemma uncaptured_back t evs t' x : step_ok t evs t' -> uncaptured t' x -> uncaptured t x.
Proof.
  intros Hs [Hu | [Hx Hv]]; [left; by eapply unissued_back |].
  destruct Hs as [(He & Ha & _) | [He _]]; [| left; left; lia].
  destruct (Ha (ReqId_slot_index x.2) (slot_index_nonneg _)) as [[Hlt | [Heq Hb]] _];
    rewrite Hv in *; simpl in *.
  - left. right. split; [congruence | done].
  - right. split; [congruence |]. destruct (view t (ReqId_slot_index x.2)) as [g b].
    simpl in *. f_equal; [done | by apply Hb].
Qed.

Lemma step_issues t evs t' x :
  step_ok t evs t' -> x ∈ issues evs -> unissued t x /\ ~ unissued t' x.
Proof.
  intros [(He & _ & Hf) | (_ & -> & _)] Hx; [| by apply not_elem_of_nil in Hx].
  apply elem_of_issues in Hx. apply (proj1 (list.Forall_forall _ _) Hf) in Hx as (Hx & Hg & Hv).
  unfold unissued. rewrite He, Hv. simpl. lia.
Qed.

Lemma step_captures t evs t' x :
  step_ok t evs t' -> x ∈ captures evs -> uncaptured t x /\ ~ uncaptured t' x.
Proof.
  intros [(He & _ & Hf) | (_ & -> & _)] Hx; [| by apply not_elem_of_nil in Hx].
  apply elem_of_captures in Hx. apply (proj1 (list.Forall_forall _ _) Hf) in Hx as (He' & Hv & Hv').
  split; [right; done |]. unfold uncaptured, unissued. rewrite He, Hv'. simpl.
  intros [? | [_ ?]]; [lia | done].
Qed.

(** A step emits at most one issue and at most one capture. *)
Lemma trans_events t evs t' :
  trans t evs t' -> (length (issues evs) <= 1)%nat /\ (length (captures evs) <= 1)%nat.
Proof.
  intros Ht. destruct Ht as [| | | b i l evs l' H0 Hs Hmv | | | | | b st o evs o' Hst Hs Hmv | | |];
    simpl; try lia; destruct Hmv; try match goal with H : wire_step _ _ |- _ => destruct H end;
    simpl; lia.
Qed.

Lemma NoDup_short {A} (l : list A) : (length l <= 1)%nat -> NoDup l.
Proof. destruct l as [| a [| b l]]; simpl; intros; [constructor | apply NoDup_singleton | lia]. Qed.

Lemma run_ops_fresh ops : forall t t' evs,
  table_inv t -> Forall op_ok ops -> run_ops t ops = (t', evs) ->
  NoDup (issues evs) /\ (forall x, x ∈ issues evs -> unissued t x) /\
  NoDup (captures evs) /\ (forall x, x ∈ captures evs -> uncaptured t x).
Proof.
  induction ops as [| a ops IH]; intros t t' evs Hi Hf Hr; simpl in Hr.
  { simplify_eq. split_and!; try apply NoDup_nil_2; intros x Hx; by apply not_elem_of_nil in Hx. }
  apply list.Forall_cons in Hf as [Ha Hf].
  destruct (run_op t a) as [t1 evs1] eqn:E1. destruct (run_ops t1 ops) as [t2 evs2] eqn:E2.
  simplify_eq. pose proof (run_op_trans _ _ _ _ Hi Ha E1) as Htr.
  pose proof (trans_step_ok _ _ _ Hi Htr) as Hs. destruct (trans_events _ _ _ Htr) as [Hl1 Hl2].
  destruct (IH t1 _ _ (trans_inv _ _ _ Hi Htr) Hf E2) as (Hn1 & Hu1 & Hn2 & Hu2).
  unfold issues, captures in *. rewrite !omap_app. split_and!.
  - apply list.NoDup_app. split_and!; [by apply NoDup_short | | done].
    intros x Hx Hx'. destruct (step_issues _ _ _ x Hs Hx) as [_ Hno]. by apply Hno, Hu1.
  - intros x [Hx | Hx]%elem_of_app; [by apply (step_issues _ _ _ x Hs) | eapply unissued_back; eauto].
  - apply list.NoDup_app. split_and!; [by apply NoDup_short | | done].
    intros x Hx Hx'. destruct (step_captures _ _ _ x Hs Hx) as [_ Hno]. by apply Hno, Hu2.
  - intros x [Hx | Hx]%elem_of_app; [by apply (step_captures _ _ _ x Hs) | eapply uncaptured_back; eauto].
Qed.

(** Every capturable request id of [t] is among [known]. *)
Definition known_issued t (known : list (Z * ReqId)) : Prop :=
  forall id, view t (ReqId_slot_index id) = (ReqId_generation id, true) -> (session_epoch t, id) ∈ known.

Lemma step_known t evs t' known :
  step_ok t evs t' -> known_issued t known -> known_issued t' (known ++ issues evs).
Proof.
  intros Hs Hk id Hv. apply elem_of_app. pose proof (slot_index_nonneg id) as H0.
  destruct Hs as [(He & Ha & _) | (_ & _ & Hn)];
    [| specialize (Hn _ H0); by rewrite Hv in Hn].
  destruct (Ha _ H0) as [_ Ho]. rewrite Hv in Ho.
  destruct (Ho eq_refl) as [Hold | (id' & Hin & Hs' & Hg)].
  - left. rewrite He. by apply Hk.
  - right. apply elem_of_issues. simpl. rewrite He.
    assert (id = id') as -> by (apply ReqId_ext; simpl in *; congruence). done.
Qed.

Lemma run_ops_known ops : forall t t' evs known,
  table_inv t -> Forall op_ok ops -> run_ops t ops = (t', evs) -> known_issued t known ->
  forall x, x ∈ captures evs -> x ∈ known ++ issues evs.
Proof.
  induction ops as [| a ops IH]; intros t t' evs known Hi Hf Hr Hk x Hx; simpl in Hr.
  { simplify_eq. by apply not_elem_of_nil in Hx. }
  apply list.Forall_cons in Hf as [Ha Hf].
  destruct (run_op t a) as [t1 evs1] eqn:E1. destruct (run_ops t1 ops) as [t2 evs2] eqn:E2.
  simplify_eq. pose proof (run_op_trans _ _ _ _ Hi Ha E1) as Htr.
  pose proof (trans_step_ok _ _ _ Hi Htr) as Hs. pose proof (step_known _ _ _ _ Hs Hk) as Hk1.
  unfold issues, captures in *. rewrite omap_app, assoc_L by apply _.
  rewrite omap_app in Hx. apply elem_of_app in Hx as [Hx | Hx].
  - apply elem_of_app. left. apply elem_of_app. left.
    destruct Hs as [(_ & _ & Hev) | (_ & -> & _)]; [| by apply not_elem_of_nil in Hx].
    apply elem_of_captures in Hx. apply (proj1 (list.Forall_forall _ _) Hev) in Hx as (Hx & Hv & _).
    destruct x as [e id]. simpl in *. subst e. by apply Hk.
  - by eapply (IH t1); [eapply trans_inv | | | |].
Qed.
End Identity.

(** ** Ownership *)

Section Ownership.
Context {S C : Type} `{CompletionSink S}.
Abbreviation table := (RequestTable S C).
Implicit Types (t : table).

Definition slot_sink (st : ApplicationSlotState S) : option S :=
  match st with AppLive l => Some (pending_sink (lv_pending l)) | _ => None end.
Definition slot_continuation (st : ControlSlotState C) : option C :=
  match st with CtlOccupied o => Some (oc_continuation o) | _ => None end.

(** The sinks and continuations the table holds. *)
Definition held_sinks t : list S := omap slot_sink (application t).
Definition held_continuations t : list C := omap slot_continuation (system t ++ [global t]).

Definition admitted (evs : list (event S C)) : list S :=
  omap (fun ev => match ev with EvAdmit s => Some s | _ => None end) evs.
Definition handed_back (evs : list (event S C)) : list S :=
  omap (fun ev => match ev with EvTerminal s => Some s | _ => None end) evs.
Definition admitted_ctl (evs : list (event S C)) : list C :=
  omap (fun ev => match ev with EvAdmitCtl c => Some c | _ => None end) evs.
Definition handed_back_ctl (evs : list (event S C)) : list C :=
  omap (fun ev => match ev with EvTerminalCtl c => Some c | _ => None end) evs.

Definition opt_list {A} (x : option A) : list A := match x with Some a => [a] | None => [] end.

Lemma omap_insert {A B} (f : A -> option B) (l : list A) : forall i old new,
  l !! i = Some old ->
  omap f (<[i := new]> l) ++ opt_list (f old) ≡ₚ omap f l ++ opt_list (f new).
Proof.
  induction l as [| x l IH]; intros i old new Hi; [done |]. destruct i as [| i]; simplify_eq/=.
  - destruct (f old), (f new); simpl; rewrite ?app_nil_r; try done;
      rewrite <- ?Permutation_middle, ?app_nil_r; try done. apply perm_swap.
  - specialize (IH i old new Hi). destruct (f x); simpl; [by constructor | done].
Qed.

Lemma held_set_app t i old new :
  app_slot t i = Some old ->
  held_sinks (set_app i new t) ++ opt_list (slot_sink old)
  ≡ₚ held_sinks t ++ opt_list (slot_sink new).
Proof. exact (omap_insert slot_sink (application t) (Z.to_nat i) old new). Qed.

Lemma held_set_ctl t st old new :
  control_slot t st = Some old ->
  held_continuations (set_ctl st new t) ++ opt_list (slot_continuation old)
  ≡ₚ held_continuations t ++ opt_list (slot_continuation new).
Proof.
  unfold held_continuations. destruct st as [i b | i]; simpl; intros Hs.
  - rewrite <- insert_app_l by (by eapply lookup_lt_Some).
    apply omap_insert. by apply lookup_app_l_Some.
  - simplify_eq. rewrite !omap_app. simpl.
    destruct (slot_continuation (global t)), (slot_continuation new); simpl;
      rewrite ?app_nil_r, <- ?(assoc_L (++)); try done.
    apply Permutation_app_head. simpl. apply perm_swap.
Qed.

(** One step keeps the balance of both kinds of ownership. *)
Definition balanced t (evs : list (event S C)) t' : Prop :=
  held_sinks t' ++ handed_back evs ≡ₚ held_sinks t ++ admitted evs /\
  held_continuations t' ++ handed_back_ctl evs ≡ₚ held_continuations t ++ admitted_ctl evs.

Lemma capture_event_silent e id w :
  admitted (capture_event (S := S) (C := C) e id w) = [] /\
  handed_back (capture_event (S := S) (C := C) e id w) = [] /\
  admitted_ctl (capture_event (S := S) (C := C) e id w) = [] /\
  handed_back_ctl (capture_event (S := S) (C := C) e id w) = [].
Proof. by destruct w. Qed.

Lemma live_move_silent e i (l : LiveApplication S) (evs : list (event S C)) l' :
  live_move e i l evs l' ->
  slot_sink (AppLive l') = slot_sink (AppLive l) /\ admitted evs = [] /\ handed_back evs = [] /\
  admitted_ctl evs = [] /\ handed_back_ctl evs = [].
Proof. destruct 1; simpl; try done. by destruct (capture_event_silent e (lv_req_id l) w). Qed.

Lemma occupied_move_silent e i (o : OccupiedControl C) (evs : list (event S C)) o' :
  occupied_move e i o evs o' ->
  slot_continuation (CtlOccupied o') = slot_continuation (CtlOccupied o) /\ admitted evs = [] /\
  handed_back evs = [] /\ admitted_ctl evs = [] /\ handed_back_ctl evs = [].
Proof. destruct 1; simpl; try done. by destruct (capture_event_silent e (oc_req_id o) w). Qed.

Lemma rebind_held t app head :
  table_inv t ->
  rebind_applications (length (application t)) (application t) None = (app, head) ->
  omap slot_sink app = held_sinks t.
Proof.
  intros Hi Hr. destruct (rebind_post_of t app head Hi Hr) as (Hlen & _ & _ & Hreb).
  unfold held_sinks.
  assert (Hpt : forall j st st', application t !! j = Some st -> app !! j = Some st' ->
    slot_sink st' = slot_sink st).
  { intros j st st' Hj Hj'. destruct (Hreb j st Hj) as (st2 & Hst2 & Hb).
    { by eapply lookup_lt_Some. }
    assert (st2 = st') as -> by congruence.
    destruct st; simpl in Hb; first [by subst | by destruct Hb as [? ->]]. }
  clear Hreb Hr Hi. revert Hlen Hpt. generalize (application t) as l. clear t.
  induction app as [| x app IH]; intros [| y l] Hlen Hpt; try done; simpl.
  rewrite (Hpt 0%nat y x eq_refl eq_refl).
  assert (omap slot_sink app = omap slot_sink l) as Hrec.
  { apply IH; [simpl in Hlen; lia |]. intros j st st' Hj Hj'. by apply (Hpt (Datatypes.S j)). }
  destruct (slot_sink y); [f_equal |]; exact Hrec.
Qed.

Lemma rebind_held_ctl t :
  omap slot_continuation (rebind_control <$> (system t ++ [global t])) = held_continuations t.
Proof.
  unfold held_continuations. induction (system t ++ [global t]) as [| s l IH]; [done |].
  destruct s; simpl; try exact IH. f_equal. exact IH.
Qed.

Lemma trans_balanced t evs t' : table_inv t -> trans t evs t' -> balanced t evs t'.
Proof.
  intros Hi Ht. unfold balanced.
  destruct Ht as [b | m Hm | i n g id p owner Hm Hh H0 Hs Hn l0 | b i l evs l' H0 Hs Hmv
    | i l H0 Hs | i be bg e id g H0 Hs Hg | i be bg id H0 Hs Hg
    | st lane g id p c Hm Hst Hs Hl Hn o0 | b st o evs o' Hst Hs Hmv | st o k Hst Hs
    | b st lane be bg e id k s' Hst Hs Hg | app head Hm He Ha Hc Hr].
  - by destruct b.
  - done.
  - split; [| done]. pose proof (held_set_app t i _ (AppLive l0) Hs) as Hp. exact Hp.
  - destruct (live_move_silent _ _ _ _ _ Hmv) as (He & -> & -> & -> & ->).
    pose proof (held_set_app t i _ (AppLive l') Hs) as Hp. rewrite He in Hp.
    apply Permutation_app_inv_r in Hp. destruct b; rewrite !app_nil_r; done.
  - split; [| done]. pose proof (held_set_app t i _ (AppTerminalizing (lv_birth_session_epoch l)
      (lv_birth_generation l) (session_epoch t) (lv_req_id l)) Hs) as Hp. exact Hp.
  - split; [| done]. pose proof (held_set_app t i _ (AppFree (free_head t) g) Hs) as Hp. exact Hp.
  - split; [| done].
    pose proof (held_set_app t i _ (AppRetired (ReqId_generation id)) Hs) as Hp. exact Hp.
  - split; [by destruct st |]. exact (held_set_ctl t st _ (CtlOccupied o0) Hs).
  - destruct (occupied_move_silent _ _ _ _ _ Hmv) as (He & -> & -> & -> & ->).
    pose proof (held_set_ctl t st _ (CtlOccupied o') Hs) as Hp. rewrite He in Hp.
    apply Permutation_app_inv_r in Hp. rewrite !app_nil_r. split; [by destruct b, st |].
    by destruct b.
  - split; [by destruct st |]. exact (held_set_ctl t st _ _ Hs).
  - assert (slot_continuation s' = None) as Hn.
    { destruct (e =? session_epoch t); subst s'; [by case_match | done]. }
    pose proof (held_set_ctl t st _ s' Hs) as Hp. rewrite Hn in Hp. simpl in Hp.
    split; [by destruct b, st |]. by destruct b.
  - split; simpl; rewrite !app_nil_r.
    + by rewrite <- (rebind_held t app head Hi Hr).
    + rewrite <- (rebind_held_ctl t). unfold held_continuations. simpl.
      by rewrite fmap_app.
Qed.

Lemma run_ops_balanced ops : forall t t' evs,
  table_inv t -> Forall op_ok ops -> run_ops t ops = (t', evs) -> balanced t evs t'.
Proof.
  induction ops as [| a ops IH]; intros t t' evs Hi Hf Hr; simpl in Hr.
  { simplify_eq. done. }
  apply list.Forall_cons in Hf as [Ha Hf].
  destruct (run_op t a) as [t1 evs1] eqn:E1. destruct (run_ops t1 ops) as [t2 evs2] eqn:E2.
  simplify_eq. pose proof (run_op_trans _ _ _ _ Hi Ha E1) as Htr.
  destruct (trans_balanced _ _ _ Hi Htr) as [Hb1 Hc1].
  destruct (IH t1 _ _ (trans_inv _ _ _ Hi Htr) Hf E2) as [Hb2 Hc2].
  unfold balanced, handed_back, admitted, handed_back_ctl, admitted_ctl in *.
  rewrite !omap_app. split.
  - rewrite (Permutation_app_comm (omap _ evs1) (omap _ evs2)), (assoc_L (++)), Hb2.
    rewrite <- !(assoc_L (++)), (Permutation_app_comm (omap _ evs2)), !(assoc_L (++)).
    by rewrite Hb1.
  - rewrite (Permutation_app_comm (omap _ evs1) (omap _ evs2)), (assoc_L (++)), Hc2.
    rewrite <- !(assoc_L (++)), (Permutation_app_comm (omap _ evs2)), !(assoc_L (++)).
    by rewrite Hc1.
Qed.
End Ownership.

Lemma omap_none {A B} (f : A -> option B) (l : list A) :
  (forall x, x ∈ l -> f x = None) -> omap f l = [].
Proof.
  induction l as [| x l IH]; intros Hn; [done |]. simpl. rewrite (Hn x) by (by left).
  apply IH. intros y Hy. apply Hn. by right.
Qed.

Section Theorems.
Context {S C : Type} `{CompletionSink S}.
Abbreviation table := (RequestTable S C).
Implicit Types (t : table).

Lemma fresh_known t : fresh_table t -> known_issued t [].
Proof.
  intros Hf id Hv. destruct (fresh_shape t Hf) as [Ha Hc]. exfalso. unfold view in Hv.
  repeat case_match.
  - rewrite (Hc (global t)) in Hv; [done |]. apply elem_of_app. right. by left.
  - destruct (system t !! _) as [st |] eqn:Hs; simpl in Hv; [| done].
    rewrite (Hc st) in Hv; [done |]. apply elem_of_app. left. by eapply list_elem_of_lookup_2.
  - destruct (application t !! _) as [st |] eqn:Hs; simpl in Hv; [| done].
    by destruct (Ha _ _ Hs) as [n ->].
Qed.

Lemma fresh_empty t : fresh_table t -> held_sinks t = [] /\ held_continuations t = [].
Proof.
  intros Hf. destruct (fresh_shape t Hf) as [Ha Hc]. split; apply omap_none.
  - intros st Hst. apply list_elem_of_lookup in Hst as [i Hi]. by destruct (Ha _ _ Hi) as [n ->].
  - intros st Hst. by rewrite (Hc st Hst).
Qed.

(** ** Keys *)

Definition born_of (l : LiveApplication S) (key : ApplicationKey) : Prop :=
  lv_birth_session_epoch l = ak_birth_session_epoch key /\
  lv_birth_generation l = ak_birth_generation key.

(** The key's request is over: its birth lies in the past of its slot, and the
    slot does not hold it. *)
Definition spent t (key : ApplicationKey) : Prop :=
  (ak_birth_session_epoch key < session_epoch t \/
   (ak_birth_session_epoch key = session_epoch t /\
    ak_birth_generation key <= (view t (ak_slot_index key)).1)) /\
  forall l, app_slot t (ak_slot_index key) = Some (AppLive l) -> ~ born_of l key.

Lemma validate_live t key :
  table_inv t -> key_ok key -> ak_table_id key = table_id t ->
  (exists l, app_slot t (ak_slot_index key) = Some (AppLive l) /\ born_of l key) <->
  exists i, validate_application_key t key = Ok i.
Proof.
  intros Hi Hk Hid. split.
  - intros (l & Hs & [Hb Hg]). unfold validate_application_key.
    destruct (app_slot_lt t _ _ Hi Hk Hs) as (Hlt & _ & _).
    rewrite Hid, Z.eqb_refl, (proj2 (is_application_index_spec t _ Hi Hk) Hlt), Hs, Hb, Hg.
    rewrite !Z.eqb_refl. simpl. eauto.
  - intros (i & Hv). apply validate_application_key_Ok in Hv as (-> & l & Hs & Hb & Hg).
    exists l. done.
Qed.

(** Where a live slot comes from. *)
Lemma live_origin t evs t' i l' :
  table_inv t -> trans t evs t' -> 0 <= i -> app_slot t' i = Some (AppLive l') ->
  (exists l, app_slot t i = Some (AppLive l) /\
     lv_birth_session_epoch l = lv_birth_session_epoch l' /\
     lv_birth_generation l = lv_birth_generation l') \/
  (lv_birth_session_epoch l' = session_epoch t /\ (view t i).1 < lv_birth_generation l').
Proof.
  intros Hi Ht H0.
  assert (Hset : forall j st, 0 <= j -> (forall x, st <> AppLive x) ->
    app_slot (set_app j st t) i = Some (AppLive l') -> app_slot t i = Some (AppLive l')).
  { unfold app_slot. intros j st Hj Hst Hl. simpl in Hl.
    apply list_lookup_insert_Some in Hl as [(_ & -> & _) | [_ Hl]]; [by destruct (Hst l') | done]. }
  destruct Ht as [b | m Hm | j n g id p owner Hm Hh Hj Hs Hn l0 | b j l evs l1 Hj Hs Hmv
    | j l Hj Hs | j be bg e id g Hj Hs Hg | j be bg id Hj Hs Hg
    | st lane g id p c Hm Hst Hs Hl Hn o0 | b st o evs o' Hst Hs Hmv | st o k Hst Hs
    | b st lane be bg e id k s' Hst Hs Hg | app head Hm He Ha Hc Hr]; intros Hl'.
  - left. exists l'. by destruct b.
  - left. by exists l'.
  - unfold app_slot in Hl'. simpl in Hl'.
    apply list_lookup_insert_Some in Hl' as [(Hij & Hl' & _) | [_ Hl']]; [| left; by exists l'].
    right. injection Hl' as <-. assert (j = i) as -> by lia.
    rewrite (view_app t i _ Hi H0 Hs). simpl. split; [done | lia].
  - left. assert (Hl2 : app_slot (set_app j (AppLive l1) t) i = Some (AppLive l'))
      by (by destruct b). unfold app_slot in Hl2. simpl in Hl2.
    apply list_lookup_insert_Some in Hl2 as [(Hij & Hl2 & _) | [_ Hl2]]; [| by exists l'].
    injection Hl2 as <-. assert (j = i) as -> by lia. exists l.
    split; [done |]. by destruct Hmv.
  - left. exists l'. split; [| done]. revert Hl'. by apply Hset.
  - left. exists l'. split; [| done]. revert Hl'. by apply (Hset j (AppFree (free_head t) g)).
  - left. exists l'. split; [| done]. revert Hl'. by apply (Hset j (AppRetired (ReqId_generation id))).
  - left. exists l'. by destruct st.
  - left. exists l'. by destruct b, st.
  - left. exists l'. by destruct st.
  - left. exists l'. by destruct b, st.
  - left. destruct (rebind_post_of t app head Hi Hr) as (Hlen & _ & _ & Hreb).
    unfold app_slot in *. simpl in Hl'. pose proof (lookup_lt_Some _ _ _ Hl').
    destruct (lookup_lt_is_Some_2 (application t) (Z.to_nat i) ltac:(lia)) as [st0 Hst].
    destruct (Hreb _ st0 Hst ltac:(lia)) as (st2 & Hst2 & Hb).
    assert (st2 = AppLive l') as -> by congruence.
    destruct st0 as [| | | | l]; simpl in Hb; try done; try (destruct Hb; done).
    injection Hb as ->. by exists l.
Qed.

Lemma trans_frame t evs t' : trans t evs t' -> table_id t' = table_id t /\ topology t' = topology t.
Proof.
  intros Ht. destruct Ht;
    repeat match goal with b : bool |- _ => destruct b | st : ControlStorage |- _ => destruct st end;
    done.
Qed.

Lemma spent_trans t evs t' key :
  table_inv t -> key_ok key -> trans t evs t' -> spent t key -> spent t' key.
Proof.
  intros Hi Hk Ht [Hpast Hno]. pose proof (trans_step_ok _ _ _ Hi Ht) as Hs. split.
  - destruct Hs as [(He & Ha & _) | (He & _)]; [| lia].
    destruct (Ha _ Hk) as [[? | [? _]] _]; lia.
  - intros l Hl [Hb Hg]. destruct (live_origin _ _ _ _ _ Hi Ht Hk Hl)
      as [(l0 & Hl0 & Hb0 & Hg0) | [Hb0 Hg0]].
    + apply (Hno l0 Hl0). split; congruence.
    + lia.
Qed.

Lemma spent_run ops : forall t t' evs key,
  table_inv t -> key_ok key -> Forall op_ok ops -> run_ops t ops = (t', evs) ->
  spent t key -> spent t' key.
Proof.
  induction ops as [| a ops IH]; intros t t' evs key Hi Hk Hf Hr Hd; simpl in Hr; [by simplify_eq |].
  apply list.Forall_cons in Hf as [Ha Hf].
  destruct (run_op t a) as [t1 evs1] eqn:E1. destruct (run_ops t1 ops) as [t2 evs2] eqn:E2.
  simplify_eq. pose proof (run_op_trans _ _ _ _ Hi Ha E1) as Htr.
  eapply (IH t1); [by eapply trans_inv | done | done | done |]. by eapply spent_trans.
Qed.
End Theorems.

(** ** Draining *)

Section Drain.
Context {S C : Type} `{CompletionSink S}.
Abbreviation table := (RequestTable S C).
Implicit Types (t : table).

(** The client loop: drain applications until the table yields no more, at most
    [fuel] times; the sinks in the order they came out and the final answer. *)
Fixpoint drain_applications (fuel : nat) t : table * list S * result DrainError bool :=
  match fuel with
  | O => (t, [], Ok false)
  | Datatypes.S fuel =>
      match drain_next_application t with
      | (t', Ok (Some terminal)) =>
          let '(t2, sinks, r) := drain_applications fuel t' in
          (t2, pending_sink (ta_pending terminal) :: sinks, r)
      | (t', Ok None) => (t', [], Ok true)
      | (t', Err e) => (t', [], Err e)
      end
  end.

Definition drainable_sink (st : ApplicationSlotState S) : option S :=
  match st with
  | AppLive l => if is_capture_state (lv_wire_state l) then None else Some (pending_sink (lv_pending l))
  | _ => None
  end.
Definition held_by_capture (st : ApplicationSlotState S) : bool :=
  match st with AppLive l => is_capture_state (lv_wire_state l) | _ => false end.

Lemma find_drainable_some (app : list (ApplicationSlotState S)) : forall k u i l b,
  Z.of_nat (k + length app) <= u32_max -> find_drainable k app u = (Some (i, l), b) -> forall st,
  drainable_sink st = None -> held_by_capture st = false ->
  omap drainable_sink app
    = pending_sink (lv_pending l) :: omap drainable_sink (<[(i - k)%nat := st]> app) /\
  existsb held_by_capture (<[(i - k)%nat := st]> app) = existsb held_by_capture app.
Proof.
  induction app as [| x app IH]; intros k u i l b Hlen Hf st Hd Hh; simpl in Hf; [done |].
  rewrite length_cons in Hlen.
  assert (Hrec : forall u', find_drainable (Datatypes.S k) app u' = (Some (i, l), b) ->
    (Datatypes.S k <= i)%nat /\ _) by (intros u' Hr; split;
      [by destruct (find_drainable_spec _ _ _ _ _ _ Hr) | exact (IH (Datatypes.S k) u' i l b ltac:(lia) Hr st Hd Hh)]).
  assert (Hcons : drainable_sink x = None -> forall u',
    find_drainable (Datatypes.S k) app u' = (Some (i, l), b) ->
    omap drainable_sink (x :: app)
      = pending_sink (lv_pending l) :: omap drainable_sink (<[(i - k)%nat := st]> (x :: app)) /\
    existsb held_by_capture (<[(i - k)%nat := st]> (x :: app))
      = existsb held_by_capture (x :: app)).
  { intros Hx u' Hr. destruct (Hrec u' Hr) as (Hle & Ho & He).
    replace (i - k)%nat with (Datatypes.S (i - Datatypes.S k)) by lia. simpl. rewrite Hx, He.
    done. }
  destruct x as [| | | | l0]; try (by eapply Hcons).
  destruct (is_capture_state (lv_wire_state l0)) eqn:Hw.
  - eapply Hcons; [| done]. simpl. by rewrite Hw.
  - rewrite (proj2 (Z.ltb_ge _ _)) in Hf by lia. simplify_eq. rewrite Nat.sub_diag. simpl.
    by rewrite Hw, Hd, Hh.
Qed.

Lemma find_drainable_none (app : list (ApplicationSlotState S)) : forall k u b,
  Z.of_nat (k + length app) <= u32_max -> find_drainable k app u = (None, b) ->
  omap drainable_sink app = [] /\ b = u || existsb held_by_capture app.
Proof.
  induction app as [| x app IH]; intros k u b Hlen Hf; simpl in Hf.
  { simplify_eq. by rewrite orb_false_r. }
  rewrite length_cons in Hlen.
  assert (Hrec : forall u', find_drainable (Datatypes.S k) app u' = (None, b) -> _)
    by (intros u' Hr; exact (IH (Datatypes.S k) u' b ltac:(lia) Hr)).
  destruct x as [| | | | l0]; simpl; try (by apply Hrec).
  destruct (is_capture_state (lv_wire_state l0)).
  - destruct (Hrec _ Hf) as [? ->]. split; [done |]. by rewrite orb_true_r.
  - by rewrite (proj2 (Z.ltb_ge _ _)) in Hf by lia.
Qed.

Lemma drain_applications_spec fuel : forall t,
  Z.of_nat (length (application t)) <= u32_max -> mode t = Draining ->
  (length (omap drainable_sink (application t)) < fuel)%nat ->
  let '(t', sinks, r) := drain_applications fuel t in
  sinks = omap drainable_sink (application t) /\ omap drainable_sink (application t') = [] /\
  r = (if existsb held_by_capture (application t) then Err DrUnresolvedCapture else Ok true).
Proof.
  induction fuel as [| fuel IH]; intros t Hlen Hm Hfuel; [lia |]. simpl.
  unfold drain_next_application. rewrite Hm. simpl.
  destruct (find_drainable 0 (application t) false) as [[[i l] |] u] eqn:Hf.
  - simpl. destruct (find_drainable_some _ 0 _ _ _ _ Hlen Hf
      (AppTerminalizing (lv_birth_session_epoch l) (lv_birth_generation l) (session_epoch t)
         (lv_req_id l)) eq_refl eq_refl) as [Ho He].
    rewrite Nat.sub_0_r in *.
    specialize (IH (set_app (Z.of_nat i) (AppTerminalizing (lv_birth_session_epoch l)
      (lv_birth_generation l) (session_epoch t) (lv_req_id l)) t)).
    simpl in IH. rewrite Nat2Z.id, length_insert in IH.
    rewrite Ho in Hfuel |- *. simpl in Hfuel. specialize (IH Hlen Hm ltac:(lia)).
    destruct (drain_applications fuel _) as [[t2 sinks] r]. destruct IH as (-> & Hn & ->).
    by rewrite He.
  - destruct (find_drainable_none _ 0 _ _ Hlen Hf) as [Ho ->]. simpl. rewrite Ho.
    by destruct (existsb _ _).
Qed.
End Drain.

(** ** The theorems *)

(** C5: invariant: every sequence of operations on a fresh table, with
    any arguments, keeps the table well formed: the free list threads exactly the
    free slots without repetition, the retired count is right, every live or
    terminalizing slot carries a request id of its own index, and no free slot has
    an exhausted generation. *)
Theorem reqtab_invariant (S C : Type) (sink : CompletionSink S) (t : RequestTable S C) ops :
  fresh_table t -> Forall op_ok ops -> table_inv (fst (run_ops t ops)).
Proof.
  intros Hf Ho. destruct (run_ops t ops) as [t' evs] eqn:E.
  eapply run_ops_inv; [by apply fresh_table_inv | done | done].
Qed.

(** C1: safety: over every sequence of operations on a fresh table, no
    (session epoch, request id) pair is issued twice, none is captured twice, and
    only issued ones are captured. *)
Theorem reqtab_ids_once (S C : Type) (sink : CompletionSink S) (t : RequestTable S C) ops :
  fresh_table t -> Forall op_ok ops ->
  let evs := snd (run_ops t ops) in
  NoDup (issues evs) /\ NoDup (captures evs) /\ forall x, x ∈ captures evs -> x ∈ issues evs.
Proof.
  intros Hf Ho. destruct (run_ops t ops) as [t' evs] eqn:E. simpl.
  destruct (run_ops_fresh ops t t' evs (fresh_table_inv t Hf) Ho E) as (Hi & _ & Hc & _).
  split_and!; [done | done |]. intros x Hx.
  exact (run_ops_known ops t t' evs [] (fresh_table_inv t Hf) Ho E (fresh_known t Hf) x Hx).
Qed.

(** C2: safety: ownership is conserved. Over every sequence of
    operations on a fresh table, the completion sinks accepted are, as a multiset,
    the ones still held plus the ones handed back for completion, and likewise the
    control continuations: none is lost and none is handed back twice. *)
Theorem reqtab_ownership (S C : Type) (sink : CompletionSink S) (t : RequestTable S C) ops :
  fresh_table t -> Forall op_ok ops ->
  let '(t', evs) := run_ops t ops in
  admitted evs ≡ₚ held_sinks t' ++ handed_back evs /\
  admitted_ctl evs ≡ₚ held_continuations t' ++ handed_back_ctl evs.
Proof.
  intros Hf Ho. destruct (run_ops t ops) as [t' evs] eqn:E.
  destruct (run_ops_balanced ops t t' evs (fresh_table_inv t Hf) Ho E) as [Hb Hc].
  destruct (fresh_empty t Hf) as [He1 He2]. rewrite He1 in Hb. rewrite He2 in Hc.
  by split; symmetry.
Qed.

(** C14: safety: a key never comes back to life. If an operation makes
    a valid key invalid, no later sequence of operations, across any number of
    sessions and reuses of the slot, makes the table accept it again. *)
Theorem reqtab_keys_stay_dead (S C : Type) (sink : CompletionSink S) (t : RequestTable S C)
    key i a ops :
  table_inv t -> key_ok key -> op_ok a -> Forall op_ok ops ->
  validate_application_key t key = Ok i ->
  is_ok (validate_application_key (fst (run_op t a)) key) = false ->
  is_ok (validate_application_key (fst (run_ops (fst (run_op t a)) ops)) key) = false.
Proof.
  intros Hi Hk Ha Ho Hv Hd. destruct (run_op t a) as [t1 evs1] eqn:E1. simpl in *.
  pose proof (run_op_trans _ _ _ _ Hi Ha E1) as Htr. pose proof (trans_inv _ _ _ Hi Htr) as Hi1.
  destruct (run_ops t1 ops) as [t2 evs2] eqn:E2. simpl.
  pose proof (run_ops_inv ops t1 t2 evs2 Hi1 Ho E2) as Hi2.
  assert (Hid : ak_table_id key = table_id t).
  { unfold validate_application_key in Hv. break_in Hv. by bools. }
  destruct (trans_frame _ _ _ Htr) as [Ht1 _].
  assert (Hsp : spent t1 key).
  { apply validate_application_key_Ok in Hv as (-> & l & Hs & Hb & Hg).
    destruct (app_slot_lt t _ _ Hi Hk Hs) as (_ & _ & _ & (Hbe & _ & Hbg)).
    pose proof (view_app t _ _ Hi Hk Hs) as Hview. split.
    - destruct (trans_step_ok _ _ _ Hi Htr) as [(He & Hadv & _) | (He & _)]; [| lia].
      destruct (Hadv _ Hk) as [Hav _]. rewrite Hview in Hav. simpl in Hav.
      destruct (Z.eq_dec (ak_birth_session_epoch key) (session_epoch t)) as [E | E]; [| lia].
      right. split; [congruence |]. destruct Hav as [? | [? _]]; simpl in *; lia.
    - intros l1 Hl1 Hborn.
      destruct (proj1 (validate_live t1 key Hi1 Hk ltac:(congruence))) as [j Hj]; [by exists l1 |].
      by rewrite Hj in Hd. }
  pose proof (spent_run ops t1 t2 evs2 key Hi1 Hk Ho E2 Hsp) as [_ Hno].
  destruct (validate_application_key t2 key) as [j |] eqn:Hj; [| done]. exfalso.
  apply validate_application_key_Ok in Hj as (-> & l & Hs & Hb & Hg).
  by apply (Hno l Hs).
Qed.

Lemma all_retired {S} (app : list (ApplicationSlotState S)) :
  count_retired app = Z.of_nat (length app) <-> forall i st, app !! i = Some st -> is_retired st = true.
Proof.
  induction app as [| x app IH]; [done |]. rewrite count_retired_cons, length_cons.
  pose proof (count_retired_le app). unfold retired_bit. split.
  - intros Hc i st Hi. destruct (is_retired x) eqn:Hx; [| lia].
    destruct i as [| i]; simpl in Hi; [congruence |]. by apply (proj1 IH ltac:(lia) i).
  - intros Ha. rewrite (Ha 0%nat x eq_refl).
    assert (count_retired app = Z.of_nat (length app)); [| lia].
    apply IH. intros i st Hi. by apply (Ha (Datatypes.S i)).
Qed.

(** C15: functional: admission of a well-formed table, on every
    branch. It succeeds exactly when the table is active and some slot is free,
    taking the head of the free list with the next generation of that slot; a
    refusal returns the owner, reports exhaustion exactly when every slot is
    retired and [Full] exactly when none is free but one is not retired, and
    leaves every slot as it was. *)
Theorem admit_application_exact (S C : Type) (sink : CompletionSink S) (t : RequestTable S C)
    p owner :
  table_inv t ->
  let '(t', r) := admit_application t p owner in
  match r with
  | Ok adm =>
      mode t = Active /\
      exists i n g, free_head t = Some i /\ app_slot t i = Some (AppFree n g) /\
        aa_req_id adm = (g + 1) * 2 ^ 24 + i /\
        aa_key adm = mkAppKey (table_id t) i (session_epoch t) (g + 1) /\
        validate_application_key t' (aa_key adm) = Ok i /\
        application t' = <[Z.to_nat i := AppLive (mkLive (owner_pending owner) p (session_epoch t)
          (g + 1) (aa_req_id adm) PreparedNotVisible false)]> (application t)
  | Err e =>
      pe_value e = owner /\ application t' = application t /\
      match pe_error e with
      | AdmissionTableNotActive => mode t <> Active
      | AdmissionFull => mode t = Active /\
          (forall i st, application t !! i = Some st -> is_free st = false) /\
          exists i st, application t !! i = Some st /\ is_retired st = false
      | AdmissionSessionGenerationExhausted => mode t = Active /\ needs_quiesce t' = true /\
          forall i st, application t !! i = Some st -> is_retired st = true
      end
  end.
Proof.
  intros Hi. unfold admit_application. destruct (ti_free _ Hi) as (fl & Hc & _ & Hall).
  destruct (bool_decide (mode t = Active)) eqn:Hm; simpl; bools; [| done].
  destruct (free_head t) as [i |] eqn:Hh.
  - destruct fl as [| j fl]; simpl in Hc; [done |]. destruct Hc as [Hj (n & g & Hs & _)].
    injection Hj as ->.
    assert (Hsl : app_slot t (Z.of_nat j) = Some (AppFree n g)) by (unfold app_slot; by rewrite Nat2Z.id).
    destruct (app_slot_lt t (Z.of_nat j) _ Hi ltac:(lia) Hsl) as (Hlt & Hmax & Hok). simpl in Hok.
    rewrite (proj2 (is_application_index_spec t (Z.of_nat j) Hi ltac:(lia)) Hlt), Hsl. simpl.
    assert (next_req_generation_v21 g = Ok (g + 1)) as -> by (apply next_req_generation_Ok; lia).
    assert (ReqId_try_new (g + 1) (Z.of_nat j) = Ok ((g + 1) * 2 ^ 24 + Z.of_nat j)) as ->
      by (apply ReqId_try_new_Ok; lia).
    split; [done |]. exists (Z.of_nat j), n, g. split_and!; try done.
    unfold validate_application_key. simpl.
    rewrite Z.eqb_refl, (proj2 (is_application_index_spec t (Z.of_nat j) Hi ltac:(lia)) Hlt).
    unfold app_slot. simpl. rewrite Nat2Z.id, list_lookup_insert_eq by (by eapply lookup_lt_Some).
    simpl. by rewrite !Z.eqb_refl.
  - destruct fl as [| j fl]; simpl in Hc; [| by destruct Hc].
    assert (Hnf : forall i st, application t !! i = Some st -> is_free st = false).
    { intros i st Hst. destruct (is_free st) eqn:Hf; [| done].
      by apply (Hall i st Hst), not_elem_of_nil in Hf. }
    pose proof (all_retired (application t)) as Hr.
    rewrite (ti_retired _ Hi), <- (ti_app_len _ Hi). destruct (Z.eqb_spec (count_retired (application t))
      (Z.of_nat (length (application t)))) as [He | He]; simpl.
    + split_and!; try done. by apply Hr.
    + split_and!; try done.
      destruct (existsb (fun st => negb (is_retired st)) (application t)) eqn:Hex.
      * apply existsb_exists in Hex as (st & Hin & Hst). apply list_elem_of_In in Hin.
        apply list_elem_of_lookup in Hin as [i Hst']. exists i, st. split; [done |]. by bools.
      * exfalso. apply He, Hr. intros i st Hst. apply not_true_iff_false in Hex.
        destruct (is_retired st) eqn:Hrs; [done |]. exfalso. apply Hex. apply existsb_exists.
        exists st. split; [| by rewrite Hrs]. apply list_elem_of_In. by eapply list_elem_of_lookup_2.
Qed.

(** C17: termination: in a draining table, calling
    [drain_next_application] once more than there are slots always reaches the
    end: it hands out, in slot order, the sink of every live request no capture
    holds, each exactly once, leaves none of them live, and ends with [None], or
    with [UnresolvedCapture] exactly when a capture still holds a request. *)
Theorem drain_applications_complete (S C : Type) (sink : CompletionSink S)
    (t : RequestTable S C) :
  table_inv t -> mode t = Draining ->
  let '(t', sinks, r) := drain_applications (length (application t) + 1) t in
  sinks = omap drainable_sink (application t) /\ omap drainable_sink (application t') = [] /\
  r = (if existsb held_by_capture (application t) then Err DrUnresolvedCapture else Ok true).
Proof.
  intros Hi Hm. apply drain_applications_spec; [| done |].
  - rewrite (ti_app_len _ Hi). pose proof (ti_inflight _ Hi). unfold MAX_INFLIGHT, u32_max in *. lia.
  - clear. assert (length (omap drainable_sink (application t)) <= length (application t))%nat; [| lia].
    induction (application t) as [| x l IH]; [done |]. cbn [omap list_omap].
    change (list_omap (ApplicationSlotState S) S drainable_sink l) with (omap drainable_sink l).
    destruct (drainable_sink x); rewrite ?length_cons; lia.
Qed.

(** C16: functional: a successful rebind opens exactly the next
    session: every live request survives under the same key with its owner, every
    key answers as before, nothing is visible, every free or retired slot is free
    again at generation zero, no control lane is occupied, and captures that name
    the old session are refused. *)
Theorem rebind_session_exact (S C : Type) (sink : CompletionSink S) (t t' : RequestTable S C)
    e topo :
  table_inv t -> rebind_session t e topo = (t', Ok tt) ->
  table_inv t' /\ session_epoch t' = session_epoch t + 1 /\ session_epoch t' = e /\
  mode t' = Active /\ needs_quiesce t' = false /\ application_retired t' = 0 /\
  held_sinks t' = held_sinks t /\ held_continuations t' = [] /\
  (forall idx, 0 <= idx -> (view t' idx).2 = false) /\
  (forall key, key_ok key -> validate_application_key t' key = validate_application_key t key) /\
  (forall kind id, begin_capture t' (session_epoch t) kind id = (t', Err WrongSession)).
Proof.
  intros Hi Hr. destruct (run_op t (OpRebindSession e topo)) as [t0 evs] eqn:Hrun.
  pose proof (session_trans _ _ _ _ Hi Hrun) as Htr. simpl in Htr.
  pose proof (trans_inv _ _ _ Hi Htr) as Hi'.
  simpl in Hrun. unfold on_none in Hrun. rewrite Hr in Hrun. simplify_eq/=.
  unfold rebind_session in Hr. destruct (negb _) eqn:E0 in Hr; [done |].
  destruct (checked_add _ _ _) as [e' |] eqn:He in Hr; [| done]. simpl in Hr.
  apply checked_add_Some in He as [-> He].
  destruct (negb _) eqn:E1 in Hr; [done |]. destruct (negb _) eqn:E2 in Hr; [done |]. bools. subst.
  destruct (applications_resolved _) as [[] |] eqn:Ha in Hr; [| done].
  destruct (controls_resolved _) as [[] |] eqn:Hc in Hr; [| done].
  destruct (rebind_applications _ _ _) as [app head] eqn:Hrb in Hr.
  pose proof (rebind_not_capturable t app head Hi Ha Hc Hrb) as Hnc.
  pose proof (rebind_held t app head Hi Hrb) as Hh.
  destruct (rebind_post_of t app head Hi Hrb) as (Hlen & _ & _ & Hreb).
  simplify_eq. split_and!; try done.
  - unfold held_continuations; simpl.
    change [rebind_control (global t)] with (rebind_control <$> [global t]).
    rewrite <- fmap_app, (rebind_held_ctl t). apply omap_none. intros st Hst.
    pose proof (controls_resolved_spec _ Hc st Hst) as Hn. destruct st; try done.
    by destruct (Hn occupied).
  - intros key Hk. unfold validate_application_key. simpl.
    destruct (negb _); [done |]. destruct (negb _); [done |]. unfold app_slot. simpl.
    destruct (application t !! Z.to_nat (ak_slot_index key)) as [st |] eqn:Hs.
    + destruct (Hreb _ st Hs) as (st' & -> & Hb); [by eapply lookup_lt_Some |].
      destruct st; simpl in Hb; first [by subst | by destruct Hb as [? ->]].
    + assert (app !! Z.to_nat (ak_slot_index key) = None) as ->; [| done].
      apply lookup_ge_None. apply lookup_ge_None in Hs. lia.
  - intros kind id. unfold begin_capture. cbn [mode session_epoch].
    rewrite bool_decide_eq_false_2 by discriminate.
    rewrite (proj2 (Z.eqb_neq (session_epoch t) (session_epoch t + 1))) by lia. reflexivity.
Qed.

(** ** Witnesses *)

#[local] Instance nat_sink : CompletionSink nat :=
  {| sink_mark_pending := fun s => s; sink_complete := fun s _ _ => s |}.

(** A table with one ring and two application slots, in session 7. *)
Definition example_topology : RequestTopology := mkTopology 1 2.
Definition example_table : RequestTable nat nat :=
  mkTable 1 7 example_topology [AppFree (Some 1) 0; AppFree None 0]
    [CtlAvailable 0; CtlAvailable 0; CtlAvailable 0] (CtlAvailable 0) (Some 0) 0 Active false.

Lemma example_fresh : fresh_table example_table.
Proof.
  exists 1, 2, 1, 2, example_topology, 7, [AppPristine; AppPristine],
    [CtlPristine; CtlPristine; CtlPristine], CtlPristine.
  unfold is_u32, u32_max, u64_max. split_and!; try lia; vm_compute; reflexivity.
Qed.

Definition read_phase : ApplicationPhase := mkAppPhase op.READ CompletionOnly.
Definition first_id : ReqId := 2 ^ 24.
Definition first_key : ApplicationKey := mkAppKey 1 0 7 1.
Definition first_captured : CapturedApplication := mkCapturedApp 1 0 7 1 7 first_id.

(** One request admitted, published, captured and completed, then the slot
    reused. *)
Definition example_ops : list (table_op nat nat) :=
  [OpAdmitApplication read_phase (mkOwner 40%nat); OpMarkApplicationVisible first_key;
   OpBeginCapture 7 0 first_id; OpBeginCapture 7 0 first_id;
   OpInstallApplication (mkAppCapture 1 0 7 1 7 first_id op.READ);
   OpTerminalizeApplication first_captured;
   OpReclaimCompleted (mkCompletionReceipt 1 0 7 1 7 first_id);
   OpAdmitApplication read_phase (mkOwner 41%nat)].

Ltac ops_ok := repeat first [apply Forall_nil | apply Forall_cons; [simpl; unfold key_ok; simpl; first [exact I | lia] |]].

Lemma example_ops_ok : Forall op_ok example_ops.
Proof. unfold example_ops. ops_ok. Qed.

Lemma reqtab_invariant_witness : table_inv (fst (run_ops example_table example_ops)).
Proof.
  apply (reqtab_invariant nat nat nat_sink example_table example_ops);
    [apply example_fresh | apply example_ops_ok].
Defined.

Lemma reqtab_ids_once_witness :
  issues (snd (run_ops example_table example_ops)) = [(7, 2 ^ 24); (7, 2 * 2 ^ 24)] /\
  captures (snd (run_ops example_table example_ops)) = [(7, 2 ^ 24)] /\
  NoDup (issues (snd (run_ops example_table example_ops))).
Proof.
  split; [vm_compute; reflexivity |]. split; [vm_compute; reflexivity |].
  exact (proj1 (reqtab_ids_once nat nat nat_sink example_table example_ops example_fresh
    example_ops_ok)).
Defined.

Lemma reqtab_ownership_witness :
  let '(t', evs) := run_ops example_table example_ops in
  admitted evs = [40; 41]%nat /\ admitted evs ≡ₚ held_sinks t' ++ handed_back evs.
Proof.
  pose proof (reqtab_ownership nat nat nat_sink example_table example_ops example_fresh
    example_ops_ok) as Hw.
  assert (admitted (snd (run_ops example_table example_ops)) = [40; 41]%nat) as Ha
    by (vm_compute; reflexivity).
  destruct (run_ops example_table example_ops) as [t' evs]. exact (conj Ha (proj1 Hw)).
Defined.

(** The table with its first request captured. *)
Definition captured_table : RequestTable nat nat := fst (run_ops example_table (take 5 example_ops)).

Lemma captured_table_inv : table_inv captured_table.
Proof.
  unfold captured_table. destruct (run_ops example_table (take 5 example_ops)) as [t' evs] eqn:E.
  eapply run_ops_inv; [apply fresh_table_inv, example_fresh | | exact E].
  unfold example_ops. simpl. ops_ok.
Qed.

Lemma reqtab_keys_stay_dead_witness :
  is_ok (validate_application_key
    (fst (run_ops (fst (run_op captured_table (OpTerminalizeApplication first_captured)))
            [OpReclaimCompleted (mkCompletionReceipt 1 0 7 1 7 first_id);
             OpAdmitApplication read_phase (mkOwner 41%nat)])) first_key) = false.
Proof.
  apply (reqtab_keys_stay_dead nat nat nat_sink captured_table first_key 0
    (OpTerminalizeApplication first_captured)).
  - apply captured_table_inv.
  - unfold key_ok. simpl. lia.
  - exact I.
  - ops_ok.
  - vm_compute. reflexivity.
  - vm_compute. reflexivity.
Defined.

Lemma admit_application_exact_witness :
  exists adm, snd (admit_application example_table read_phase (mkOwner 40%nat)) = Ok adm /\
    aa_req_id adm = 2 ^ 24 /\ mode example_table = Active.
Proof.
  pose proof (admit_application_exact nat nat nat_sink example_table read_phase (mkOwner 40%nat)
    (fresh_table_inv _ example_fresh)) as Hw.
  exists (mkAppAdmission (mkAppKey 1 0 7 1) (2 ^ 24)).
  split; [vm_compute; reflexivity |]. split; [reflexivity |].
  replace (admit_application example_table read_phase (mkOwner 40%nat)) with
    (fst (admit_application example_table read_phase (mkOwner 40%nat)),
     Ok (E := PreservedError AdmissionError (CompletionOwner nat))
       (mkAppAdmission (mkAppKey 1 0 7 1) (2 ^ 24))) in Hw by (vm_compute; reflexivity).
  exact (proj1 Hw).
Defined.

(** Two live requests, one held by a capture, in a draining table. *)
Definition draining_table : RequestTable nat nat :=
  fst (run_ops captured_table
    [OpAdmitApplication read_phase (mkOwner 41%nat); OpBeginDrain]).

Lemma draining_table_inv : table_inv draining_table.
Proof.
  unfold draining_table.
  destruct (run_ops captured_table _) as [t' evs] eqn:E.
  eapply run_ops_inv; [apply captured_table_inv | | exact E]. ops_ok.
Qed.

Lemma drain_applications_complete_witness :
  let '(_, sinks, r) := drain_applications (length (application draining_table) + 1) draining_table in
  sinks = [41]%nat /\ r = Err DrUnresolvedCapture.
Proof.
  pose proof (drain_applications_complete nat nat nat_sink draining_table draining_table_inv
    ltac:(vm_compute; reflexivity)) as Hw.
  destruct (drain_applications _ draining_table) as [[t' sinks] r].
  destruct Hw as (Hs & _ & Hr). split; [rewrite Hs; vm_compute; reflexivity |].
  rewrite Hr. vm_compute. reflexivity.
Defined.

(** A fenced table whose one live request waits between phases. *)
Definition fenced_table : RequestTable nat nat :=
  fst (run_ops captured_table [OpRetainApplication first_captured; OpBeginFence]).

Lemma fenced_table_inv : table_inv fenced_table.
Proof.
  unfold fenced_table. destruct (run_ops captured_table _) as [t' evs] eqn:E.
  eapply run_ops_inv; [apply captured_table_inv | | exact E]. ops_ok.
Qed.

Lemma rebind_session_exact_witness :
  let t' := fst (rebind_session fenced_table 8 example_topology) in
  held_sinks t' = [40]%nat /\ session_epoch t' = 8 /\
  validate_application_key t' first_key = validate_application_key fenced_table first_key.
Proof.
  assert (Hr : rebind_session fenced_table 8 example_topology
    = (fst (rebind_session fenced_table 8 example_topology), Ok tt)) by (vm_compute; reflexivity).
  pose proof (rebind_session_exact nat nat nat_sink fenced_table
    (fst (rebind_session fenced_table 8 example_topology)) 8 example_topology fenced_table_inv Hr)
    as (_ & _ & He & _ & _ & _ & Hh & _ & _ & Hk & _).
  split; [rewrite Hh; vm_compute; reflexivity |]. split; [exact He |].
  apply Hk. unfold key_ok. simpl. lia.
Defined.
